(** * The MAVLink runtime emitted by [generator/mavgen_python.py]

    The generator writes a Python module whose text sits in the templates of
    [generate_preamble], [generate_classes] and [generate_mavlink_class].
    This development embeds that runtime (Python 3 behaviour): the header and
    message classes, [MAVLink_message.pack], [MAVLink.send],
    [MAVLink.check_signature], [MAVLink.decode] and the streaming parser
    [MAVLink.__parse_char_legacy], together with the build-time function
    [generate] that derives the per-message format, order map and length map.

    Bytes are integers of [Z]; a [bytes], [bytearray] or [array('B')] object
    is a [list Z].  A Python [float] is a binary64 number of the kernel
    ([PrimFloat.float]), which has one NaN: the sign and the payload of a NaN
    are not told apart. *)

From stdpp Require Import base option list gmap strings pretty.
From Stdlib Require Import ZArith Lia.
From Stdlib Require SpecFloat FloatOps.
From Stdlib Require Import PrimFloat.

Set Warnings "-register-all,-clear-no-such-hyp,-unused-intro-pattern".

Open Scope Z_scope.

(** ** Python sequences: indexing and slicing with negative positions *)

Module Py.

Definition len {A} (l : list A) : Z := Z.of_nat (length l).

(** Position of a slice bound [i] in a sequence of length [n]. *)
Definition bound (n i : Z) : Z :=
  if i <? 0 then Z.max 0 (n + i) else Z.min i n.

(** [l[lo:hi]]; [None] is an omitted bound. *)
Definition slice {A} (l : list A) (lo hi : option Z) : list A :=
  let n := len l in
  let a := match lo with Some i => bound n i | None => 0 end in
  let b := match hi with Some j => bound n j | None => n end in
  take (Z.to_nat (b - a)) (drop (Z.to_nat a) l).

(** [l[i]]; [None] stands for IndexError. *)
Definition index {A} (l : list A) (i : Z) : option A :=
  let n := len l in
  let j := if i <? 0 then n + i else i in
  if (0 <=? j) && (j <? n) then l !! Z.to_nat j else None.

(** [sum(l)] on a list of lengths. *)
Definition sum (l : list nat) : nat := foldr Nat.add 0%nat l.

End Py.

(** ** Exceptions *)

(** The [MAVError]s of the runtime, one constructor per raise site. *)
Inductive MAVError :=
| InvalidPrefix (magic : Z)
| InvalidIncompatFlags (incompat_flags magic : Z)
| UnableToUnpackHeader
| InvalidLength (got expected msgId headerlen : Z)
| UnableToUnpackCRC
| InvalidCRC (msgId crc crc2 : Z)
| InvalidSignature
| BadMessageLength (tname : string) (got needs : Z)
| UnableToUnpackPayload (tname : string)
| UnableToInstantiate (tname : string).

#[global] Instance MAVError_eq_dec : EqDecision MAVError.
Proof. solve_decision. Defined.

Inductive exn :=
| EMAVError (e : MAVError)
| EStructError
| EIndexError
| ETypeError
| EAttributeError
| EValueError
| EOverflowError
| EUnboundLocalError.

Inductive result (A : Type) :=
| Ok (a : A)
| Raise (e : exn).
Arguments Ok {A} a.
Arguments Raise {A} e.

Definition rbind {A B} (r : result A) (k : A → result B) : result B :=
  match r with Ok a => k a | Raise e => Raise e end.

Definition of_option {A} (e : exn) (o : option A) : result A :=
  match o with Some a => Ok a | None => Raise e end.

(** ** Python values held by message attributes *)

Inductive pyval :=
| PInt (z : Z)
| PFloat (x : float)
| PBytes (b : list Z)        (* bytes *)
| PByteArray (b : list Z)    (* bytearray, array('B') *)
| PStr (s : list Z)          (* str, as code points *)
| PList (l : list pyval)
| PError (e : MAVError).     (* the message text of a MAVError *)

(** ** Python floats *)

Module PyFloat.
Import SpecFloat.

(** The bit pattern of a number in the IEEE 754 interchange format with [mw]
    fraction bits and [ew] exponent bits (23 and 8 for binary32, 52 and 11
    for binary64); the NaN is the quiet NaN with an empty payload. *)
Definition bits (mw ew : Z) (x : spec_float) : Z :=
  let sign (s : bool) := if s then 2 ^ (mw + ew) else 0 in
  let emin := 3 - 2 ^ (ew - 1) - (mw + 1) in
  match x with
  | S754_zero s => sign s
  | S754_infinity s => sign s + (2 ^ ew - 1) * 2 ^ mw
  | S754_nan => (2 ^ ew - 1) * 2 ^ mw + 2 ^ (mw - 1)
  | S754_finite s m e =>
      if Z.pos m <? 2 ^ mw then sign s + Z.pos m
      else sign s + (e - emin + 1) * 2 ^ mw + (Z.pos m - 2 ^ mw)
  end.

(** The number with the bit pattern [b]. *)
Definition of_bits (mw ew : Z) (b : Z) : spec_float :=
  let emin := 3 - 2 ^ (ew - 1) - (mw + 1) in
  let s := Z.testbit b (mw + ew) in
  let ex := (b `div` 2 ^ mw) `mod` 2 ^ ew in
  let frac := b `mod` 2 ^ mw in
  if ex =? 0 then
    match frac with
    | Z.pos m => S754_finite s m emin
    | _ => S754_zero s
    end
  else if ex =? 2 ^ ew - 1 then
    if frac =? 0 then S754_infinity s else S754_nan
  else
    match frac + 2 ^ mw with
    | Z.pos m => S754_finite s m (ex - 1 + emin)
    | _ => S754_nan
    end.

(** [float(z)] on an int: the nearest binary64 number, ties to even; [None]
    stands for OverflowError. *)
Definition of_int (z : Z) : option float :=
  match binary_normalize 53 1024 z 0 false with
  | S754_infinity _ => None
  | x => Some (FloatOps.SF2Prim x)
  end.

(** The C conversion [(float)x] to binary32, ties to even; [None] when a
    finite number becomes an infinity. *)
Definition to_single (x : float) : option spec_float :=
  match FloatOps.Prim2SF x with
  | S754_finite s m e =>
      match binary_normalize 24 128 (if s then Z.neg m else Z.pos m) e s with
      | S754_infinity _ => None
      | y => Some y
      end
  | y => Some y
  end.

(** [z == x] for an int and a float: the comparison is exact. *)
Definition eq_int (z : Z) (x : float) : bool :=
  match FloatOps.Prim2SF x with
  | S754_zero _ => bool_decide (z = 0)
  | S754_finite s m e =>
      let m := if s then Z.neg m else Z.pos m in
      if 0 <=? e then bool_decide (z = m * 2 ^ e)
      else bool_decide (z * 2 ^ (- e) = m)
  | _ => false
  end.

End PyFloat.

(** [==] on the values above.  The items of two lists are compared as
    distinct objects: the shortcut by which Python takes an item to be equal
    to itself without comparing, which makes a list that holds a NaN equal
    to itself, has no counterpart here. *)
Fixpoint pyval_eqb (v w : pyval) : bool :=
  match v, w with
  | PInt a, PInt b => bool_decide (a = b)
  | PFloat a, PFloat b => PrimFloat.eqb a b
  | PInt a, PFloat b | PFloat b, PInt a => PyFloat.eq_int a b
  | PBytes a, PBytes b => bool_decide (a = b)
  | PByteArray a, PByteArray b => bool_decide (a = b)
  | PBytes a, PByteArray b | PByteArray a, PBytes b => bool_decide (a = b)
  | PStr a, PStr b => bool_decide (a = b)
  | PList a, PList b =>
      (fix go (xs ys : list pyval) : bool :=
         match xs, ys with
         | [], [] => true
         | x :: xs', y :: ys' => pyval_eqb x y && go xs' ys'
         | _, _ => false
         end) a b
  | PError a, PError b => bool_decide (a = b)
  | _, _ => false
  end.

(** ** The [struct] module on the formats that [mavfmt] writes *)

Module Struct.

Inductive byteorder := LittleEndian | BigEndian.

(** One value slot of a format: an integer of [w] bytes, a binary32 ([f]) or
    binary64 ([d]) number, a [c], or an [<n>s] byte string. *)
Inductive atom :=
| AInt (w : nat) (signed : bool)
| AFloat (double : bool)
| AChar
| AStr (n : nat).

Inductive code := Cf | Cd | Cc | Cs | Cb | CB | Ch | CH | Ci | CI | Cq | CQ.

Record item := Item { count : option nat; icode : code }.

Record format := Format { order : byteorder; items : list item }.

Definition code_atom (c : code) : atom :=
  match c with
  | Cf => AFloat false
  | Cd => AFloat true
  | Cc => AChar
  | Cs => AStr 1
  | Cb => AInt 1 true
  | CB => AInt 1 false
  | Ch => AInt 2 true
  | CH => AInt 2 false
  | Ci => AInt 4 true
  | CI => AInt 4 false
  | Cq => AInt 8 true
  | CQ => AInt 8 false
  end.

Definition item_atoms (i : item) : list atom :=
  match count i, icode i with
  | None, c => [code_atom c]
  | Some n, Cs => [AStr n]
  | Some n, c => replicate n (code_atom c)
  end.

Definition atoms (f : format) : list atom := concat (item_atoms <$> items f).

Definition atom_size (a : atom) : nat :=
  match a with
  | AInt w _ => w
  | AFloat double => if double then 8 else 4
  | AChar => 1
  | AStr n => n
  end.

(** [struct.calcsize]; the standard byte orders have no padding. *)
Definition size (f : format) : nat := Py.sum (atom_size <$> atoms f).

Fixpoint le_encode (w : nat) (z : Z) : list Z :=
  match w with
  | O => []
  | S w' => z `mod` 256 :: le_encode w' (z `div` 256)
  end.

Fixpoint le_decode (bs : list Z) : Z :=
  match bs with
  | [] => 0
  | b :: bs' => b + 256 * le_decode bs'
  end.

Definition in_range (w : nat) (signed : bool) (z : Z) : bool :=
  if signed
  then (- 2 ^ (8 * Z.of_nat w - 1) <=? z) && (z <? 2 ^ (8 * Z.of_nat w - 1))
  else (0 <=? z) && (z <? 2 ^ (8 * Z.of_nat w)).

Definition endian (o : byteorder) (bs : list Z) : list Z :=
  match o with LittleEndian => bs | BigEndian => reverse bs end.

Definition pack_int (o : byteorder) (w : nat) (signed : bool) (z : Z)
  : result (list Z) :=
  if in_range w signed z
  then Ok (endian o (le_encode w (z `mod` 2 ^ (8 * Z.of_nat w))))
  else Raise EStructError.

Definition unpack_int (o : byteorder) (w : nat) (signed : bool) (bs : list Z)
  : Z :=
  let u := le_decode (endian o bs) in
  if signed && (2 ^ (8 * Z.of_nat w - 1) <=? u)
  then u - 2 ^ (8 * Z.of_nat w) else u.

(** A float in the [d] or the [f] format; a finite number that is too large
    for binary32 raises OverflowError. *)
Definition pack_float (o : byteorder) (double : bool) (x : float)
  : result (list Z) :=
  if double
  then Ok (endian o (le_encode 8 (PyFloat.bits 52 11 (FloatOps.Prim2SF x))))
  else match PyFloat.to_single x with
       | Some y => Ok (endian o (le_encode 4 (PyFloat.bits 23 8 y)))
       | None => Raise EOverflowError
       end.

Definition unpack_float (o : byteorder) (double : bool) (bs : list Z)
  : float :=
  FloatOps.SF2Prim
    (if double then PyFloat.of_bits 52 11 (le_decode (endian o bs))
     else PyFloat.of_bits 23 8 (le_decode (endian o bs))).

(** One value in its slot.  An int in a float slot is converted to a float
    first; when that, or packing the result, overflows, [struct.error] is
    raised. *)
Definition pack_atom (o : byteorder) (a : atom) (v : pyval) : result (list Z) :=
  match a, v with
  | AInt w sg, PInt z => pack_int o w sg z
  | AFloat double, PFloat x => pack_float o double x
  | AFloat double, PInt z =>
      match PyFloat.of_int z with
      | Some x =>
          match pack_float o double x with
          | Ok bs => Ok bs
          | Raise _ => Raise EStructError
          end
      | None => Raise EStructError
      end
  | AChar, PBytes [b] => Ok [b]
  | AStr n, PBytes b | AStr n, PByteArray b =>
      Ok (take n b ++ replicate (n - length b) 0)
  | _, _ => Raise EStructError
  end.

Fixpoint pack_atoms (o : byteorder) (al : list atom) (vs : list pyval)
  : result (list Z) :=
  match al, vs with
  | [], [] => Ok []
  | a :: al', v :: vs' =>
      rbind (pack_atom o a v) (λ b,
      rbind (pack_atoms o al' vs') (λ bs, Ok (b ++ bs)))
  | _, _ => Raise EStructError
  end.

(** [struct.pack(f, *vs)] *)
Definition pack (f : format) (vs : list pyval) : result (list Z) :=
  pack_atoms (order f) (atoms f) vs.

Definition unpack_atom (o : byteorder) (a : atom) (bs : list Z) : pyval :=
  match a with
  | AInt w sg => PInt (unpack_int o w sg bs)
  | AFloat double => PFloat (unpack_float o double bs)
  | AChar => PBytes bs
  | AStr _ => PBytes bs
  end.

Fixpoint unpack_atoms (o : byteorder) (al : list atom) (bs : list Z)
  : list pyval :=
  match al with
  | [] => []
  | a :: al' =>
      unpack_atom o a (take (atom_size a) bs)
        :: unpack_atoms o al' (drop (atom_size a) bs)
  end.

(** [struct.Struct(f).unpack(bs)]: the buffer must have the exact size. *)
Definition unpack (f : format) (bs : list Z) : result (list pyval) :=
  if bool_decide (length bs = size f)
  then Ok (unpack_atoms (order f) (atoms f) bs)
  else Raise EStructError.

Definition B := Item None CB.
Definition H := Item None CH.
Definition I := Item None CI.
Definition Q := Item None CQ.
Definition c := Item None Cc.

End Struct.

(** ** Checksum *)

(** Modelled from the spec: the class [x25crc] of [pymavlink.generator.mavcrc],
    which the runtime imports and which is not part of the generator source.
    It is the X25 CRC over an accumulating 16-bit register initialised to
    0xFFFF. *)
Module x25crc.

Definition accumulate_byte (accum b : Z) : Z :=
  let tmp := Z.lxor b (Z.land accum 0xff) in
  let tmp := Z.land (Z.lxor tmp (Z.shiftl tmp 4)) 0xff in
  Z.lxor (Z.lxor (Z.lxor (Z.shiftr accum 8) (Z.shiftl tmp 8))
                 (Z.shiftl tmp 3))
         (Z.shiftr tmp 4).

Definition accumulate (crc : Z) (buf : list Z) : Z :=
  foldl accumulate_byte crc buf.

(** [x25crc(buf).crc] *)
Definition new (buf : list Z) : Z := accumulate 0xffff buf.

End x25crc.


(** ** Message definitions handed over by the XML parser *)

(** The attributes of [mavparse.MAVField] and [mavparse.MAVType] that the
    generator reads (the parser itself is a collaborator). *)
Inductive ftype :=
| T_float | T_double
| T_char | T_int8_t | T_uint8_t | T_uint8_t_mavlink_version
| T_int16_t | T_uint16_t | T_int32_t | T_uint32_t | T_int64_t | T_uint64_t.

#[global] Instance ftype_eq_dec : EqDecision ftype.
Proof. solve_decision. Defined.

Module Field.
Record t := mk { name : string; type : ftype; array_length : nat }.
End Field.

Module Def.
Record t := mk {
  name : string;                    (* m.name.upper() *)
  id : Z;
  fields : list Field.t;            (* declared order *)
  ordered_fields : list Field.t;    (* wire order *)
  fieldnames : list string;
  ordered_fieldnames : list string;
  fieldtypes : list ftype;
  fieldlengths : list nat;
  crc_extra : Z;
  extensions_start : option nat }.
End Def.

(** The attributes of the parsed XML that the templates substitute. *)
Module XML.
Record t := mk {
  wire_protocol_version : string;   (* ${WIRE_PROTOCOL_VERSION} *)
  protocol_marker : Z;              (* ${PROTOCOL_MARKER} *)
  little_endian : bool;
  crc_extra : bool;                 (* ${crc_extra} *)
  sort_fields : bool }.             (* ${sort_fields} *)
End XML.

(** ** The generator: [mavfmt], [mavdefault], [generate] *)

Definition mavfmt_map (t : ftype) : Struct.code :=
  match t with
  | T_float => Struct.Cf
  | T_double => Struct.Cd
  | T_char => Struct.Cc
  | T_int8_t => Struct.Cb
  | T_uint8_t => Struct.CB
  | T_uint8_t_mavlink_version => Struct.CB
  | T_int16_t => Struct.Ch
  | T_uint16_t => Struct.CH
  | T_int32_t => Struct.Ci
  | T_uint32_t => Struct.CI
  | T_int64_t => Struct.Cq
  | T_uint64_t => Struct.CQ
  end.

Definition mavfmt (field : Field.t) : Struct.item :=
  if negb (Nat.eqb (Field.array_length field) 0) then
    if bool_decide (Field.type field = T_char)
    then Struct.Item (Some (Field.array_length field)) Struct.Cs
    else Struct.Item (Some (Field.array_length field))
                     (mavfmt_map (Field.type field))
  else Struct.Item None (mavfmt_map (Field.type field)).

Definition mavdefault (field : Field.t) : pyval :=
  let default_value :=
    if bool_decide (Field.type field = T_char) then PStr [] else PInt 0 in
  if Nat.eqb (Field.array_length field) 0 then default_value
  else PList (replicate (Field.array_length field) default_value).

(** [l.index(x)]; [None] stands for ValueError. *)
Fixpoint list_index (x : string) (l : list string) : option nat :=
  match l with
  | [] => None
  | y :: l' => if bool_decide (y = x) then Some 0%nat else S <$> list_index x l'
  end.

Fixpoint rmapM {A B} (f : A → result B) (l : list A) : result (list B) :=
  match l with
  | [] => Ok []
  | x :: l' => rbind (f x) (λ y, rbind (rmapM f l') (λ ys, Ok (y :: ys)))
  end.

(** The class attributes that [generate_classes] writes for one message. *)
Module Class.
Record t := mk {
  def : Def.t;              (* id, name, fieldnames, fieldtypes, crc_extra *)
  format : Struct.format;   (* also the [unpacker] *)
  orders : list nat;
  lengths : list nat;
  array_lengths : list nat;
  fielddefaults : list pyval }.
End Class.

(** The second loop of [generate]: [len_map[order_map[i]] = fieldlengths[i]]. *)
Fixpoint fill_len_map (order_map : list nat) (fieldlengths : list nat)
    (i : nat) (n : nat) (len_map : list nat) : result (list nat) :=
  match n with
  | O => Ok len_map
  | S n' =>
      rbind (of_option EIndexError (order_map !! i)) (λ k,
      rbind (of_option EIndexError (fieldlengths !! i)) (λ L,
      if bool_decide (k < length len_map)%nat
      then fill_len_map order_map fieldlengths (S i) n' (<[k:=L]> len_map)
      else Raise EIndexError))
  end.

(** The body of the loop [for m in msgs] of [generate]. *)
Definition generate (xml : XML.t) (m : Def.t) : result Class.t :=
  let fmtstr :=
    Struct.Format
      (if XML.little_endian xml then Struct.LittleEndian else Struct.BigEndian)
      (mavfmt <$> Def.ordered_fields m) in
  let fielddefaults := mavdefault <$> Def.ordered_fields m in
  let n := length (Def.fieldnames m) in
  rbind (rmapM (λ i : nat,
           rbind (of_option EIndexError (Def.fieldnames m !! i)) (λ a,
           rbind (of_option EValueError
                    (list_index a (Def.ordered_fieldnames m))) (λ k,
           rbind (of_option EIndexError (Def.ordered_fields m !! i)) (λ f,
           Ok (k, Field.array_length f))))) (seq 0 n)) (λ oa,
  let order_map := fst <$> oa in
  let array_len_map := snd <$> oa in
  rbind (fill_len_map order_map (Def.fieldlengths m) 0 n (replicate n 0%nat))
    (λ len_map,
  Ok (Class.mk m fmtstr order_map len_map array_len_map fielddefaults))).

(** ** Runtime constants *)

Definition PROTOCOL_MARKER_V1 : Z := 0xFE.
Definition PROTOCOL_MARKER_V2 : Z := 0xFD.
Definition HEADER_LEN_V1 : Z := 6.
Definition HEADER_LEN_V2 : Z := 10.
Definition MAVLINK_SIGNATURE_BLOCK_LEN : Z := 13.
Definition MAVLINK_IFLAG_SIGNED : Z := 0x01.

(** ** Runtime objects *)

Module Header.
Record t := mk {
  msgId : Z;
  incompat_flags : Z;
  compat_flags : Z;
  mlen : Z;
  seq : Z;
  srcSystem : Z;
  srcComponent : Z }.
(** [MAVLink_header(msgId)] with its keyword defaults. *)
Definition new (msgId : Z) : t := mk msgId 0 0 0 0 0 0.
End Header.

(** A [MAVLink_message] instance.  [attrs] holds the instance attributes
    named after the fields; the multi-instance attributes ([_instances],
    [_instance_field], [_instance_offset]) play no part in packing, decoding
    or comparison and are left out. *)
Module Msg.
Record t := mk {
  _header : Header.t;
  _payload : option (list Z);
  _msgbuf : option (list Z);
  _crc : option Z;
  _fieldnames : list string;
  _type : string;
  _signed : bool;
  _link_id : option Z;
  attrs : gmap string pyval }.
(** [MAVLink_message.__init__(self, msgId, name)] *)
Definition new (msgId : Z) (name : string) : t :=
  mk (Header.new msgId) None None None [] name false None ∅.
Definition set_header (v : Header.t) (m : t) : t :=
  mk v (_payload m) (_msgbuf m) (_crc m) (_fieldnames m) (_type m)
     (_signed m) (_link_id m) (attrs m).
Definition set_payload (v : option (list Z)) (m : t) : t :=
  mk (_header m) v (_msgbuf m) (_crc m) (_fieldnames m) (_type m)
     (_signed m) (_link_id m) (attrs m).
Definition set_msgbuf (v : option (list Z)) (m : t) : t :=
  mk (_header m) (_payload m) v (_crc m) (_fieldnames m) (_type m)
     (_signed m) (_link_id m) (attrs m).
Definition set_crc (v : option Z) (m : t) : t :=
  mk (_header m) (_payload m) (_msgbuf m) v (_fieldnames m) (_type m)
     (_signed m) (_link_id m) (attrs m).
Definition set_fieldnames (v : list string) (m : t) : t :=
  mk (_header m) (_payload m) (_msgbuf m) (_crc m) v (_type m)
     (_signed m) (_link_id m) (attrs m).
Definition set_signed (v : bool) (m : t) : t :=
  mk (_header m) (_payload m) (_msgbuf m) (_crc m) (_fieldnames m) (_type m)
     v (_link_id m) (attrs m).
Definition set_link_id (v : option Z) (m : t) : t :=
  mk (_header m) (_payload m) (_msgbuf m) (_crc m) (_fieldnames m) (_type m)
     (_signed m) v (attrs m).
(** [setattr(self, a, v)] *)
Definition setattr (a : string) (v : pyval) (m : t) : t :=
  mk (_header m) (_payload m) (_msgbuf m) (_crc m) (_fieldnames m) (_type m)
     (_signed m) (_link_id m) (<[a:=v]> (attrs m)).
End Msg.

(** [MAVLinkSigning]; the [allow_unsigned_callback] is kept in the
    environment below. *)
Module Signing.
Record t := mk {
  secret_key : option (list Z);
  timestamp : Z;
  link_id : Z;
  sign_outgoing : bool;
  stream_timestamps : gmap (Z * Z * Z) Z;
  sig_count : Z;
  badsig_count : Z;
  goodsig_count : Z;
  unsigned_count : Z;
  reject_count : Z }.
Definition new : t := mk None 0 0 false ∅ 0 0 0 0 0.
Definition set_timestamp (v : Z) (s : t) : t :=
  mk (secret_key s) v (link_id s) (sign_outgoing s) (stream_timestamps s)
     (sig_count s) (badsig_count s) (goodsig_count s) (unsigned_count s)
     (reject_count s).
Definition set_stream_timestamps (v : gmap (Z * Z * Z) Z) (s : t) : t :=
  mk (secret_key s) (timestamp s) (link_id s) (sign_outgoing s) v
     (sig_count s) (badsig_count s) (goodsig_count s) (unsigned_count s)
     (reject_count s).
Definition set_sig_count (v : Z) (s : t) : t :=
  mk (secret_key s) (timestamp s) (link_id s) (sign_outgoing s)
     (stream_timestamps s) v (badsig_count s) (goodsig_count s)
     (unsigned_count s) (reject_count s).
Definition set_badsig_count (v : Z) (s : t) : t :=
  mk (secret_key s) (timestamp s) (link_id s) (sign_outgoing s)
     (stream_timestamps s) (sig_count s) v (goodsig_count s)
     (unsigned_count s) (reject_count s).
Definition set_goodsig_count (v : Z) (s : t) : t :=
  mk (secret_key s) (timestamp s) (link_id s) (sign_outgoing s)
     (stream_timestamps s) (sig_count s) (badsig_count s) v
     (unsigned_count s) (reject_count s).
Definition set_unsigned_count (v : Z) (s : t) : t :=
  mk (secret_key s) (timestamp s) (link_id s) (sign_outgoing s)
     (stream_timestamps s) (sig_count s) (badsig_count s) (goodsig_count s)
     v (reject_count s).
Definition set_reject_count (v : Z) (s : t) : t :=
  mk (secret_key s) (timestamp s) (link_id s) (sign_outgoing s)
     (stream_timestamps s) (sig_count s) (badsig_count s) (goodsig_count s)
     (unsigned_count s) v.
End Signing.

(** A [MAVLink] session.  [file] is the list of buffers written so far; the
    user callbacks are at their initial [None]; the native backend is absent
    ([self.native] is [None]). *)
Module Mav.
Record t := mk {
  seq : Z;
  file : list (list Z);
  srcSystem : Z;
  srcComponent : Z;
  buf : list Z;
  buf_index : Z;
  expected_length : Z;
  have_prefix_error : bool;
  robust_parsing : bool;
  total_packets_sent : Z;
  total_bytes_sent : Z;
  total_packets_received : Z;
  total_bytes_received : Z;
  total_receive_errors : Z;
  signing : Signing.t }.
(** [MAVLink(file, srcSystem, srcComponent)] *)
Definition new (srcSystem srcComponent : Z) : t :=
  mk 0 [] srcSystem srcComponent [] 0 (HEADER_LEN_V1 + 2) false false
     0 0 0 0 0 Signing.new.
Definition set_seq (v : Z) (s : t) : t :=
  mk v (file s) (srcSystem s) (srcComponent s) (buf s) (buf_index s)
     (expected_length s) (have_prefix_error s) (robust_parsing s)
     (total_packets_sent s) (total_bytes_sent s) (total_packets_received s)
     (total_bytes_received s) (total_receive_errors s) (signing s).
Definition set_file (v : list (list Z)) (s : t) : t :=
  mk (seq s) v (srcSystem s) (srcComponent s) (buf s) (buf_index s)
     (expected_length s) (have_prefix_error s) (robust_parsing s)
     (total_packets_sent s) (total_bytes_sent s) (total_packets_received s)
     (total_bytes_received s) (total_receive_errors s) (signing s).
Definition set_buf (v : list Z) (s : t) : t :=
  mk (seq s) (file s) (srcSystem s) (srcComponent s) v (buf_index s)
     (expected_length s) (have_prefix_error s) (robust_parsing s)
     (total_packets_sent s) (total_bytes_sent s) (total_packets_received s)
     (total_bytes_received s) (total_receive_errors s) (signing s).
Definition set_buf_index (v : Z) (s : t) : t :=
  mk (seq s) (file s) (srcSystem s) (srcComponent s) (buf s) v
     (expected_length s) (have_prefix_error s) (robust_parsing s)
     (total_packets_sent s) (total_bytes_sent s) (total_packets_received s)
     (total_bytes_received s) (total_receive_errors s) (signing s).
Definition set_expected_length (v : Z) (s : t) : t :=
  mk (seq s) (file s) (srcSystem s) (srcComponent s) (buf s) (buf_index s)
     v (have_prefix_error s) (robust_parsing s)
     (total_packets_sent s) (total_bytes_sent s) (total_packets_received s)
     (total_bytes_received s) (total_receive_errors s) (signing s).
Definition set_have_prefix_error (v : bool) (s : t) : t :=
  mk (seq s) (file s) (srcSystem s) (srcComponent s) (buf s) (buf_index s)
     (expected_length s) v (robust_parsing s)
     (total_packets_sent s) (total_bytes_sent s) (total_packets_received s)
     (total_bytes_received s) (total_receive_errors s) (signing s).
Definition set_total_packets_sent (v : Z) (s : t) : t :=
  mk (seq s) (file s) (srcSystem s) (srcComponent s) (buf s) (buf_index s)
     (expected_length s) (have_prefix_error s) (robust_parsing s)
     v (total_bytes_sent s) (total_packets_received s)
     (total_bytes_received s) (total_receive_errors s) (signing s).
Definition set_total_bytes_sent (v : Z) (s : t) : t :=
  mk (seq s) (file s) (srcSystem s) (srcComponent s) (buf s) (buf_index s)
     (expected_length s) (have_prefix_error s) (robust_parsing s)
     (total_packets_sent s) v (total_packets_received s)
     (total_bytes_received s) (total_receive_errors s) (signing s).
Definition set_total_packets_received (v : Z) (s : t) : t :=
  mk (seq s) (file s) (srcSystem s) (srcComponent s) (buf s) (buf_index s)
     (expected_length s) (have_prefix_error s) (robust_parsing s)
     (total_packets_sent s) (total_bytes_sent s) v
     (total_bytes_received s) (total_receive_errors s) (signing s).
Definition set_total_bytes_received (v : Z) (s : t) : t :=
  mk (seq s) (file s) (srcSystem s) (srcComponent s) (buf s) (buf_index s)
     (expected_length s) (have_prefix_error s) (robust_parsing s)
     (total_packets_sent s) (total_bytes_sent s) (total_packets_received s)
     v (total_receive_errors s) (signing s).
Definition set_total_receive_errors (v : Z) (s : t) : t :=
  mk (seq s) (file s) (srcSystem s) (srcComponent s) (buf s) (buf_index s)
     (expected_length s) (have_prefix_error s) (robust_parsing s)
     (total_packets_sent s) (total_bytes_sent s) (total_packets_received s)
     (total_bytes_received s) v (signing s).
Definition set_signing (v : Signing.t) (s : t) : t :=
  mk (seq s) (file s) (srcSystem s) (srcComponent s) (buf s) (buf_index s)
     (expected_length s) (have_prefix_error s) (robust_parsing s)
     (total_packets_sent s) (total_bytes_sent s) (total_packets_received s)
     (total_bytes_received s) (total_receive_errors s) v.
End Mav.

(** What the generated module takes from outside: the substituted XML
    attributes, the registry [mavlink_map], the [MAV_IGNORE_CRC] switch, the
    library functions [hashlib.sha256] and UTF-8 decoding, and the
    [allow_unsigned_callback] of the signing state (a function of the session
    and the message id that returns a truth value). *)
Module Env.
Record t := mk {
  xml : XML.t;
  mavlink_map : gmap Z Class.t;
  MAVLINK_IGNORE_CRC : bool;
  sha256 : list Z → list Z;
  utf8_decode : list Z → option (list Z);
  allow_unsigned_callback : option (Mav.t → Z → bool) }.
End Env.

(** ** [to_string], [MAVString] and [MAVLink_message.format_attr] *)

(** ['_XXX'] *)
Definition XXX : list Z := [95; 88; 88; 88].

(** [to_string(s)] on a bytes object: the UTF-8 text, and ['_XXX'] when the
    bytes are not UTF-8 (the two fallbacks raise on a bytes object, the last
    one on its first item). *)
Definition to_string (E : Env.t) (s : list Z) : list Z :=
  match Env.utf8_decode E s with
  | Some u => u
  | None => XXX
  end.

(** [s.rstrip("\00")] *)
Fixpoint rstrip_nul (s : list Z) : list Z :=
  match s with
  | [] => []
  | ch :: s' =>
      match rstrip_nul s' with
      | [] => if bool_decide (ch = 0) then [] else [ch]
      | r => ch :: r
      end
  end.

(** [str(MAVString(s))]: the text before the first NUL. *)
Fixpoint MAVString_str (s : list Z) : list Z :=
  match s with
  | [] => []
  | ch :: s' => if bool_decide (ch = 0) then [] else ch :: MAVString_str s'
  end.

(** [getattr(self, field)] for the name of a field: the instance attribute
    that [__init__] has set.  The attributes of the class and of [object],
    which Python falls back to when the instance has no attribute of that
    name, are not in [Msg.attrs]. *)
Definition getattr (self : Msg.t) (field : string) : result pyval :=
  of_option EAttributeError (Msg.attrs self !! field).

Definition format_attr (E : Env.t) (self : Msg.t) (field : string)
  : result pyval :=
  rbind (getattr self field) (λ raw_attr,
  match raw_attr with
  | PBytes b => Ok (PStr (rstrip_nul (to_string E b)))
  | _ => Ok raw_attr
  end).

(** ** [MAVLink_message.__eq__] and [__ne__] *)

Fixpoint eq_fields (E : Env.t) (self other : Msg.t) (names : list string)
  : result bool :=
  match names with
  | [] => Ok true
  | a :: names' =>
      rbind (format_attr E self a) (λ x,
      rbind (format_attr E other a) (λ y,
      if negb (pyval_eqb x y) then Ok false
      else eq_fields E self other names'))
  end.

Definition __eq__ (E : Env.t) (self : Msg.t) (other : option Msg.t)
  : result bool :=
  match other with
  | None => Ok false
  | Some other =>
      if negb (bool_decide (Msg._type self = Msg._type other)) then Ok false
      else if negb (bool_decide (Header.seq (Msg._header self)
                                 = Header.seq (Msg._header other)))
      then Ok false
      else if negb (bool_decide (Header.srcSystem (Msg._header self)
                                 = Header.srcSystem (Msg._header other)))
      then Ok false
      else if negb (bool_decide (Header.srcComponent (Msg._header self)
                                 = Header.srcComponent (Msg._header other)))
      then Ok false
      else eq_fields E self other (Msg._fieldnames self)
  end.

Definition __ne__ (E : Env.t) (self : Msg.t) (other : option Msg.t)
  : result bool :=
  rbind (__eq__ E self other) (λ b, Ok (negb b)).

(** ** [MAVLink_header.pack] *)

Definition fmt_v2_header : Struct.format :=
  Struct.Format Struct.LittleEndian
    [Struct.B; Struct.B; Struct.B; Struct.B; Struct.B; Struct.B; Struct.B;
     Struct.H; Struct.B].

Definition fmt_v1_header : Struct.format :=
  Struct.Format Struct.LittleEndian
    [Struct.B; Struct.B; Struct.B; Struct.B; Struct.B; Struct.B].

Definition MAVLink_header_pack (E : Env.t) (self : Header.t)
    (force_mavlink1 : bool) : result (list Z) :=
  if bool_decide (XML.wire_protocol_version (Env.xml E) = "2.0")
     && negb force_mavlink1
  then Struct.pack fmt_v2_header
         [PInt (XML.protocol_marker (Env.xml E)); PInt (Header.mlen self);
          PInt (Header.incompat_flags self); PInt (Header.compat_flags self);
          PInt (Header.seq self); PInt (Header.srcSystem self);
          PInt (Header.srcComponent self);
          PInt (Z.land (Header.msgId self) 0xFFFF);
          PInt (Z.shiftr (Header.msgId self) 16)]
  else Struct.pack fmt_v1_header
         [PInt PROTOCOL_MARKER_V1; PInt (Header.mlen self);
          PInt (Header.seq self); PInt (Header.srcSystem self);
          PInt (Header.srcComponent self); PInt (Header.msgId self)].

(** ** [MAVLink_message.sign_packet] and [MAVLink_message.pack] *)

(** [self._msgbuf] where it has been assigned. *)
Definition msgbuf_of (self : Msg.t) : list Z := default [] (Msg._msgbuf self).

Definition sign_packet (E : Env.t) (self : Msg.t) (mav : Mav.t)
  : result unit * Msg.t * Mav.t :=
  match Struct.pack (Struct.Format Struct.LittleEndian [Struct.B; Struct.Q])
          [PInt (Signing.link_id (Mav.signing mav));
           PInt (Signing.timestamp (Mav.signing mav))] with
  | Raise e => (Raise e, self, mav)
  | Ok lt =>
      match Msg._msgbuf self with
      | None => (Raise ETypeError, self, mav)      (* [None += bytes] *)
      | Some msgbuf =>
          let self := Msg.set_msgbuf (Some (msgbuf ++ take 7 lt)) self in
          match Signing.secret_key (Mav.signing mav) with
          | None => (Raise ETypeError, self, mav)
          | Some secret_key =>
              let sig :=
                take 6 (Env.sha256 E (secret_key ++ msgbuf_of self)) in
              let self := Msg.set_msgbuf (Some (msgbuf_of self ++ sig)) self in
              let mav :=
                Mav.set_signing
                  (Signing.set_timestamp
                     (Signing.timestamp (Mav.signing mav) + 1)
                     (Mav.signing mav))
                  mav in
              (Ok tt, self, mav)
          end
      end
  end.

(** The loop [while plen > 1 and payload[plen-1] == nullbyte: plen -= 1]. *)
Fixpoint strip_plen (payload : list Z) (plen : nat) : nat :=
  match plen with
  | S (S _ as plen') =>
      if bool_decide (payload !! plen' = Some 0)
      then strip_plen payload plen' else plen
  | _ => plen
  end.

(** [pack(self, mav, crc_extra, payload, force_mavlink1)] for a [payload]
    that is a [bytes] object, which is what the generated [pack] passes: the
    loop then compares the items with the integer 0.  (On a [bytearray] the
    type test of line 251 fails, the items are compared with [chr(0)] and
    nothing is removed.) *)
Definition MAVLink_message_pack (E : Env.t) (self : Msg.t) (mav : Mav.t)
    (crc_extra : Z) (payload : list Z) (force_mavlink1 : bool)
  : result (list Z) * Msg.t * Mav.t :=
  let plen := length payload in
  let plen :=
    if negb (bool_decide (XML.wire_protocol_version (Env.xml E) = "1.0"))
       && negb force_mavlink1
    then strip_plen payload plen else plen in
  let self := Msg.set_payload (Some (take plen payload)) self in
  let incompat_flags := 0 in
  let incompat_flags :=
    if Signing.sign_outgoing (Mav.signing mav)
    then Z.lor incompat_flags MAVLINK_IFLAG_SIGNED else incompat_flags in
  let self :=
    Msg.set_header
      (Header.mk (Header.msgId (Msg._header self)) incompat_flags 0
         (Py.len (take plen payload)) (Mav.seq mav) (Mav.srcSystem mav)
         (Mav.srcComponent mav)) self in
  match MAVLink_header_pack E (Msg._header self) force_mavlink1 with
  | Raise e => (Raise e, self, mav)
  | Ok hdr =>
      let self := Msg.set_msgbuf (Some (hdr ++ take plen payload)) self in
      let crc := x25crc.new (drop 1 (msgbuf_of self)) in
      match (if XML.crc_extra (Env.xml E)
             then rbind (Struct.pack
                           (Struct.Format Struct.LittleEndian [Struct.B])
                           [PInt crc_extra])
                        (λ b, Ok (x25crc.accumulate crc b))
             else Ok crc) with
      | Raise e => (Raise e, self, mav)
      | Ok crc =>
          let self := Msg.set_crc (Some crc) self in
          match Struct.pack (Struct.Format Struct.LittleEndian [Struct.H])
                  [PInt crc] with
          | Raise e => (Raise e, self, mav)
          | Ok cb =>
              let self := Msg.set_msgbuf (Some (msgbuf_of self ++ cb)) self in
              if Signing.sign_outgoing (Mav.signing mav) && negb force_mavlink1
              then
                match sign_packet E self mav with
                | (Raise e, self, mav) => (Raise e, self, mav)
                | (Ok _, self, mav) => (Ok (msgbuf_of self), self, mav)
                end
              else (Ok (msgbuf_of self), self, mav)
          end
      end
  end.

(** ** The generated message classes *)

(** The generated [__init__(self, f1, ..., fk=default, ...)] called on the
    unpacked tuple: positional arguments for the fields in declared order,
    defaults for the extension fields left out. *)
Definition class_init (cls : Class.t) (args : list pyval) : result Msg.t :=
  let d := Class.def cls in
  let n := length (Def.fields d) in
  let required :=
    match Def.extensions_start d with
    | Some k => Nat.min k n
    | None => n
    end in
  if bool_decide (required ≤ length args ≤ n)%nat then
    rbind (rmapM (λ i : nat,
             match args !! i with
             | Some v => Ok v
             | None => of_option EIndexError (Class.fielddefaults cls !! i)
             end) (seq 0 n)) (λ vals,
    let m := Msg.new (Def.id d) (Def.name d) in
    let m := Msg.set_fieldnames (Def.fieldnames d) m in
    Ok (foldl (λ m fv, Msg.setattr (Field.name fv.1) fv.2 m) m
              (zip (Def.fields d) vals)))
  else Raise ETypeError.

(** [v[i]] *)
Definition getitem (v : pyval) (i : nat) : result pyval :=
  match v with
  | PList l => of_option EIndexError (l !! i)
  | PBytes b | PByteArray b => of_option EIndexError (PInt <$> b !! i)
  | PStr s => of_option EIndexError ((λ ch, PStr [ch]) <$> s !! i)
  | PInt _ | PFloat _ | PError _ => Raise ETypeError
  end.

(** The arguments that the generated [pack] hands to [struct.pack] for one
    field of [ordered_fields]. *)
Definition pack_args (self : Msg.t) (field : Field.t) : result (list pyval) :=
  if negb (bool_decide (Field.type field = T_char))
     && (1 <? Field.array_length field)%nat
  then rmapM (λ i, rbind (getattr self (Field.name field)) (λ v, getitem v i))
             (seq 0 (Field.array_length field))
  else rbind (getattr self (Field.name field)) (λ v, Ok [v]).

(** The generated [pack(self, mav, force_mavlink1)]. *)
Definition class_pack (E : Env.t) (cls : Class.t) (self : Msg.t) (mav : Mav.t)
    (force_mavlink1 : bool) : result (list Z) * Msg.t * Mav.t :=
  match rbind (rmapM (pack_args self) (Def.ordered_fields (Class.def cls)))
          (λ args, Struct.pack (Class.format cls) (concat args)) with
  | Raise e => (Raise e, self, mav)
  | Ok payload =>
      MAVLink_message_pack E self mav (Def.crc_extra (Class.def cls)) payload
        force_mavlink1
  end.

Definition MAVLINK_MSG_ID_BAD_DATA : Z := -1.
Definition MAVLINK_MSG_ID_UNKNOWN : Z := -2.

(** [MAVLink_bad_data(data, reason)] *)
Definition MAVLink_bad_data (data : list Z) (reason : pyval) : Msg.t :=
  let m := Msg.new MAVLINK_MSG_ID_BAD_DATA "BAD_DATA" in
  let m := Msg.set_fieldnames ["data"; "reason"] m in
  let m := Msg.setattr "data" (PByteArray data) m in
  let m := Msg.setattr "reason" reason m in
  Msg.set_msgbuf (Some data) m.

(** [MAVLink_unknown(msgid, data)] *)
Definition MAVLink_unknown (msgid : Z) (data : list Z) : Msg.t :=
  let m := Msg.new MAVLINK_MSG_ID_UNKNOWN ("UNKNOWN_" +:+ pretty msgid) in
  let m := Msg.set_fieldnames ["data"] m in
  let m := Msg.setattr "data" (PByteArray data) m in
  Msg.set_msgbuf (Some data) m.

(** ** [MAVLink.send] *)

Definition send (E : Env.t) (cls : Class.t) (self : Mav.t) (mavmsg : Msg.t)
    (force_mavlink1 : bool) : result unit * Msg.t * Mav.t :=
  match class_pack E cls mavmsg self force_mavlink1 with
  | (Raise e, mavmsg, self) => (Raise e, mavmsg, self)
  | (Ok buf, mavmsg, self) =>
      let self := Mav.set_file (Mav.file self ++ [buf]) self in
      let self := Mav.set_seq ((Mav.seq self + 1) `mod` 256) self in
      let self :=
        Mav.set_total_packets_sent (Mav.total_packets_sent self + 1) self in
      let self :=
        Mav.set_total_bytes_sent
          (Mav.total_bytes_sent self + Py.len buf) self in
      (Ok tt, mavmsg, self)
  end.

(** ** [MAVLink.check_signature] *)

Definition fmt_sign : Struct.format :=
  Struct.Format Struct.LittleEndian [Struct.I; Struct.H].

(** The link id and the 48-bit timestamp read from the tail of the frame
    (lines 761-764). *)
Definition signature_fields (msgbuf : list Z) : result (Z * Z) :=
  let timestamp_buf := Py.slice msgbuf (Some (-12)) (Some (-6)) in
  rbind (of_option EIndexError (Py.index msgbuf (-13))) (λ link_id,
  match Struct.unpack fmt_sign timestamp_buf with
  | Ok [PInt tlow; PInt thigh] => Ok (link_id, tlow + Z.shiftl thigh 32)
  | Ok _ => Raise EStructError
  | Raise e => Raise e
  end).

(** The two signatures compared at lines 782-792. *)
Definition signature_matches (E : Env.t) (secret_key msgbuf : list Z) : bool :=
  let sig1 :=
    take 6 (Env.sha256 E (secret_key ++ Py.slice msgbuf None (Some (-6)))) in
  let sig2 := Py.slice msgbuf (Some (-6)) None in
  bool_decide (sig1 = sig2).

Definition check_signature (E : Env.t) (self : Mav.t) (msgbuf : list Z)
    (srcSystem srcComponent : Z) : result bool * Mav.t :=
  match signature_fields msgbuf with
  | Raise e => (Raise e, self)
  | Ok (link_id, timestamp) =>
      (* see if the timestamp is acceptable *)
      let stream_key := (link_id, srcSystem, srcComponent) in
      let gate : option Mav.t :=
        match Signing.stream_timestamps (Mav.signing self) !! stream_key with
        | Some last =>
            if timestamp <=? last
            then None                    (* reject old timestamp *)
            else Some self
        | None =>
            (* a new stream has appeared *)
            if timestamp + 6000 * 1000 <? Signing.timestamp (Mav.signing self)
            then None
            else Some
              (Mav.set_signing
                 (Signing.set_stream_timestamps
                    (<[stream_key:=timestamp]>
                       (Signing.stream_timestamps (Mav.signing self)))
                    (Mav.signing self)) self)
        end in
      match gate with
      | None => (Ok false, self)
      | Some self =>
          match Signing.secret_key (Mav.signing self) with
          | None => (Raise ETypeError, self)
          | Some secret_key =>
              if negb (signature_matches E secret_key msgbuf)
              then (Ok false, self)
              else
                (Ok true,
                 Mav.set_signing
                   (Signing.set_timestamp
                      (Z.max (Signing.timestamp (Mav.signing self)) timestamp)
                      (Mav.signing self)) self)
          end
      end
  end.

(** ** [MAVLink.decode] *)

Definition fmt_mav20 : Struct.format :=
  Struct.Format Struct.LittleEndian
    [Struct.c; Struct.B; Struct.B; Struct.B; Struct.B; Struct.B; Struct.B;
     Struct.H; Struct.B].

Definition fmt_mav10 : Struct.format :=
  Struct.Format Struct.LittleEndian
    [Struct.c; Struct.B; Struct.B; Struct.B; Struct.B; Struct.B].

Definition fmt_csum : Struct.format :=
  Struct.Format Struct.LittleEndian [Struct.H].

(** The values bound by the header part of [decode] (lines 804-824). *)
Record wire_header := WireHeader {
  w_headerlen : Z;
  w_magic : Z;              (* [ord(magic)] *)
  w_mlen : Z;
  w_incompat_flags : Z;
  w_compat_flags : Z;
  w_seq : Z;
  w_srcSystem : Z;
  w_srcComponent : Z;
  w_msgId : Z }.

Definition decode_header (msgbuf : list Z) : result wire_header :=
  rbind (of_option EIndexError (Py.index msgbuf 0)) (λ b0,
  if negb (bool_decide (b0 = PROTOCOL_MARKER_V1)) then
    let headerlen := 10 in
    match Struct.unpack fmt_mav20 (Py.slice msgbuf None (Some headerlen)) with
    | Ok [PBytes [magic]; PInt mlen; PInt incompat_flags; PInt compat_flags;
          PInt seq; PInt srcSystem; PInt srcComponent; PInt msgIdlow;
          PInt msgIdhigh] =>
        Ok (WireHeader headerlen magic mlen incompat_flags compat_flags seq
              srcSystem srcComponent (Z.lor msgIdlow (Z.shiftl msgIdhigh 16)))
    | _ => Raise (EMAVError UnableToUnpackHeader)
    end
  else
    let headerlen := 6 in
    match Struct.unpack fmt_mav10 (Py.slice msgbuf None (Some headerlen)) with
    | Ok [PBytes [magic]; PInt mlen; PInt seq; PInt srcSystem;
          PInt srcComponent; PInt msgId] =>
        Ok (WireHeader headerlen magic mlen 0 0 seq srcSystem srcComponent
              msgId)
    | _ => Raise (EMAVError UnableToUnpackHeader)
    end).

(** The signature part of [decode] (lines 853-878): the outcome [sig_ok], or
    the error ['Invalid signature'], and the session with its signing state
    updated. *)
Definition decode_signature (E : Env.t) (self : Mav.t) (msgbuf : list Z)
    (signature_len srcSystem srcComponent msgId : Z) : result bool * Mav.t :=
  let bump (set : Z → Signing.t → Signing.t) (get : Signing.t → Z)
      (s : Mav.t) : Mav.t :=
    Mav.set_signing (set (get (Mav.signing s) + 1) (Mav.signing s)) s in
  let self :=
    if bool_decide (signature_len = MAVLINK_SIGNATURE_BLOCK_LEN)
    then bump Signing.set_sig_count Signing.sig_count self else self in
  match Signing.secret_key (Mav.signing self) with
  | None => (Ok false, self)
  | Some _ =>
      let callback (sig_ok : bool) (self : Mav.t) : result bool * Mav.t :=
        match Env.allow_unsigned_callback E with
        | None => (Raise (EMAVError InvalidSignature), self)
        | Some cb =>
            if cb self msgId
            then (Ok sig_ok,
                  bump Signing.set_unsigned_count Signing.unsigned_count self)
            else (Raise (EMAVError InvalidSignature),
                  bump Signing.set_reject_count Signing.reject_count self)
        end in
      if bool_decide (signature_len = MAVLINK_SIGNATURE_BLOCK_LEN) then
        match check_signature E self msgbuf srcSystem srcComponent with
        | (Raise e, self) => (Raise e, self)
        | (Ok true, self) =>
            (Ok true, bump Signing.set_goodsig_count Signing.goodsig_count self)
        | (Ok false, self) =>
            callback false
              (bump Signing.set_badsig_count Signing.badsig_count self)
        end
      else callback false self
  end.

(** The payload region handed to the unpacker (lines 880-888). *)
Definition decode_payload (tname : string) (csize : nat) (msgbuf : list Z)
    (headerlen signature_len : Z) : result (list Z) :=
  let mbuf := Py.slice msgbuf (Some headerlen) (Some (- (2 + signature_len))) in
  let mbuf :=
    if bool_decide (length mbuf < csize)%nat
    then mbuf ++ replicate (csize - length mbuf) 0   (* zero pad *)
    else mbuf in
  if bool_decide (length mbuf < csize)%nat
  then Raise (EMAVError (BadMessageLength tname (Py.len mbuf) (Z.of_nat csize)))
  else Ok (take csize mbuf).

(** Handling of sorted fields (lines 895-914). *)
Definition decode_order (E : Env.t) (cls : Class.t) (t : list pyval)
  : result (list pyval) :=
  let order_map := Class.orders cls in
  let len_map := Class.lengths cls in
  if XML.sort_fields (Env.xml E) then
    if bool_decide (Py.sum len_map = length len_map) then
      (* message has no arrays in it *)
      rmapM (λ i : nat,
               rbind (of_option EIndexError (order_map !! i)) (λ k,
               of_option EIndexError (t !! k))) (seq 0 (length t))
    else
      (* message has some arrays *)
      rmapM (λ order : nat,
               rbind (of_option EIndexError (len_map !! order)) (λ L,
               let tip := Py.sum (take order len_map) in
               rbind (of_option EIndexError (t !! tip)) (λ field,
               if bool_decide (L = 1%nat)
                  || match field with PStr _ => true | _ => false end
               then Ok field
               else Ok (PList (take L (drop tip t)))))) order_map
  else Ok t.

(** Termination of one string (lines 918-921).  The unpacker yields numbers
    and bytes; on a value that is not bytes-like [to_string] falls through to
    ['_XXX'] (a str does not reach this point and is left as it is). *)
Definition terminate_string (E : Env.t) (ty : ftype) (x : pyval) : pyval :=
  if bool_decide (ty = T_char) then
    PStr (MAVString_str
            match x with
            | PBytes b | PByteArray b => to_string E b
            | PStr s => s
            | _ => XXX
            end)
  else x.

(** Termination of strings (lines 916-921). *)
Definition decode_strings (E : Env.t) (cls : Class.t) (tlist : list pyval)
  : result (list pyval) :=
  rmapM (λ iv : nat * pyval,
           rbind (of_option EIndexError
                    (Def.fieldtypes (Class.def cls) !! iv.1)) (λ ty,
           Ok (terminate_string E ty iv.2)))
        (zip (seq 0 (length tlist)) tlist).

(** The checksum part of [decode] (lines 841-851): the checksum read from
    the frame. *)
Definition decode_checksum (E : Env.t) (type : Class.t) (msgbuf : list Z)
    (signature_len msgId : Z) : result Z :=
  match Struct.unpack fmt_csum
          (Py.slice (Py.slice msgbuf (Some (- (2 + signature_len))) None)
             None (Some 2)) with
  | Ok [PInt crc] =>
      let crcbuf := Py.slice msgbuf (Some 1) (Some (- (2 + signature_len))) in
      let crcbuf :=
        if XML.crc_extra (Env.xml E)
        then crcbuf ++ [Def.crc_extra (Class.def type)]
        else crcbuf in
      let crc2 := x25crc.new crcbuf in
      if negb (bool_decide (crc = crc2)) && negb (Env.MAVLINK_IGNORE_CRC E)
      then Raise (EMAVError (InvalidCRC msgId crc crc2))
      else Ok crc
  | _ => Raise (EMAVError UnableToUnpackCRC)
  end.

(** The field values of the message (lines 880-927): payload region,
    unpacking, ordering, strings, construction of the instance. *)
Definition decode_fields (E : Env.t) (type : Class.t) (msgbuf : list Z)
    (headerlen signature_len : Z) : result Msg.t :=
  let tname := Def.name (Class.def type) in
  let csize := Struct.size (Class.format type) in
  rbind (decode_payload tname csize msgbuf headerlen signature_len) (λ mbuf,
  rbind (match Struct.unpack (Class.format type) mbuf with
         | Ok t => Ok t
         | Raise _ => Raise (EMAVError (UnableToUnpackPayload tname))
         end) (λ t,
  rbind (decode_order E type t) (λ tlist,
  rbind (decode_strings E type tlist) (λ t,
  (* construct the message object *)
  match class_init type t with
  | Ok m => Ok m
  | Raise _ => Raise (EMAVError (UnableToInstantiate tname))
  end)))).

(** The provenance stamped on the new instance (lines 928-934). *)
Definition decode_stamp (m : Msg.t) (msgbuf : list Z) (h : wire_header)
    (signature_len : Z) (sig_ok : bool) (crc : Z) : result Msg.t :=
  let m := Msg.set_signed sig_ok m in
  rbind (if Msg._signed m
         then rbind (of_option EIndexError (Py.index msgbuf (-13)))
                (λ l, Ok (Msg.set_link_id (Some l) m))
         else Ok m) (λ m,
  let m := Msg.set_msgbuf (Some msgbuf) m in
  let m :=
    Msg.set_payload
      (Some (Py.slice msgbuf (Some 6) (Some (- (2 + signature_len))))) m in
  let m := Msg.set_crc (Some crc) m in
  Ok (Msg.set_header
        (Header.mk (w_msgId h) (w_incompat_flags h) (w_compat_flags h)
           (w_mlen h) (w_seq h) (w_srcSystem h) (w_srcComponent h)) m)).

Definition signature_len_of (h : wire_header) : Z :=
  if negb (bool_decide (Z.land (w_incompat_flags h) MAVLINK_IFLAG_SIGNED = 0))
  then MAVLINK_SIGNATURE_BLOCK_LEN else 0.

(** [decode(msgbuf)] for a [msgbuf] that is a mutable buffer, the
    [array('B')] that the parser hands over or a [bytearray]: the slices of
    it are extended at lines 848 and 884.  (On a [bytes] object, which has
    neither [append] nor [extend], those lines raise AttributeError.) *)
Definition decode (E : Env.t) (self : Mav.t) (msgbuf : list Z)
  : result Msg.t * Mav.t :=
  match decode_header msgbuf with
  | Raise e => (Raise e, self)
  | Ok h =>
      let headerlen := w_headerlen h in
      let signature_len := signature_len_of h in
      if negb (bool_decide (w_magic h = PROTOCOL_MARKER_V1))
         && negb (bool_decide (w_magic h = PROTOCOL_MARKER_V2))
      then (Raise (EMAVError (InvalidPrefix (w_magic h))), self)
      else if negb (bool_decide
                (w_mlen h = Py.len msgbuf - (headerlen + 2 + signature_len)))
      then (Raise (EMAVError
                     (InvalidLength
                        (Py.len msgbuf - (headerlen + 2 + signature_len))
                        (w_mlen h) (w_msgId h) headerlen)), self)
      else
        match Env.mavlink_map E !! w_msgId h with
        | None => (Ok (MAVLink_unknown (w_msgId h) msgbuf), self)
        | Some type =>
            match decode_checksum E type msgbuf signature_len (w_msgId h) with
            | Raise e => (Raise e, self)
            | Ok crc =>
                match decode_signature E self msgbuf signature_len
                        (w_srcSystem h) (w_srcComponent h) (w_msgId h) with
                | (Raise e, self) => (Raise e, self)
                | (Ok sig_ok, self) =>
                    (rbind (decode_fields E type msgbuf headerlen
                              signature_len) (λ m,
                     decode_stamp m msgbuf h signature_len sig_ok crc), self)
                end
            end
        end
  end.

(** ** The streaming parser: [MAVLink.__parse_char_legacy], [MAVLink.parse_char] *)

Definition buf_len (self : Mav.t) : Z := Py.len (Mav.buf self) - Mav.buf_index self.

Definition bytes_needed (self : Mav.t) : Z :=
  let ret := Mav.expected_length self - buf_len self in
  if ret <=? 0 then 1 else ret.

(** ['Bad prefix'] *)
Definition Bad_prefix : pyval :=
  PStr [66; 97; 100; 32; 112; 114; 101; 102; 105; 120].

Definition fmt_h3 : Struct.format :=
  Struct.Format Struct.LittleEndian [Struct.B; Struct.B; Struct.B].

Definition add_receive_error (self : Mav.t) : Mav.t :=
  Mav.set_total_receive_errors (Mav.total_receive_errors self + 1) self.

(** The frame part of [__parse_char_legacy] (lines 722-738), entered with
    the candidate length already in [expected_length]; [h3] holds [magic] and
    [incompat_flags] when line 718 has bound them. *)
Definition parse_frame (E : Env.t) (self : Mav.t) (header_len : Z)
    (h3 : option (Z * Z)) : result (option Msg.t) * Mav.t :=
  let mbuf :=
    Py.slice (Mav.buf self) (Some (Mav.buf_index self))
      (Some (Mav.buf_index self + Mav.expected_length self)) in
  let self :=
    Mav.set_buf_index (Mav.buf_index self + Mav.expected_length self) self in
  let self := Mav.set_expected_length (header_len + 2) self in
  match h3 with
  | None => (Raise EUnboundLocalError, self)
  | Some (magic, incompat_flags) =>
      let r :=
        if bool_decide (magic = PROTOCOL_MARKER_V2)
           && negb (bool_decide
                      (Z.land incompat_flags (Z.lnot MAVLINK_IFLAG_SIGNED) = 0))
        then (Raise (EMAVError (InvalidIncompatFlags incompat_flags magic)),
              self)
        else decode E self mbuf in
      if Mav.robust_parsing self then
        match r with
        | (Raise (EMAVError reason), self) =>
            (Ok (Some (MAVLink_bad_data mbuf (PError reason))),
             add_receive_error self)
        | (Raise e, self) => (Raise e, self)
        | (Ok m, self) => (Ok (Some m), self)
        end
      else
        match r with
        | (Raise e, self) => (Raise e, self)
        | (Ok m, self) => (Ok (Some m), self)
        end
  end.

Definition parse_char_legacy (E : Env.t) (self : Mav.t)
  : result (option Msg.t) * Mav.t :=
  let at_index := Py.index (Mav.buf self) (Mav.buf_index self) in
  if (1 <=? buf_len self) && bool_decide (at_index = None)
  then (Raise EIndexError, self) else
  let header_len := HEADER_LEN_V1 in
  let header_len :=
    if (1 <=? buf_len self) && bool_decide (at_index = Some PROTOCOL_MARKER_V2)
    then HEADER_LEN_V2 else header_len in
  if (1 <=? buf_len self)
     && negb (bool_decide (at_index = Some PROTOCOL_MARKER_V1))
     && negb (bool_decide (at_index = Some PROTOCOL_MARKER_V2))
  then
    let magic := default 0 at_index in
    let self := Mav.set_buf_index (Mav.buf_index self + 1) self in
    if Mav.robust_parsing self then
      let m := MAVLink_bad_data [magic] Bad_prefix in
      let self := Mav.set_expected_length (header_len + 2) self in
      let self := add_receive_error self in
      (Ok (Some m), self)
    else if Mav.have_prefix_error self then (Ok None, self)
    else
      let self := Mav.set_have_prefix_error true self in
      let self := add_receive_error self in
      (Raise (EMAVError (InvalidPrefix magic)), self)
  else
    let self := Mav.set_have_prefix_error false self in
    let step : result (Mav.t * option (Z * Z)) :=
      if 3 <=? buf_len self then
        let sbuf :=
          Py.slice (Mav.buf self) (Some (Mav.buf_index self))
            (Some (3 + Mav.buf_index self)) in
        match Struct.unpack fmt_h3 sbuf with
        | Ok [PInt magic; PInt expected_length; PInt incompat_flags] =>
            let expected_length :=
              if bool_decide (magic = PROTOCOL_MARKER_V2)
                 && negb (bool_decide
                            (Z.land incompat_flags MAVLINK_IFLAG_SIGNED = 0))
              then expected_length + MAVLINK_SIGNATURE_BLOCK_LEN
              else expected_length in
            let expected_length := expected_length + (header_len + 2) in
            Ok (Mav.set_expected_length expected_length self,
                Some (magic, incompat_flags))
        | _ => Raise EStructError
        end
      else Ok (self, None) in
    match step with
    | Raise e => (Raise e, self)
    | Ok (self, h3) =>
        if (header_len + 2 <=? Mav.expected_length self)
           && (Mav.expected_length self <=? buf_len self)
        then parse_frame E self header_len h3
        else (Ok None, self)
    end.

(** [parse_char(c)] on the path without the native backend. *)
Definition parse_char (E : Env.t) (self : Mav.t) (c : list Z)
  : result (option Msg.t) * Mav.t :=
  let self := Mav.set_buf (Mav.buf self ++ c) self in
  let self :=
    Mav.set_total_bytes_received (Mav.total_bytes_received self + Py.len c)
      self in
  match parse_char_legacy E self with
  | (Raise e, self) => (Raise e, self)
  | (Ok (Some m), self) =>
      (Ok (Some m),
       Mav.set_total_packets_received (Mav.total_packets_received self + 1)
         self)
  | (Ok None, self) =>
      if bool_decide (buf_len self = 0)
         && negb (bool_decide (Mav.buf_index self = 0))
      then (Ok None, Mav.set_buf_index 0 (Mav.set_buf [] self))
      else (Ok None, self)
  end.

(** ** Provenance updates used to state what equality ignores *)

(** A value that is not NaN and holds no NaN. *)
Fixpoint nan_free (v : pyval) : bool :=
  match v with
  | PFloat x => negb (is_nan x)
  | PList l => forallb nan_free l
  | _ => true
  end.

(** The message [m] with its checksum, raw buffer, payload bytes and signing
    outcome replaced. *)
Definition with_provenance (crc : option Z) (msgbuf payload : option (list Z))
    (signed : bool) (link_id : option Z) (m : Msg.t) : Msg.t :=
  Msg.set_crc crc
    (Msg.set_msgbuf msgbuf
       (Msg.set_payload payload
          (Msg.set_signed signed (Msg.set_link_id link_id m)))).

(** ** Frames of state change *)

(** The session [s'] is [s] with another signing state. *)
Definition only_signing_changed (s s' : Mav.t) : Prop :=
  s' = Mav.set_signing (Mav.signing s') s.

(** The signing state [g'] is [g] with other statistics counters and another
    replay table: key, timestamp, link id and signing switch are the same. *)
Definition signing_core_kept (g g' : Signing.t) : Prop :=
  Signing.secret_key g' = Signing.secret_key g
  ∧ Signing.timestamp g' = Signing.timestamp g
  ∧ Signing.link_id g' = Signing.link_id g
  ∧ Signing.sign_outgoing g' = Signing.sign_outgoing g.

(** The errors raised after the signature has been dealt with. *)
Definition payload_error (e : MAVError) : bool :=
  match e with
  | BadMessageLength _ _ _ | UnableToUnpackPayload _ | UnableToInstantiate _ =>
      true
  | _ => false
  end.

(** A frame-level failure of the parser carrying the error [e]: the error is
    raised (strict parsing) or wrapped in a bad-data message (robust
    parsing). *)
Definition frame_error (r : result (option Msg.t)) (e : MAVError) : Prop :=
  r = Raise (EMAVError e)
  ∨ ∃ data, r = Ok (Some (MAVLink_bad_data data (PError e))).

(** Byte sequences as they come off a transport. *)
Definition is_bytes (l : list Z) : Prop := Forall (λ b, 0 ≤ b < 256) l.

(** What no call of the parser changes: [s'] has the sequence number, file,
    identity, buffer contents, parsing mode, sent and received counters,
    secret key, link id and signing switch of [s].  The receive-error
    counter, the cursor, the expected-length hint, the prefix-error flag, the
    signing statistics, the replay table and the signing timestamp are not
    constrained. *)
Definition parser_footprint (s s' : Mav.t) : Prop :=
  Mav.seq s' = Mav.seq s
  ∧ Mav.file s' = Mav.file s
  ∧ Mav.srcSystem s' = Mav.srcSystem s
  ∧ Mav.srcComponent s' = Mav.srcComponent s
  ∧ Mav.buf s' = Mav.buf s
  ∧ Mav.robust_parsing s' = Mav.robust_parsing s
  ∧ Mav.total_packets_sent s' = Mav.total_packets_sent s
  ∧ Mav.total_bytes_sent s' = Mav.total_bytes_sent s
  ∧ Mav.total_packets_received s' = Mav.total_packets_received s
  ∧ Mav.total_bytes_received s' = Mav.total_bytes_received s
  ∧ Signing.secret_key (Mav.signing s') = Signing.secret_key (Mav.signing s)
  ∧ Signing.link_id (Mav.signing s') = Signing.link_id (Mav.signing s)
  ∧ Signing.sign_outgoing (Mav.signing s')
    = Signing.sign_outgoing (Mav.signing s).

(** ** Well-formed definitions, valid values, valid sessions *)

(** Modelled from the spec: the per-field encoded length that the XML parser
    ([mavparse], not part of the generator source) puts in [fieldlengths]:
    the number of values a field takes in the unpacked tuple, 1 for a scalar
    and for a string, the array length for an array of numbers. *)
Definition fieldlength (f : Field.t) : nat :=
  if Nat.eqb (Field.array_length f) 0 then 1
  else if bool_decide (Field.type f = T_char) then 1
  else Field.array_length f.

(** Modelled from the spec: a definition as the XML parser hands it over.
    The name, type and length lists describe [fields]; the names are
    distinct; the wire order is a rearrangement of the declared order. *)
Record Def_wf (m : Def.t) : Prop := {
  wf_fieldnames : Def.fieldnames m = Field.name <$> Def.fields m;
  wf_ordered_fieldnames :
    Def.ordered_fieldnames m = Field.name <$> Def.ordered_fields m;
  wf_fieldtypes : Def.fieldtypes m = Field.type <$> Def.fields m;
  wf_fieldlengths : Def.fieldlengths m = fieldlength <$> Def.fields m;
  wf_names_distinct : NoDup (Def.fieldnames m);
  wf_wire_order : Def.ordered_fields m ≡ₚ Def.fields m }.

(** A text whose NUL characters, if any, all stand at its end. *)
Definition nul_at_end (s : list Z) : Prop :=
  Forall (λ ch, ch ≠ 0) (rstrip_nul s).

(** A message definition without [float] and [double] fields. *)
Definition float_free (m : Def.t) : Prop :=
  Forall (λ f, Field.type f ≠ T_float ∧ Field.type f ≠ T_double)
         (Def.fields m).

(** A valid value for the field [f]: an integer in the range of the type; for
    an array of integers a list of exactly [array_length] such integers; a
    float, or a list of [array_length] of them, for a floating-point field;
    for a character field a bytes object that fits the field and whose text
    has NULs at its end only. *)
Definition valid_value (E : Env.t) (f : Field.t) (v : pyval) : Prop :=
  match Struct.code_atom (mavfmt_map (Field.type f)) with
  | Struct.AInt w sg =>
      if (1 <? Field.array_length f)%nat
      then ∃ zs, v = PList (PInt <$> zs)
             ∧ length zs = Field.array_length f
             ∧ Forall (λ z, Struct.in_range w sg z = true) zs
      else ∃ z, v = PInt z ∧ Struct.in_range w sg z = true
  | Struct.AFloat _ =>
      if (1 <? Field.array_length f)%nat
      then ∃ xs, v = PList (PFloat <$> xs)
             ∧ length xs = Field.array_length f
      else ∃ x, v = PFloat x
  | _ =>
      ∃ b, v = PBytes b
        ∧ (if Nat.eqb (Field.array_length f) 0 then length b = 1%nat
           else (length b ≤ Field.array_length f)%nat)
        ∧ nul_at_end (to_string E b)
  end.

(** An instance of the message [m] with a valid value in every field. *)
Record valid_message (E : Env.t) (m : Def.t) (self : Msg.t) : Prop := {
  vm_type : Msg._type self = Def.name m;
  vm_fieldnames : Msg._fieldnames self = Def.fieldnames m;
  vm_msgId : Header.msgId (Msg._header self) = Def.id m;
  vm_values :
    ∀ f, f ∈ Def.fields m →
         ∃ v, Msg.attrs self !! Field.name f = Some v ∧ valid_value E f v }.

(** Whether [pack] frames in version 2. *)
Definition frames_v2 (E : Env.t) (force_mavlink1 : bool) : bool :=
  bool_decide (XML.wire_protocol_version (Env.xml E) = "2.0")
  && negb force_mavlink1.

(** The environment of a generated module: the version-2 marker in a
    version-2 dialect, sorted fields, and library functions that behave:
    digests of at least six bytes, and a UTF-8 decoder for which NUL bytes
    appended to the input are NUL characters appended to the text. *)
Record valid_env (E : Env.t) : Prop := {
  ve_marker :
    XML.wire_protocol_version (Env.xml E) = "2.0" →
    XML.protocol_marker (Env.xml E) = PROTOCOL_MARKER_V2;
  ve_sort_fields : XML.sort_fields (Env.xml E) = true;
  ve_digest : ∀ x, (6 ≤ length (Env.sha256 E x))%nat;
  ve_utf8 :
    ∀ b k, Env.utf8_decode E (b ++ replicate k 0)
           = (λ u, u ++ replicate k 0) <$> Env.utf8_decode E b }.

(** The class [cls] generated from [m] and registered under its id, with an
    id, a checksum seed and a payload size that fit the frame. *)
Record valid_schema (E : Env.t) (m : Def.t) (cls : Class.t)
    (force_mavlink1 : bool) : Prop := {
  vs_wf : Def_wf m;
  vs_generated : generate (Env.xml E) m = Ok cls;
  vs_registered : Env.mavlink_map E !! Def.id m = Some cls;
  vs_id :
    0 ≤ Def.id m < (if frames_v2 E force_mavlink1 then 2 ^ 24 else 256);
  vs_crc_extra :
    XML.crc_extra (Env.xml E) = true → 0 ≤ Def.crc_extra m < 256;
  vs_size : (Struct.size (Class.format cls) ≤ 255)%nat }.

(** A sending session: identity and sequence number are bytes; when it
    signs, the dialect is version 2 (or version 1 is forced, and nothing is
    signed), and it has a key, a link id of one byte and a timestamp of
    eight. *)
Record valid_sender (E : Env.t) (mav : Mav.t) (force_mavlink1 : bool)
  : Prop := {
  sd_seq : 0 ≤ Mav.seq mav < 256;
  sd_srcSystem : 0 ≤ Mav.srcSystem mav < 256;
  sd_srcComponent : 0 ≤ Mav.srcComponent mav < 256;
  sd_signing :
    Signing.sign_outgoing (Mav.signing mav) = true →
    force_mavlink1 = false →
    XML.wire_protocol_version (Env.xml E) = "2.0"
    ∧ is_Some (Signing.secret_key (Mav.signing mav))
    ∧ 0 ≤ Signing.link_id (Mav.signing mav) < 256
    ∧ 0 ≤ Signing.timestamp (Mav.signing mav) < 2 ^ 64 }.

(** The length of the signature block of the frames that [mav] sends. *)
Definition sent_signature_len (E : Env.t) (mav : Mav.t)
    (force_mavlink1 : bool) : Z :=
  if Signing.sign_outgoing (Mav.signing mav) && negb force_mavlink1
  then MAVLINK_SIGNATURE_BLOCK_LEN else 0.

(** ** One field on its way through [pack] and [decode] *)

(** The value slots of the field in the format of its message. *)
Definition field_atoms (f : Field.t) : list Struct.atom :=
  Struct.item_atoms (mavfmt f).

(** What [format_attr] makes of the raw attribute. *)
Definition format_value (E : Env.t) (raw_attr : pyval) : pyval :=
  match raw_attr with
  | PBytes b => PStr (rstrip_nul (to_string E b))
  | _ => raw_attr
  end.

(** The value that [decode] hands to the constructor for the field [f] when
    the unpacker has produced the values [U] for it: the single value or the
    list of them, with a string terminated. *)
Definition decoded_value (E : Env.t) (f : Field.t) (U : list pyval)
  : option pyval :=
  terminate_string E (Field.type f)
    <$> (if Nat.eqb (fieldlength f) 1 then head U else Some (PList U)).

(** ** Notions used in the round trip through [pack] and [decode] *)

(** The value that the ordering step yields for a field. *)
Definition ordered_value (f : Field.t) (U : list pyval) : option pyval :=
  if Nat.eqb (fieldlength f) 1 then head U else Some (PList U).

(** The values [U] that the unpacker yields for the field [f] of the
    instance [self]: as many as the field takes, none of them a str, and
    decoded to a value that formats like the attribute of [self]. *)
Definition field_received (E : Env.t) (self : Msg.t) (f : Field.t)
    (U : list pyval) : Prop :=
  length U = fieldlength f
  ∧ Forall (λ u, ∀ s, u ≠ PStr s) U
  ∧ ∃ x v, Msg.attrs self !! Field.name f = Some v
           ∧ decoded_value E f U = Some x
           ∧ format_value E x = format_value E v.

(** The header bytes of a frame: ten in version 2, with the message id split
    into its low 16 bits, least significant byte first, and its high byte; six
    in version 1. *)
Definition header_bytes (v2 : bool) (mlen flags seq sys comp id : Z) : list Z :=
  if v2
  then [PROTOCOL_MARKER_V2; mlen; flags; 0; seq; sys; comp;
        Z.land id 0xFFFF `mod` 256; Z.land id 0xFFFF `div` 256;
        Z.shiftr id 16]
  else [PROTOCOL_MARKER_V1; mlen; seq; sys; comp; id].

(** ** [MAVLink.parse_buffer] *)

(** The loop [while True: m = self.parse_char(""); ...] of [parse_buffer]
    (lines 747-751), run for at most [fuel] rounds; [None] when the rounds
    are used up. *)
Fixpoint parse_buffer_loop (E : Env.t) (fuel : nat) (self : Mav.t)
    (ret : list Msg.t) : option (result (list Msg.t) * Mav.t) :=
  match fuel with
  | O => None
  | S fuel' =>
      match parse_char E self [] with
      | (Raise e, self) => Some (Raise e, self)
      | (Ok None, self) => Some (Ok ret, self)
      | (Ok (Some m), self) => parse_buffer_loop E fuel' self (ret ++ [m])
      end
  end.

(** [parse_buffer(s)]: [Ok None] is [return None], [Ok (Some ret)] the list
    of messages. *)
Definition parse_buffer (E : Env.t) (fuel : nat) (self : Mav.t) (s : list Z)
  : option (result (option (list Msg.t)) * Mav.t) :=
  match parse_char E self s with
  | (Raise e, self) => Some (Raise e, self)
  | (Ok None, self) => Some (Ok None, self)
  | (Ok (Some m), self) =>
      match parse_buffer_loop E fuel self [m] with
      | Some (Ok ret, self) => Some (Ok (Some ret), self)
      | Some (Raise e, self) => Some (Raise e, self)
      | None => None
      end
  end.

(** ** Notions of the further properties *)

(** The session after [n] calls of [parse_char] without new input, whatever
    the calls return or raise. *)
Fixpoint after_calls (E : Env.t) (n : nat) (s : Mav.t) : Mav.t :=
  match n with
  | O => s
  | S n' => after_calls E n' (parse_char E s []).2
  end.

(** The read cursor of the session lies inside its buffer. *)
Definition cursor_ok (s : Mav.t) : Prop :=
  0 ≤ Mav.buf_index s ≤ Py.len (Mav.buf s).

(** The bytes of the buffer that the parser has not consumed yet. *)
Definition unread (s : Mav.t) : list Z :=
  drop (Z.to_nat (Mav.buf_index s)) (Mav.buf s).

(** A byte that starts no frame. *)
Definition no_marker (b : Z) : Prop :=
  b ≠ PROTOCOL_MARKER_V1 ∧ b ≠ PROTOCOL_MARKER_V2.

(** Every registered class is the one generated from a well-formed
    definition. *)
Definition registry_ok (E : Env.t) : Prop :=
  ∀ id cls, Env.mavlink_map E !! id = Some cls →
    Def_wf (Class.def cls) ∧ generate (Env.xml E) (Class.def cls) = Ok cls.

(** The errors of a byte stream: a byte that starts no frame, flags that the
    parser does not know, a wrong checksum, a signature that is refused. *)
Definition stream_error (e : MAVError) : bool :=
  match e with
  | InvalidPrefix _ | InvalidIncompatFlags _ _ | InvalidCRC _ _ _
  | InvalidSignature => true
  | _ => false
  end.

(** A number as the unpacker yields it for the type [t]: a float for [float]
    and [double], an int for the integer types. *)
Definition number_of (t : ftype) (v : pyval) : Prop :=
  match t with
  | T_float | T_double => ∃ x, v = PFloat x
  | _ => ∃ z, v = PInt z
  end.

(** The shape of the value that [decode] gives the field [f]: a str without
    NUL for a character field, a number of the type of the field for a
    scalar, a list of [array_length] such numbers for an array. *)
Definition decoded_shape (f : Field.t) (x : pyval) : Prop :=
  if bool_decide (Field.type f = T_char)
  then ∃ s, x = PStr s ∧ Forall (λ ch, ch ≠ 0) s
  else if Nat.eqb (fieldlength f) 1 then number_of (Field.type f) x
  else ∃ l, x = PList l ∧ length l = Field.array_length f
            ∧ Forall (number_of (Field.type f)) l.

(** The timestamp test of [check_signature] (lines 768-780) for a frame of
    the stream [key] that carries the timestamp [ts]. *)
Definition timestamp_fresh (g : Signing.t) (key : Z * Z * Z) (ts : Z) : bool :=
  match Signing.stream_timestamps g !! key with
  | Some last => negb (ts <=? last)
  | None => negb (ts + 6000 * 1000 <? Signing.timestamp g)
  end.

(** The signing state [g'] is a later state of [g]: the timestamp and the
    statistics counters have not gone down, every stream of the replay table
    is still in the table, and key, link id and signing switch are the
    same. *)
Definition signing_advances (g g' : Signing.t) : Prop :=
  Signing.timestamp g ≤ Signing.timestamp g'
  ∧ (∀ k, is_Some (Signing.stream_timestamps g !! k) →
          is_Some (Signing.stream_timestamps g' !! k))
  ∧ Signing.sig_count g ≤ Signing.sig_count g'
  ∧ Signing.badsig_count g ≤ Signing.badsig_count g'
  ∧ Signing.goodsig_count g ≤ Signing.goodsig_count g'
  ∧ Signing.unsigned_count g ≤ Signing.unsigned_count g'
  ∧ Signing.reject_count g ≤ Signing.reject_count g'
  ∧ Signing.secret_key g' = Signing.secret_key g
  ∧ Signing.link_id g' = Signing.link_id g
  ∧ Signing.sign_outgoing g' = Signing.sign_outgoing g.

(** [0 <= z <= 255] *)
Definition is_byte (z : Z) : bool := (0 <=? z) && (z <? 256).

(** Whether the fields of the header fit the frame version that
    [MAVLink_header.pack] writes: bytes throughout, and a message id of three
    bytes in version 2 and of one byte in version 1. *)
Definition header_fits (E : Env.t) (h : Header.t) (force_mavlink1 : bool)
  : bool :=
  if frames_v2 E force_mavlink1 then
    is_byte (XML.protocol_marker (Env.xml E)) && is_byte (Header.mlen h)
    && is_byte (Header.incompat_flags h) && is_byte (Header.compat_flags h)
    && is_byte (Header.seq h) && is_byte (Header.srcSystem h)
    && is_byte (Header.srcComponent h)
    && (0 <=? Header.msgId h) && (Header.msgId h <? 2 ^ 24)
  else
    is_byte (Header.mlen h) && is_byte (Header.seq h)
    && is_byte (Header.srcSystem h) && is_byte (Header.srcComponent h)
    && is_byte (Header.msgId h).

(** The bytes of the header in the frame version that is written. *)
Definition header_wire (E : Env.t) (h : Header.t) (force_mavlink1 : bool)
  : list Z :=
  if frames_v2 E force_mavlink1 then
    [XML.protocol_marker (Env.xml E); Header.mlen h; Header.incompat_flags h;
     Header.compat_flags h; Header.seq h; Header.srcSystem h;
     Header.srcComponent h; Header.msgId h `mod` 256;
     (Header.msgId h `div` 256) `mod` 256; Header.msgId h `div` 65536]
  else
    [PROTOCOL_MARKER_V1; Header.mlen h; Header.seq h; Header.srcSystem h;
     Header.srcComponent h; Header.msgId h].

(** The bytes that the field takes in the payload. *)
Definition field_wire_size (f : Field.t) : nat :=
  Py.sum (Struct.atom_size <$> field_atoms f).

(** ** Sample data: a dialect, a message definition, sessions and frames *)

Module Sample.

Definition xml20 : XML.t := XML.mk "2.0" 0xFD true true true.

Definition f_a : Field.t := Field.mk "a" T_uint8_t 0.
Definition f_name : Field.t := Field.mk "name" T_char 4.
Definition f_vals : Field.t := Field.mk "vals" T_uint16_t 3.
Definition f_b : Field.t := Field.mk "b" T_int32_t 0.

Definition demo_def : Def.t :=
  Def.mk "DEMO" 7 [f_a; f_name; f_vals; f_b] [f_b; f_vals; f_a; f_name]
    ["a"; "name"; "vals"; "b"] ["b"; "vals"; "a"; "name"]
    [T_uint8_t; T_char; T_uint16_t; T_int32_t] [1; 1; 3; 1]%nat 99 None.

Definition demo_cls : Class.t :=
  Class.mk demo_def
    (Struct.Format Struct.LittleEndian
       [Struct.Item None Struct.Ci; Struct.Item (Some 3%nat) Struct.CH;
        Struct.Item None Struct.CB; Struct.Item (Some 4%nat) Struct.Cs])
    [2; 3; 1; 0]%nat [1; 3; 1; 1]%nat [0; 3; 0; 4]%nat
    [PInt 0; PList [PInt 0; PInt 0; PInt 0]; PInt 0;
     PList [PStr []; PStr []; PStr []; PStr []]].

(** A decoder for the ASCII part of UTF-8. *)
Definition ascii_decode (b : list Z) : option (list Z) :=
  if forallb (λ x, (0 <=? x) && (x <? 128)) b then Some b else None.

(** A stand-in for the digest function, 32 bytes long. *)
Definition digest (b : list Z) : list Z :=
  replicate 32 (foldl (λ a x, (a * 31 + x + 7) `mod` 256) 0 b).

Definition E : Env.t :=
  Env.mk xml20 (<[7:=demo_cls]> ∅) false digest ascii_decode None.

Definition values : list pyval :=
  [PInt 5; PBytes [104; 105]; PList [PInt 1; PInt 2; PInt 0]; PInt (-3)].

(** [MAVLink_demo_message(5, b'hi', [1, 2, 0], -3)] *)
Definition m0 : Msg.t :=
  match class_init demo_cls values with
  | Ok m => m
  | Raise _ => Msg.new 7 "DEMO"
  end.

Definition mav : Mav.t := Mav.new 1 2.

(** The unsigned version-2 frame of [m0] sent by [mav]. *)
Definition frame : list Z :=
  [253; 13; 0; 0; 0; 1; 2; 7; 0; 0; 253; 255; 255; 255; 1; 0; 2; 0; 0; 0; 5;
   104; 105; 59; 253].

Definition key : list Z := [1; 2; 3; 4].

(** The frame of [m0] signed with [key] on link 9 at timestamp 1000. *)
Definition signed_frame : list Z :=
  [253; 13; 1; 0; 0; 1; 2; 7; 0; 0; 253; 255; 255; 255; 1; 0; 2; 0; 0; 0; 5;
   104; 105; 102; 84; 9; 232; 3; 0; 0; 0; 0; 38; 38; 38; 38; 38; 38].

(** The same frame with a wrong signature. *)
Definition forged_frame : list Z :=
  [253; 13; 1; 0; 0; 1; 2; 7; 0; 0; 253; 255; 255; 255; 1; 0; 2; 0; 0; 0; 5;
   104; 105; 102; 84; 9; 232; 3; 0; 0; 0; 0; 0; 0; 0; 0; 0; 0].

(** A session that holds a secret key and signs what it sends. *)
Definition signing_mav (timestamp : Z) (table : gmap (Z * Z * Z) Z) : Mav.t :=
  Mav.set_signing
    (Signing.mk (Some key) timestamp 9 true table 0 0 0 0 0) (Mav.new 1 2).

(** A receiving session with a secret key and [buf] in its buffer. *)
Definition receiver (robust : bool) (buf : list Z) : Mav.t :=
  Mav.mk 0 [] 1 2 buf 0 (HEADER_LEN_V1 + 2) false robust 0 0 0 0 0
    (Signing.mk (Some key) 0 9 false ∅ 0 0 0 0 0).

(** A session that holds a secret key and sends unsigned frames. *)
Definition keyed_mav : Mav.t :=
  Mav.set_signing (Signing.mk (Some key) 0 9 false ∅ 0 0 0 0 0) (Mav.new 1 2).

(** A message with one [float] field, its class, and a module that
    registers it. *)
Definition f_roll : Field.t := Field.mk "roll" T_float 0.

Definition att_def : Def.t :=
  Def.mk "ATT" 8 [f_roll] [f_roll] ["roll"] ["roll"] [T_float] [1]%nat 42
    None.

Definition att_cls : Class.t :=
  Class.mk att_def
    (Struct.Format Struct.LittleEndian [Struct.Item None Struct.Cf])
    [0]%nat [1]%nat [0]%nat [PInt 0].

Definition E_att : Env.t :=
  Env.mk xml20 (<[8:=att_cls]> ∅) false digest ascii_decode None.

(** [MAVLink_att_message(roll)] *)
Definition att (roll : float) : Msg.t :=
  match class_init att_cls [PFloat roll] with
  | Ok m => m
  | Raise _ => Msg.new 8 "ATT"
  end.

End Sample.

(** * Properties *)

(** ** Equality of messages *)

Lemma pyval_eqb_refl (v : pyval) : nan_free v = true → pyval_eqb v v = true.
Proof.
  revert v. fix IH 1. intros [z|x|b|b|s|l|e]; simpl;
    try (intros _; apply bool_decide_eq_true_2; reflexivity).
  - unfold is_nan. by rewrite negb_involutive.
  - induction l as [|x xs IHxs]; simpl; [reflexivity|].
    intros [Hx Hxs]%andb_prop. rewrite (IH x Hx). exact (IHxs Hxs).
Qed.

Lemma format_attr_provenance E crc msgbuf payload signed link_id m a :
  format_attr E (with_provenance crc msgbuf payload signed link_id m) a
  = format_attr E m a.
Proof. reflexivity. Qed.


(** What a field-by-field comparison that succeeds means. *)
Lemma eq_fields_true E self other names :
  eq_fields E self other names = Ok true ↔
  Forall (λ a, ∃ x y, format_attr E self a = Ok x
                      ∧ format_attr E other a = Ok y
                      ∧ pyval_eqb x y = true) names.
Proof.
  induction names as [|a names IH]; simpl.
  - split; [constructor | reflexivity].
  - split.
    + intros H.
      destruct (format_attr E self a) as [x|] eqn:Hx; simpl in H; [|discriminate].
      destruct (format_attr E other a) as [y|] eqn:Hy; simpl in H; [|discriminate].
      destruct (pyval_eqb x y) eqn:Hxy; simpl in H; [|discriminate].
      constructor; [eauto | by apply IH].
    + intros H. inversion H as [|? ? (x & y & Hx & Hy & Hxy) Hrest]; subst.
      rewrite Hx, Hy. simpl. rewrite Hxy. simpl. by apply IH.
Qed.







(** ** Sessions under [pack] and [send] *)

Lemma only_signing_changed_refl s : only_signing_changed s s.
Proof. by destruct s. Qed.

Lemma only_signing_changed_trans s1 s2 s3 :
  only_signing_changed s1 s2 → only_signing_changed s2 s3 →
  only_signing_changed s1 s3.
Proof.
  unfold only_signing_changed. intros H12 H23.
  rewrite H23 at 1. rewrite H12 at 1. by destruct s1.
Qed.

Lemma only_signing_changed_set s g :
  only_signing_changed s (Mav.set_signing g s).
Proof. by destruct s. Qed.

Lemma sign_packet_session E self mav r self' mav' :
  sign_packet E self mav = (r, self', mav') → only_signing_changed mav mav'.
Proof.
  unfold sign_packet. intros H.
  repeat case_match; simplify_eq;
    auto using only_signing_changed_refl, only_signing_changed_set.
Qed.

Lemma MAVLink_message_pack_session E self mav crc_extra payload force r self' mav' :
  MAVLink_message_pack E self mav crc_extra payload force = (r, self', mav') →
  only_signing_changed mav mav'.
Proof.
  unfold MAVLink_message_pack. intros H.
  repeat case_match; simplify_eq;
    eauto using only_signing_changed_refl, sign_packet_session.
Qed.

Lemma class_pack_session E cls self mav force r self' mav' :
  class_pack E cls self mav force = (r, self', mav') →
  only_signing_changed mav mav'.
Proof.
  unfold class_pack. intros H.
  case_match; simplify_eq;
    eauto using only_signing_changed_refl, MAVLink_message_pack_session.
Qed.

(** C7 as amended.  The counters are advanced by [send], after [pack] has
    returned: when [send] returns, the sequence number has moved on by one
    modulo 256, the packet counter by one and the byte counter by the length
    of the frame that [pack] produced and that was written to the file;
    [pack] itself leaves the three counters as they were. *)
Theorem send_advances_sequence_and_counters
    E cls self mavmsg force mavmsg' self' :
  send E cls self mavmsg force = (Ok tt, mavmsg', self') →
  ∃ buf mav1,
    class_pack E cls mavmsg self force = (Ok buf, mavmsg', mav1)
    ∧ Mav.seq mav1 = Mav.seq self
    ∧ Mav.total_packets_sent mav1 = Mav.total_packets_sent self
    ∧ Mav.total_bytes_sent mav1 = Mav.total_bytes_sent self
    ∧ Mav.seq self' = (Mav.seq self + 1) `mod` 256
    ∧ Mav.total_packets_sent self' = Mav.total_packets_sent self + 1
    ∧ Mav.total_bytes_sent self' = Mav.total_bytes_sent self + Py.len buf
    ∧ Mav.file self' = Mav.file self ++ [buf].
Proof.
  unfold send. intros H.
  destruct (class_pack E cls mavmsg self force) as [[[buf|e] m1] mav1] eqn:Hp;
    simplify_eq.
  apply class_pack_session in Hp as Hs. red in Hs.
  exists buf, mav1. split; [reflexivity|].
  rewrite Hs. destruct self; simpl. repeat split; reflexivity.
Qed.

Lemma send_advances_sequence_and_counters_witness :
  let self' := (send Sample.E Sample.demo_cls Sample.mav Sample.m0 false).2 in
  Mav.seq self' = 1
  ∧ Mav.total_packets_sent self' = 1
  ∧ Mav.total_bytes_sent self' = 25.
Proof.
  intros self'.
  assert (send Sample.E Sample.demo_cls Sample.mav Sample.m0 false
          = (Ok tt,
             (send Sample.E Sample.demo_cls Sample.mav Sample.m0 false).1.2,
             self')) as Hsend by (vm_compute; reflexivity).
  destruct (send_advances_sequence_and_counters _ _ _ _ _ _ _ Hsend)
    as (buf & mav1 & Hp & _ & _ & _ & Hseq & Hpk & Hby & _).
  apply (f_equal (λ x, x.1.1)) in Hp. vm_compute in Hp.
  injection Hp as <-. rewrite Hseq, Hpk, Hby. repeat split; reflexivity.
Defined.

(** C7, the claim as stated, fails: [pack] returns the frame and the session
    still has its sequence number and its sent counters. *)
Lemma pack_leaves_sequence_and_counters :
  class_pack Sample.E Sample.demo_cls Sample.m0 Sample.mav false
  = (Ok Sample.frame,
     (class_pack Sample.E Sample.demo_cls Sample.m0 Sample.mav false).1.2,
     Sample.mav)
  ∧ Mav.seq Sample.mav ≠ (Mav.seq Sample.mav + 1) `mod` 256
  ∧ Mav.total_packets_sent Sample.mav = 0
  ∧ Mav.total_bytes_sent Sample.mav = 0.
Proof.
  split; [vm_compute; reflexivity|].
  split; [vm_compute; discriminate|]. split; reflexivity.
Qed.

(** ** Signature verification *)

Lemma set_timestamp_max_idem (self : Mav.t) (t : Z) :
  let self' :=
    Mav.set_signing
      (Signing.set_timestamp
         (Z.max (Signing.timestamp (Mav.signing self)) t) (Mav.signing self))
      self in
  Mav.set_signing
    (Signing.set_timestamp
       (Z.max (Signing.timestamp (Mav.signing self')) t) (Mav.signing self'))
    self' = self'.
Proof.
  destruct self as [? ? ? ? ? ? ? ? ? ? ? ? ? ? []]; simpl.
  unfold Mav.set_signing, Signing.set_timestamp; simpl.
  by rewrite <- Z.max_assoc, Z.max_id.
Qed.

(** On a stream that is in the table, a timestamp that is not above the
    stored one is rejected and the session is left as it was. *)
Lemma old_timestamp_rejected E self msgbuf srcSystem srcComponent link_id
    timestamp last :
  signature_fields msgbuf = Ok (link_id, timestamp) →
  Signing.stream_timestamps (Mav.signing self)
    !! (link_id, srcSystem, srcComponent) = Some last →
  timestamp ≤ last →
  check_signature E self msgbuf srcSystem srcComponent = (Ok false, self).
Proof.
  intros Hf Hk Hle. unfold check_signature. rewrite Hf, Hk.
  by rewrite (proj2 (Z.leb_le _ _) Hle).
Qed.

(** C2, where the code departs from the claim.  On a stream that is in the
    table, an accepted frame does not raise the stored timestamp, so the
    identical frame submitted again is accepted again, with the session
    unchanged by the second call. *)
Theorem replay_on_known_stream_accepted E self msgbuf srcSystem srcComponent
    link_id timestamp last self' :
  signature_fields msgbuf = Ok (link_id, timestamp) →
  Signing.stream_timestamps (Mav.signing self)
    !! (link_id, srcSystem, srcComponent) = Some last →
  check_signature E self msgbuf srcSystem srcComponent = (Ok true, self') →
  Signing.stream_timestamps (Mav.signing self')
    !! (link_id, srcSystem, srcComponent) = Some last
  ∧ last < timestamp
  ∧ check_signature E self' msgbuf srcSystem srcComponent = (Ok true, self').
Proof.
  intros Hf Hk. unfold check_signature. rewrite Hf, Hk.
  destruct (timestamp <=? last) eqn:Hle; [discriminate|].
  destruct (Signing.secret_key (Mav.signing self)) as [k|] eqn:Hkey;
    [|discriminate].
  destruct (signature_matches E k msgbuf) eqn:Hsig; [|discriminate].
  simpl. intros [= <-].
  assert (Signing.stream_timestamps
            (Mav.signing
               (Mav.set_signing
                  (Signing.set_timestamp
                     (Z.max (Signing.timestamp (Mav.signing self)) timestamp)
                     (Mav.signing self)) self))
          = Signing.stream_timestamps (Mav.signing self)) as Htab
    by (by destruct self as [? ? ? ? ? ? ? ? ? ? ? ? ? ? []]).
  assert (Signing.secret_key
            (Mav.signing
               (Mav.set_signing
                  (Signing.set_timestamp
                     (Z.max (Signing.timestamp (Mav.signing self)) timestamp)
                     (Mav.signing self)) self))
          = Some k) as Hkey'
    by (by destruct self as [? ? ? ? ? ? ? ? ? ? ? ? ? ? []]).
  rewrite Htab, Hk, Hle, Hkey', Hsig. simpl.
  split; [reflexivity|]. split; [by apply Z.leb_gt|].
  f_equal. apply set_timestamp_max_idem.
Qed.

Lemma replay_on_known_stream_accepted_witness :
  let self := Sample.signing_mav 1000 {[ (9, 1, 2) := 5 ]} in
  let self' := (check_signature Sample.E self Sample.signed_frame 1 2).2 in
  check_signature Sample.E self Sample.signed_frame 1 2 = (Ok true, self')
  ∧ check_signature Sample.E self' Sample.signed_frame 1 2 = (Ok true, self').
Proof.
  intros self self'.
  assert (check_signature Sample.E self Sample.signed_frame 1 2
          = (Ok true, self')) as H1 by (vm_compute; reflexivity).
  split; [exact H1|].
  refine (proj2 (proj2 (replay_on_known_stream_accepted Sample.E self
            Sample.signed_frame 1 2 9 1000 5 self' _ _ H1)));
    vm_compute; reflexivity.
Defined.

(** C4.  On a stream that is not in the table, the timestamp is accepted,
    that is recorded as the last one seen on the stream, exactly when it is
    at most 6000000 ticks behind the signing timestamp of the session; the
    frame is then accepted exactly when its signature also matches, and a
    timestamp further in the past rejects the frame and leaves the session
    as it was. *)
Theorem new_stream_backward_tolerance E self msgbuf srcSystem srcComponent
    link_id timestamp secret_key r self' :
  signature_fields msgbuf = Ok (link_id, timestamp) →
  Signing.stream_timestamps (Mav.signing self)
    !! (link_id, srcSystem, srcComponent) = None →
  Signing.secret_key (Mav.signing self) = Some secret_key →
  check_signature E self msgbuf srcSystem srcComponent = (r, self') →
  (Signing.stream_timestamps (Mav.signing self')
     !! (link_id, srcSystem, srcComponent) = Some timestamp
   ↔ Signing.timestamp (Mav.signing self) ≤ timestamp + 6000000)
  ∧ (r = Ok true
     ↔ Signing.timestamp (Mav.signing self) ≤ timestamp + 6000000
       ∧ signature_matches E secret_key msgbuf = true)
  ∧ (timestamp + 6000000 < Signing.timestamp (Mav.signing self)
     → r = Ok false ∧ self' = self).
Proof.
  intros Hf Hk Hkey. unfold check_signature. rewrite Hf, Hk.
  change (6000 * 1000) with 6000000.
  destruct (timestamp + 6000000 <? Signing.timestamp (Mav.signing self))
    eqn:Hlt.
  - apply Z.ltb_lt in Hlt. intros [= <- <-]. rewrite Hk.
    repeat split; try discriminate; try lia; intros []; lia.
  - apply Z.ltb_ge in Hlt.
    set (self1 := Mav.set_signing _ self).
    assert (Signing.secret_key (Mav.signing self1) = Some secret_key) as ->
      by (subst self1; by destruct self as [? ? ? ? ? ? ? ? ? ? ? ? ? ? []]).
    assert (Signing.stream_timestamps (Mav.signing self1)
              !! (link_id, srcSystem, srcComponent) = Some timestamp) as Hins
      by (subst self1; destruct self as [? ? ? ? ? ? ? ? ? ? ? ? ? ? []];
          simpl; apply lookup_insert_eq).
    destruct (signature_matches E secret_key msgbuf); simpl; intros [= <- <-].
    + simpl. repeat split; auto; lia.
    + repeat split; auto; try lia; try discriminate; intros []; discriminate.
Qed.

Lemma new_stream_backward_tolerance_witness :
  let self := Sample.signing_mav 6001000 ∅ in
  let late := Sample.signing_mav 6001001 ∅ in
  (check_signature Sample.E self Sample.signed_frame 1 2).1 = Ok true
  ∧ check_signature Sample.E late Sample.signed_frame 1 2 = (Ok false, late).
Proof.
  intros self late. split.
  - destruct (check_signature Sample.E self Sample.signed_frame 1 2)
      as [r self'] eqn:Hc.
    apply (new_stream_backward_tolerance Sample.E self Sample.signed_frame
             1 2 9 1000 Sample.key r self');
      [vm_compute; reflexivity .. | exact Hc | ].
    split; [vm_compute; discriminate | vm_compute; reflexivity].
  - destruct (check_signature Sample.E late Sample.signed_frame 1 2)
      as [r self'] eqn:Hc.
    destruct (new_stream_backward_tolerance Sample.E late Sample.signed_frame
                1 2 9 1000 Sample.key r self') as (_ & _ & H);
      [vm_compute; reflexivity .. | exact Hc | ].
    destruct H as [-> ->]; [vm_compute; reflexivity | reflexivity].
Defined.

(** ** What [decode] can raise, and what it does to the session *)

Lemma decode_payload_ok tname csize msgbuf headerlen signature_len :
  ∃ mbuf,
    decode_payload tname csize msgbuf headerlen signature_len = Ok mbuf
    ∧ length mbuf = csize
    ∧ mbuf =
        take csize
          (Py.slice msgbuf (Some headerlen) (Some (- (2 + signature_len)))
           ++ replicate
                (csize - length (Py.slice msgbuf (Some headerlen)
                                   (Some (- (2 + signature_len))))) 0).
Proof.
  unfold decode_payload.
  set (region := Py.slice msgbuf _ _).
  destruct (bool_decide (length region < csize)%nat) eqn:Hshort.
  - apply bool_decide_eq_true_1 in Hshort.
    rewrite bool_decide_eq_false_2
      by (rewrite length_app, length_replicate; lia).
    eexists. split; [reflexivity|]. split; [|reflexivity].
    rewrite length_take, length_app, length_replicate. lia.
  - rewrite Hshort. apply bool_decide_eq_false_1 in Hshort.
    eexists. split; [reflexivity|]. split.
    + rewrite length_take. lia.
    + replace (csize - length region)%nat with 0%nat by lia.
      by rewrite app_nil_r.
Qed.

Lemma decode_header_raises msgbuf e :
  decode_header msgbuf = Raise e →
  e = EIndexError ∨ e = EMAVError UnableToUnpackHeader.
Proof.
  unfold decode_header, rbind, of_option. intros H.
  repeat case_match; simplify_eq; auto.
Qed.

Lemma decode_checksum_raises E type msgbuf signature_len msgId e :
  decode_checksum E type msgbuf signature_len msgId = Raise e →
  e = EMAVError UnableToUnpackCRC
  ∨ ∃ crc crc2, e = EMAVError (InvalidCRC msgId crc crc2).
Proof.
  unfold decode_checksum. intros H.
  repeat case_match; simplify_eq; eauto.
Qed.

Lemma signature_fields_raises msgbuf e :
  signature_fields msgbuf = Raise e → e = EIndexError ∨ e = EStructError.
Proof.
  unfold signature_fields, rbind, of_option, Struct.unpack. intros H.
  repeat case_match; simplify_eq; auto.
Qed.

Lemma check_signature_raises E self msgbuf srcSystem srcComponent e self' :
  check_signature E self msgbuf srcSystem srcComponent = (Raise e, self') →
  e = EIndexError ∨ e = EStructError ∨ e = ETypeError.
Proof.
  unfold check_signature. intros H.
  destruct (signature_fields msgbuf) as [[l t]|e0] eqn:Hf.
  - repeat case_match; simplify_eq; auto.
  - simplify_eq. apply signature_fields_raises in Hf. tauto.
Qed.

Lemma decode_signature_raises E self msgbuf signature_len srcSystem
    srcComponent msgId e self' :
  decode_signature E self msgbuf signature_len srcSystem srcComponent msgId
  = (Raise e, self') →
  e = EMAVError InvalidSignature
  ∨ e = EIndexError ∨ e = EStructError ∨ e = ETypeError.
Proof.
  unfold decode_signature. intros H.
  repeat case_match; simplify_eq; auto;
    match goal with
    | Hc : check_signature _ _ _ _ _ = (Raise _, _) |- _ =>
        apply check_signature_raises in Hc; tauto
    end.
Qed.

Lemma rmapM_raises {A B} (f : A → result B) (l : list A) e :
  rmapM f l = Raise e → ∃ x, x ∈ l ∧ f x = Raise e.
Proof.
  induction l as [|x l IH]; simpl; [discriminate|].
  destruct (f x) as [y|e'] eqn:Hx; simpl.
  - destruct (rmapM f l) as [ys|e'']; simpl; [discriminate|].
    intros [= <-]. destruct (IH eq_refl) as (x' & Hin & Hx').
    exists x'. split; [by right | done].
  - intros [= <-]. exists x. split; [by left | done].
Qed.

Lemma decode_order_raises E cls t e :
  decode_order E cls t = Raise e → e = EIndexError.
Proof.
  unfold decode_order. intros H.
  repeat case_match; simplify_eq;
    apply rmapM_raises in H as (x & _ & H);
    unfold rbind, of_option in H; repeat case_match; simplify_eq; auto.
Qed.

Lemma decode_strings_raises E cls tlist e :
  decode_strings E cls tlist = Raise e → e = EIndexError.
Proof.
  unfold decode_strings. intros H.
  apply rmapM_raises in H as (x & _ & H).
  unfold rbind, of_option in H; repeat case_match; simplify_eq; auto.
Qed.

Lemma decode_fields_raises E type msgbuf headerlen signature_len e :
  decode_fields E type msgbuf headerlen signature_len = Raise e →
  e = EIndexError
  ∨ e = EMAVError (UnableToUnpackPayload (Def.name (Class.def type)))
  ∨ e = EMAVError (UnableToInstantiate (Def.name (Class.def type))).
Proof.
  unfold decode_fields.
  destruct (decode_payload_ok (Def.name (Class.def type))
              (Struct.size (Class.format type)) msgbuf headerlen signature_len)
    as (mbuf & -> & _ & _). simpl.
  destruct (Struct.unpack (Class.format type) mbuf) as [t|]; simpl;
    [|intros [= <-]; auto].
  destruct (decode_order E type t) as [tlist|e1] eqn:Ho; simpl;
    [|intros [= <-]; apply decode_order_raises in Ho; auto].
  destruct (decode_strings E type tlist) as [t'|e2] eqn:Hs; simpl;
    [|intros [= <-]; apply decode_strings_raises in Hs; auto].
  destruct (class_init type t'); intros [= <-]; auto.
Qed.

Lemma decode_stamp_raises m msgbuf h signature_len sig_ok crc e :
  decode_stamp m msgbuf h signature_len sig_ok crc = Raise e →
  e = EIndexError.
Proof.
  unfold decode_stamp, rbind, of_option. intros H.
  repeat case_match; simplify_eq; auto.
Qed.

(** The errors of [decode], by raise site. *)
Lemma decode_raises E self msgbuf e self' :
  decode E self msgbuf = (Raise e, self') →
  e = EIndexError ∨ e = EStructError ∨ e = ETypeError
  ∨ e = EMAVError UnableToUnpackHeader
  ∨ (∃ magic, e = EMAVError (InvalidPrefix magic))
  ∨ (∃ got expected msgId headerlen,
       e = EMAVError (InvalidLength got expected msgId headerlen))
  ∨ e = EMAVError UnableToUnpackCRC
  ∨ (∃ msgId crc crc2, e = EMAVError (InvalidCRC msgId crc crc2))
  ∨ e = EMAVError InvalidSignature
  ∨ (∃ tname, e = EMAVError (UnableToUnpackPayload tname))
  ∨ (∃ tname, e = EMAVError (UnableToInstantiate tname)).
Proof.
  unfold decode. intros H.
  destruct (decode_header msgbuf) as [h|e0] eqn:Hh;
    [|simplify_eq; apply decode_header_raises in Hh; tauto].
  case_match; [simplify_eq; eauto 10|].
  case_match; [simplify_eq; eauto 12|].
  destruct (Env.mavlink_map E !! w_msgId h) as [type|]; [|discriminate].
  destruct (decode_checksum E type msgbuf (signature_len_of h) (w_msgId h))
    as [crc|e1] eqn:Hc.
  2:{ simplify_eq. apply decode_checksum_raises in Hc as [ -> | [? [? ->] ] ];
        eauto 12. }
  destruct (decode_signature E self msgbuf (signature_len_of h) (w_srcSystem h)
              (w_srcComponent h) (w_msgId h)) as [[sig_ok|e2] self2] eqn:Hs.
  2:{ simplify_eq. apply decode_signature_raises in Hs. tauto. }
  destruct (decode_fields E type msgbuf (w_headerlen h) (signature_len_of h))
    as [m|e3] eqn:Hf; simpl in H.
  - injection H as H _. apply decode_stamp_raises in H. auto.
  - simplify_eq. apply decode_fields_raises in Hf as [ -> | [ -> | -> ] ]; eauto 14.
Qed.

(** C10.  The zero-padded payload region always has the size of the schema,
    so the error ['Bad message of type ... length ... needs ...'] is never
    raised: neither by the payload step on any frame and size, nor by
    [decode] on any session and frame. *)
Theorem bad_message_length_unreachable E self msgbuf tname csize headerlen
    signature_len got needs :
  (∃ mbuf,
     decode_payload tname csize msgbuf headerlen signature_len = Ok mbuf
     ∧ length mbuf = csize)
  ∧ (decode E self msgbuf).1
    ≠ Raise (EMAVError (BadMessageLength tname got needs)).
Proof.
  split.
  - destruct (decode_payload_ok tname csize msgbuf headerlen signature_len)
      as (mbuf & H1 & H2 & _). eauto.
  - destruct (decode E self msgbuf) as [r self'] eqn:Hd. simpl.
    intros ->. apply decode_raises in Hd.
    naive_solver.
Qed.

Lemma check_signature_frame E self msgbuf srcSystem srcComponent r self' :
  check_signature E self msgbuf srcSystem srcComponent = (r, self') →
  only_signing_changed self self'
  ∧ Signing.secret_key (Mav.signing self') = Signing.secret_key (Mav.signing self)
  ∧ Signing.link_id (Mav.signing self') = Signing.link_id (Mav.signing self)
  ∧ Signing.sign_outgoing (Mav.signing self')
    = Signing.sign_outgoing (Mav.signing self)
  ∧ (r ≠ Ok true →
     Signing.timestamp (Mav.signing self')
     = Signing.timestamp (Mav.signing self)).
Proof.
  destruct self as [? ? ? ? ? ? ? ? ? ? ? ? ? ? []].
  unfold check_signature. intros H.
  repeat case_match; simplify_eq;
    repeat split; try reflexivity; intros; congruence.
Qed.

Lemma decode_signature_frame E self msgbuf signature_len srcSystem
    srcComponent msgId r self' :
  decode_signature E self msgbuf signature_len srcSystem srcComponent msgId
  = (r, self') →
  only_signing_changed self self'
  ∧ Signing.secret_key (Mav.signing self') = Signing.secret_key (Mav.signing self)
  ∧ Signing.link_id (Mav.signing self') = Signing.link_id (Mav.signing self)
  ∧ Signing.sign_outgoing (Mav.signing self')
    = Signing.sign_outgoing (Mav.signing self)
  ∧ (r ≠ Ok true →
     Signing.timestamp (Mav.signing self')
     = Signing.timestamp (Mav.signing self)).
Proof.
  unfold decode_signature. intros H.
  assert (∀ s1 s2 : Mav.t,
            only_signing_changed self s1 →
            (∃ g, s2 = Mav.set_signing g s1) →
            only_signing_changed self s2) as Hstep.
  { intros s1 s2 H1 [g ->]. red in H1. rewrite H1. by destruct self. }
  repeat case_match; simplify_eq;
    try match goal with
    | Hc : check_signature _ _ _ _ _ = _ |- _ =>
        apply check_signature_frame in Hc as (Hc1 & Hc2 & Hc3 & Hc4 & Hc5);
        try (specialize (Hc5 ltac:(congruence)))
    end;
    simpl in *;
    (split; [eauto 6 using only_signing_changed_refl,
               only_signing_changed_set|]);
    repeat split; intros; try congruence; try reflexivity.
Qed.

(** ** Python slices as [take] and [drop] *)

Lemma slice_prefix {A} (l : list A) (k : nat) :
  Py.slice l None (Some (Z.of_nat k)) = take k l.
Proof.
  unfold Py.slice, Py.bound, Py.len.
  destruct (Z.ltb_spec (Z.of_nat k) 0); [lia|].
  rewrite drop_0, Z.sub_0_r.
  destruct (Nat.le_gt_cases k (length l)).
  - f_equal. lia.
  - rewrite !take_ge by lia. reflexivity.
Qed.

Lemma slice_suffix {A} (l : list A) (a : nat) :
  Py.slice l (Some (Z.of_nat a)) None = drop a l.
Proof.
  unfold Py.slice, Py.bound, Py.len.
  destruct (Z.ltb_spec (Z.of_nat a) 0); [lia|].
  destruct (Nat.le_gt_cases a (length l)).
  - replace (Z.to_nat (Z.of_nat a `min` Z.of_nat (length l))) with a by lia.
    apply take_ge. rewrite length_drop. lia.
  - rewrite !drop_ge by lia. by rewrite take_nil.
Qed.

Lemma slice_tail {A} (l : list A) (k : nat) :
  (0 < k)%nat →
  Py.slice l (Some (- Z.of_nat k)) None = drop (length l - k) l.
Proof.
  intros Hk. unfold Py.slice, Py.bound, Py.len.
  destruct (Z.ltb_spec (- Z.of_nat k) 0); [|lia].
  replace (Z.to_nat (0 `max` (Z.of_nat (length l) + - Z.of_nat k)))
    with (length l - k)%nat by lia.
  apply take_ge. rewrite length_drop. lia.
Qed.

Lemma slice_between {A} (l : list A) (a b : nat) :
  Py.slice l (Some (Z.of_nat a)) (Some (Z.of_nat b)) = take (b - a) (drop a l).
Proof.
  unfold Py.slice, Py.bound, Py.len.
  destruct (Z.ltb_spec (Z.of_nat a) 0); [lia|].
  destruct (Z.ltb_spec (Z.of_nat b) 0); [lia|].
  destruct (Nat.le_gt_cases a (length l)).
  - replace (Z.to_nat (Z.of_nat a `min` Z.of_nat (length l))) with a by lia.
    destruct (Nat.le_gt_cases b (length l)).
    + f_equal. lia.
    + rewrite !take_ge by (rewrite length_drop; lia). reflexivity.
  - rewrite !drop_ge by lia. by rewrite !take_nil.
Qed.

Lemma slice_body {A} (l : list A) (a k : nat) :
  (0 < k)%nat →
  Py.slice l (Some (Z.of_nat a)) (Some (- Z.of_nat k))
  = take (length l - k - a) (drop a l).
Proof.
  intros Hk. unfold Py.slice, Py.bound, Py.len.
  destruct (Z.ltb_spec (Z.of_nat a) 0); [lia|].
  destruct (Z.ltb_spec (- Z.of_nat k) 0); [|lia].
  destruct (Nat.le_gt_cases a (length l)).
  - replace (Z.to_nat (Z.of_nat a `min` Z.of_nat (length l))) with a by lia.
    f_equal. lia.
  - rewrite !drop_ge by lia. by rewrite !take_nil.
Qed.

Lemma slice_front {A} (l : list A) (k : nat) :
  (0 < k)%nat →
  Py.slice l None (Some (- Z.of_nat k)) = take (length l - k) l.
Proof.
  intros Hk. unfold Py.slice, Py.bound, Py.len.
  destruct (Z.ltb_spec (- Z.of_nat k) 0); [|lia].
  rewrite drop_0. f_equal. lia.
Qed.

Lemma index_nonneg {A} (l : list A) (i : nat) :
  Py.index l (Z.of_nat i) = l !! i.
Proof.
  unfold Py.index, Py.len.
  destruct (Z.ltb_spec (Z.of_nat i) 0); [lia|].
  destruct (Z.leb_spec 0 (Z.of_nat i)); [|lia].
  destruct (Z.ltb_spec (Z.of_nat i) (Z.of_nat (length l))); simpl.
  - by rewrite Nat2Z.id.
  - symmetry. apply lookup_ge_None. lia.
Qed.

Lemma index_neg {A} (l : list A) (k : nat) :
  (0 < k ≤ length l)%nat →
  Py.index l (- Z.of_nat k) = l !! (length l - k)%nat.
Proof.
  intros Hk. unfold Py.index, Py.len.
  destruct (Z.ltb_spec (- Z.of_nat k) 0); [|lia].
  destruct (Z.leb_spec 0 (Z.of_nat (length l) + - Z.of_nat k)); [|lia].
  destruct (Z.ltb_spec (Z.of_nat (length l) + - Z.of_nat k)
              (Z.of_nat (length l))); [|lia].
  simpl. f_equal. lia.
Qed.

Lemma index_neg_short {A} (l : list A) (k : nat) :
  (length l < k)%nat → Py.index l (- Z.of_nat k) = None.
Proof.
  intros Hk. unfold Py.index, Py.len.
  destruct (Z.ltb_spec (- Z.of_nat k) 0); [|lia].
  destruct (Z.leb_spec 0 (Z.of_nat (length l) + - Z.of_nat k)); [lia|].
  reflexivity.
Qed.

(** ** Headers and the successful run of [decode] *)

Lemma unpack_mav20 b0 b1 b2 b3 b4 b5 b6 b7 b8 b9 :
  Struct.unpack fmt_mav20 [b0; b1; b2; b3; b4; b5; b6; b7; b8; b9]
  = Ok [PBytes [b0]; PInt b1; PInt b2; PInt b3; PInt b4; PInt b5; PInt b6;
        PInt (b7 + 256 * b8); PInt b9].
Proof.
  unfold Struct.unpack. simpl. unfold Struct.unpack_int. simpl.
  rewrite !Z.add_0_r. reflexivity.
Qed.

Lemma unpack_mav10 b0 b1 b2 b3 b4 b5 :
  Struct.unpack fmt_mav10 [b0; b1; b2; b3; b4; b5]
  = Ok [PBytes [b0]; PInt b1; PInt b2; PInt b3; PInt b4; PInt b5].
Proof.
  unfold Struct.unpack. simpl. unfold Struct.unpack_int. simpl.
  rewrite !Z.add_0_r. reflexivity.
Qed.

Lemma unpack_len f bs t : Struct.unpack f bs = Ok t → length bs = Struct.size f.
Proof. unfold Struct.unpack. case_bool_decide; [done|discriminate]. Qed.

Lemma decode_header_inv msgbuf h :
  decode_header msgbuf = Ok h →
  (∃ b1 b2 b3 b4 b5 rest,
     msgbuf = PROTOCOL_MARKER_V1 :: b1 :: b2 :: b3 :: b4 :: b5 :: rest
     ∧ h = WireHeader 6 PROTOCOL_MARKER_V1 b1 0 0 b2 b3 b4 b5)
  ∨ (∃ b0 b1 b2 b3 b4 b5 b6 b7 b8 b9 rest,
       b0 ≠ PROTOCOL_MARKER_V1
       ∧ msgbuf = b0 :: b1 :: b2 :: b3 :: b4 :: b5 :: b6 :: b7 :: b8 :: b9 :: rest
       ∧ h = WireHeader 10 b0 b1 b2 b3 b4 b5 b6
               (Z.lor (b7 + 256 * b8) (Z.shiftl b9 16))).
Proof.
  unfold decode_header. change 0 with (Z.of_nat 0) at 1.
  rewrite index_nonneg.
  destruct msgbuf as [|b0 msgbuf]; [discriminate|]. simpl.
  case_bool_decide as Hb0; simpl.
  - subst b0. change 6 with (Z.of_nat 6) at 1. rewrite slice_prefix.
    destruct (Struct.unpack fmt_mav10 _) as [t|] eqn:Hu; [|discriminate].
    pose proof (unpack_len _ _ _ Hu) as Hlen.
    do 5 (destruct msgbuf as [|? msgbuf]; [discriminate Hlen|]).
    simpl in Hu. rewrite unpack_mav10 in Hu. injection Hu as <-.
    intros [= <-]. left. eauto 10.
  - change 10 with (Z.of_nat 10) at 1. rewrite slice_prefix.
    destruct (Struct.unpack fmt_mav20 _) as [t|] eqn:Hu; [|discriminate].
    pose proof (unpack_len _ _ _ Hu) as Hlen.
    do 9 (destruct msgbuf as [|? msgbuf]; [discriminate Hlen|]).
    simpl in Hu. rewrite unpack_mav20 in Hu. injection Hu as <-.
    intros [= <-]. right. eauto 20.
Qed.

Lemma take_plus_app {A} (l : list A) (a b : nat) :
  take (a + b) l = take a l ++ take b (drop a l).
Proof.
  revert l. induction a as [|a IH]; intros [|x l]; simpl; try done.
  - by rewrite take_nil.
  - by rewrite IH.
Qed.

Lemma signature_len_cases h :
  signature_len_of h = 0 ∨ signature_len_of h = 13.
Proof. unfold signature_len_of. case_match; auto. Qed.

Lemma decode_stamp_payload m0 msgbuf h sl sig_ok crc m :
  decode_stamp m0 msgbuf h sl sig_ok crc = Ok m →
  Msg._payload m = Some (Py.slice msgbuf (Some 6) (Some (- (2 + sl))))
  ∧ Msg._crc m = Some crc
  ∧ Msg._msgbuf m = Some msgbuf
  ∧ Msg._signed m = sig_ok
  ∧ Msg._header m
    = Header.mk (w_msgId h) (w_incompat_flags h) (w_compat_flags h)
        (w_mlen h) (w_seq h) (w_srcSystem h) (w_srcComponent h)
  ∧ Msg.attrs m = Msg.attrs m0
  ∧ Msg._fieldnames m = Msg._fieldnames m0
  ∧ Msg._type m = Msg._type m0.
Proof.
  unfold decode_stamp, rbind, of_option. intros H.
  repeat case_match; simplify_eq; done.
Qed.

(** The successful run of [decode] on a registered message, step by step. *)
Lemma decode_Ok_inv E self msgbuf m self' h type :
  decode_header msgbuf = Ok h →
  Env.mavlink_map E !! w_msgId h = Some type →
  decode E self msgbuf = (Ok m, self') →
  (w_magic h = PROTOCOL_MARKER_V1 ∨ w_magic h = PROTOCOL_MARKER_V2)
  ∧ w_mlen h = Py.len msgbuf - (w_headerlen h + 2 + signature_len_of h)
  ∧ ∃ crc sig_ok m0,
      decode_checksum E type msgbuf (signature_len_of h) (w_msgId h) = Ok crc
      ∧ decode_signature E self msgbuf (signature_len_of h) (w_srcSystem h)
          (w_srcComponent h) (w_msgId h) = (Ok sig_ok, self')
      ∧ decode_fields E type msgbuf (w_headerlen h) (signature_len_of h)
        = Ok m0
      ∧ decode_stamp m0 msgbuf h (signature_len_of h) sig_ok crc = Ok m.
Proof.
  intros Hh Ht. unfold decode. rewrite Hh, Ht.
  repeat case_bool_decide; simpl; try discriminate;
    (destruct (decode_checksum _ _ _ _ _) as [crc|]; [|discriminate]);
    (destruct (decode_signature _ _ _ _ _ _ _) as [[sig_ok|] s]; [|discriminate]);
    (destruct (decode_fields _ _ _ _ _) as [m0|]; [|discriminate]); simpl;
    intros [= Hm <-]; (split; [tauto|]); (split; [done|]); eauto 10.
Qed.

(** C8.  On every frame that decodes to a message of a registered type, the
    payload stored on the instance is the slice of the raw frame from byte 6
    up to the checksum, whatever the header length: on a version-1 frame
    (6-byte header) this is the payload region itself; on a version-2 frame
    (10-byte header) it is the last four header bytes followed by the payload
    region, and it is four bytes longer than the declared payload length. *)
Theorem decoded_payload_starts_at_offset_6 E self msgbuf m self' h type :
  is_bytes msgbuf →
  decode_header msgbuf = Ok h →
  Env.mavlink_map E !! w_msgId h = Some type →
  decode E self msgbuf = (Ok m, self') →
  let stop := Some (- (2 + signature_len_of h)) in
  let region := Py.slice msgbuf (Some (w_headerlen h)) stop in
  Msg._payload m = Some (Py.slice msgbuf (Some 6) stop)
  ∧ Py.len region = w_mlen h
  ∧ (w_magic h = PROTOCOL_MARKER_V1 ∧ w_headerlen h = 6
     ∧ Msg._payload m = Some region
     ∨ w_magic h = PROTOCOL_MARKER_V2 ∧ w_headerlen h = 10
       ∧ Msg._payload m = Some (Py.slice msgbuf (Some 6) (Some 10) ++ region)
       ∧ Py.len (Py.slice msgbuf (Some 6) (Some 10)) = 4
       ∧ Py.len (Py.slice msgbuf (Some 6) stop) = w_mlen h + 4).
Proof.
  intros Hbytes Hh Ht Hd stop region.
  destruct (decode_Ok_inv _ _ _ _ _ _ _ Hh Ht Hd)
    as (Hmagic & Hmlen & crc & sig_ok & m0 & _ & _ & _ & Hstamp).
  apply decode_stamp_payload in Hstamp as (Hp & _).
  split; [exact Hp|]. rewrite Hp. subst stop region.
  assert (∃ k : nat, (0 < k)%nat ∧ 2 + signature_len_of h = Z.of_nat k) as
    (k & Hk & Hsl).
  { destruct (signature_len_cases h) as [-> | ->];
      [exists 2%nat | exists 15%nat]; split; lia. }
  remember (signature_len_of h) as sl eqn:Hsldef. clear Hsldef.
  rewrite Hsl in *.
  destruct (decode_header_inv _ _ Hh)
    as [(b1 & b2 & b3 & b4 & b5 & rest & -> & ->)
       |(b0 & b1 & b2 & b3 & b4 & b5 & b6 & b7 & b8 & b9 & rest & Hb0 & -> & ->)];
    cbn [w_headerlen w_mlen w_magic] in *.
  - assert (0 ≤ b1) as Hb1.
    { inversion Hbytes as [|? ? _ Hb]. inversion Hb as [|? ? [? _] _]. done. }
    change 6 with (Z.of_nat 6). rewrite slice_body by done.
    unfold Py.len in *. rewrite length_take, length_drop.
    split; [lia|]. left. done.
  - assert (0 ≤ b1) as Hb1.
    { inversion Hbytes as [|? ? _ Hb]. inversion Hb as [|? ? [? _] _]. done. }
    destruct Hmagic as [?|Hv2]; [done|].
    change 6 with (Z.of_nat 6). change 10 with (Z.of_nat 10).
    rewrite !slice_body, slice_between by done.
    unfold Py.len in *. rewrite !length_take, !length_drop.
    split; [lia|]. right. split; [done|]. split; [done|].
    simpl length in *. split; [|split; lia].
    f_equal.
    replace (S (S (S (S (S (S (S (S (S (S (length rest)))))))))) - k - 6)%nat
      with (4 + (S (S (S (S (S (S (S (S (S (S (length rest)))))))))) - k - 10))%nat
      by lia.
    rewrite take_plus_app. f_equal.
Qed.

Lemma sample_frame_bytes : is_bytes Sample.frame.
Proof. unfold is_bytes, Sample.frame. repeat (constructor; [lia|]). constructor. Qed.

Lemma decoded_payload_starts_at_offset_6_witness :
  let m := (decode Sample.E Sample.mav Sample.frame).1 in
  ∃ m', m = Ok m'
    ∧ Msg._payload m'
      = Some [2; 7; 0; 0; 253; 255; 255; 255; 1; 0; 2; 0; 0; 0; 5; 104; 105].
Proof.
  intros m. subst m.
  destruct (decode Sample.E Sample.mav Sample.frame) as [[m'|e] self'] eqn:Hd;
    [|vm_compute in Hd; discriminate].
  exists m'. split; [reflexivity|].
  destruct (decoded_payload_starts_at_offset_6 Sample.E Sample.mav Sample.frame
              m' self' (WireHeader 10 253 13 0 0 0 1 2 7) Sample.demo_cls
              sample_frame_bytes) as (Hp & _);
    [vm_compute; reflexivity .. | exact Hd | ].
  rewrite Hp. vm_compute. reflexivity.
Defined.

(** ** The session under [decode] and under the parser *)

Lemma decode_frame E self msgbuf r self' :
  decode E self msgbuf = (r, self') →
  only_signing_changed self self'
  ∧ Signing.secret_key (Mav.signing self') = Signing.secret_key (Mav.signing self)
  ∧ Signing.link_id (Mav.signing self') = Signing.link_id (Mav.signing self)
  ∧ Signing.sign_outgoing (Mav.signing self')
    = Signing.sign_outgoing (Mav.signing self)
  ∧ (∀ e, r = Raise (EMAVError e) → payload_error e = false →
     Signing.timestamp (Mav.signing self')
     = Signing.timestamp (Mav.signing self)).
Proof.
  unfold decode. intros H.
  assert (only_signing_changed self self
          ∧ Signing.secret_key (Mav.signing self)
            = Signing.secret_key (Mav.signing self)
          ∧ Signing.link_id (Mav.signing self) = Signing.link_id (Mav.signing self)
          ∧ Signing.sign_outgoing (Mav.signing self)
            = Signing.sign_outgoing (Mav.signing self)
          ∧ (∀ e, r = Raise (EMAVError e) → payload_error e = false →
             Signing.timestamp (Mav.signing self)
             = Signing.timestamp (Mav.signing self))) as Hsame
    by (split; [apply only_signing_changed_refl | done]).
  destruct (decode_header msgbuf) as [h|]; [|by simplify_eq].
  case_match; [by simplify_eq|].
  case_match; [by simplify_eq|].
  destruct (Env.mavlink_map E !! w_msgId h) as [type|]; [|by simplify_eq].
  destruct (decode_checksum _ _ _ _ _); [|by simplify_eq].
  destruct (decode_signature _ _ _ _ _ _ _) as [[sig_ok|e2] s2] eqn:Hs;
    apply decode_signature_frame in Hs as (Hq1 & Hq2 & Hq3 & Hq4 & Hq5).
  - injection H as Hr <-. repeat (split; [done|]).
    intros e -> He. exfalso.
    destruct (decode_fields _ _ _ _ _) as [m0|e3] eqn:Hf; simpl in Hr.
    + apply decode_stamp_raises in Hr. discriminate.
    + injection Hr as ->.
      apply decode_fields_raises in Hf as [ ? | [ ? | ? ] ]; simplify_eq;
        discriminate.
  - simplify_eq. repeat (split; [done|]). intros. apply Hq5. discriminate.
Qed.

Lemma decode_not_bad_data E self msgbuf m self' data reason :
  decode E self msgbuf = (Ok m, self') → m ≠ MAVLink_bad_data data reason.
Proof.
  intros Hd ->. unfold decode in Hd.
  destruct (decode_header msgbuf) as [h|]; [|discriminate].
  case_match; [discriminate|]. case_match; [discriminate|].
  destruct (Env.mavlink_map E !! w_msgId h) as [type|].
  - destruct (decode_checksum _ _ _ _ _) as [crc|]; [|discriminate].
    destruct (decode_signature _ _ _ _ _ _ _) as [[sig_ok|] s2]; [|discriminate].
    destruct (decode_fields _ _ _ _ _) as [m0|]; [|discriminate].
    simpl in Hd. injection Hd as Hd _.
    apply decode_stamp_payload in Hd as (_ & Hcrc & _). discriminate.
  - injection Hd as Hd _. discriminate.
Qed.

Lemma footprint_refl s : parser_footprint s s.
Proof. repeat split. Qed.

Lemma footprint_trans s1 s2 s3 :
  parser_footprint s1 s2 → parser_footprint s2 s3 → parser_footprint s1 s3.
Proof.
  unfold parser_footprint. intros H12 H23.
  destruct_and!. repeat split; congruence.
Qed.

Lemma footprint_signing s s' :
  only_signing_changed s s' →
  Signing.secret_key (Mav.signing s') = Signing.secret_key (Mav.signing s) →
  Signing.link_id (Mav.signing s') = Signing.link_id (Mav.signing s) →
  Signing.sign_outgoing (Mav.signing s') = Signing.sign_outgoing (Mav.signing s) →
  parser_footprint s s'.
Proof.
  intros Hs ? ? ?. red in Hs. rewrite Hs. destruct s. repeat split; done.
Qed.

Lemma footprint_decode E self msgbuf r self' :
  decode E self msgbuf = (r, self') → parser_footprint self self'.
Proof.
  intros H. apply decode_frame in H as (? & ? & ? & ? & _).
  by apply footprint_signing.
Qed.

Lemma parse_frame_frame E self header_len h3 r self' :
  parse_frame E self header_len h3 = (r, self') →
  parser_footprint self self'
  ∧ (∀ e, frame_error r e → payload_error e = false →
     Signing.timestamp (Mav.signing self')
     = Signing.timestamp (Mav.signing self)).
Proof.
  unfold parse_frame.
  set (mbuf := Py.slice _ _ _).
  set (self1 := Mav.set_expected_length _ _).
  assert (parser_footprint self self1) as H01 by (by destruct self).
  assert (Signing.timestamp (Mav.signing self1)
          = Signing.timestamp (Mav.signing self)) as Ht01 by (by destruct self).
  assert (∀ s, parser_footprint s (add_receive_error s)) as Hadd
    by (by intros []).
  destruct h3 as [[magic incompat_flags]|].
  2:{ intros [= <- <-]. split; [done|]. intros e [?|[? ?]]; discriminate. }
  set (r0 := if _ && _ then _ else decode E self1 mbuf).
  assert (∀ r1 s1, r0 = (r1, s1) →
            parser_footprint self1 s1
            ∧ (∀ e, r1 = Raise (EMAVError e) → payload_error e = false →
               Signing.timestamp (Mav.signing s1)
               = Signing.timestamp (Mav.signing self1))
            ∧ (∀ m data reason, r1 = Ok m → m ≠ MAVLink_bad_data data reason))
    as Hr0.
  { intros r1 s1. subst r0. case_match.
    - intros [= <- <-]. split; [apply footprint_refl|].
      split; [done|discriminate].
    - intros Hd. split; [by eapply footprint_decode|]. split.
      + by apply decode_frame in Hd as (_ & _ & _ & _ & Hd).
      + intros m data reason ->. by eapply decode_not_bad_data. }
  destruct r0 as [r1 s1]. destruct (Hr0 r1 s1 eq_refl) as (Hf & Hts & Hnb).
  destruct (Mav.robust_parsing self1).
  - destruct r1 as [m|[e| | | | | | |]]; intros [= <- <-];
      try (split; [by eapply footprint_trans|];
           intros e' [?|[? ?]]; simplify_eq; by edestruct Hnb).
    split; [eapply footprint_trans; [done|]; eapply footprint_trans; done|].
    intros e' [?|[data Heq]]; [discriminate|].
    intros Hpe.
    assert (e' = e) as ->.
    { apply (f_equal (λ r, match r with
                           | Ok (Some m) => Msg.attrs m !! "reason"
                           | _ => None
                           end)) in Heq.
      unfold MAVLink_bad_data in Heq. simpl in Heq.
      rewrite !lookup_insert_eq in Heq. congruence. }
    replace (Signing.timestamp (Mav.signing (add_receive_error s1)))
      with (Signing.timestamp (Mav.signing s1)) by (by destruct s1).
    rewrite <- Ht01. by eapply Hts.
  - destruct r1 as [m|e]; intros [= <- <-].
    + split; [by eapply footprint_trans|].
      intros e' [?|[? ?]]; simplify_eq. by edestruct Hnb.
    + split; [by eapply footprint_trans|].
      intros e' [?|[? ?]]; simplify_eq. rewrite <- Ht01. by eapply Hts.
Qed.

(** The frame parser under a frame-level error: what [__parse_char_legacy]
    leaves as it was. *)
Lemma parse_char_legacy_frame_error E self r self' e :
  parse_char_legacy E self = (r, self') →
  frame_error r e →
  parser_footprint self self'
  ∧ (payload_error e = false →
     Signing.timestamp (Mav.signing self')
     = Signing.timestamp (Mav.signing self)).
Proof.
  unfold parse_char_legacy. intros Hrun Herr.
  case_match; [simplify_eq; by destruct Herr as [?|[? ?]]|].
  case_match.
  { repeat case_match; simplify_eq; destruct self; repeat split; done. }
  set (self0 := Mav.set_have_prefix_error false self) in *.
  assert (parser_footprint self self0) as Hfp0 by (by destruct self).
  assert (Signing.timestamp (Mav.signing self0)
          = Signing.timestamp (Mav.signing self)) as Ht0 by (by destruct self).
  match type of Hrun with
  | match ?step with _ => _ end = _ => destruct step as [[self1 h3]|e1] eqn:Hstep
  end.
  2:{ simplify_eq. by destruct Herr as [?|[? ?]]. }
  assert (parser_footprint self0 self1
          ∧ Signing.timestamp (Mav.signing self1)
            = Signing.timestamp (Mav.signing self0)) as [Hfp1 Ht1].
  { repeat case_match; simplify_eq; destruct self; repeat split; done. }
  case_match.
  - apply parse_frame_frame in Hrun as [Hf Hts].
    split; [eauto using footprint_trans|].
    intros Hpe. rewrite (Hts e Herr Hpe). congruence.
  - simplify_eq. by destruct Herr as [?|[? ?]].
Qed.

(** C3 as amended.  When [parse_char(c)] fails with a frame-level error [e],
    raised in strict parsing or returned wrapped in a bad-data message in
    robust parsing, the session keeps its sequence number, file, identity,
    parsing mode, sent counters, secret key, link id and signing switch; its
    buffer holds the bytes it held followed by [c]; the received-bytes
    counter has grown by the length of [c]; the received-packets counter is
    as before when the error is raised and one more when the bad-data
    message is returned; and unless [e] is raised while the payload is being
    decoded, so in particular when the signature is rejected, the signing
    timestamp of the session is the one it had before. *)
Theorem frame_error_footprint E self c r self' e :
  parse_char E self c = (r, self') →
  frame_error r e →
  Mav.seq self' = Mav.seq self
  ∧ Mav.file self' = Mav.file self
  ∧ Mav.srcSystem self' = Mav.srcSystem self
  ∧ Mav.srcComponent self' = Mav.srcComponent self
  ∧ Mav.buf self' = Mav.buf self ++ c
  ∧ Mav.robust_parsing self' = Mav.robust_parsing self
  ∧ Mav.total_packets_sent self' = Mav.total_packets_sent self
  ∧ Mav.total_bytes_sent self' = Mav.total_bytes_sent self
  ∧ Mav.total_bytes_received self' = Mav.total_bytes_received self + Py.len c
  ∧ Mav.total_packets_received self'
    = Mav.total_packets_received self
      + match r with Raise _ => 0 | Ok _ => 1 end
  ∧ Signing.secret_key (Mav.signing self')
    = Signing.secret_key (Mav.signing self)
  ∧ Signing.link_id (Mav.signing self') = Signing.link_id (Mav.signing self)
  ∧ Signing.sign_outgoing (Mav.signing self')
    = Signing.sign_outgoing (Mav.signing self)
  ∧ (payload_error e = false →
     Signing.timestamp (Mav.signing self')
     = Signing.timestamp (Mav.signing self)).
Proof.
  unfold parse_char. intros Hrun Herr.
  set (fed := Mav.set_total_bytes_received _ _) in Hrun.
  destruct (parse_char_legacy E fed) as [r0 s0] eqn:Hleg.
  assert (∀ s1, parser_footprint fed s1 →
            (payload_error e = false →
             Signing.timestamp (Mav.signing s1)
             = Signing.timestamp (Mav.signing fed)) →
            ∀ k, self' = Mav.set_total_packets_received
                           (Mav.total_packets_received s1 + k) s1 →
            Mav.seq self' = Mav.seq self
            ∧ Mav.file self' = Mav.file self
            ∧ Mav.srcSystem self' = Mav.srcSystem self
            ∧ Mav.srcComponent self' = Mav.srcComponent self
            ∧ Mav.buf self' = Mav.buf self ++ c
            ∧ Mav.robust_parsing self' = Mav.robust_parsing self
            ∧ Mav.total_packets_sent self' = Mav.total_packets_sent self
            ∧ Mav.total_bytes_sent self' = Mav.total_bytes_sent self
            ∧ Mav.total_bytes_received self'
              = Mav.total_bytes_received self + Py.len c
            ∧ Mav.total_packets_received self'
              = Mav.total_packets_received self + k
            ∧ Signing.secret_key (Mav.signing self')
              = Signing.secret_key (Mav.signing self)
            ∧ Signing.link_id (Mav.signing self')
              = Signing.link_id (Mav.signing self)
            ∧ Signing.sign_outgoing (Mav.signing self')
              = Signing.sign_outgoing (Mav.signing self)
            ∧ (payload_error e = false →
               Signing.timestamp (Mav.signing self')
               = Signing.timestamp (Mav.signing self))) as Hfed.
  { intros s1 Hfp Hts k ->. unfold parser_footprint in Hfp. subst fed.
    destruct self, s1. cbn in *. destruct_and!. subst.
    split_and!; try done. }
  destruct r0 as [[m|]|e0].
  - injection Hrun as <- <-.
    destruct (parse_char_legacy_frame_error E fed _ s0 e Hleg Herr)
      as [Hfp Hts].
    by apply (Hfed s0 Hfp Hts 1).
  - exfalso. case_match; simplify_eq; by destruct Herr as [?|[? ?]].
  - injection Hrun as <- <-.
    destruct (parse_char_legacy_frame_error E fed _ s0 e Hleg Herr)
      as [Hfp Hts].
    apply (Hfed s0 Hfp Hts 0). destruct s0.
    unfold Mav.set_total_packets_received. cbn. f_equal. lia.
Qed.

Lemma parse_frame_cursor E self header_len h3 r self' :
  parse_frame E self header_len h3 = (r, self') →
  Mav.buf_index self' = Mav.buf_index self + Mav.expected_length self
  ∧ Mav.expected_length self' = header_len + 2
  ∧ Mav.buf self' = Mav.buf self.
Proof.
  unfold parse_frame.
  set (mbuf := Py.slice _ _ _).
  set (self1 := Mav.set_expected_length _ _).
  assert (∀ s, only_signing_changed self1 s →
            Mav.buf_index s = Mav.buf_index self + Mav.expected_length self
            ∧ Mav.expected_length s = header_len + 2
            ∧ Mav.buf s = Mav.buf self) as Hcur.
  { intros s Hs. red in Hs. rewrite Hs. by destruct self. }
  assert (∀ s, only_signing_changed self1 s →
            Mav.buf_index (add_receive_error s)
            = Mav.buf_index self + Mav.expected_length self
            ∧ Mav.expected_length (add_receive_error s) = header_len + 2
            ∧ Mav.buf (add_receive_error s) = Mav.buf self) as Hcur'.
  { intros s Hs. red in Hs. rewrite Hs. by destruct self. }
  destruct h3 as [[magic incompat_flags]|].
  2:{ intros [= <- <-]. apply Hcur, only_signing_changed_refl. }
  set (r0 := if _ && _ then _ else decode E self1 mbuf).
  assert (∀ r1 s1, r0 = (r1, s1) → only_signing_changed self1 s1) as Hr0.
  { intros r1 s1. subst r0. case_match.
    - intros [= <- <-]. apply only_signing_changed_refl.
    - intros Hd. by apply decode_frame in Hd as (? & _). }
  destruct r0 as [r1 s1]. specialize (Hr0 r1 s1 eq_refl).
  repeat case_match; intros [= <- <-]; auto.
Qed.

(** C5.  With a version-1 or version-2 magic byte next in the buffer and at
    least three bytes unconsumed, the parser takes the expected total frame
    length to be header length (6 or 10) + length byte + 2, plus 13 exactly
    when the magic is the version-2 marker and the signed bit of the
    incompatibility flags is set.  While fewer bytes are buffered it returns
    no message and keeps that length as its hint; once they are buffered it
    cuts a candidate frame of exactly that length at the cursor, moves the
    cursor past it and hands the candidate to [decode]. *)
Theorem expected_total_frame_length E self magic len incompat_flags :
  let idx := Z.to_nat (Mav.buf_index self) in
  let header_len :=
    if bool_decide (magic = PROTOCOL_MARKER_V2) then 10 else 6 in
  let signed :=
    bool_decide (magic = PROTOCOL_MARKER_V2)
    && negb (bool_decide (Z.land incompat_flags MAVLINK_IFLAG_SIGNED = 0)) in
  let total := header_len + len + 2 + (if signed then 13 else 0) in
  let waiting :=
    Mav.set_expected_length total (Mav.set_have_prefix_error false self) in
  let consumed :=
    Mav.set_expected_length (header_len + 2)
      (Mav.set_buf_index (Mav.buf_index self + total) waiting) in
  let candidate :=
    Py.slice (Mav.buf self) (Some (Mav.buf_index self))
      (Some (Mav.buf_index self + total)) in
  0 ≤ Mav.buf_index self →
  is_bytes (Mav.buf self) →
  3 ≤ buf_len self →
  Mav.buf self !! idx = Some magic →
  Mav.buf self !! (idx + 1)%nat = Some len →
  Mav.buf self !! (idx + 2)%nat = Some incompat_flags →
  magic = PROTOCOL_MARKER_V1 ∨ magic = PROTOCOL_MARKER_V2 →
  (buf_len self < total → parse_char_legacy E self = (Ok None, waiting))
  ∧ (total ≤ buf_len self →
     parse_char_legacy E self
     = parse_frame E waiting header_len (Some (magic, incompat_flags))
     ∧ Py.len candidate = total
     ∧ Mav.buf_index (parse_char_legacy E self).2 = Mav.buf_index self + total
     ∧ (Mav.robust_parsing self = false →
        Z.land incompat_flags (Z.lnot MAVLINK_IFLAG_SIGNED) = 0 →
        parse_char_legacy E self
        = (rbind (decode E consumed candidate).1 (λ m, Ok (Some m)),
           (decode E consumed candidate).2))).
Proof.
  intros idx header_len signed total waiting consumed candidate
    Hidx Hbytes Hlen Hmagic Hlenb Hflags Hversion.
  assert (0 ≤ len < 256) as Hl.
  { eapply Forall_lookup_1 in Hlenb; [|exact Hbytes]. exact Hlenb. }
  assert (Py.index (Mav.buf self) (Mav.buf_index self) = Some magic) as Hat.
  { rewrite <- (Z2Nat.id (Mav.buf_index self)) by done.
    by rewrite index_nonneg. }
  assert (Py.slice (Mav.buf self) (Some (Mav.buf_index self))
            (Some (3 + Mav.buf_index self)) = [magic; len; incompat_flags])
    as Hsbuf.
  { replace (3 + Mav.buf_index self) with (Z.of_nat (idx + 3)) by lia.
    rewrite <- (Z2Nat.id (Mav.buf_index self)) at 1 by done.
    rewrite slice_between.
    replace (idx + 3 - Z.to_nat (Mav.buf_index self))%nat with 3%nat by lia.
    fold idx. 
    apply (list_eq_same_length _ _ 3).
    - reflexivity.
    - rewrite length_take, length_drop. unfold buf_len, Py.len in Hlen. lia.
    - intros i x y Hi. rewrite lookup_take_lt, lookup_drop by done.
      destruct i as [|[|[|]]]; try lia; simpl;
        rewrite ?Nat.add_0_r; intros; simplify_eq; done. }
  assert (Struct.unpack fmt_h3 [magic; len; incompat_flags]
          = Ok [PInt magic; PInt len; PInt incompat_flags]) as Hunpack.
  { unfold Struct.unpack. simpl. unfold Struct.unpack_int. simpl.
    by rewrite !Z.add_0_r. }
  assert (parse_char_legacy E self
          = if (header_len + 2 <=? total) && (total <=? buf_len self)
            then parse_frame E waiting header_len (Some (magic, incompat_flags))
            else (Ok None, waiting)) as Hrun.
  { unfold parse_char_legacy. rewrite Hat.
    replace (1 <=? buf_len self) with true by (symmetry; apply Z.leb_le; lia).
    rewrite (bool_decide_eq_false_2 (Some magic = None)) by done. simpl.
    replace (bool_decide (Some magic = Some PROTOCOL_MARKER_V2))
      with (bool_decide (magic = PROTOCOL_MARKER_V2))
      by (apply bool_decide_ext; naive_solver).
    replace (bool_decide (Some magic = Some PROTOCOL_MARKER_V1))
      with (bool_decide (magic = PROTOCOL_MARKER_V1))
      by (apply bool_decide_ext; naive_solver).
    replace (negb (bool_decide (magic = PROTOCOL_MARKER_V1))
             && negb (bool_decide (magic = PROTOCOL_MARKER_V2))) with false
      by (destruct Hversion as [-> | ->]; reflexivity).
    replace (3 <=? buf_len (Mav.set_have_prefix_error false self)) with true
      by (symmetry; apply Z.leb_le; by destruct self).
    replace (Mav.buf (Mav.set_have_prefix_error false self))
      with (Mav.buf self) by (by destruct self).
    replace (Mav.buf_index (Mav.set_have_prefix_error false self))
      with (Mav.buf_index self) by (by destruct self).
    rewrite Hsbuf, Hunpack.
    replace (buf_len (Mav.set_expected_length _ _)) with (buf_len self)
      by (by destruct self).
    fold header_len signed.
    replace (Mav.expected_length (Mav.set_expected_length _ _)) with total.
    2:{ subst total header_len. destruct self; simpl.
        unfold MAVLINK_SIGNATURE_BLOCK_LEN, HEADER_LEN_V1, HEADER_LEN_V2.
        destruct signed; repeat case_bool_decide; lia. }
    replace (Mav.set_expected_length _ (Mav.set_have_prefix_error false self))
      with waiting.
    2:{ subst waiting total header_len. f_equal.
        unfold MAVLINK_SIGNATURE_BLOCK_LEN, HEADER_LEN_V1, HEADER_LEN_V2.
        destruct signed; repeat case_bool_decide; lia. }
    replace (if bool_decide (magic = PROTOCOL_MARKER_V2)
             then HEADER_LEN_V2 else HEADER_LEN_V1) with header_len
      by reflexivity.
    reflexivity. }
  assert (header_len + 2 ≤ total) as Hmin
    by (subst total; destruct signed; lia).
  assert (6 ≤ header_len) as Hhl
    by (subst header_len; case_bool_decide; lia).
  assert (Z.of_nat idx = Mav.buf_index self) as Hidx' by (subst idx; lia).
  rewrite Hrun. replace (header_len + 2 <=? total) with true
    by (symmetry; by apply Z.leb_le).
  rewrite andb_true_l. split.
  - intros Hshort. by rewrite (proj2 (Z.leb_gt _ _) Hshort).
  - intros Hfull. rewrite (proj2 (Z.leb_le _ _) Hfull).
    split; [reflexivity|].
    assert (Py.len candidate = total) as Hcand.
    { subst candidate.
      replace (Mav.buf_index self + total) with (Z.of_nat (idx + Z.to_nat total))
        by lia.
      rewrite <- Hidx'.
      rewrite slice_between. unfold Py.len.
      rewrite length_take, length_drop. unfold buf_len, Py.len in Hfull.
      lia. }
    split; [exact Hcand|]. split.
    + destruct (parse_frame E waiting header_len (Some (magic, incompat_flags)))
        as [r s'] eqn:Hpf.
      apply parse_frame_cursor in Hpf as (Hc & _). simpl. rewrite Hc.
      subst waiting. by destruct self.
    + intros Hstrict Hflagsok. unfold parse_frame.
      replace (Mav.robust_parsing (Mav.set_expected_length _ _)) with false
        by (subst waiting; by destruct self).
      rewrite (bool_decide_eq_true_2 _ Hflagsok). rewrite andb_false_r.
      replace (Mav.buf waiting) with (Mav.buf self) by (by destruct self).
      replace (Mav.buf_index waiting) with (Mav.buf_index self)
        by (by destruct self).
      replace (Mav.expected_length waiting) with total by (by destruct self).
      fold candidate. fold consumed.
      by destruct (decode E consumed candidate) as [[m|e] s].
Qed.

Lemma frame_error_footprint_witness :
  let s := Sample.receiver true [] in
  let out := parse_char Sample.E s Sample.forged_frame in
  out.1 = Ok (Some (MAVLink_bad_data Sample.forged_frame
                      (PError InvalidSignature)))
  ∧ Mav.buf out.2 = Sample.forged_frame
  ∧ Mav.total_bytes_received out.2 = 38
  ∧ Mav.total_packets_received out.2 = 1
  ∧ Signing.timestamp (Mav.signing out.2) = Signing.timestamp (Mav.signing s).
Proof.
  intros s out.
  assert (out.1 = Ok (Some (MAVLink_bad_data Sample.forged_frame
                              (PError InvalidSignature)))) as Hout
    by (vm_compute; reflexivity).
  split; [exact Hout|].
  destruct (frame_error_footprint Sample.E s Sample.forged_frame out.1 out.2
              InvalidSignature)
    as (_ & _ & _ & _ & Hbuf & _ & _ & _ & Hbytes & Hpackets & _ & _ & _
        & Hts).
  - apply surjective_pairing.
  - right. eexists. exact Hout.
  - rewrite Hout in Hpackets.
    split; [exact Hbuf|]. split; [exact Hbytes|]. split; [exact Hpackets|].
    exact (Hts eq_refl).
Defined.

(** C3, the claim as stated, fails: a frame rejected for its signature is
    counted in the signing statistics of the session (and its timestamp has
    entered the replay table before the signature was compared), in the
    frame parser and so in [parse_char]. *)
Lemma rejected_frame_changes_signing_state :
  let s := Sample.receiver true Sample.forged_frame in
  let r := parse_char_legacy Sample.E s in
  r.1 = Ok (Some (MAVLink_bad_data Sample.forged_frame
                    (PError InvalidSignature)))
  ∧ Signing.sig_count (Mav.signing s) = 0
  ∧ Signing.sig_count (Mav.signing r.2) = 1
  ∧ Signing.badsig_count (Mav.signing s) = 0
  ∧ Signing.badsig_count (Mav.signing r.2) = 1
  ∧ Signing.stream_timestamps (Mav.signing s) !! (9, 1, 2) = None
  ∧ Signing.stream_timestamps (Mav.signing r.2) !! (9, 1, 2) = Some 1000
  ∧ let out :=
      parse_char Sample.E (Sample.receiver true []) Sample.forged_frame in
    out.1 = r.1
    ∧ Signing.sig_count (Mav.signing out.2) = 1
    ∧ Signing.badsig_count (Mav.signing out.2) = 1
    ∧ Signing.stream_timestamps (Mav.signing out.2) !! (9, 1, 2) = Some 1000.
Proof. vm_compute. repeat split. Qed.

Lemma sample_prefix_bytes : is_bytes (take 5 Sample.frame).
Proof. unfold is_bytes. simpl. repeat (constructor; [lia|]). constructor. Qed.

Lemma expected_total_frame_length_witness :
  let short := Sample.receiver false (take 5 Sample.frame) in
  let full := Sample.receiver false Sample.frame in
  parse_char_legacy Sample.E short
  = (Ok None,
     Mav.set_expected_length 25 (Mav.set_have_prefix_error false short))
  ∧ Mav.buf_index (parse_char_legacy Sample.E full).2 = 25.
Proof.
  intros short full. split.
  - refine (proj1 (expected_total_frame_length Sample.E short 253 13 0
                     _ sample_prefix_bytes _ _ _ _ _) _);
      try reflexivity; try (vm_compute; congruence); auto.
  - refine (proj1 (proj2 (proj2 (proj2 (expected_total_frame_length Sample.E
             full 253 13 0 _ sample_frame_bytes _ _ _ _ _) _))));
      try reflexivity; try (vm_compute; congruence); auto.
Defined.

(** ** Trailing zeros: trimming in [pack], padding in [decode] *)

Lemma strip_plen_spec payload n :
  (n ≤ length payload)%nat →
  (strip_plen payload n ≤ n)%nat
  ∧ (1 ≤ n → 1 ≤ strip_plen payload n)%nat
  ∧ (∀ i, (strip_plen payload n ≤ i < n)%nat → payload !! i = Some 0)
  ∧ ((1 < strip_plen payload n)%nat →
     payload !! (strip_plen payload n - 1)%nat ≠ Some 0).
Proof.
  induction n as [|n IH]; intros Hn.
  - simpl. repeat split; intros; lia.
  - destruct n as [|n].
    + simpl. repeat split; intros; lia.
    + change (strip_plen payload (S (S n)))
        with (if bool_decide (payload !! S n = Some 0)
              then strip_plen payload (S n) else S (S n)).
      case_bool_decide as Hz.
      * destruct IH as (H1 & H2 & H3 & H4); [lia|].
        split; [lia|]. split; [intros; apply H2; lia|]. split; [|done].
        intros i Hi. destruct (decide (i = S n)) as [->|]; [done|].
        apply H3. lia.
      * split; [lia|]. split; [lia|]. split; [intros; lia|].
        intros _. by replace (S (S n) - 1)%nat with (S n) by lia.
Qed.

Lemma strip_payload_zeros payload :
  let p := take (strip_plen payload (length payload)) payload in
  payload = p ++ replicate (length payload - length p) 0.
Proof.
  intros p.
  destruct (strip_plen_spec payload (length payload)) as (H1 & _ & H3 & _);
    [done|].
  assert (length p = strip_plen payload (length payload)) as Hp
    by (subst p; rewrite length_take; lia).
  rewrite <- (take_drop (strip_plen payload (length payload)) payload) at 1.
  fold p. f_equal. rewrite Hp.
  apply (list_eq_same_length _ _ (length payload
                                  - strip_plen payload (length payload))).
  - by rewrite length_replicate.
  - rewrite length_drop. lia.
  - intros i x y Hi. rewrite lookup_drop, H3 by lia.
    rewrite lookup_replicate_2 by done. congruence.
Qed.

Lemma sign_packet_message E self mav r self' mav' :
  sign_packet E self mav = (r, self', mav') →
  Msg._payload self' = Msg._payload self
  ∧ Msg._header self' = Msg._header self
  ∧ Msg._crc self' = Msg._crc self
  ∧ Msg.attrs self' = Msg.attrs self
  ∧ Msg._fieldnames self' = Msg._fieldnames self
  ∧ Msg._type self' = Msg._type self.
Proof.
  unfold sign_packet. intros H. repeat case_match; simplify_eq; done.
Qed.

Lemma MAVLink_message_pack_payload E self mav crc_extra payload force r self'
    mav' :
  MAVLink_message_pack E self mav crc_extra payload force = (r, self', mav') →
  let plen :=
    if negb (bool_decide (XML.wire_protocol_version (Env.xml E) = "1.0"))
       && negb force
    then strip_plen payload (length payload) else length payload in
  Msg._payload self' = Some (take plen payload)
  ∧ Header.mlen (Msg._header self') = Py.len (take plen payload)
  ∧ Header.seq (Msg._header self') = Mav.seq mav
  ∧ Header.srcSystem (Msg._header self') = Mav.srcSystem mav
  ∧ Header.srcComponent (Msg._header self') = Mav.srcComponent mav
  ∧ Header.msgId (Msg._header self') = Header.msgId (Msg._header self)
  ∧ Msg.attrs self' = Msg.attrs self
  ∧ Msg._fieldnames self' = Msg._fieldnames self
  ∧ Msg._type self' = Msg._type self.
Proof.
  intros H plen. subst plen. unfold MAVLink_message_pack in H.
  repeat case_match; simplify_eq;
    try match goal with
    | Hs : sign_packet _ _ _ = _ |- _ =>
        apply sign_packet_message in Hs as (-> & -> & _ & -> & -> & ->)
    end; done.
Qed.

(** What [pack] cuts off in version 2, and the padding of [decode]. *)
Lemma trimmed_payload E self mav crc_extra payload :
  XML.wire_protocol_version (Env.xml E) = "2.0" →
  let packed := MAVLink_message_pack E self mav crc_extra payload false in
  let p := take (strip_plen payload (length payload)) payload in
  Msg._payload packed.1.2 = Some p
  ∧ Header.mlen (Msg._header packed.1.2) = Py.len p
  ∧ payload = p ++ replicate (length payload - length p) 0
  ∧ (payload ≠ [] → p ≠ [])
  ∧ ((1 < length p)%nat → last p ≠ Some 0)
  ∧ (payload ≠ [] → Forall (λ b, b = 0) payload → p = [0])
  ∧ (∀ tname csize msgbuf headerlen signature_len,
       let region :=
         Py.slice msgbuf (Some headerlen) (Some (- (2 + signature_len))) in
       decode_payload tname csize msgbuf headerlen signature_len
       = Ok (take csize (region ++ replicate (csize - length region) 0)))
  ∧ (∀ tname msgbuf headerlen signature_len,
       Py.slice msgbuf (Some headerlen) (Some (- (2 + signature_len))) = p →
       decode_payload tname (length payload) msgbuf headerlen signature_len
       = Ok payload).
Proof.
  intros Hv2 packed p.
  destruct packed as [[r self'] mav'] eqn:Hpack. subst packed.
  apply MAVLink_message_pack_payload in Hpack as (Hp & Hm & _).
  rewrite Hv2 in Hp, Hm. simpl in Hp, Hm. fold p in Hp, Hm.
  destruct (strip_plen_spec payload (length payload)) as (H1 & H2 & H3 & H4);
    [done|].
  assert (length p = strip_plen payload (length payload)) as Hlen
    by (subst p; rewrite length_take; lia).
  pose proof (strip_payload_zeros payload) as Hz. simpl in Hz. fold p in Hz.
  assert (payload ≠ [] → p ≠ []) as Hne.
  { intros Hpl Hnil. apply (f_equal length) in Hnil. simpl in Hnil.
    destruct payload; [done|]. simpl in *. lia. }
  assert ((1 < length p)%nat → last p ≠ Some 0) as Hlast.
  { intros Hgt. rewrite last_lookup. rewrite Hlen in *.
    subst p. rewrite lookup_take_lt by lia.
    replace (Nat.pred (strip_plen payload (length payload)))
      with (strip_plen payload (length payload) - 1)%nat by lia.
    by apply H4. }
  assert (∀ tname csize msgbuf headerlen signature_len,
            decode_payload tname csize msgbuf headerlen signature_len
            = Ok (take csize
                    (Py.slice msgbuf (Some headerlen)
                       (Some (- (2 + signature_len)))
                     ++ replicate
                          (csize - length (Py.slice msgbuf (Some headerlen)
                                             (Some (- (2 + signature_len)))))
                          0))) as Hpad.
  { intros. destruct (decode_payload_ok tname csize msgbuf headerlen
                        signature_len) as (mbuf & -> & _ & ->). done. }
  repeat (split; [done|]). split; [|split; [done|]].
  - intros Hpl Hall.
    destruct p as [|b [|b' p']] eqn:Hpeq; [by destruct Hne | | ].
    + f_equal. rewrite Hz in Hall. by inversion Hall.
    + exfalso. apply Hlast; [simpl; lia|].
      rewrite last_lookup.
      destruct (lookup_lt_is_Some_2 (b :: b' :: p')
                  (Nat.pred (length (b :: b' :: p')))) as [x Hx];
        [simpl; lia|].
      rewrite Hx. f_equal.
      rewrite Hz in Hall. apply Forall_app in Hall as [Hall _].
      by eapply Forall_lookup_1 in Hall.
  - intros tname msgbuf headerlen signature_len Hregion.
    rewrite Hpad, Hregion, <- Hz. by rewrite take_ge.
Qed.

(** ** The round trip through [pack] and [decode] *)

(** ** The generator on a well-formed definition *)

Lemma rmapM_Ok {A B} (f : A → result B) (l : list A) ys :
  rmapM f l = Ok ys → Forall2 (λ x y, f x = Ok y) l ys.
Proof.
  revert ys. induction l as [|x l IH]; simpl; intros ys.
  - intros [= <-]. constructor.
  - destruct (f x) as [y|] eqn:Hx; simpl; [|discriminate].
    destruct (rmapM f l) as [ys'|]; simpl; [|discriminate].
    intros [= <-]. constructor; auto.
Qed.

Lemma rmapM_Forall2 {A B} (f : A → result B) (l : list A) ys :
  Forall2 (λ x y, f x = Ok y) l ys → rmapM f l = Ok ys.
Proof.
  induction 1 as [|x y l ys Hx _ IH]; simpl; [done|].
  by rewrite Hx, IH.
Qed.

Lemma list_index_lookup a l k : list_index a l = Some k → l !! k = Some a.
Proof.
  revert k. induction l as [|y l IH]; simpl; intros k; [discriminate|].
  case_bool_decide as Hy.
  - intros [= <-]. by subst.
  - destruct (list_index a l) as [k'|]; simpl; [|discriminate].
    intros [= <-]. simpl. by apply IH.
Qed.

Lemma list_index_NoDup a l k :
  NoDup l → l !! k = Some a → list_index a l = Some k.
Proof.
  intros Hnd. revert k. induction Hnd as [|y l Hy Hnd IH]; intros k;
    [by rewrite lookup_nil|].
  destruct k as [|k]; simpl.
  - intros [= ->]. by rewrite bool_decide_eq_true_2.
  - intros Hk. rewrite bool_decide_eq_false_2.
    + by rewrite (IH k Hk).
    + intros ->. apply Hy. by eapply list_elem_of_lookup_2.
Qed.

Lemma NoDup_fmap_lookup_inj {A B} (g : A → B) (l : list A) i j x y :
  NoDup (g <$> l) → l !! i = Some x → l !! j = Some y → g x = g y → i = j.
Proof.
  intros Hnd Hi Hj Hg.
  eapply NoDup_lookup; [exact Hnd| |]; rewrite list_lookup_fmap.
  - by rewrite Hi.
  - rewrite Hj. simpl. by rewrite Hg.
Qed.

Lemma NoDup_fmap_elem_inj {A B} (g : A → B) (l : list A) x y :
  NoDup (g <$> l) → x ∈ l → y ∈ l → g x = g y → x = y.
Proof.
  intros Hnd [i Hi]%list_elem_of_lookup_1 [j Hj]%list_elem_of_lookup_1 Hg.
  assert (i = j) as -> by (by eapply NoDup_fmap_lookup_inj).
  congruence.
Qed.

Lemma fill_len_map_spec om fl n : ∀ i lm lm',
  fill_len_map om fl i n lm = Ok lm' →
  length lm' = length lm
  ∧ (∀ k, (∀ j, (i ≤ j < i + n)%nat → om !! j ≠ Some k) → lm' !! k = lm !! k)
  ∧ ((∀ j j' k, (i ≤ j < i + n)%nat → (i ≤ j' < i + n)%nat →
        om !! j = Some k → om !! j' = Some k → j = j') →
     ∀ j k, (i ≤ j < i + n)%nat → om !! j = Some k → lm' !! k = fl !! j).
Proof.
  induction n as [|n IH]; intros i lm lm'; simpl.
  - intros [= <-]. split; [done|]. split; [done|]. intros; lia.
  - destruct (om !! i) as [k0|] eqn:Hk0; simpl; [|discriminate].
    destruct (fl !! i) as [L|] eqn:HL; simpl; [|discriminate].
    case_bool_decide as Hlt; [|discriminate].
    intros Hfill. apply IH in Hfill as (Hlen & Hother & Hset).
    rewrite length_insert in Hlen. split; [done|]. split.
    + intros k Hk. rewrite Hother by (intros j Hj; apply Hk; lia).
      apply list_lookup_insert_ne. intros ->. by apply (Hk i); [lia|].
    + intros Hinj j k Hj Hjk.
      destruct (decide (j = i)) as [->|Hne].
      * rewrite Hother.
        -- simplify_eq. rewrite list_lookup_insert_eq by done. by rewrite HL.
        -- intros j' Hj' Hj'k. assert (j' = i) by (eapply Hinj; eauto; lia).
           lia.
      * apply Hset; [|lia|done].
        intros; eapply Hinj; eauto; lia.
Qed.

Lemma generate_inv xml m cls :
  Def_wf m → generate xml m = Ok cls →
  Class.def cls = m
  ∧ Class.format cls
    = Struct.Format
        (if XML.little_endian xml then Struct.LittleEndian else Struct.BigEndian)
        (mavfmt <$> Def.ordered_fields m)
  ∧ length (Class.orders cls) = length (Def.fields m)
  ∧ (∀ i f, Def.fields m !! i = Some f →
       ∃ k, Class.orders cls !! i = Some k
            ∧ Def.ordered_fields m !! k = Some f)
  ∧ Class.lengths cls = fieldlength <$> Def.ordered_fields m.
Proof.
  intros [Hnames Honames Htypes Hlens Hnd Hperm]. unfold generate.
  destruct (rmapM _ _) as [oa|] eqn:Hoa; simpl; [|discriminate].
  destruct (fill_len_map _ _ _ _ _) as [len_map|] eqn:Hfill; simpl;
    [|discriminate].
  intros [= <-]. simpl.
  apply rmapM_Ok in Hoa.
  assert (length (Def.fieldnames m) = length (Def.fields m)) as Hn
    by (by rewrite Hnames, length_fmap).
  assert (length (Def.ordered_fields m) = length (Def.fields m)) as Hno
    by (by apply Permutation_length).
  assert (length oa = length (Def.fields m)) as Hoalen
    by (apply Forall2_length in Hoa; rewrite length_seq in Hoa; lia).
  assert (NoDup (Field.name <$> Def.ordered_fields m)) as Hndo.
  { rewrite Hnames in Hnd. by rewrite Hperm. }
  assert (∀ i f, Def.fields m !! i = Some f →
            ∃ k, (fst <$> oa) !! i = Some k
                 ∧ Def.ordered_fields m !! k = Some f) as Horders.
  { intros i f Hi.
    assert (i < length (Def.fields m))%nat as Hlt by (by eapply lookup_lt_Some).
    destruct (lookup_lt_is_Some_2 oa i) as [[k al] Hoai]; [lia|].
    assert (seq 0 (length (Def.fieldnames m)) !! i = Some i) as Hseq
      by (by rewrite lookup_seq_lt by lia).
    eapply Forall2_lookup_lr in Hoa; [|exact Hseq|exact Hoai].
    simpl in Hoa. rewrite Hnames, list_lookup_fmap, Hi in Hoa. simpl in Hoa.
    destruct (list_index _ _) as [k'|] eqn:Hidx; simpl in Hoa; [|discriminate].
    destruct (Def.ordered_fields m !! i); simpl in Hoa; [|discriminate].
    injection Hoa as -> _.
    exists k. rewrite list_lookup_fmap, Hoai. split; [done|].
    apply list_index_lookup in Hidx.
    rewrite Honames, list_lookup_fmap in Hidx.
    destruct (Def.ordered_fields m !! k) as [g|] eqn:Hg; [|discriminate].
    injection Hidx as Hidx. f_equal.
    eapply (NoDup_fmap_elem_inj Field.name (Def.fields m)); [by rewrite <- Hnames | | |done].
    - rewrite <- Hperm. by eapply list_elem_of_lookup_2.
    - by eapply list_elem_of_lookup_2. }
  split; [done|]. split; [done|]. split; [by rewrite length_fmap|].
  split; [exact Horders|].
  apply fill_len_map_spec in Hfill as (Hlen & _ & Hset).
  rewrite length_replicate in Hlen.
  apply (list_eq_same_length _ _ (length (Def.fields m)));
    [by rewrite length_fmap | lia |].
  intros k L L' Hk HL HL'.
  rewrite list_lookup_fmap in HL'.
  destruct (Def.ordered_fields m !! k) as [g|] eqn:Hg; [|discriminate].
  injection HL' as <-.
  assert (g ∈ Def.fields m) as [i Hi]%list_elem_of_lookup_1
    by (rewrite <- Hperm; by eapply list_elem_of_lookup_2).
  destruct (Horders i g Hi) as (k' & Hk' & Hgk').
  assert (k' = k) as ->.
  { eapply (NoDup_fmap_lookup_inj Field.name (Def.ordered_fields m)); eauto. }
  rewrite (Hset) with (j := i) (k := k) in HL.
  - rewrite Hlens, list_lookup_fmap, Hi in HL. by injection HL.
  - intros j j' k0 Hj Hj' Hjk Hj'k.
    destruct (lookup_lt_is_Some_2 (Def.fields m) j) as [fj Hfj]; [lia|].
    destruct (lookup_lt_is_Some_2 (Def.fields m) j') as [fj' Hfj']; [lia|].
    destruct (Horders j fj Hfj) as (kj & Hkj & Hgj).
    destruct (Horders j' fj' Hfj') as (kj' & Hkj' & Hgj').
    assert (kj = k0) as -> by congruence.
    assert (kj' = k0) as -> by congruence.
    assert (fj = fj') as -> by congruence.
    eapply (NoDup_fmap_lookup_inj Field.name (Def.fields m)); eauto.
    by rewrite <- Hnames.
  - apply lookup_lt_Some in Hi. lia.
  - done.
Qed.

(** ** Integers on the wire *)

Lemma le_encode_length w z : length (Struct.le_encode w z) = w.
Proof. revert z. induction w as [|w IH]; intros z; simpl; [done|]. by rewrite IH. Qed.

Lemma le_decode_encode w z :
  Struct.le_decode (Struct.le_encode w z) = z `mod` 2 ^ (8 * Z.of_nat w).
Proof.
  revert z. induction w as [|w IH]; intros z.
  - simpl. by rewrite Z.mod_1_r.
  - cbn [Struct.le_encode Struct.le_decode]. rewrite IH.
    replace (8 * Z.of_nat (S w)) with (8 + 8 * Z.of_nat w) by lia.
    rewrite Z.pow_add_r by lia. change (2 ^ 8) with 256.
    rewrite Z.rem_mul_r by lia. reflexivity.
Qed.

Lemma endian_involutive o bs : Struct.endian o (Struct.endian o bs) = bs.
Proof. destruct o; simpl; [done|]. apply reverse_involutive. Qed.

Lemma endian_length o bs : length (Struct.endian o bs) = length bs.
Proof. destruct o; simpl; [done|]. apply length_reverse. Qed.

Lemma pack_int_length o w sg z bs :
  Struct.pack_int o w sg z = Ok bs → length bs = w.
Proof.
  unfold Struct.pack_int. case_match; [|discriminate]. intros [= <-].
  by rewrite endian_length, le_encode_length.
Qed.

Lemma unpack_pack_int o w sg z bs :
  (0 < w)%nat →
  Struct.pack_int o w sg z = Ok bs → Struct.unpack_int o w sg bs = z.
Proof.
  intros Hw. unfold Struct.pack_int, Struct.unpack_int, Struct.in_range.
  assert (0 < 2 ^ (8 * Z.of_nat w - 1)) as Hpos by (apply Z.pow_pos_nonneg; lia).
  assert (2 ^ (8 * Z.of_nat w) = 2 * 2 ^ (8 * Z.of_nat w - 1)) as Hdouble.
  { rewrite <- Z.pow_succ_r by lia. f_equal. lia. }
  destruct sg.
  - destruct (_ && _) eqn:Hr; [|discriminate]. intros [= <-].
    apply andb_prop in Hr as [H1 H2].
    apply Z.leb_le in H1. apply Z.ltb_lt in H2.
    rewrite endian_involutive, le_decode_encode, Z.mod_mod by lia.
    simpl. destruct (Z.leb_spec (2 ^ (8 * Z.of_nat w - 1))
                       (z `mod` 2 ^ (8 * Z.of_nat w))) as [Hge|Hlt].
    + destruct (Z.lt_ge_cases z 0).
      * rewrite <- (Z.mod_unique z (2 ^ (8 * Z.of_nat w)) (-1)
                      (z + 2 ^ (8 * Z.of_nat w))); lia.
      * rewrite Z.mod_small in Hge; lia.
    + destruct (Z.lt_ge_cases z 0).
      * rewrite <- (Z.mod_unique z (2 ^ (8 * Z.of_nat w)) (-1)
                      (z + 2 ^ (8 * Z.of_nat w))) in Hlt; lia.
      * rewrite Z.mod_small; lia.
  - destruct (_ && _) eqn:Hr; [|discriminate]. intros [= <-].
    apply andb_prop in Hr as [H1 H2].
    apply Z.leb_le in H1. apply Z.ltb_lt in H2.
    rewrite endian_involutive, le_decode_encode, Z.mod_mod by lia.
    simpl. apply Z.mod_small. lia.
Qed.

Lemma pack_int_Ok o w sg z :
  Struct.in_range w sg z = true →
  ∃ bs, Struct.pack_int o w sg z = Ok bs.
Proof. unfold Struct.pack_int. intros ->. eauto. Qed.

(** ** Lists of atoms *)

Lemma sum_cons x l : Py.sum (x :: l) = (x + Py.sum l)%nat.
Proof. reflexivity. Qed.

Lemma sum_app l1 l2 : Py.sum (l1 ++ l2) = (Py.sum l1 + Py.sum l2)%nat.
Proof.
  induction l1 as [|x l1 IH]; [done|].
  rewrite <- app_comm_cons, !sum_cons, IH. lia.
Qed.

Lemma pack_atoms_length o al vs enc :
  Struct.pack_atoms o al vs = Ok enc → length al = length vs.
Proof.
  revert vs enc. induction al as [|a al IH]; intros [|v vs] enc; simpl;
    try discriminate; [done|].
  destruct (Struct.pack_atom o a v); simpl; [|discriminate].
  destruct (Struct.pack_atoms o al vs) eqn:Hp; simpl; [|discriminate].
  intros _. f_equal. by eapply IH.
Qed.

Lemma pack_float_length o double x enc :
  Struct.pack_float o double x = Ok enc →
  length enc = if double then 8%nat else 4%nat.
Proof.
  unfold Struct.pack_float. destruct double.
  - intros [= <-]. by rewrite endian_length.
  - destruct (PyFloat.to_single x); [|discriminate].
    intros [= <-]. by rewrite endian_length.
Qed.

Lemma pack_atom_size o a v enc :
  Struct.pack_atom o a v = Ok enc → length enc = Struct.atom_size a.
Proof.
  destruct a as [w sg|double| |n], v; simpl; try discriminate.
  - apply pack_int_length.
  - destruct (PyFloat.of_int z) as [x|]; [|discriminate].
    destruct (Struct.pack_float o double x) as [bs|] eqn:Hp; [|discriminate].
    intros [= <-]. by apply pack_float_length in Hp.
  - apply pack_float_length.
  - destruct b as [|? [|]]; try discriminate. by intros [= <-].
  - intros [= <-]. rewrite length_app, length_take, length_replicate. lia.
  - intros [= <-]. rewrite length_app, length_take, length_replicate. lia.
Qed.

Lemma pack_atoms_size o al vs enc :
  Struct.pack_atoms o al vs = Ok enc →
  length enc = Py.sum (Struct.atom_size <$> al).
Proof.
  revert vs enc. induction al as [|a al IH]; intros [|v vs] enc; simpl;
    try discriminate; [by intros [= <-]|].
  destruct (Struct.pack_atom o a v) as [e1|] eqn:H1; simpl; [|discriminate].
  destruct (Struct.pack_atoms o al vs) as [e2|] eqn:H2; simpl; [|discriminate].
  intros [= <-]. rewrite length_app.
  by rewrite (pack_atom_size _ _ _ _ H1), (IH _ _ H2).
Qed.

Lemma pack_atoms_app o al1 al2 vs1 vs2 e1 e2 :
  Struct.pack_atoms o al1 vs1 = Ok e1 →
  Struct.pack_atoms o al2 vs2 = Ok e2 →
  Struct.pack_atoms o (al1 ++ al2) (vs1 ++ vs2) = Ok (e1 ++ e2).
Proof.
  revert vs1 e1. induction al1 as [|a al1 IH]; intros [|v vs1] e1; simpl;
    try discriminate.
  - intros [= <-]. done.
  - destruct (Struct.pack_atom o a v) as [b|]; simpl; [|discriminate].
    destruct (Struct.pack_atoms o al1 vs1) as [bs|] eqn:H1; simpl;
      [|discriminate].
    intros [= <-] H2. rewrite (IH _ _ H1 H2). simpl.
    by rewrite app_assoc.
Qed.

Lemma unpack_atoms_app o al1 al2 e1 e2 :
  length e1 = Py.sum (Struct.atom_size <$> al1) →
  Struct.unpack_atoms o (al1 ++ al2) (e1 ++ e2)
  = Struct.unpack_atoms o al1 e1 ++ Struct.unpack_atoms o al2 e2.
Proof.
  revert e1. induction al1 as [|a al1 IH]; intros e1.
  - intros ->%nil_length_inv. done.
  - rewrite fmap_cons, sum_cons. intros Hlen.
    rewrite <- app_comm_cons. cbn [Struct.unpack_atoms].
    rewrite take_app_le, drop_app_le by lia.
    rewrite IH by (rewrite length_drop; lia).
    reflexivity.
Qed.

Lemma unpack_atoms_length o al bs :
  length (Struct.unpack_atoms o al bs) = length al.
Proof. revert bs. induction al; intros bs; simpl; [done|]. by f_equal. Qed.

Lemma pack_ints o w sg zs :
  (0 < w)%nat →
  Forall (λ z, Struct.in_range w sg z = true) zs →
  ∃ enc,
    Struct.pack_atoms o (replicate (length zs) (Struct.AInt w sg)) (PInt <$> zs)
    = Ok enc
    ∧ Struct.unpack_atoms o (replicate (length zs) (Struct.AInt w sg)) enc
      = PInt <$> zs.
Proof.
  intros Hw. induction 1 as [|z zs Hz _ (enc & Hp & Hu)].
  - by exists [].
  - destruct (pack_int_Ok o w sg z Hz) as [b Hb].
    pose proof (pack_int_length _ _ _ _ _ Hb) as Hlen.
    exists (b ++ enc). rewrite fmap_cons.
    cbn [length replicate Struct.pack_atoms Struct.pack_atom
         Struct.unpack_atoms Struct.unpack_atom Struct.atom_size].
    rewrite Hb, Hp. split; [done|].
    rewrite take_app_length', drop_app_length' by done.
    by rewrite (unpack_pack_int _ _ _ _ _ Hw Hb), Hu.
Qed.

(** ** Strings *)

Lemma MAVString_str_nul_free s k :
  Forall (λ ch, ch ≠ 0) s → MAVString_str (s ++ replicate k 0) = s.
Proof.
  induction 1 as [|ch s Hch _ IH]; simpl.
  - by destruct k.
  - rewrite bool_decide_eq_false_2 by done. by rewrite IH.
Qed.

Lemma rstrip_nul_zeros k : rstrip_nul (replicate k 0) = [].
Proof. induction k as [|k IH]; simpl; [done|]. by rewrite IH. Qed.

Lemma rstrip_nul_split s : ∃ k, s = rstrip_nul s ++ replicate k 0.
Proof.
  induction s as [|ch s [k IH]]; [by exists 0%nat|].
  cbn [rstrip_nul]. destruct (rstrip_nul s) as [|x r] eqn:Hr.
  - case_bool_decide as Hch.
    + exists (S k). subst ch. rewrite IH at 1. reflexivity.
    + exists k. rewrite IH at 1. reflexivity.
  - exists k. rewrite IH at 1. reflexivity.
Qed.

Lemma MAVString_str_padded s k :
  nul_at_end s → MAVString_str (s ++ replicate k 0) = rstrip_nul s.
Proof.
  intros Hs. destruct (rstrip_nul_split s) as [j Hj].
  rewrite Hj at 1. rewrite <- app_assoc, <- replicate_add.
  by apply MAVString_str_nul_free.
Qed.

Lemma to_string_padded E b k :
  valid_env E → nul_at_end (to_string E b) →
  MAVString_str (to_string E (b ++ replicate k 0))
  = rstrip_nul (to_string E b).
Proof.
  intros HE. unfold to_string. rewrite (ve_utf8 E HE).
  destruct (Env.utf8_decode E b) as [u|]; simpl.
  - apply MAVString_str_padded.
  - intros _. reflexivity.
Qed.

(** ** One field *)

Lemma nonchar_atom t :
  t ≠ T_char → t ≠ T_float → t ≠ T_double →
  ∃ w sg, Struct.code_atom (mavfmt_map t) = Struct.AInt w sg ∧ (0 < w)%nat
          ∧ mavfmt_map t ≠ Struct.Cs.
Proof.
  destruct t; intros Ht Hf Hd; try done; simpl; eexists _, _;
    split_and!; done || lia.
Qed.

Lemma item_atoms_array n c :
  c ≠ Struct.Cs →
  Struct.item_atoms (Struct.Item (Some n) c) = replicate n (Struct.code_atom c).
Proof. by destruct c. Qed.

Lemma pack_args_scalar self f v :
  Msg.attrs self !! Field.name f = Some v →
  (Field.type f = T_char ∨ (Field.array_length f ≤ 1)%nat) →
  pack_args self f = Ok [v].
Proof.
  intros Hv Hf. unfold pack_args, getattr. rewrite Hv. simpl.
  destruct Hf as [-> | Hle]; [done|].
  rewrite (proj2 (Nat.ltb_ge _ _) Hle). by rewrite andb_false_r.
Qed.

Lemma pack_args_array self f l :
  Msg.attrs self !! Field.name f = Some (PList l) →
  Field.type f ≠ T_char → (1 < Field.array_length f)%nat →
  length l = Field.array_length f →
  pack_args self f = Ok l.
Proof.
  intros Hv Hty HL Hlen. unfold pack_args, getattr. rewrite Hv. simpl.
  rewrite bool_decide_eq_false_2 by done.
  rewrite (proj2 (Nat.ltb_lt _ _) HL). simpl.
  apply rmapM_Forall2. rewrite <- Hlen.
  apply Forall2_same_length_lookup_2; [by rewrite length_seq|].
  intros i j x Hj Hx. apply lookup_seq in Hj as [-> _]. simpl. by rewrite Hx.
Qed.

Lemma field_roundtrip E o self f v :
  valid_env E → valid_value E f v →
  Field.type f ≠ T_float → Field.type f ≠ T_double →
  Msg.attrs self !! Field.name f = Some v →
  ∃ args enc U x,
    pack_args self f = Ok args
    ∧ Struct.pack_atoms o (field_atoms f) args = Ok enc
    ∧ Struct.unpack_atoms o (field_atoms f) enc = U
    ∧ length U = fieldlength f
    ∧ Forall (λ u, ∀ s, u ≠ PStr s) U
    ∧ decoded_value E f U = Some x
    ∧ format_value E x = format_value E v.
Proof.
  intros HE Hvalid Hfl Hdb Hattr. unfold valid_value in Hvalid.
  destruct (decide (Field.type f = T_char)) as [Hchar|Hnum].
  - rewrite Hchar in Hvalid. simpl in Hvalid.
    destruct Hvalid as (b & -> & Hlen & Hnul).
    rewrite (pack_args_scalar _ _ _ Hattr) by auto.
    unfold field_atoms, mavfmt, decoded_value, fieldlength, terminate_string.
    rewrite Hchar. simpl.
    destruct (Nat.eqb_spec (Field.array_length f) 0) as [H0|H0]; simpl.
    + destruct b as [|x [|]]; try discriminate.
      eexists _, _, _, _. split_and!; try done.
      * repeat constructor. done.
      * simpl. do 2 f_equal.
        rewrite <- (to_string_padded E [x] 0 HE Hnul). by rewrite app_nil_r.
    + eexists _, _, _, _. split_and!; try done.
      * repeat constructor. done.
      * simpl. do 2 f_equal.
        rewrite app_nil_r, (take_ge b) by lia.
        rewrite take_ge by (rewrite length_app, length_replicate; lia).
        by apply to_string_padded.
  - destruct (nonchar_atom _ Hnum Hfl Hdb) as (w & sg & Hatom & Hw & Hcs).
    rewrite Hatom in Hvalid.
    unfold field_atoms, mavfmt, decoded_value, fieldlength, terminate_string.
    rewrite (bool_decide_eq_false_2 _ Hnum).
    destruct (Nat.ltb_spec 1 (Field.array_length f)) as [HL|HL].
    + destruct Hvalid as (zs & -> & Hlen & Hrange).
      rewrite (pack_args_array _ _ _ Hattr) by (by rewrite ?length_fmap).
      destruct (Nat.eqb_spec (Field.array_length f) 0) as [|_]; [lia|].
      destruct (Nat.eqb_spec (Field.array_length f) 1) as [|_]; [lia|].
      simpl negb. cbv iota. rewrite item_atoms_array, Hatom by done.
      rewrite <- Hlen.
      destruct (pack_ints o w sg zs Hw Hrange) as (enc & Hp & Hu).
      eexists _, enc, _, _. split_and!; try done.
      * by rewrite length_fmap.
      * apply Forall_fmap, Forall_true. done.
    + destruct Hvalid as (z & -> & Hrange).
      rewrite (pack_args_scalar _ _ _ Hattr) by auto.
      destruct (pack_int_Ok o w sg z Hrange) as [b Hb].
      pose proof (pack_int_length _ _ _ _ _ Hb) as Hblen.
      pose proof (unpack_pack_int _ _ _ _ _ Hw Hb) as Hub.
      assert (Struct.item_atoms
                (if negb (Field.array_length f =? 0)%nat
                 then Struct.Item (Some (Field.array_length f))
                        (mavfmt_map (Field.type f))
                 else Struct.Item None (mavfmt_map (Field.type f)))
              = [Struct.AInt w sg]) as ->.
      { destruct (Nat.eqb_spec (Field.array_length f) 0) as [H0|H0]; simpl.
        - unfold Struct.item_atoms. simpl. by rewrite Hatom.
        - rewrite item_atoms_array, Hatom by done.
          by replace (Field.array_length f) with 1%nat by lia. }
      assert ((if (Field.array_length f =? 0)%nat then 1%nat
               else Field.array_length f) = 1%nat) as ->
        by (destruct (Nat.eqb_spec (Field.array_length f) 0); lia).
      exists [PInt z], b, [PInt z], (PInt z). simpl.
      rewrite Hb. simpl. rewrite app_nil_r, take_ge, Hub by lia.
      split_and!; try done. repeat constructor. done.
Qed.

Lemma valid_value_nan_free E f v :
  valid_value E f v →
  Field.type f ≠ T_float → Field.type f ≠ T_double →
  nan_free (format_value E v) = true.
Proof.
  unfold valid_value. intros Hv Hfl Hdb.
  assert (∀ zs, forallb nan_free (PInt <$> zs) = true) as Hints
    by (by induction zs).
  destruct (Field.type f); try done; simpl in Hv;
    repeat case_match; destruct Hv as (? & -> & ?); simpl; auto.
Qed.

(** ** All fields of a message, in wire order *)

Lemma payload_roundtrip E o self fs :
  valid_env E →
  Forall (λ f, Field.type f ≠ T_float ∧ Field.type f ≠ T_double) fs →
  (∀ f, f ∈ fs →
     ∃ v, Msg.attrs self !! Field.name f = Some v ∧ valid_value E f v) →
  ∃ argss enc Us,
    rmapM (pack_args self) fs = Ok argss
    ∧ Struct.pack_atoms o (concat (field_atoms <$> fs)) (concat argss) = Ok enc
    ∧ Struct.unpack_atoms o (concat (field_atoms <$> fs)) enc = concat Us
    ∧ Forall2 (field_received E self) fs Us.
Proof.
  intros HE. induction fs as [|f fs IH]; intros Hint Hvals.
  - exists [], [], []. split_and!; done.
  - destruct (Hvals f) as (v & Hattr & Hvalid); [by left|].
    apply Forall_cons in Hint as [[Hfl Hdb] Hint].
    destruct (field_roundtrip E o self f v HE Hvalid Hfl Hdb Hattr)
      as (args & enc1 & U & x & Hargs & Hp1 & Hu1 & HlenU & Hnostr & Hdec & Hfmt).
    destruct IH as (argss & enc2 & Us & Hargss & Hp2 & Hu2 & Hall);
      [done | intros g Hg; apply Hvals; by right|].
    exists (args :: argss), (enc1 ++ enc2), (U :: Us).
    cbn [rmapM]. rewrite Hargs, Hargss. cbn [rbind].
    rewrite !fmap_cons. cbn [concat].
    split; [done|]. split; [by apply pack_atoms_app|]. split.
    + rewrite unpack_atoms_app by (by eapply pack_atoms_size).
      by rewrite Hu1, Hu2.
    + constructor; [|done]. split; [done|]. split; [done|]. eauto.
Qed.

Lemma fieldlength_pos f : (1 ≤ fieldlength f)%nat.
Proof.
  unfold fieldlength.
  destruct (Nat.eqb_spec (Field.array_length f) 0); [lia|].
  case_bool_decide; lia.
Qed.

Lemma concat_block {A} (Us : list (list A)) (ns : list nat) k U :
  Forall2 (λ U n, length U = n) Us ns →
  Us !! k = Some U →
  drop (Py.sum (take k ns)) (concat Us) = U ++ concat (drop (S k) Us).
Proof.
  intros Hall. revert k. induction Hall as [|U0 n Us ns Hn _ IH]; intros k;
    [by rewrite lookup_nil|].
  destruct k as [|k].
  - intros [= ->]. by rewrite drop_0.
  - intros Hk. change (take (S k) (n :: ns)) with (n :: take k ns).
    rewrite sum_cons, <- Hn. cbn [concat].
    rewrite drop_app_add'; [|done]. by apply IH.
Qed.

Lemma sum_ones (ns : list nat) :
  Forall (λ n, 1 ≤ n)%nat ns → Py.sum ns = length ns →
  Forall (λ n, n = 1%nat) ns.
Proof.
  induction 1 as [|n ns Hn Hall IH]; [constructor|].
  rewrite sum_cons. simpl. intros Hsum.
  assert (length ns ≤ Py.sum ns)%nat as Hle.
  { clear -Hall. induction Hall as [|? ? ? ? IH]; [done|].
    rewrite sum_cons. simpl. lia. }
  constructor; [lia|]. apply IH. lia.
Qed.

Lemma sum_take_ones (ns : list nat) k :
  Forall (λ n, n = 1%nat) ns → (k ≤ length ns)%nat → Py.sum (take k ns) = k.
Proof.
  intros Hall. revert k. induction Hall as [|n ns -> _ IH]; intros [|k] Hk;
    try done; [simpl in Hk; lia|].
  change (take (S k) (1%nat :: ns)) with (1%nat :: take k ns).
  rewrite sum_cons, IH; simpl in Hk; lia.
Qed.

Lemma rmapM_total {A B} (f : A → result B) (l : list A) :
  (∀ x, x ∈ l → ∃ y, f x = Ok y) → ∃ ys, rmapM f l = Ok ys.
Proof.
  induction l as [|x l IH]; intros Hl; simpl; [by exists []|].
  destruct (Hl x) as [y Hy]; [by left|].
  destruct IH as [ys Hys]; [intros; apply Hl; by right|].
  rewrite Hy, Hys. simpl. eauto.
Qed.

Lemma length_concat_sum {A} (Us : list (list A)) (ns : list nat) :
  Forall2 (λ U n, length U = n) Us ns → length (concat Us) = Py.sum ns.
Proof.
  induction 1 as [|U n Us ns Hn _ IH]; [done|].
  cbn [concat]. rewrite length_app, sum_cons. lia.
Qed.

Lemma block_head E self (OF : list Field.t) Us k f U :
  Forall2 (field_received E self) OF Us →
  OF !! k = Some f → Us !! k = Some U →
  ∃ u, head U = Some u
       ∧ concat Us !! Py.sum (take k (fieldlength <$> OF)) = Some u
       ∧ take (fieldlength f)
           (drop (Py.sum (take k (fieldlength <$> OF))) (concat Us)) = U
       ∧ (∀ s, u ≠ PStr s).
Proof.
  intros Hall Hf HU.
  assert (Forall2 (λ U n, length U = n) Us (fieldlength <$> OF)) as Hlens.
  { apply Forall2_fmap_r, Forall2_flip.
    eapply Forall2_impl; [exact Hall|]. by intros ? ? [? _]. }
  pose proof (concat_block Us _ k U Hlens HU) as Hblock.
  destruct (Forall2_lookup_lr _ _ _ _ _ _ Hall Hf HU) as (HlenU & Hnostr & _).
  pose proof (fieldlength_pos f) as Hpos.
  destruct U as [|u U']; [simpl in HlenU; lia|].
  exists u. split; [done|]. split; [|split].
  - rewrite <- (Nat.add_0_r (Py.sum _)), <- lookup_drop, Hblock. done.
  - rewrite Hblock, <- HlenU. by rewrite take_app_length.
  - by inversion Hnostr.
Qed.

Lemma decode_order_roundtrip E self cls (FS OF : list Field.t) Us :
  XML.sort_fields (Env.xml E) = true →
  Class.lengths cls = fieldlength <$> OF →
  length (Class.orders cls) = length FS →
  length OF = length FS →
  (∀ i f, FS !! i = Some f →
     ∃ k, Class.orders cls !! i = Some k ∧ OF !! k = Some f) →
  Forall2 (field_received E self) OF Us →
  ∃ tlist,
    decode_order E cls (concat Us) = Ok tlist
    ∧ length tlist = length FS
    ∧ ∀ i f, FS !! i = Some f →
        ∃ k U, OF !! k = Some f ∧ Us !! k = Some U
               ∧ tlist !! i = ordered_value f U.
Proof.
  intros Hsort Hlens Hlen Hlen' Horders Hall.
  assert (Forall2 (λ U n, length U = n) Us (fieldlength <$> OF)) as HUlens.
  { apply Forall2_fmap_r, Forall2_flip.
    eapply Forall2_impl; [exact Hall|]. by intros ? ? [? _]. }
  assert (length Us = length FS) as HlenUs
    by (apply Forall2_length in Hall; lia).
  unfold decode_order. rewrite Hsort, Hlens.
  case_bool_decide as Hflat.
  - (* no arrays *)
    assert (Forall (λ n, n = 1%nat) (fieldlength <$> OF)) as Hones.
    { apply sum_ones; [|done]. apply Forall_fmap, Forall_forall.
      intros f _. apply fieldlength_pos. }
    assert (length (concat Us) = length FS) as HlenT.
    { rewrite (length_concat_sum _ _ HUlens), Hflat, length_fmap. done. }
    rewrite HlenT.
    assert (∀ i f, FS !! i = Some f →
              ∃ k U u, Class.orders cls !! i = Some k ∧ OF !! k = Some f
                       ∧ Us !! k = Some U ∧ concat Us !! k = Some u
                       ∧ ordered_value f U = Some u) as Hstep.
    { intros i f Hi. destruct (Horders i f Hi) as (k & Hk & Hf).
      destruct (lookup_lt_is_Some_2 Us k) as [U HU];
        [apply lookup_lt_Some in Hf; lia|].
      destruct (block_head E self OF Us k f U Hall Hf HU)
        as (u & Hhead & Hat & _ & _).
      rewrite sum_take_ones in Hat;
        [|done|rewrite length_fmap; apply lookup_lt_Some in Hf; lia].
      exists k, U, u. split_and!; try done.
      unfold ordered_value.
      assert (fieldlength f = 1%nat) as ->; [|done].
      eapply Forall_lookup_1 in Hones; [exact Hones|].
      by rewrite list_lookup_fmap, Hf. }
    destruct (rmapM_total
                (λ i : nat,
                   rbind (of_option EIndexError (Class.orders cls !! i))
                     (λ k, of_option EIndexError (concat Us !! k)))
                (seq 0 (length FS))) as [tlist Htl].
    { intros i [_ Hi]%elem_of_seq.
      destruct (lookup_lt_is_Some_2 FS i) as [f Hf]; [lia|].
      destruct (Hstep i f Hf) as (k & U & u & Hk & _ & _ & Hat & _).
      rewrite Hk. simpl. rewrite Hat. simpl. eauto. }
    exists tlist. split; [done|]. apply rmapM_Ok in Htl.
    split; [apply Forall2_length in Htl; by rewrite length_seq in Htl|].
    intros i f Hi.
    destruct (Hstep i f Hi) as (k & U & u & Hk & Hf & HU & Hat & Hov).
    exists k, U. split; [done|]. split; [done|].
    destruct (lookup_lt_is_Some_2 tlist i) as [y Hy].
    { apply Forall2_length in Htl. rewrite length_seq in Htl.
      apply lookup_lt_Some in Hi. lia. }
    eapply Forall2_lookup_lr in Htl;
      [|apply lookup_seq_lt; by eapply lookup_lt_Some|exact Hy].
    simpl in Htl. rewrite Hk in Htl. simpl in Htl. rewrite Hat in Htl.
    simpl in Htl.
    rewrite Hy, Hov. congruence.
  - (* some arrays *)
    set (step := λ order : nat, _).
    assert (∀ i f, FS !! i = Some f →
              ∃ k U y, Class.orders cls !! i = Some k ∧ OF !! k = Some f
                       ∧ Us !! k = Some U ∧ step k = Ok y
                       ∧ ordered_value f U = Some y) as Hstep.
    { intros i f Hi. destruct (Horders i f Hi) as (k & Hk & Hf).
      destruct (lookup_lt_is_Some_2 Us k) as [U HU];
        [apply lookup_lt_Some in Hf; lia|].
      destruct (block_head E self OF Us k f U Hall Hf HU)
        as (u & Hhead & Hat & Htake & Hnostr).
      exists k, U. subst step. cbn beta.
      rewrite list_lookup_fmap, Hf. cbn [fmap option_fmap option_map rbind of_option].
      rewrite Hat. cbn [rbind of_option]. rewrite Htake.
      unfold ordered_value.
      destruct (Nat.eqb_spec (fieldlength f) 1) as [H1|H1].
      - rewrite bool_decide_eq_true_2 by done. simpl.
        exists u. split_and!; done.
      - rewrite bool_decide_eq_false_2 by done. simpl.
        destruct u; try (eexists; split_and!; done).
        by destruct (Hnostr s). }
    destruct (rmapM_total step (Class.orders cls)) as [tlist Htl].
    { intros k [i Hi]%list_elem_of_lookup_1.
      destruct (lookup_lt_is_Some_2 FS i) as [f Hf];
        [apply lookup_lt_Some in Hi; lia|].
      destruct (Hstep i f Hf) as (k' & U & y & Hk' & _ & _ & Hy & _).
      assert (k' = k) as -> by congruence. eauto. }
    exists tlist. split; [done|]. apply rmapM_Ok in Htl.
    split; [apply Forall2_length in Htl; lia|].
    intros i f Hi.
    destruct (Hstep i f Hi) as (k & U & y & Hk & Hf & HU & Hy & Hov).
    exists k, U. split; [done|]. split; [done|].
    destruct (lookup_lt_is_Some_2 tlist i) as [y' Hy'].
    { apply Forall2_length in Htl. apply lookup_lt_Some in Hk. lia. }
    eapply Forall2_lookup_lr in Htl; [|exact Hk|exact Hy'].
    rewrite Hy', Hov. congruence.
Qed.

Lemma decode_strings_roundtrip E cls (FS : list Field.t) tlist :
  Def.fieldtypes (Class.def cls) = Field.type <$> FS →
  length tlist = length FS →
  ∃ t, decode_strings E cls tlist = Ok t
       ∧ length t = length FS
       ∧ ∀ i f y, FS !! i = Some f → tlist !! i = Some y →
           t !! i = Some (terminate_string E (Field.type f) y).
Proof.
  intros Htypes Hlen. unfold decode_strings. rewrite Htypes.
  set (step := λ iv : nat * pyval, _).
  assert (∀ i f y, FS !! i = Some f → tlist !! i = Some y →
            zip (seq 0 (length tlist)) tlist !! i = Some (i, y)
            ∧ step (i, y) = Ok (terminate_string E (Field.type f) y))
    as Hstep.
  { intros i f y Hf Hy. split.
    - apply lookup_zip_with_Some. exists i, y. split; [done|].
      split; [|done]. apply lookup_seq_lt. by eapply lookup_lt_Some.
    - subst step. simpl. by rewrite list_lookup_fmap, Hf. }
  destruct (rmapM_total step (zip (seq 0 (length tlist)) tlist)) as [t Ht].
  { intros [i y] [j Hj]%list_elem_of_lookup_1.
    apply lookup_zip_with_Some in Hj as (i' & y' & [= <- <-] & Hi & Hy).
    apply lookup_seq in Hi as [-> Hi]. simpl in *.
    destruct (lookup_lt_is_Some_2 FS j) as [f Hf]; [lia|].
    destruct (Hstep j f y Hf Hy) as [_ ->]. eauto. }
  exists t. split; [done|]. apply rmapM_Ok in Ht.
  assert (length t = length FS) as Hlent.
  { apply Forall2_length in Ht.
    rewrite length_zip_with, length_seq in Ht. lia. }
  split; [done|]. intros i f y Hf Hy.
  destruct (Hstep i f y Hf Hy) as [Hz Hs].
  destruct (lookup_lt_is_Some_2 t i) as [x Hx];
    [apply lookup_lt_Some in Hf; lia|].
  eapply Forall2_lookup_lr in Ht; [|exact Hz|exact Hx].
  rewrite Hx. congruence.
Qed.

Lemma setattr_foldl_other (l : list (Field.t * pyval)) m a :
  a ∉ (Field.name <$> l.*1) →
  Msg.attrs (foldl (λ m fv, Msg.setattr (Field.name fv.1) fv.2 m) m l) !! a
  = Msg.attrs m !! a.
Proof.
  revert m. induction l as [|[f x] l IH]; intros m Ha; simpl; [done|].
  simpl in Ha. apply not_elem_of_cons in Ha as [Hne Ha].
  rewrite IH by done. simpl. by rewrite lookup_insert_ne.
Qed.

Lemma setattr_foldl_frame (l : list (Field.t * pyval)) m :
  let m' := foldl (λ m fv, Msg.setattr (Field.name fv.1) fv.2 m) m l in
  Msg._type m' = Msg._type m ∧ Msg._fieldnames m' = Msg._fieldnames m
  ∧ Msg._header m' = Msg._header m.
Proof.
  revert m. induction l as [|[f x] l IH]; intros m; simpl; [done|].
  destruct (IH (Msg.setattr (Field.name f) x m)) as (-> & -> & ->). done.
Qed.

Lemma setattr_foldl_lookup (FS : list Field.t) (t : list pyval) m i f x :
  NoDup (Field.name <$> FS) →
  FS !! i = Some f → t !! i = Some x →
  Msg.attrs (foldl (λ m fv, Msg.setattr (Field.name fv.1) fv.2 m) m
               (zip FS t)) !! Field.name f = Some x.
Proof.
  revert t m i. induction FS as [|g FS IH]; intros t m i Hnd Hf Hx;
    [by rewrite lookup_nil in Hf|].
  destruct t as [|y t]; [by rewrite lookup_nil in Hx|].
  rewrite fmap_cons in Hnd. apply NoDup_cons in Hnd as [Hg Hnd].
  destruct i as [|i]; simpl in *.
  - simplify_eq. rewrite setattr_foldl_other.
    + simpl. apply lookup_insert_eq.
    + intros Hin. apply Hg.
      apply list_elem_of_fmap in Hin as (h & -> & Hh).
      apply list_elem_of_fmap in Hh as ([h' z] & -> & Hh).
      apply elem_of_zip_l in Hh. simpl. by apply list_elem_of_fmap_2.
  - by eapply IH.
Qed.

Lemma class_init_roundtrip cls (t : list pyval) :
  NoDup (Field.name <$> Def.fields (Class.def cls)) →
  length t = length (Def.fields (Class.def cls)) →
  ∃ d, class_init cls t = Ok d
       ∧ Msg._type d = Def.name (Class.def cls)
       ∧ Msg._fieldnames d = Def.fieldnames (Class.def cls)
       ∧ ∀ i f x, Def.fields (Class.def cls) !! i = Some f →
           t !! i = Some x → Msg.attrs d !! Field.name f = Some x.
Proof.
  intros Hnd Hlen. unfold class_init.
  rewrite bool_decide_eq_true_2
    by (destruct (Def.extensions_start (Class.def cls)); lia).
  assert (rmapM (λ i : nat,
                   match t !! i with
                   | Some v => Ok v
                   | None =>
                       of_option EIndexError (Class.fielddefaults cls !! i)
                   end) (seq 0 (length (Def.fields (Class.def cls)))) = Ok t)
    as ->.
  { apply rmapM_Forall2. rewrite <- Hlen.
    apply Forall2_same_length_lookup_2; [by rewrite length_seq|].
    intros i j x Hj Hx. apply lookup_seq in Hj as [-> _]. simpl.
    by rewrite Hx. }
  simpl. eexists. split; [done|].
  destruct (setattr_foldl_frame (zip (Def.fields (Class.def cls)) t)
              (Msg.set_fieldnames (Def.fieldnames (Class.def cls))
                 (Msg.new (Def.id (Class.def cls)) (Def.name (Class.def cls)))))
    as (-> & -> & _).
  split; [done|]. split; [done|].
  intros i f x Hf Hx. by eapply setattr_foldl_lookup.
Qed.

(** The fields of a valid instance through [struct.pack] in the generated
    [pack] and through the field steps of [decode]. *)
Lemma message_fields_roundtrip E m cls self :
  valid_env E → Def_wf m → generate (Env.xml E) m = Ok cls →
  float_free m → valid_message E m self →
  ∃ payload,
    rbind (rmapM (pack_args self) (Def.ordered_fields (Class.def cls)))
      (λ args, Struct.pack (Class.format cls) (concat args)) = Ok payload
    ∧ length payload = Struct.size (Class.format cls)
    ∧ ∀ msgbuf headerlen signature_len,
        payload
        = Py.slice msgbuf (Some headerlen) (Some (- (2 + signature_len)))
          ++ replicate
               (length payload
                - length (Py.slice msgbuf (Some headerlen)
                            (Some (- (2 + signature_len))))) 0 →
        ∃ d0,
          decode_fields E cls msgbuf headerlen signature_len = Ok d0
          ∧ Msg._type d0 = Def.name m
          ∧ Msg._fieldnames d0 = Def.fieldnames m
          ∧ ∀ f, f ∈ Def.fields m →
              ∃ x v, Msg.attrs d0 !! Field.name f = Some x
                     ∧ Msg.attrs self !! Field.name f = Some v
                     ∧ format_value E x = format_value E v.
Proof.
  intros HE Hwf Hgen Hint Hmsg.
  destruct (generate_inv _ _ _ Hwf Hgen)
    as (Hdef & Hfmt & Hlenom & Horders & Hlens).
  destruct Hwf as [Hnames Honames Htypes Hflens Hnd Hperm].
  set (o := if XML.little_endian (Env.xml E)
            then Struct.LittleEndian else Struct.BigEndian) in *.
  destruct (payload_roundtrip E o self (Def.ordered_fields m) HE)
    as (argss & enc & Us & Hargss & Hpack & Hunpack & Hall).
  { unfold float_free in Hint. by rewrite Hperm. }
  { intros f Hf. apply (vm_values E m self Hmsg). by rewrite <- Hperm. }
  assert (Struct.atoms (Class.format cls)
          = concat (field_atoms <$> Def.ordered_fields m)) as Hatoms.
  { rewrite Hfmt. unfold Struct.atoms. simpl. f_equal.
    by rewrite <- list_fmap_compose. }
  assert (Struct.order (Class.format cls) = o) as Horder by (by rewrite Hfmt).
  pose proof (pack_atoms_size _ _ _ _ Hpack) as Hsize.
  rewrite <- Hatoms in Hsize. fold (Struct.size (Class.format cls)) in Hsize.
  exists enc. rewrite Hdef, Hargss. cbn [rbind]. unfold Struct.pack.
  rewrite Horder, Hatoms. split; [done|]. split; [done|].
  intros msgbuf headerlen signature_len Hregion.
  unfold decode_fields.
  destruct (decode_payload_ok (Def.name (Class.def cls))
              (Struct.size (Class.format cls)) msgbuf headerlen signature_len)
    as (mbuf & -> & _ & Hmbuf).
  rewrite <- Hsize, <- Hregion, take_ge in Hmbuf by done. subst mbuf.
  cbn [rbind]. unfold Struct.unpack.
  rewrite bool_decide_eq_true_2 by done. rewrite Horder, Hatoms, Hunpack.
  cbn [rbind].
  assert (length (Def.ordered_fields m) = length (Def.fields m)) as Hlenof
    by (by apply Permutation_length).
  destruct (decode_order_roundtrip E self cls (Def.fields m)
              (Def.ordered_fields m) Us (ve_sort_fields E HE) Hlens Hlenom
              Hlenof Horders Hall) as (tlist & -> & Hlentl & Htl).
  cbn [rbind].
  destruct (decode_strings_roundtrip E cls (Def.fields m) tlist)
    as (t & -> & Hlent & Ht); [by rewrite Hdef | done |].
  cbn [rbind].
  destruct (class_init_roundtrip cls t) as (d & -> & Htype & Hfn & Hattrs).
  { rewrite Hdef. by rewrite <- Hnames. }
  { by rewrite Hdef. }
  exists d. rewrite Hdef in *. split; [done|]. split; [done|]. split; [done|].
  intros f [i Hi]%list_elem_of_lookup_1.
  destruct (Htl i f Hi) as (k & U & Hk & HU & Hov).
  destruct (Forall2_lookup_lr _ _ _ _ _ _ Hall Hk HU)
    as (_ & _ & x & v & Hv & Hdec & Hfv).
  unfold decoded_value in Hdec. fold (ordered_value f U) in Hdec.
  destruct (ordered_value f U) as [y|] eqn:Hy; [|discriminate].
  injection Hdec as <-.
  exists (terminate_string E (Field.type f) y), v.
  split; [|done]. eapply Hattrs; [done|]. by apply Ht.
Qed.

(** ** The checksum is a 16-bit value *)

Lemma lxor_bound n a b :
  0 ≤ n → 0 ≤ a < 2 ^ n → 0 ≤ b < 2 ^ n → 0 ≤ Z.lxor a b < 2 ^ n.
Proof.
  intros Hn Ha Hb.
  assert (0 ≤ Z.lxor a b) as Hnn
    by (apply Z.lxor_nonneg; split; intros; lia).
  split; [done|].
  destruct (Z.eq_dec (Z.lxor a b) 0) as [Heq|Hne]; [rewrite Heq; lia|].
  assert (0 < Z.lxor a b) as Hpos by lia.
  assert (0 < n) as Hnpos.
  { destruct (Z.eq_dec n 0) as [->|]; [|lia].
    change (2 ^ 0) with 1 in *.
    assert (a = 0) as -> by lia. assert (b = 0) as -> by lia. done. }
  apply Z.log2_lt_pow2; [done|].
  pose proof (Z.log2_lxor a b ltac:(lia) ltac:(lia)) as Hlog.
  assert (Z.log2 a < n) as Hla.
  { destruct (Z.eq_dec a 0) as [->|]; [simpl; lia|].
    apply Z.log2_lt_pow2; lia. }
  assert (Z.log2 b < n) as Hlb.
  { destruct (Z.eq_dec b 0) as [->|]; [simpl; lia|].
    apply Z.log2_lt_pow2; lia. }
  lia.
Qed.

Lemma accumulate_byte_range accum b :
  0 ≤ accum < 65536 → 0 ≤ x25crc.accumulate_byte accum b < 65536.
Proof.
  intros Ha. unfold x25crc.accumulate_byte.
  set (tmp := Z.land _ 0xff).
  assert (0 ≤ tmp < 256) as Htmp.
  { subst tmp. change 0xff with (Z.ones 8). rewrite Z.land_ones by lia.
    apply Z.mod_pos_bound. lia. }
  change 65536 with (2 ^ 16).
  repeat apply lxor_bound; try lia.
  - rewrite Z.shiftr_div_pow2 by lia. change (2 ^ 8) with 256.
    change (2 ^ 16) with 65536.
    split; [apply Z.div_pos; lia|].
    apply Z.div_lt_upper_bound; lia.
  - rewrite Z.shiftl_mul_pow2 by lia. change (2 ^ 8) with 256.
    change (2 ^ 16) with 65536. lia.
  - rewrite Z.shiftl_mul_pow2 by lia. change (2 ^ 3) with 8.
    change (2 ^ 16) with 65536. lia.
  - rewrite Z.shiftr_div_pow2 by lia. change (2 ^ 4) with 16.
    change (2 ^ 16) with 65536.
    split; [apply Z.div_pos; lia|].
    apply Z.div_lt_upper_bound; lia.
Qed.

Lemma accumulate_range crc buf :
  0 ≤ crc < 65536 → 0 ≤ x25crc.accumulate crc buf < 65536.
Proof.
  revert crc. induction buf as [|b buf IH]; intros crc Hc; simpl; [done|].
  apply IH, accumulate_byte_range, Hc.
Qed.

Lemma x25crc_range buf : 0 ≤ x25crc.new buf < 65536.
Proof. apply accumulate_range. lia. Qed.

Lemma accumulate_app crc b1 b2 :
  x25crc.accumulate crc (b1 ++ b2)
  = x25crc.accumulate (x25crc.accumulate crc b1) b2.
Proof. apply foldl_app. Qed.

(** ** Bytes and words in headers *)

Lemma pack_B z :
  0 ≤ z < 256 → Struct.pack_int Struct.LittleEndian 1 false z = Ok [z].
Proof.
  intros Hz. unfold Struct.pack_int, Struct.in_range.
  change (2 ^ (8 * Z.of_nat 1)) with 256.
  rewrite (proj2 (Z.leb_le 0 z)), (proj2 (Z.ltb_lt z 256)) by lia. simpl.
  by rewrite !(Z.mod_small z 256) by lia.
Qed.

Lemma pack_H z :
  0 ≤ z < 65536 →
  Struct.pack_int Struct.LittleEndian 2 false z = Ok [z `mod` 256; z `div` 256].
Proof.
  intros Hz. unfold Struct.pack_int, Struct.in_range.
  change (2 ^ (8 * Z.of_nat 2)) with 65536.
  rewrite (proj2 (Z.leb_le 0 z)), (proj2 (Z.ltb_lt z 65536)) by lia. simpl.
  rewrite (Z.mod_small z 65536) by lia.
  rewrite (Z.mod_small (z `div` 256)); [done|].
  split; [apply Z.div_pos; lia|]. apply Z.div_lt_upper_bound; lia.
Qed.

Lemma msgId_split id :
  0 ≤ id →
  Z.lor (Z.land id 0xFFFF `mod` 256 + 256 * (Z.land id 0xFFFF `div` 256))
        (Z.shiftl (Z.shiftr id 16) 16) = id.
Proof.
  intros Hid. rewrite Z.add_comm, <- Z.div_mod by lia.
  change 0xFFFF with (Z.ones 16).
  rewrite <- Z.ldiff_ones_r by lia. rewrite Z.lor_comm.
  apply Z.lor_ldiff_and.
Qed.

Lemma pack_v2_header a0 a1 a2 a3 a4 a5 a6 a7 a8 :
  0 ≤ a0 < 256 → 0 ≤ a1 < 256 → 0 ≤ a2 < 256 → 0 ≤ a3 < 256 →
  0 ≤ a4 < 256 → 0 ≤ a5 < 256 → 0 ≤ a6 < 256 → 0 ≤ a7 < 65536 →
  0 ≤ a8 < 256 →
  Struct.pack fmt_v2_header
    [PInt a0; PInt a1; PInt a2; PInt a3; PInt a4; PInt a5; PInt a6; PInt a7;
     PInt a8]
  = Ok [a0; a1; a2; a3; a4; a5; a6; a7 `mod` 256; a7 `div` 256; a8].
Proof.
  intros. unfold Struct.pack.
  change (Struct.atoms fmt_v2_header)
    with [Struct.AInt 1 false; Struct.AInt 1 false; Struct.AInt 1 false;
          Struct.AInt 1 false; Struct.AInt 1 false; Struct.AInt 1 false;
          Struct.AInt 1 false; Struct.AInt 2 false; Struct.AInt 1 false].
  change (Struct.order fmt_v2_header) with Struct.LittleEndian.
  cbn [Struct.pack_atoms Struct.pack_atom].
  rewrite !pack_B, pack_H by done. reflexivity.
Qed.

Lemma pack_v1_header a0 a1 a2 a3 a4 a5 :
  0 ≤ a0 < 256 → 0 ≤ a1 < 256 → 0 ≤ a2 < 256 → 0 ≤ a3 < 256 →
  0 ≤ a4 < 256 → 0 ≤ a5 < 256 →
  Struct.pack fmt_v1_header
    [PInt a0; PInt a1; PInt a2; PInt a3; PInt a4; PInt a5]
  = Ok [a0; a1; a2; a3; a4; a5].
Proof.
  intros. unfold Struct.pack.
  change (Struct.atoms fmt_v1_header)
    with [Struct.AInt 1 false; Struct.AInt 1 false; Struct.AInt 1 false;
          Struct.AInt 1 false; Struct.AInt 1 false; Struct.AInt 1 false].
  change (Struct.order fmt_v1_header) with Struct.LittleEndian.
  cbn [Struct.pack_atoms Struct.pack_atom].
  rewrite !pack_B by done. reflexivity.
Qed.

Lemma pack_csum crc :
  0 ≤ crc < 65536 →
  Struct.pack (Struct.Format Struct.LittleEndian [Struct.H]) [PInt crc]
  = Ok [crc `mod` 256; crc `div` 256].
Proof.
  intros. unfold Struct.pack.
  change (Struct.atoms _) with [Struct.AInt 2 false].
  cbn [Struct.pack_atoms Struct.pack_atom Struct.order].
  rewrite pack_H by done. reflexivity.
Qed.

Lemma unpack_csum b0 b1 :
  Struct.unpack fmt_csum [b0; b1] = Ok [PInt (b0 + 256 * b1)].
Proof.
  unfold Struct.unpack. simpl. unfold Struct.unpack_int. simpl.
  by rewrite Z.add_0_r.
Qed.

Lemma pack_crc_extra x :
  0 ≤ x < 256 →
  Struct.pack (Struct.Format Struct.LittleEndian [Struct.B]) [PInt x] = Ok [x].
Proof.
  intros. unfold Struct.pack.
  change (Struct.atoms _) with [Struct.AInt 1 false].
  cbn [Struct.pack_atoms Struct.pack_atom Struct.order].
  rewrite pack_B by done. reflexivity.
Qed.

Lemma pack_link_timestamp l t :
  0 ≤ l < 256 → 0 ≤ t < 2 ^ 64 →
  ∃ bs, Struct.pack (Struct.Format Struct.LittleEndian [Struct.B; Struct.Q])
          [PInt l; PInt t] = Ok bs
        ∧ length bs = 9%nat.
Proof.
  intros Hl Ht. unfold Struct.pack.
  change (Struct.atoms _) with [Struct.AInt 1 false; Struct.AInt 8 false].
  cbn [Struct.pack_atoms Struct.pack_atom Struct.order].
  rewrite pack_B by done.
  destruct (pack_int_Ok Struct.LittleEndian 8 false t) as [bs Hbs].
  { unfold Struct.in_range. change (8 * Z.of_nat 8) with 64.
    apply andb_true_intro. split; [apply Z.leb_le|apply Z.ltb_lt]; lia. }
  rewrite Hbs. cbn [rbind]. eexists. split; [reflexivity|].
  apply pack_int_length in Hbs. simpl. by rewrite app_nil_r, Hbs.
Qed.

Lemma decode_header_v1 b1 b2 b3 b4 b5 rest :
  decode_header (PROTOCOL_MARKER_V1 :: b1 :: b2 :: b3 :: b4 :: b5 :: rest)
  = Ok (WireHeader 6 PROTOCOL_MARKER_V1 b1 0 0 b2 b3 b4 b5).
Proof.
  unfold decode_header. change 0 with (Z.of_nat 0) at 1.
  rewrite index_nonneg. cbn [lookup list_lookup of_option rbind].
  rewrite bool_decide_eq_true_2 by done. cbn [negb].
  change 6 with (Z.of_nat 6) at 1. rewrite slice_prefix.
  cbn [take]. by rewrite unpack_mav10.
Qed.

Lemma decode_header_v2 b0 b1 b2 b3 b4 b5 b6 b7 b8 b9 rest :
  b0 ≠ PROTOCOL_MARKER_V1 →
  decode_header (b0 :: b1 :: b2 :: b3 :: b4 :: b5 :: b6 :: b7 :: b8 :: b9 :: rest)
  = Ok (WireHeader 10 b0 b1 b2 b3 b4 b5 b6
          (Z.lor (b7 + 256 * b8) (Z.shiftl b9 16))).
Proof.
  intros Hb0. unfold decode_header. change 0 with (Z.of_nat 0) at 1.
  rewrite index_nonneg. cbn [lookup list_lookup of_option rbind].
  rewrite bool_decide_eq_false_2 by done. cbn [negb].
  change 10 with (Z.of_nat 10) at 1. rewrite slice_prefix.
  cbn [take]. by rewrite unpack_mav20.
Qed.

(** ** The frame that [pack] builds *)

Lemma header_pack_bytes E mlen flags seq sys comp id force :
  valid_env E →
  0 ≤ mlen < 256 → 0 ≤ flags < 256 → 0 ≤ seq < 256 → 0 ≤ sys < 256 →
  0 ≤ comp < 256 →
  0 ≤ id < (if frames_v2 E force then 2 ^ 24 else 256) →
  MAVLink_header_pack E (Header.mk id flags 0 mlen seq sys comp) force
  = Ok (header_bytes (frames_v2 E force) mlen flags seq sys comp id).
Proof.
  intros HE Hmlen Hflags Hseq Hsys Hcomp Hid.
  unfold MAVLink_header_pack. fold (frames_v2 E force).
  destruct (frames_v2 E force) eqn:Hv2; cbn [Header.mlen Header.incompat_flags
    Header.compat_flags Header.seq Header.srcSystem Header.srcComponent
    Header.msgId header_bytes].
  - unfold frames_v2 in Hv2. apply andb_prop in Hv2 as [Hver _].
    apply bool_decide_eq_true_1 in Hver.
    rewrite (ve_marker E HE Hver).
    apply pack_v2_header; try done; try (unfold PROTOCOL_MARKER_V2; lia).
    + change 0xFFFF with (Z.ones 16). rewrite Z.land_ones by lia.
      apply Z.mod_pos_bound. lia.
    + rewrite Z.shiftr_div_pow2 by lia. change (2 ^ 16) with 65536.
      change (2 ^ 24) with 16777216 in Hid.
      split; [apply Z.div_pos; lia|]. apply Z.div_lt_upper_bound; lia.
  - apply pack_v1_header; done.
Qed.

Lemma pack_frame E self mav crc_extra payload force :
  valid_env E → valid_sender E mav force →
  0 ≤ Header.msgId (Msg._header self)
    < (if frames_v2 E force then 2 ^ 24 else 256) →
  (XML.crc_extra (Env.xml E) = true → 0 ≤ crc_extra < 256) →
  (length payload ≤ 255)%nat →
  ∃ p crc tail self' mav',
    let hdr :=
      header_bytes (frames_v2 E force) (Py.len p)
        (if Signing.sign_outgoing (Mav.signing mav) then 1 else 0)
        (Mav.seq mav) (Mav.srcSystem mav) (Mav.srcComponent mav)
        (Header.msgId (Msg._header self)) in
    MAVLink_message_pack E self mav crc_extra payload force
    = (Ok (hdr ++ p ++ [crc `mod` 256; crc `div` 256] ++ tail), self', mav')
    ∧ payload = p ++ replicate (length payload - length p) 0
    ∧ 0 ≤ crc < 65536
    ∧ crc = x25crc.new
              (drop 1 hdr ++ p
               ++ (if XML.crc_extra (Env.xml E) then [crc_extra] else []))
    ∧ Py.len tail = sent_signature_len E mav force
    ∧ Msg._crc self' = Some crc
    ∧ p = take (if negb (bool_decide
                           (XML.wire_protocol_version (Env.xml E) = "1.0"))
                   && negb force
                then strip_plen payload (length payload)
                else length payload) payload.
Proof.
  intros HE Hsender Hid Hextra Hsize.
  destruct Hsender as [Hseq Hsys Hcomp Hsign].
  set (plen := if negb (bool_decide (XML.wire_protocol_version (Env.xml E)
                                     = "1.0")) && negb force
               then strip_plen payload (length payload) else length payload).
  set (p := take plen payload).
  assert (payload = p ++ replicate (length payload - length p) 0) as Hpz.
  { subst p plen.
    destruct (negb (bool_decide _) && negb force);
      [exact (strip_payload_zeros payload)|].
    rewrite firstn_all. by rewrite Nat.sub_diag, app_nil_r. }
  assert (0 ≤ Py.len p < 256) as Hplen.
  { unfold Py.len. subst p. rewrite length_take. lia. }
  set (flags := if Signing.sign_outgoing (Mav.signing mav) then 1 else 0).
  assert (0 ≤ flags < 256) as Hflags
    by (subst flags; destruct (Signing.sign_outgoing _); lia).
  set (hdr := header_bytes (frames_v2 E force) (Py.len p) flags (Mav.seq mav)
                (Mav.srcSystem mav) (Mav.srcComponent mav)
                (Header.msgId (Msg._header self))).
  pose proof (header_pack_bytes E (Py.len p) flags (Mav.seq mav)
                (Mav.srcSystem mav) (Mav.srcComponent mav)
                (Header.msgId (Msg._header self)) force HE Hplen Hflags Hseq
                Hsys Hcomp Hid) as Hhdr. fold hdr in Hhdr.
  set (crc0 := x25crc.new (drop 1 (hdr ++ p))).
  set (crc := if XML.crc_extra (Env.xml E)
              then x25crc.accumulate crc0 [crc_extra] else crc0).
  assert (0 ≤ crc < 65536) as Hcrc.
  { subst crc. destruct (XML.crc_extra _);
      [apply accumulate_range|]; apply x25crc_range. }
  assert (crc = x25crc.new
                  (drop 1 hdr ++ p
                   ++ (if XML.crc_extra (Env.xml E) then [crc_extra] else [])))
    as Hcrcdef.
  { subst crc crc0. unfold x25crc.new.
    assert (drop 1 (hdr ++ p) = drop 1 hdr ++ p) as ->.
    { subst hdr. unfold header_bytes. by destruct (frames_v2 E force). }
    destruct (XML.crc_extra _).
    - by rewrite (app_assoc (drop 1 hdr) p [crc_extra]), !accumulate_app.
    - by rewrite app_nil_r. }
  unfold MAVLink_message_pack. fold plen. fold p.
  cbn [Msg._header Msg.set_header Msg.set_payload].
  replace (if Signing.sign_outgoing (Mav.signing mav)
           then Z.lor 0 MAVLINK_IFLAG_SIGNED else 0) with flags
    by (subst flags; by destruct (Signing.sign_outgoing _)).
  rewrite Hhdr.
  cbn [msgbuf_of Msg._msgbuf Msg.set_msgbuf default id]. fold crc0.
  assert ((if XML.crc_extra (Env.xml E)
           then rbind (Struct.pack
                         (Struct.Format Struct.LittleEndian [Struct.B])
                         [PInt crc_extra])
                  (λ b, Ok (x25crc.accumulate crc0 b))
           else Ok crc0) = Ok crc) as ->.
  { subst crc. destruct (XML.crc_extra (Env.xml E)); [|done].
    by rewrite pack_crc_extra by auto. }
  rewrite (pack_csum crc Hcrc).
  cbn [msgbuf_of Msg._msgbuf Msg.set_msgbuf Msg.set_crc default id].
  unfold sent_signature_len.
  destruct (Signing.sign_outgoing (Mav.signing mav) && negb force) eqn:Hsg.
  - apply andb_prop in Hsg as [Hso Hnf]. apply negb_true_iff in Hnf.
    destruct (Hsign Hso Hnf) as (Hver & [key Hkey] & Hlink & Hts).
    unfold sign_packet.
    destruct (pack_link_timestamp _ _ Hlink Hts) as (lt & -> & Hltlen).
    rewrite Hkey.
    cbn [msgbuf_of Msg._msgbuf Msg.set_msgbuf default id].
    eexists p, crc, (take 7 lt ++ take 6 (Env.sha256 E _)), _, _.
    split; [by rewrite <- !app_assoc|].
    split_and!; try done; try lia.
    unfold Py.len. rewrite length_app, !length_take.
    match goal with
    | |- context [Env.sha256 E ?x] => pose proof (ve_digest E HE x)
    end.
    unfold MAVLINK_SIGNATURE_BLOCK_LEN. lia.
  - eexists p, crc, [], _, _.
    split; [by rewrite app_nil_r, <- !app_assoc|].
    split_and!; try done; lia.
Qed.

(** ** The regions of a frame *)

Lemma frame_slices (hdr p tail : list Z) (c0 c1 : Z) (sl : nat) :
  length tail = sl → (1 ≤ length hdr)%nat →
  let buf := hdr ++ p ++ [c0; c1] ++ tail in
  Py.slice buf (Some (Z.of_nat (length hdr))) (Some (- (2 + Z.of_nat sl))) = p
  ∧ Py.slice buf (Some 1) (Some (- (2 + Z.of_nat sl))) = drop 1 hdr ++ p
  ∧ Py.slice (Py.slice buf (Some (- (2 + Z.of_nat sl))) None) None (Some 2)
    = [c0; c1]
  ∧ Py.len buf = Z.of_nat (length hdr) + Py.len p + 2 + Z.of_nat sl.
Proof.
  intros Htail Hhdr buf.
  assert (length buf = (length hdr + length p + 2 + sl)%nat) as Hlen.
  { subst buf. rewrite !length_app. simpl. lia. }
  replace (- (2 + Z.of_nat sl)) with (- Z.of_nat (2 + sl)) by lia.
  split_and!.
  - rewrite slice_body by lia. rewrite Hlen.
    replace (length hdr + length p + 2 + sl - (2 + sl) - length hdr)%nat
      with (length p) by lia.
    subst buf. by rewrite drop_app_length, take_app_length.
  - change 1 with (Z.of_nat 1). rewrite slice_body by lia. rewrite Hlen.
    replace (length hdr + length p + 2 + sl - (2 + sl) - 1)%nat
      with (length (drop 1 hdr ++ p))
      by (rewrite length_app, length_drop; lia).
    subst buf. destruct hdr as [|b0 hdr]; [simpl in Hhdr; lia|].
    cbn [app drop]. rewrite !drop_0, app_assoc. by rewrite take_app_length.
  - rewrite slice_tail by lia. change 2 with (Z.of_nat 2).
    rewrite slice_prefix, Hlen.
    replace (length hdr + length p + 2 + sl - (2 + sl))%nat
      with (length (hdr ++ p)) by (rewrite length_app; lia).
    subst buf. by rewrite app_assoc, drop_app_length.
  - unfold Py.len. lia.
Qed.

(** ** A run of [decode] assembled from its parts *)

Lemma decode_run E self msgbuf h type crc sig_ok self' m0 m :
  decode_header msgbuf = Ok h →
  w_magic h = PROTOCOL_MARKER_V1 ∨ w_magic h = PROTOCOL_MARKER_V2 →
  w_mlen h = Py.len msgbuf - (w_headerlen h + 2 + signature_len_of h) →
  Env.mavlink_map E !! w_msgId h = Some type →
  decode_checksum E type msgbuf (signature_len_of h) (w_msgId h) = Ok crc →
  decode_signature E self msgbuf (signature_len_of h) (w_srcSystem h)
    (w_srcComponent h) (w_msgId h) = (Ok sig_ok, self') →
  decode_fields E type msgbuf (w_headerlen h) (signature_len_of h) = Ok m0 →
  decode_stamp m0 msgbuf h (signature_len_of h) sig_ok crc = Ok m →
  decode E self msgbuf = (Ok m, self').
Proof.
  intros Hh Hmagic Hmlen Htype Hcrc Hsig Hfields Hstamp.
  unfold decode. rewrite Hh.
  assert (negb (bool_decide (w_magic h = PROTOCOL_MARKER_V1))
          && negb (bool_decide (w_magic h = PROTOCOL_MARKER_V2)) = false) as ->.
  { destruct Hmagic as [-> | ->]; reflexivity. }
  rewrite bool_decide_eq_true_2 by done. cbn [negb].
  rewrite Htype, Hcrc, Hsig, Hfields. cbn [rbind]. by rewrite Hstamp.
Qed.

(** ** Trimmed payloads on their way through [decode] *)

Lemma frame_region (hdr p tail : list Z) (sl : Z) :
  0 ≤ sl → Py.len tail = 2 + sl →
  Py.slice (hdr ++ p ++ tail) (Some (Z.of_nat (length hdr)))
    (Some (- (2 + sl))) = p.
Proof.
  intros Hsl Htail. unfold Py.len in Htail.
  replace (- (2 + sl)) with (- Z.of_nat (length tail)) by lia.
  rewrite slice_body by lia. rewrite drop_app_length, !length_app.
  replace (length hdr + (length p + length tail) - length tail - length hdr)%nat
    with (length p) by lia.
  by rewrite take_app_length.
Qed.

Lemma pad_trimmed (p : list Z) (k csize : nat) :
  take csize (p ++ replicate (csize - length p) 0)
  = take csize ((p ++ replicate k 0)
                ++ replicate (csize - length (p ++ replicate k 0)) 0).
Proof.
  apply list_eq. intros i.
  destruct (decide (i < csize)%nat) as [Hi|Hi];
    [|by rewrite !lookup_take_ge by lia].
  rewrite !lookup_take_lt by done.
  rewrite length_app, length_replicate, <- app_assoc.
  destruct (decide (i < length p)%nat) as [Hp|Hp];
    [by rewrite !lookup_app_l by done|].
  rewrite !lookup_app_r by lia.
  rewrite lookup_replicate_2 by lia.
  destruct (decide (i - length p < k)%nat) as [Hk|Hk].
  - rewrite lookup_app_l by (rewrite length_replicate; lia).
    by rewrite lookup_replicate_2.
  - rewrite lookup_app_r by (rewrite length_replicate; lia).
    rewrite length_replicate. by rewrite lookup_replicate_2 by lia.
Qed.

(** C6.  Packing in wire-format version 2 without forcing version 1 frames
    the serialized payload with its trailing zero bytes removed: the frame
    that [pack] returns is a header of ten bytes whose length byte is the
    length of the kept part, the kept part, and the checksum with the
    signature block; what is cut off is zeros only, a payload that is not
    empty stays at least one byte long, a kept part longer than one byte
    does not end in zero, and a payload of zeros packs as the single byte 0.
    On the other side [decode] extends the payload region of that frame with
    zeros on the right up to the size of the schema (and cuts it to that
    size) before the fields are unpacked: for the size of the serialized
    payload this gives the serialized payload back, and for every class the
    field step of [decode] does on the frame what it does on the frame with
    the payload left untrimmed. *)
Theorem v2_payload_trimmed_and_padded E self mav crc_extra payload :
  valid_env E → valid_sender E mav false →
  XML.wire_protocol_version (Env.xml E) = "2.0" →
  0 ≤ Header.msgId (Msg._header self) < 2 ^ 24 →
  (XML.crc_extra (Env.xml E) = true → 0 ≤ crc_extra < 256) →
  (length payload ≤ 255)%nat →
  let packed := MAVLink_message_pack E self mav crc_extra payload false in
  let p := take (strip_plen payload (length payload)) payload in
  let signature_len := sent_signature_len E mav false in
  ∃ hdr tail,
    packed.1.1 = Ok (hdr ++ p ++ tail)
    ∧ length hdr = 10%nat
    ∧ hdr !! 1%nat = Some (Py.len p)
    ∧ Py.len tail = 2 + signature_len
    ∧ Msg._payload packed.1.2 = Some p
    ∧ Header.mlen (Msg._header packed.1.2) = Py.len p
    ∧ payload = p ++ replicate (length payload - length p) 0
    ∧ (payload ≠ [] → p ≠ [])
    ∧ ((1 < length p)%nat → last p ≠ Some 0)
    ∧ (payload ≠ [] → Forall (λ b, b = 0) payload → p = [0])
    ∧ (∀ tname csize,
         decode_payload tname csize (hdr ++ p ++ tail) 10 signature_len
         = Ok (take csize (p ++ replicate (csize - length p) 0)))
    ∧ (∀ tname,
         decode_payload tname (length payload) (hdr ++ p ++ tail) 10
           signature_len = Ok payload)
    ∧ (∀ type,
         decode_fields E type (hdr ++ p ++ tail) 10 signature_len
         = decode_fields E type (hdr ++ payload ++ tail) 10 signature_len).
Proof.
  intros HE Hsd Hv2 Hid Hextra Hsize packed p signature_len.
  assert (frames_v2 E false = true) as Hf2.
  { unfold frames_v2. by rewrite Hv2. }
  destruct (pack_frame E self mav crc_extra payload false HE Hsd)
    as (p' & crc & tail & self' & mav' & Hframe);
    [by rewrite Hf2 | done | done |].
  cbv zeta in Hframe.
  destruct Hframe as (Hpk & _ & _ & _ & Htail & _ & Hp').
  rewrite Hv2 in Hp'.
  change (negb (bool_decide ("2.0" = "1.0")) && negb false) with true in Hp'.
  cbv iota in Hp'. fold p in Hp'. subst p'.
  rewrite Hf2 in Hpk. unfold header_bytes in Hpk.
  destruct (trimmed_payload E self mav crc_extra payload Hv2)
    as (Hpay & Hmlen & Hpz & Hne & Hlast & Hzero & _).
  fold packed p in Hpay, Hmlen, Hpz, Hne, Hlast, Hzero.
  assert (0 ≤ signature_len) as Hsl.
  { subst signature_len. unfold sent_signature_len.
    destruct (Signing.sign_outgoing (Mav.signing mav) && negb false);
      unfold MAVLINK_SIGNATURE_BLOCK_LEN; lia. }
  match type of Hpk with
  | _ = (Ok (?h ++ _ ++ _ ++ _), _, _) => set (hdr := h) in *
  end.
  set (tail' := [crc `mod` 256; crc `div` 256] ++ tail).
  assert (Py.len tail' = 2 + signature_len) as Htail'.
  { subst tail' signature_len. unfold Py.len in *.
    rewrite length_app. cbn [length]. lia. }
  assert (∀ q, Py.slice (hdr ++ q ++ tail') (Some 10)
                 (Some (- (2 + signature_len))) = q) as Hregion.
  { intros q. change 10 with (Z.of_nat (length hdr)).
    by apply frame_region. }
  assert (∀ tname csize q,
            decode_payload tname csize (hdr ++ q ++ tail') 10 signature_len
            = Ok (take csize (q ++ replicate (csize - length q) 0))) as Hpad.
  { intros tname csize q.
    destruct (decode_payload_ok tname csize (hdr ++ q ++ tail') 10
                signature_len) as (mbuf & -> & _ & ->).
    by rewrite Hregion. }
  exists hdr, tail'. split_and!; try done.
  - subst packed. by rewrite Hpk.
  - intros tname. rewrite Hpad, <- Hpz. by rewrite take_ge.
  - intros type. unfold decode_fields. rewrite !Hpad.
    rewrite (pad_trimmed p (length payload - length p)). by rewrite <- Hpz.
Qed.

(** Only a frame with a signature block is reported as signed. *)
Lemma decode_signature_true E self msgbuf sl sys comp id self' :
  decode_signature E self msgbuf sl sys comp id = (Ok true, self') →
  sl = MAVLINK_SIGNATURE_BLOCK_LEN.
Proof.
  unfold decode_signature. intros H.
  destruct (bool_decide (sl = MAVLINK_SIGNATURE_BLOCK_LEN)) eqn:Hsl;
    [by apply bool_decide_eq_true_1 in Hsl|].
  repeat case_match; simplify_eq.
Qed.

Lemma format_attr_value E self a v :
  Msg.attrs self !! a = Some v → format_attr E self a = Ok (format_value E v).
Proof.
  intros Hv. unfold format_attr, getattr. rewrite Hv. by destruct v.
Qed.

Lemma checksum_bytes crc : crc `mod` 256 + 256 * (crc `div` 256) = crc.
Proof. rewrite Z.add_comm. symmetry. apply Z.div_mod. lia. Qed.

(** The header that [decode] reads from a frame that [pack] has built. *)
Lemma decode_header_packed E mav force mlen id rest :
  valid_sender E mav force →
  0 ≤ id →
  let hdr :=
    header_bytes (frames_v2 E force) mlen
      (if Signing.sign_outgoing (Mav.signing mav) then 1 else 0)
      (Mav.seq mav) (Mav.srcSystem mav) (Mav.srcComponent mav) id in
  ∃ h, decode_header (hdr ++ rest) = Ok h
       ∧ (w_magic h = PROTOCOL_MARKER_V1 ∨ w_magic h = PROTOCOL_MARKER_V2)
       ∧ w_headerlen h = Z.of_nat (length hdr)
       ∧ signature_len_of h = sent_signature_len E mav force
       ∧ w_mlen h = mlen
       ∧ w_seq h = Mav.seq mav
       ∧ w_srcSystem h = Mav.srcSystem mav
       ∧ w_srcComponent h = Mav.srcComponent mav
       ∧ w_msgId h = id.
Proof.
  intros [_ _ _ Hsign] Hid hdr. subst hdr.
  unfold sent_signature_len, header_bytes.
  destruct (frames_v2 E force) eqn:Hv2.
  - cbn [app]. eexists. split; [by apply decode_header_v2|].
    cbn [w_magic w_headerlen w_mlen w_seq w_srcSystem w_srcComponent w_msgId].
    split_and!; try done.
    + by right.
    + unfold frames_v2 in Hv2. apply andb_prop in Hv2 as [_ ->].
      rewrite andb_true_r. unfold signature_len_of. cbn [w_incompat_flags].
      by destruct (Signing.sign_outgoing _).
    + by apply msgId_split.
  - cbn [app]. eexists. split; [by apply decode_header_v1|].
    cbn [w_magic w_headerlen w_mlen w_seq w_srcSystem w_srcComponent w_msgId].
    split_and!; try done.
    + by left.
    + destruct (Signing.sign_outgoing _ && negb force) eqn:Hs; [|done].
      apply andb_prop in Hs as [Hso Hnf]. apply negb_true_iff in Hnf.
      destruct (Hsign Hso Hnf) as (Hver & _).
      unfold frames_v2 in Hv2. rewrite Hver, Hnf in Hv2. done.
Qed.

(** C1 as amended.  For a message definition without [float] and [double]
    fields handed over by the XML parser, its generated class registered
    under its id in a module that sorts fields, an instance [self] with a
    valid value in every field (an integer in the range of the type, a list
    of [array_length] of them, a bytes object that fits a character field and
    has NULs at its end only) and a sending session [mav]: [pack] returns a
    frame, and in every receiving session whose signature step lets the frame
    through, [decode] of that frame, handed over in a mutable buffer as the
    parser does, returns a message that [__eq__] finds equal to [self] as
    [pack] has left it.  Every field has the same formatted value on both
    sides, sequence number and source ids are those of the sender, and the
    checksum is the one that [pack] stored. *)
Theorem pack_decode_roundtrip E m cls self mav force :
  valid_env E → valid_schema E m cls force → float_free m →
  valid_message E m self → valid_sender E mav force →
  ∃ buf self' mav',
    class_pack E cls self mav force = (Ok buf, self', mav')
    ∧ ∀ rx sig_ok rx',
        decode_signature E rx buf (sent_signature_len E mav force)
          (Mav.srcSystem mav) (Mav.srcComponent mav) (Def.id m)
        = (Ok sig_ok, rx') →
        ∃ d, decode E rx buf = (Ok d, rx')
             ∧ __eq__ E d (Some self') = Ok true
             ∧ (∀ f, f ∈ Def.fields m →
                  ∃ x v, Msg.attrs d !! Field.name f = Some x
                         ∧ Msg.attrs self' !! Field.name f = Some v
                         ∧ format_value E x = format_value E v)
             ∧ Header.seq (Msg._header d) = Mav.seq mav
             ∧ Header.seq (Msg._header self') = Mav.seq mav
             ∧ Header.srcSystem (Msg._header d) = Mav.srcSystem mav
             ∧ Header.srcSystem (Msg._header self') = Mav.srcSystem mav
             ∧ Header.srcComponent (Msg._header d) = Mav.srcComponent mav
             ∧ Header.srcComponent (Msg._header self') = Mav.srcComponent mav
             ∧ is_Some (Msg._crc d)
             ∧ Msg._crc d = Msg._crc self'.
Proof.
  intros HE [Hwf Hgen Hreg Hid Hextra Hsize] Hint Hm Hsd.
  destruct (message_fields_roundtrip E m cls self HE Hwf Hgen Hint Hm)
    as (payload & Hpay & Hplen & Hdec).
  destruct (generate_inv _ _ _ Hwf Hgen) as (Hdef & _).
  pose proof (vm_msgId E m self Hm) as Hmid.
  destruct (pack_frame E self mav (Def.crc_extra m) payload force HE Hsd)
    as (p & crc & tail & self' & mav' & Hframe);
    [by rewrite Hmid | done | lia |].
  cbv zeta in Hframe. rewrite Hmid in Hframe.
  destruct Hframe as (Hpk & Hpz & Hcrc & Hcrcdef & Htail & Hcrc' & _).
  destruct (decode_header_packed E mav force (Py.len p) (Def.id m)
              (p ++ [crc `mod` 256; crc `div` 256] ++ tail) Hsd)
    as (h & Hh & Hmagic & Hhl & Hsl & Hmlen & Hseq & Hsys & Hcomp & Hwid);
    [lia|].
  revert Hh Hhl Hpk Hcrcdef.
  set (hdr := header_bytes _ _ _ _ _ _ _).
  set (buf := hdr ++ p ++ [crc `mod` 256; crc `div` 256] ++ tail).
  intros Hh Hhl Hpk Hcrcdef.
  assert (1 ≤ length hdr)%nat as Hhdr.
  { subst hdr. unfold header_bytes. destruct (frames_v2 E force); simpl; lia. }
  destruct (frame_slices hdr p tail (crc `mod` 256) (crc `div` 256)
              (length tail) eq_refl Hhdr) as (Hs1 & Hs2 & Hs3 & Hs4).
  fold buf in Hs1, Hs2, Hs3, Hs4. unfold Py.len in Htail.
  rewrite Htail in Hs1, Hs2, Hs3, Hs4.
  exists buf, self', mav'. split.
  { unfold class_pack. rewrite Hpay, Hdef. exact Hpk. }
  intros rx sig_ok rx' Hsig.
  destruct (MAVLink_message_pack_payload _ _ _ _ _ _ _ _ _ Hpk)
    as (_ & _ & Hsseq & Hssys & Hscomp & _ & Hsattrs & Hsfn & Hstype).
  destruct (Hdec buf (Z.of_nat (length hdr)) (sent_signature_len E mav force))
    as (d0 & Hd0 & Htype & Hfn & Hattrs); [by rewrite Hs1|].
  assert (∃ d, decode_stamp d0 buf h (sent_signature_len E mav force) sig_ok
                 crc = Ok d) as [d Hd].
  { unfold decode_stamp. cbn [Msg._signed Msg.set_signed].
    destruct sig_ok; [|by eexists].
    apply decode_signature_true in Hsig as Hlen.
    destruct (Py.index buf (-13)) as [l|] eqn:Hi; [by eexists|].
    exfalso. change (-13) with (- Z.of_nat 13) in Hi.
    unfold Py.len in Hs4. rewrite Hlen in Hs4.
    unfold MAVLINK_SIGNATURE_BLOCK_LEN in Hs4.
    rewrite index_neg in Hi by lia.
    apply lookup_ge_None in Hi. lia. }
  exists d. split.
  { apply (decode_run E rx buf h cls crc sig_ok rx' d0 d Hh Hmagic).
    - rewrite Hmlen, Hhl, Hsl, Hs4. lia.
    - by rewrite Hwid.
    - rewrite Hsl, Hwid. unfold decode_checksum.
      rewrite Hs3, unpack_csum, checksum_bytes, Hs2.
      assert (x25crc.new
                (if XML.crc_extra (Env.xml E)
                 then (drop 1 hdr ++ p) ++ [Def.crc_extra (Class.def cls)]
                 else drop 1 hdr ++ p) = crc) as ->.
      { rewrite Hdef, Hcrcdef.
        destruct (XML.crc_extra (Env.xml E));
          by rewrite ?app_nil_r, <- ?app_assoc. }
      by rewrite bool_decide_eq_true_2.
    - by rewrite Hsl, Hsys, Hcomp, Hwid.
    - by rewrite Hhl, Hsl.
    - by rewrite Hsl. }
  destruct (decode_stamp_payload _ _ _ _ _ _ _ Hd)
    as (_ & Hdcrc & _ & _ & Hdh & Hdattrs & Hdfn & Hdtype).
  split.
  { unfold __eq__.
    rewrite (bool_decide_eq_true_2 (Msg._type d = Msg._type self'))
      by (rewrite Hdtype, Htype, Hstype; symmetry; apply (vm_type E m self Hm)).
    rewrite (bool_decide_eq_true_2 (Header.seq _ = Header.seq _))
      by (by rewrite Hdh, Hsseq).
    rewrite (bool_decide_eq_true_2 (Header.srcSystem _ = Header.srcSystem _))
      by (by rewrite Hdh, Hssys).
    rewrite (bool_decide_eq_true_2
               (Header.srcComponent _ = Header.srcComponent _))
      by (by rewrite Hdh, Hscomp).
    cbn [negb]. apply eq_fields_true, Forall_forall. intros a Ha.
    rewrite Hdfn, Hfn, (wf_fieldnames m Hwf) in Ha.
    apply list_elem_of_fmap in Ha as (f & -> & Hf).
    destruct (Hattrs f Hf) as (x & v & Hx & Hv & Hxv).
    exists (format_value E x), (format_value E v). split_and!.
    - apply format_attr_value. by rewrite Hdattrs.
    - apply format_attr_value. by rewrite Hsattrs.
    - rewrite Hxv. apply pyval_eqb_refl.
      destruct (vm_values E m self Hm f Hf) as (v' & Hv' & Hvalid).
      assert (v' = v) as -> by congruence.
      destruct (proj1 (Forall_forall _ _) Hint f Hf) as [Hfl Hdb].
      by eapply valid_value_nan_free. }
  split.
  { intros f Hf. destruct (Hattrs f Hf) as (x & v & Hx & Hv & Hxv).
    exists x, v. by rewrite Hdattrs, Hsattrs. }
  rewrite Hdh, Hsseq, Hssys, Hscomp, Hdcrc, Hcrc'. by split_and!.
Qed.

(** ** The sample dialect is a valid one *)

Lemma ascii_decode_padded b k :
  Sample.ascii_decode (b ++ replicate k 0)
  = (λ u, u ++ replicate k 0) <$> Sample.ascii_decode b.
Proof.
  unfold Sample.ascii_decode. rewrite forallb_app.
  assert (forallb (λ x, (0 <=? x) && (x <? 128)) (replicate k 0) = true) as ->
    by (induction k; [reflexivity | assumption]).
  rewrite andb_true_r. by destruct (forallb _ b).
Qed.

Lemma sample_valid_env : valid_env Sample.E.
Proof.
  split.
  - reflexivity.
  - reflexivity.
  - intros x. change (Env.sha256 Sample.E x) with (Sample.digest x).
    unfold Sample.digest. rewrite length_replicate. lia.
  - exact ascii_decode_padded.
Qed.

Lemma sample_def_wf : Def_wf Sample.demo_def.
Proof.
  split; try reflexivity.
  - simpl. repeat (constructor; [set_solver|]). constructor.
  - simpl. unfold Sample.f_a, Sample.f_b, Sample.f_name, Sample.f_vals.
    solve_Permutation.
Qed.

Lemma sample_float_free : float_free Sample.demo_def.
Proof. repeat constructor; discriminate. Qed.

Lemma sample_valid_schema :
  valid_schema Sample.E Sample.demo_def Sample.demo_cls false.
Proof.
  split.
  - exact sample_def_wf.
  - vm_compute. reflexivity.
  - apply lookup_insert_eq.
  - vm_compute. split; [discriminate | reflexivity].
  - intros _. simpl. lia.
  - vm_compute. lia.
Qed.

Lemma sample_valid_message :
  valid_message Sample.E Sample.demo_def Sample.m0.
Proof.
  split; try reflexivity.
  intros f Hf. apply list_elem_of_In in Hf. simpl in Hf.
  destruct Hf as [<-|[<-|[<-|[<-|[]]]]].
  - exists (PInt 5). split; [vm_compute; reflexivity|].
    exists 5. split; reflexivity.
  - exists (PBytes [104; 105]). split; [vm_compute; reflexivity|].
    exists [104; 105]. split; [reflexivity|]. split; [simpl; lia|].
    vm_compute. repeat constructor; discriminate.
  - exists (PList [PInt 1; PInt 2; PInt 0]). split; [vm_compute; reflexivity|].
    exists [1; 2; 0]. split; [reflexivity|]. split; [reflexivity|].
    repeat constructor.
  - exists (PInt (-3)). split; [vm_compute; reflexivity|].
    exists (-3). split; reflexivity.
Qed.

Lemma sample_valid_sender : valid_sender Sample.E Sample.mav false.
Proof. split; simpl; first [lia | discriminate]. Qed.

Lemma sample_valid_keyed_sender :
  valid_sender Sample.E Sample.keyed_mav false.
Proof. split; simpl; first [lia | discriminate]. Qed.

Lemma v2_payload_trimmed_and_padded_witness :
  let packed :=
    MAVLink_message_pack Sample.E Sample.m0 Sample.mav 99 [5; 0; 7; 0; 0]
      false in
  ∃ hdr tail,
    packed.1.1 = Ok (hdr ++ [5; 0; 7] ++ tail)
    ∧ length hdr = 10%nat
    ∧ hdr !! 1%nat = Some 3
    ∧ Py.len tail = 2
    ∧ Msg._payload packed.1.2 = Some [5; 0; 7]
    ∧ (∀ tname,
         decode_payload tname 5 (hdr ++ [5; 0; 7] ++ tail) 10 0
         = Ok [5; 0; 7; 0; 0])
    ∧ (∀ type,
         decode_fields Sample.E type (hdr ++ [5; 0; 7] ++ tail) 10 0
         = decode_fields Sample.E type (hdr ++ [5; 0; 7; 0; 0] ++ tail) 10 0).
Proof.
  intros packed.
  destruct (v2_payload_trimmed_and_padded Sample.E Sample.m0 Sample.mav 99
              [5; 0; 7; 0; 0] sample_valid_env sample_valid_sender eq_refl)
    as (hdr & tail & H1 & H2 & H3 & H4 & H5 & _ & _ & _ & _ & _ & _ & H6
        & H7).
  - vm_compute. split; discriminate || reflexivity.
  - intros _. lia.
  - simpl. lia.
  - exists hdr, tail. split_and!; assumption.
Defined.

Lemma pack_decode_roundtrip_witness :
  (class_pack Sample.E Sample.demo_cls Sample.m0 Sample.mav false).1.1
  = Ok Sample.frame
  ∧ ∃ d, decode Sample.E Sample.mav Sample.frame = (Ok d, Sample.mav)
         ∧ __eq__ Sample.E d
             (Some (class_pack Sample.E Sample.demo_cls Sample.m0 Sample.mav
                      false).1.2) = Ok true
         ∧ Header.seq (Msg._header d) = 0
         ∧ Header.srcSystem (Msg._header d) = 1
         ∧ Header.srcComponent (Msg._header d) = 2
         ∧ Msg._crc d = Some 64827.
Proof.
  destruct (pack_decode_roundtrip Sample.E Sample.demo_def Sample.demo_cls
              Sample.m0 Sample.mav false sample_valid_env sample_valid_schema
              sample_float_free sample_valid_message sample_valid_sender)
    as (buf & self' & mav' & Hpack & Hdec).
  assert ((class_pack Sample.E Sample.demo_cls Sample.m0 Sample.mav false).1.1
          = Ok Sample.frame) as Hframe by (vm_compute; reflexivity).
  split; [exact Hframe|].
  rewrite Hpack in Hframe |- *. simpl in Hframe. injection Hframe as ->.
  destruct (Hdec Sample.mav false Sample.mav) as (d & Hd & Heq & _ & Hrest);
    [vm_compute; reflexivity|].
  destruct Hrest as (Hseq & _ & Hsys & _ & Hcomp & _ & _ & Hcrc).
  exists d. split; [exact Hd|]. split; [exact Heq|].
  split; [exact Hseq|]. split; [exact Hsys|]. split; [exact Hcomp|].
  rewrite Hcrc.
  change (Msg._crc self')
    with (Msg._crc (Ok Sample.frame, self', mav').1.2).
  rewrite <- Hpack. vm_compute. reflexivity.
Defined.

(** C1, the claim as stated, fails: a session that holds a secret key and
    does not sign what it sends packs a valid message into an unsigned frame,
    and [decode] in that same session refuses the frame. *)
Lemma unsigned_frame_refused_by_keyed_session :
  valid_schema Sample.E Sample.demo_def Sample.demo_cls false
  ∧ valid_message Sample.E Sample.demo_def Sample.m0
  ∧ let r := class_pack Sample.E Sample.demo_cls Sample.m0 Sample.keyed_mav
               false in
    r.1.1 = Ok Sample.frame
    ∧ r.2 = Sample.keyed_mav
    ∧ (decode Sample.E Sample.keyed_mav Sample.frame).1
      = Raise (EMAVError InvalidSignature).
Proof.
  split; [exact sample_valid_schema|].
  split; [exact sample_valid_message|].
  vm_compute. repeat split.
Qed.

(** Why the round trip leaves floating-point fields out: a [float] field is a
    binary32 number on the wire, so the value 0.1 comes back as
    0.10000000149011612 and the decoded message is unequal to the packed one;
    a NaN comes back as a NaN, which is unequal to itself; and a number too
    large for binary32 makes [pack] raise OverflowError. *)
Lemma float_field_comes_back_changed :
  let pack (x : float) :=
    class_pack Sample.E_att Sample.att_cls (Sample.att x) Sample.mav false in
  let back (x : float) : option (pyval * result bool) :=
    match pack x with
    | (Ok buf, self', _) =>
        match decode Sample.E_att Sample.mav buf with
        | (Ok d, _) =>
            (λ v, (v, __eq__ Sample.E_att d (Some self')))
              <$> Msg.attrs d !! "roll"
        | _ => None
        end
    | _ => None
    end in
  generate Sample.xml20 Sample.att_def = Ok Sample.att_cls
  ∧ (pack 0x1.999999999999ap-4%float).1.1
    = Ok [253; 4; 0; 0; 0; 1; 2; 8; 0; 0; 205; 204; 204; 61; 24; 131]
  ∧ back 0x1.999999999999ap-4%float
    = Some (PFloat 0x1.99999ap-4%float, Ok false)
  ∧ back nan = Some (PFloat nan, Ok false)
  ∧ (pack 0x1.d6329f1c35ca5p+132%float).1.1 = Raise EOverflowError.
Proof. vm_compute. repeat split. Qed.

(** * Further properties *)

Lemma parse_char_legacy_cursor E s r s' :
  cursor_ok s →
  parse_char_legacy E s = (r, s') →
  Mav.buf s' = Mav.buf s
  ∧ Mav.buf_index s ≤ Mav.buf_index s' ≤ Py.len (Mav.buf s)
  ∧ (∀ m, r = Ok (Some m) → Mav.buf_index s < Mav.buf_index s')
  ∧ (∀ e, r = Raise (EMAVError e) → Mav.buf_index s < Mav.buf_index s').
Proof.
  intros [Hlo Hhi]. unfold parse_char_legacy, buf_len, Py.len in *.
  destruct (_ && bool_decide (Py.index _ _ = None)) eqn:Hidx.
  { intros [= <- <-]. split_and!; try done; lia. }
  destruct ((1 <=? _) && negb _ && negb _) eqn:Hbad.
  { apply andb_prop in Hbad as [[Hlen%Z.leb_le _]%andb_prop _].
    cbn [Mav.robust_parsing Mav.have_prefix_error Mav.set_buf_index].
    destruct (Mav.robust_parsing s); [|destruct (Mav.have_prefix_error s)];
      intros [= <- <-]; cbn; split_and!; try done; lia. }
  set (s0 := Mav.set_have_prefix_error false s).
  set (hl := if _ && bool_decide (_ = Some PROTOCOL_MARKER_V2)
             then HEADER_LEN_V2 else HEADER_LEN_V1).
  assert (6 ≤ hl) as Hhl.
  { subst hl. destruct (_ && bool_decide (_ = Some _));
      unfold HEADER_LEN_V1, HEADER_LEN_V2; lia. }
  match goal with
  | |- match ?st with _ => _ end = _ → _ => destruct st as [[s1 h3]|e] eqn:Hstep
  end.
  2:{ assert (e = EStructError) as ->.
      { destruct (3 <=? _); [|discriminate].
        repeat case_match; simplify_eq; done. }
      intros [= <- <-]. cbn. split_and!; try done; lia. }
  assert (Mav.buf s1 = Mav.buf s ∧ Mav.buf_index s1 = Mav.buf_index s)
    as [Hb1 Hi1].
  { destruct (3 <=? _); [|by simplify_eq].
    repeat case_match; simplify_eq; done. }
  destruct (_ && (Mav.expected_length s1 <=? _)) eqn:Hfr.
  - apply andb_prop in Hfr as [Hge%Z.leb_le Hle%Z.leb_le].
    rewrite Hb1, Hi1 in Hle.
    intros Hpf. apply parse_frame_cursor in Hpf as (Hidx' & _ & Hbuf').
    rewrite Hbuf', Hb1, Hidx', Hi1. split_and!; try done; try lia.
    all: intros; lia.
  - intros [= <- <-]. rewrite Hb1, Hi1. split_and!; try done; lia.
Qed.

Lemma parse_char_legacy_footprint E s r s' :
  parse_char_legacy E s = (r, s') → parser_footprint s s'.
Proof.
  unfold parse_char_legacy. intros Hrun.
  case_match; [simplify_eq; apply footprint_refl|].
  case_match.
  { repeat case_match; simplify_eq; destruct s; repeat split; done. }
  set (s0 := Mav.set_have_prefix_error false s) in *.
  assert (parser_footprint s s0) as Hfp0 by (by destruct s).
  match type of Hrun with
  | match ?step with _ => _ end = _ => destruct step as [[s1 h3]|e1] eqn:Hstep
  end.
  2:{ by simplify_eq. }
  assert (parser_footprint s0 s1) as Hfp1.
  { repeat case_match; simplify_eq; destruct s; repeat split; done. }
  case_match.
  - apply parse_frame_frame in Hrun as [Hf _]. eauto using footprint_trans.
  - simplify_eq. eauto using footprint_trans.
Qed.

Lemma parse_char_forward E s c r s' :
  cursor_ok s →
  parse_char E s c = (r, s') →
  cursor_ok s'
  ∧ ∃ k : nat,
      unread s' = drop k (unread s ++ c)
      ∧ (k ≤ length (unread s ++ c))%nat
      ∧ (∀ m, r = Ok (Some m) → (0 < k)%nat)
      ∧ (∀ e, r = Raise (EMAVError e) → (0 < k)%nat).
Proof.
  intros Hc. unfold parse_char.
  set (s1 := Mav.set_total_bytes_received _ _).
  assert (cursor_ok s1) as Hc1.
  { destruct Hc as [Hlo Hhi]. unfold cursor_ok, Py.len in *. subst s1. cbn.
    rewrite length_app. lia. }
  assert (unread s1 = unread s ++ c) as Hu1.
  { unfold unread. subst s1. cbn. destruct Hc as [Hlo Hhi].
    unfold Py.len in Hhi. rewrite drop_app_le by lia. done. }
  assert (Mav.buf_index s1 = Mav.buf_index s) as Hi1 by done.
  destruct (parse_char_legacy E s1) as [r2 s2] eqn:Hleg.
  destruct (parse_char_legacy_cursor E s1 r2 s2 Hc1 Hleg)
    as (Hb2 & [Hlo2 Hhi2] & Hmsg & Herr).
  assert (cursor_ok s2) as Hc2.
  { unfold cursor_ok. rewrite Hb2. destruct Hc1. lia. }
  assert (unread s2
          = drop (Z.to_nat (Mav.buf_index s2 - Mav.buf_index s1)) (unread s1))
    as Hu2.
  { unfold unread. rewrite Hb2, drop_drop. f_equal. destruct Hc1. lia. }
  assert (Z.to_nat (Mav.buf_index s2 - Mav.buf_index s1)
          ≤ length (unread s1))%nat as Hk.
  { unfold unread. rewrite length_drop. unfold Py.len in Hhi2.
    destruct Hc1. lia. }
  rewrite Hu1 in Hu2, Hk.
  destruct r2 as [[m|]|e].
  - intros [= <- <-]. split; [exact Hc2|].
    exists (Z.to_nat (Mav.buf_index s2 - Mav.buf_index s1)).
    split; [exact Hu2|]. split; [exact Hk|].
    split; [|done]. intros m' _. specialize (Hmsg m eq_refl). lia.
  - destruct (bool_decide (buf_len s2 = 0) && _) eqn:Hreset.
    + intros [= <- <-]. split; [unfold cursor_ok, Py.len; cbn; lia|].
      exists (length (unread s ++ c)). split; [|done].
      unfold unread. cbn. by rewrite drop_all.
    + intros [= <- <-]. split; [exact Hc2|].
      exists (Z.to_nat (Mav.buf_index s2 - Mav.buf_index s1)). done.
  - intros [= <- <-]. split; [exact Hc2|].
    exists (Z.to_nat (Mav.buf_index s2 - Mav.buf_index s1)).
    split; [exact Hu2|]. split; [exact Hk|].
    split; [done|]. intros e' [= ->]. specialize (Herr e' eq_refl). lia.
Qed.

Lemma parse_char_counters E s c :
  let out := parse_char E s c in
  Mav.total_bytes_received out.2 = Mav.total_bytes_received s + Py.len c
  ∧ Mav.total_packets_received out.2
    = Mav.total_packets_received s
      + match out.1 with Ok (Some _) => 1 | _ => 0 end
  ∧ Mav.seq out.2 = Mav.seq s
  ∧ Mav.file out.2 = Mav.file s
  ∧ Mav.total_packets_sent out.2 = Mav.total_packets_sent s
  ∧ Mav.total_bytes_sent out.2 = Mav.total_bytes_sent s
  ∧ Mav.robust_parsing out.2 = Mav.robust_parsing s.
Proof.
  cbv zeta. unfold parse_char.
  set (s1 := Mav.set_total_bytes_received _ _).
  destruct (parse_char_legacy E s1) as [r2 s2] eqn:Hleg.
  apply parse_char_legacy_footprint in Hleg
    as (Hseq & Hfile & _ & _ & _ & Hrob & Hps & Hbs & Hpr & Hbr & _).
  destruct r2 as [[m|]|e].
  - cbn. rewrite Hseq, Hfile, Hps, Hbs, Hpr, Hbr, Hrob. done.
  - case_match; cbn;
      rewrite ?Hseq, ?Hfile, ?Hps, ?Hbs, ?Hpr, ?Hbr, ?Hrob, Z.add_0_r; done.
  - cbn. rewrite Hseq, Hfile, Hps, Hbs, Hpr, Hbr, Hrob, Z.add_0_r. done.
Qed.

(** X1.  The parser reads forward only.  When the cursor lies inside the buffer
    before [parse_char(c)], it does so afterwards, and what is then left to
    read is an end piece of what was left before followed by [c]: no unread
    byte is lost or reordered.  A call that returns a message, or raises a
    MAVLink error, has consumed at least one byte. *)
Theorem parse_char_reads_forward E s c r s' :
  cursor_ok s →
  parse_char E s c = (r, s') →
  cursor_ok s'
  ∧ ∃ k : nat,
      unread s' = drop k (unread s ++ c)
      ∧ (k ≤ length (unread s ++ c))%nat
      ∧ (∀ m, r = Ok (Some m) → (0 < k)%nat)
      ∧ (∀ e, r = Raise (EMAVError e) → (0 < k)%nat).
Proof. apply parse_char_forward. Qed.

Lemma parse_char_reads_forward_witness :
  let out := parse_char Sample.E Sample.mav Sample.frame in
  cursor_ok out.2
  ∧ ∃ k : nat,
      unread out.2 = drop k (unread Sample.mav ++ Sample.frame)
      ∧ (k ≤ length (unread Sample.mav ++ Sample.frame))%nat
      ∧ (∀ m, out.1 = Ok (Some m) → (0 < k)%nat)
      ∧ (∀ e, out.1 = Raise (EMAVError e) → (0 < k)%nat).
Proof.
  intros out.
  apply (parse_char_reads_forward Sample.E Sample.mav Sample.frame).
  - unfold cursor_ok, Py.len. simpl. lia.
  - apply surjective_pairing.
Defined.

(** X2.  The statistics of [parse_char].  Every call adds the length of its
    argument to [total_bytes_received], adds one to [total_packets_received]
    exactly when it returns a message, and leaves the sequence number, the
    file, the send statistics and the parsing mode alone, whether it returns
    or raises. *)
Theorem parse_char_counts E s c :
  let out := parse_char E s c in
  Mav.total_bytes_received out.2 = Mav.total_bytes_received s + Py.len c
  ∧ Mav.total_packets_received out.2
    = Mav.total_packets_received s
      + match out.1 with Ok (Some _) => 1 | _ => 0 end
  ∧ Mav.seq out.2 = Mav.seq s
  ∧ Mav.file out.2 = Mav.file s
  ∧ Mav.total_packets_sent out.2 = Mav.total_packets_sent s
  ∧ Mav.total_bytes_sent out.2 = Mav.total_bytes_sent s
  ∧ Mav.robust_parsing out.2 = Mav.robust_parsing s.
Proof. apply parse_char_counters. Qed.

(** ** Every payload of the right size unpacks *)

Lemma number_atom t :
  t ≠ T_char →
  mavfmt_map t ≠ Struct.Cs
  ∧ ∀ o bs,
      number_of t (Struct.unpack_atom o (Struct.code_atom (mavfmt_map t)) bs).
Proof. destruct t; intros Ht; try done; split; try done; by eexists. Qed.

Lemma field_atoms_length f : length (field_atoms f) = fieldlength f.
Proof.
  unfold field_atoms, mavfmt, fieldlength.
  destruct (Nat.eqb_spec (Field.array_length f) 0) as [->|Hn]; [done|].
  cbn [negb]. case_bool_decide as Hc; [done|].
  destruct (number_atom _ Hc) as [Hcs _].
  rewrite item_atoms_array by done. by rewrite length_replicate.
Qed.

Lemma unpack_atoms_no_str o al bs :
  Forall (λ u, ∀ s, u ≠ PStr s) (Struct.unpack_atoms o al bs).
Proof.
  revert bs. induction al as [|a al IH]; intros bs; cbn; constructor; [|done].
  by destruct a.
Qed.

(** The values of a payload, field by field. *)
Lemma unpack_blocks o (fs : list Field.t) : ∀ bs,
  length bs = Py.sum (Struct.atom_size <$> concat (field_atoms <$> fs)) →
  ∃ Us, Struct.unpack_atoms o (concat (field_atoms <$> fs)) bs = concat Us
        ∧ Forall2 (λ f U, ∃ chunk,
                     U = Struct.unpack_atoms o (field_atoms f) chunk) fs Us.
Proof.
  induction fs as [|f fs IH]; intros bs Hlen.
  - exists []. by split.
  - cbn [fmap list_fmap concat] in *.
    rewrite fmap_app, sum_app in Hlen.
    set (n := Py.sum (Struct.atom_size <$> field_atoms f)) in *.
    destruct (IH (drop n bs)) as (Us & HUs & Hall).
    { rewrite length_drop. lia. }
    exists (Struct.unpack_atoms o (field_atoms f) (take n bs) :: Us).
    split.
    + rewrite <- (take_drop n bs) at 1.
      rewrite unpack_atoms_app by (rewrite length_take; lia).
      cbn [concat]. by rewrite HUs.
    + constructor; [|done]. by eexists.
Qed.

Lemma unpacked_block_shape o f chunk :
  let U := Struct.unpack_atoms o (field_atoms f) chunk in
  length U = fieldlength f ∧ Forall (λ u, ∀ s, u ≠ PStr s) U.
Proof.
  split; [|apply unpack_atoms_no_str].
  by rewrite unpack_atoms_length, field_atoms_length.
Qed.

Lemma MAVString_str_no_nul s : Forall (λ ch, ch ≠ 0) (MAVString_str s).
Proof.
  induction s as [|ch s IH]; cbn; [constructor|].
  case_bool_decide; [constructor|]. by constructor.
Qed.

Lemma unpack_atoms_numbers o n t chunk :
  t ≠ T_char →
  Forall (number_of t)
    (Struct.unpack_atoms o
       (replicate n (Struct.code_atom (mavfmt_map t))) chunk).
Proof.
  intros Ht. destruct (number_atom _ Ht) as [_ Hnum].
  revert chunk. induction n as [|n IH]; intros chunk; cbn; constructor.
  - apply Hnum.
  - apply IH.
Qed.

Lemma decoded_block_shape E o f chunk y :
  ordered_value f (Struct.unpack_atoms o (field_atoms f) chunk) = Some y →
  decoded_shape f (terminate_string E (Field.type f) y).
Proof.
  unfold ordered_value, decoded_shape, terminate_string.
  pose proof (field_atoms_length f) as Hlen.
  unfold field_atoms, mavfmt, fieldlength in *.
  destruct (Nat.eqb_spec (Field.array_length f) 0) as [Hz|Hnz]; cbn [negb] in *.
  - (* a scalar *)
    case_bool_decide as Hc.
    + rewrite Hc. cbn. intros [= <-]. eexists. split; [done|].
      apply MAVString_str_no_nul.
    + destruct (number_atom _ Hc) as [_ Hnum].
      unfold Struct.item_atoms. cbn [Struct.count Struct.icode].
      cbn. intros [= <-]. apply Hnum.
  - case_bool_decide as Hc.
    + cbn. intros [= <-]. eexists. split; [done|].
      apply MAVString_str_no_nul.
    + destruct (number_atom _ Hc) as [Hcs _].
      rewrite item_atoms_array in * by done.
      pose proof (unpack_atoms_numbers o (Field.array_length f) _ chunk Hc)
        as Hall.
      revert Hall.
      generalize (unpack_atoms_length o
                    (replicate (Field.array_length f)
                       (Struct.code_atom (mavfmt_map (Field.type f)))) chunk).
      rewrite length_replicate.
      generalize (Struct.unpack_atoms o
                    (replicate (Field.array_length f)
                       (Struct.code_atom (mavfmt_map (Field.type f)))) chunk).
      intros U HlU Hall.
      destruct (Nat.eqb_spec (Field.array_length f) 1) as [H1|_].
      * destruct U as [|u U]; [simpl in HlU; lia|]. cbn.
        intros [= <-]. by inversion Hall.
      * intros [= <-]. by eexists.
Qed.

(** Attributes under which the unpacked values count as received. *)
Lemma received_attrs E (fs : list Field.t) Us :
  NoDup (Field.name <$> fs) →
  Forall2 (λ f U, length U = fieldlength f
                  ∧ Forall (λ u, ∀ s, u ≠ PStr s) U) fs Us →
  ∃ attrs : gmap string pyval,
    ∀ self, Msg.attrs self = attrs → Forall2 (field_received E self) fs Us.
Proof.
  intros Hnd Hall.
  cut (∃ attrs : gmap string pyval,
         ∀ k f U, fs !! k = Some f → Us !! k = Some U →
           ∃ x, attrs !! Field.name f = Some x
                ∧ decoded_value E f U = Some x).
  { intros [attrs Hattrs]. exists attrs. intros self Hself.
    apply Forall2_same_length_lookup_2; [by eapply Forall2_length|].
    intros k f U Hf HU.
    destruct (Forall2_lookup_lr _ _ _ _ _ _ Hall Hf HU) as [Hlen Hns].
    destruct (Hattrs k f U Hf HU) as (x & Hx & Hdec).
    split; [done|]. split; [done|]. exists x, x. by rewrite Hself. }
  induction Hall as [|f U fs Us [Hlen Hns] Hall IH].
  - exists ∅. intros k f U Hf. by rewrite lookup_nil in Hf.
  - cbn [fmap list_fmap] in Hnd. apply NoDup_cons in Hnd as [Hnotin Hnd].
    destruct (IH Hnd) as [attrs Hattrs].
    assert (∃ x, decoded_value E f U = Some x) as [x Hx].
    { unfold decoded_value.
      destruct (Nat.eqb_spec (fieldlength f) 1) as [H1|_]; [|by eexists].
      destruct U as [|u U]; [simpl in Hlen; lia|]. by eexists. }
    exists (<[Field.name f:=x]> attrs). intros [|k] g V Hg HV.
    + cbn in Hg, HV. simplify_eq. exists x. by rewrite lookup_insert_eq.
    + cbn in Hg, HV. destruct (Hattrs k g V Hg HV) as (y & Hy & Hdec).
      exists y. split; [|done]. rewrite lookup_insert_ne; [done|].
      intros Heq. apply Hnotin. rewrite Heq.
      apply list_elem_of_fmap. exists g. split; [done|].
      by eapply list_elem_of_lookup_2.
Qed.

(** For a class generated from a well-formed definition, the payload step of
    [decode] returns an instance of the class whatever the bytes of the frame
    are. *)
Lemma decode_fields_total E m cls msgbuf headerlen signature_len :
  XML.sort_fields (Env.xml E) = true →
  Def_wf m → generate (Env.xml E) m = Ok cls →
  ∃ d, decode_fields E cls msgbuf headerlen signature_len = Ok d
       ∧ Msg._type d = Def.name m
       ∧ Msg._fieldnames d = Def.fieldnames m
       ∧ ∀ f, f ∈ Def.fields m →
           ∃ x, Msg.attrs d !! Field.name f = Some x ∧ decoded_shape f x.
Proof.
  intros Hsort Hwf Hgen.
  destruct (generate_inv _ _ _ Hwf Hgen)
    as (Hdef & Hfmt & Hlenom & Horders & Hlens).
  destruct Hwf as [Hnames Honames Htypes Hflens Hnd Hperm].
  set (o := if XML.little_endian (Env.xml E)
            then Struct.LittleEndian else Struct.BigEndian) in *.
  assert (Struct.atoms (Class.format cls)
          = concat (field_atoms <$> Def.ordered_fields m)) as Hatoms.
  { rewrite Hfmt. unfold Struct.atoms. simpl. f_equal.
    by rewrite <- list_fmap_compose. }
  assert (Struct.order (Class.format cls) = o) as Horder by (by rewrite Hfmt).
  unfold decode_fields.
  destruct (decode_payload_ok (Def.name (Class.def cls))
              (Struct.size (Class.format cls)) msgbuf headerlen signature_len)
    as (mbuf & -> & Hmlen & _).
  cbn [rbind]. unfold Struct.unpack.
  rewrite bool_decide_eq_true_2 by done. rewrite Horder, Hatoms.
  destruct (unpack_blocks o (Def.ordered_fields m) mbuf) as (Us & -> & Hall).
  { rewrite Hmlen. unfold Struct.size. by rewrite Hatoms. }
  cbn [rbind].
  assert (NoDup (Field.name <$> Def.ordered_fields m)) as Hndo.
  { rewrite Hperm, <- Hnames. done. }
  destruct (received_attrs E (Def.ordered_fields m) Us Hndo) as [attrs Hattrs].
  { eapply Forall2_impl; [exact Hall|]. intros f U [chunk ->].
    apply unpacked_block_shape. }
  pose (self := Msg.mk (Header.new 0) None None None [] "" false None attrs).
  specialize (Hattrs self eq_refl).
  assert (length (Def.ordered_fields m) = length (Def.fields m)) as Hlenof
    by (by apply Permutation_length).
  destruct (decode_order_roundtrip E self cls (Def.fields m)
              (Def.ordered_fields m) Us Hsort Hlens Hlenom
              Hlenof Horders Hattrs) as (tlist & -> & Hlentl & Htl).
  cbn [rbind].
  destruct (decode_strings_roundtrip E cls (Def.fields m) tlist)
    as (t & -> & Hlent & Ht); [by rewrite Hdef | done |].
  cbn [rbind].
  destruct (class_init_roundtrip cls t) as (d & -> & Htype & Hfn & Hdattrs).
  { rewrite Hdef. by rewrite <- Hnames. }
  { by rewrite Hdef. }
  exists d. rewrite Hdef in *. split; [done|]. split; [done|]. split; [done|].
  intros f [i Hi]%list_elem_of_lookup_1.
  destruct (Htl i f Hi) as (k & U & Hk & HU & Hov).
  destruct (Forall2_lookup_lr _ _ _ _ _ _ Hall Hk HU) as [chunk ->].
  destruct (lookup_lt_is_Some_2 tlist i) as [y Hy].
  { rewrite Hlentl. by eapply lookup_lt_Some. }
  exists (terminate_string E (Field.type f) y). split.
  - eapply Hdattrs; [done|]. by apply Ht.
  - eapply decoded_block_shape. by rewrite <- Hov.
Qed.

(** ** Slices with two negative bounds *)

Lemma slice_inner {A} (l : list A) (a b : nat) :
  (0 < b ≤ a)%nat → (a ≤ length l)%nat →
  Py.slice l (Some (- Z.of_nat a)) (Some (- Z.of_nat b))
  = take (a - b) (drop (length l - a) l).
Proof.
  intros Hab Ha. unfold Py.slice, Py.bound, Py.len.
  destruct (Z.ltb_spec (- Z.of_nat a) 0); [|lia].
  destruct (Z.ltb_spec (- Z.of_nat b) 0); [|lia].
  f_equal; [lia|]. f_equal. lia.
Qed.

Lemma unpack_sign b0 b1 b2 b3 b4 b5 :
  ∃ tlow thigh,
    Struct.unpack fmt_sign [b0; b1; b2; b3; b4; b5]
    = Ok [PInt tlow; PInt thigh].
Proof. eexists _, _. reflexivity. Qed.

Lemma unpack_h3 b0 b1 b2 :
  Struct.unpack fmt_h3 [b0; b1; b2] = Ok [PInt b0; PInt b1; PInt b2].
Proof.
  unfold Struct.unpack. cbn. unfold Struct.unpack_int. cbn.
  by rewrite !Z.add_0_r.
Qed.

(** ** What the steps of [decode] can raise on a frame of the right length *)

Lemma signature_fields_ok msgbuf :
  (13 ≤ length msgbuf)%nat → ∃ l t, signature_fields msgbuf = Ok (l, t).
Proof.
  intros Hlen. unfold signature_fields.
  change (-13) with (- Z.of_nat 13). change (-12) with (- Z.of_nat 12).
  change (-6) with (- Z.of_nat 6).
  rewrite index_neg by lia. rewrite slice_inner by lia.
  destruct (lookup_lt_is_Some_2 msgbuf (length msgbuf - 13)) as [l ->]; [lia|].
  cbn [of_option rbind].
  assert (length (take (12 - 6) (drop (length msgbuf - 12) msgbuf)) = 6%nat)
    as Hl6 by (rewrite length_take, length_drop; lia).
  destruct (take _ _) as [|b0 [|b1 [|b2 [|b3 [|b4 [|b5 [|? ?]]]]]]];
    try discriminate Hl6.
  destruct (unpack_sign b0 b1 b2 b3 b4 b5) as (tlow & thigh & ->).
  by eexists _, _.
Qed.

Lemma check_signature_returns E self msgbuf srcSystem srcComponent :
  (13 ≤ length msgbuf)%nat →
  is_Some (Signing.secret_key (Mav.signing self)) →
  ∃ b self',
    check_signature E self msgbuf srcSystem srcComponent = (Ok b, self').
Proof.
  intros Hlen [key Hkey]. unfold check_signature.
  destruct (signature_fields_ok msgbuf Hlen) as (l & t & ->).
  destruct (Signing.stream_timestamps _ !! _) as [last|].
  - destruct (t <=? last); [by eexists _, _|].
    rewrite Hkey. destruct (negb _); by eexists _, _.
  - destruct (_ <? _); [by eexists _, _|].
    cbn [Mav.signing Mav.set_signing Signing.secret_key
         Signing.set_stream_timestamps].
    rewrite Hkey. destruct (negb _); by eexists _, _.
Qed.

Lemma decode_signature_outcome E self msgbuf signature_len srcSystem
    srcComponent msgId r self' :
  (signature_len = MAVLINK_SIGNATURE_BLOCK_LEN → (13 ≤ length msgbuf)%nat) →
  decode_signature E self msgbuf signature_len srcSystem srcComponent msgId
  = (r, self') →
  (∃ sig_ok, r = Ok sig_ok) ∨ r = Raise (EMAVError InvalidSignature).
Proof.
  intros Hlen. unfold decode_signature.
  destruct (bool_decide (signature_len = MAVLINK_SIGNATURE_BLOCK_LEN)) eqn:Hsl.
  - apply bool_decide_eq_true_1 in Hsl. specialize (Hlen Hsl).
    cbn [Mav.signing Mav.set_signing Signing.secret_key Signing.set_sig_count].
    destruct (Signing.secret_key (Mav.signing self)) as [key|] eqn:Hkey;
      [|intros [= <- <-]; eauto].
    set (s1 := Mav.set_signing _ self).
    destruct (check_signature_returns E s1 msgbuf srcSystem srcComponent Hlen)
      as (b & s2 & ->); [by eexists|].
    destruct b; [intros [= <- <-]; eauto|].
    destruct (Env.allow_unsigned_callback E) as [cb|];
      [|intros [= <- <-]; eauto].
    destruct (cb _ _); intros [= <- <-]; eauto.
  - destruct (Signing.secret_key (Mav.signing self)) as [key|];
      [|intros [= <- <-]; eauto].
    destruct (Env.allow_unsigned_callback E) as [cb|];
      [|intros [= <- <-]; eauto].
    destruct (cb _ _); intros [= <- <-]; eauto.
Qed.

Lemma decode_checksum_outcome E type msgbuf (sl : nat) msgId :
  (2 + sl ≤ length msgbuf)%nat →
  (∃ crc, decode_checksum E type msgbuf (Z.of_nat sl) msgId = Ok crc)
  ∨ (∃ crc crc2,
       decode_checksum E type msgbuf (Z.of_nat sl) msgId
       = Raise (EMAVError (InvalidCRC msgId crc crc2))).
Proof.
  intros Hlen. unfold decode_checksum.
  assert (∃ c0 c1,
            Py.slice (Py.slice msgbuf (Some (- (2 + Z.of_nat sl))) None)
              None (Some 2) = [c0; c1]) as (c0 & c1 & ->).
  { replace (- (2 + Z.of_nat sl)) with (- Z.of_nat (2 + sl)) by lia.
    rewrite slice_tail by lia. rewrite (slice_prefix _ 2).
    assert (length (take 2 (drop (length msgbuf - (2 + sl)) msgbuf)) = 2%nat)
      as Hl2 by (rewrite length_take, length_drop; lia).
    destruct (take 2 _) as [|c0 [|c1 [|? ?]]]; try discriminate Hl2.
    by eexists _, _. }
  rewrite unpack_csum. destruct (negb _ && negb _); [right|left]; eauto.
Qed.

Lemma decode_stamp_returns m0 msgbuf h sl sig_ok crc :
  (sig_ok = true → (13 ≤ length msgbuf)%nat) →
  ∃ m, decode_stamp m0 msgbuf h sl sig_ok crc = Ok m.
Proof.
  intros Hlen. unfold decode_stamp. cbn [Msg._signed Msg.set_signed].
  destruct sig_ok; [|by eexists].
  specialize (Hlen eq_refl). change (-13) with (- Z.of_nat 13).
  rewrite index_neg by lia.
  destruct (lookup_lt_is_Some_2 msgbuf (length msgbuf - 13)) as [l ->]; [lia|].
  by eexists.
Qed.

(** [decode] on a frame whose length is the one its header announces. *)
Lemma decode_announced_length E s mbuf h r s' :
  XML.sort_fields (Env.xml E) = true → registry_ok E →
  decode_header mbuf = Ok h →
  w_magic h = PROTOCOL_MARKER_V1 ∨ w_magic h = PROTOCOL_MARKER_V2 →
  w_mlen h = Py.len mbuf - (w_headerlen h + 2 + signature_len_of h) →
  0 ≤ w_mlen h → 0 ≤ w_headerlen h →
  decode E s mbuf = (r, s') →
  match r with
  | Ok _ => True
  | Raise e =>
      (∃ msgId crc crc2, e = EMAVError (InvalidCRC msgId crc crc2))
      ∨ e = EMAVError InvalidSignature
  end.
Proof.
  intros Hsort Hreg Hh Hmagic Hmlen Hml0 Hhl0. unfold decode. rewrite Hh.
  assert (negb (bool_decide (w_magic h = PROTOCOL_MARKER_V1))
          && negb (bool_decide (w_magic h = PROTOCOL_MARKER_V2)) = false) as ->.
  { destruct Hmagic as [-> | ->]; reflexivity. }
  rewrite bool_decide_eq_true_2 by done. cbn [negb].
  destruct (Env.mavlink_map E !! w_msgId h) as [cls|] eqn:Hcls;
    [|by intros [= <- <-]].
  destruct (Hreg _ _ Hcls) as [Hwf Hgen].
  assert (∃ sl : nat, signature_len_of h = Z.of_nat sl
                      ∧ (sl = 0 ∨ sl = 13)%nat) as (sl & Hsl & Hcases).
  { destruct (signature_len_cases h) as [-> | ->];
      [exists 0%nat | exists 13%nat]; split; auto. }
  assert (2 + sl ≤ length mbuf)%nat as Hlen.
  { unfold Py.len in Hmlen. lia. }
  rewrite Hsl.
  destruct (decode_checksum_outcome E cls mbuf sl (w_msgId h) Hlen)
    as [[crc ->] | (crc & crc2 & ->)];
    [|intros [= <- <-]; left; eauto].
  destruct (decode_signature E s mbuf _ _ _ _) as [rs s1] eqn:Hsig.
  assert (Z.of_nat sl = MAVLINK_SIGNATURE_BLOCK_LEN → (13 ≤ length mbuf)%nat)
    as Hl13 by (unfold MAVLINK_SIGNATURE_BLOCK_LEN; lia).
  destruct (decode_signature_outcome _ _ _ _ _ _ _ _ _ Hl13 Hsig)
    as [[sig_ok ->] | ->]; [|intros [= <- <-]; by right].
  destruct (decode_fields_total E (Class.def cls) cls mbuf (w_headerlen h)
              (Z.of_nat sl) Hsort Hwf Hgen) as (d0 & -> & _).
  cbn [rbind].
  destruct (decode_stamp_returns d0 mbuf h (Z.of_nat sl) sig_ok crc)
    as [m ->]; [|by intros [= <- <-]].
  intros ->. apply decode_signature_true in Hsig.
  unfold MAVLINK_SIGNATURE_BLOCK_LEN in Hsig. lia.
Qed.

(** ** The buffer seen from the cursor *)

Lemma buf_len_unread s : cursor_ok s → buf_len s = Py.len (unread s).
Proof.
  intros [Hlo Hhi]. unfold buf_len, unread, Py.len in *.
  rewrite length_drop. lia.
Qed.

Lemma index_unread s :
  cursor_ok s → Py.index (Mav.buf s) (Mav.buf_index s) = head (unread s).
Proof.
  intros [Hlo Hhi]. unfold unread.
  rewrite <- (Z2Nat.id (Mav.buf_index s)) at 1 by done.
  rewrite index_nonneg, head_lookup, lookup_drop. by rewrite Nat.add_0_r.
Qed.

Lemma slice_unread s n :
  cursor_ok s → 0 ≤ n →
  Py.slice (Mav.buf s) (Some (Mav.buf_index s)) (Some (Mav.buf_index s + n))
  = take (Z.to_nat n) (unread s).
Proof.
  intros [Hlo Hhi] Hn. unfold unread.
  rewrite <- (Z2Nat.id (Mav.buf_index s)) at 1 by done.
  replace (Mav.buf_index s + n)
    with (Z.of_nat (Z.to_nat (Mav.buf_index s) + Z.to_nat n)) by lia.
  rewrite slice_between. f_equal. lia.
Qed.

(** A frame cut at the cursor, with the three bytes that the parser has read
    from its header. *)
Lemma parse_frame_outcome E s hl b0 b1 b2 rest r s' :
  XML.sort_fields (Env.xml E) = true → registry_ok E →
  cursor_ok s →
  unread s = b0 :: b1 :: b2 :: rest →
  b0 = PROTOCOL_MARKER_V1 ∨ b0 = PROTOCOL_MARKER_V2 →
  0 ≤ b1 →
  Mav.expected_length s
  = b1 + (if bool_decide (b0 = PROTOCOL_MARKER_V2)
             && negb (bool_decide (Z.land b2 MAVLINK_IFLAG_SIGNED = 0))
          then MAVLINK_SIGNATURE_BLOCK_LEN else 0)
    + ((if bool_decide (b0 = PROTOCOL_MARKER_V2)
        then HEADER_LEN_V2 else HEADER_LEN_V1) + 2) →
  Mav.expected_length s ≤ buf_len s →
  parse_frame E s hl (Some (b0, b2)) = (r, s') →
  match r with
  | Ok _ => True
  | Raise e =>
      Mav.robust_parsing s = false
      ∧ ∃ e', e = EMAVError e' ∧ stream_error e' = true
  end.
Proof.
  intros Hsort Hreg Hc Hun Hb0 Hb1 Hexp Hle. unfold parse_frame.
  set (s1 := Mav.set_expected_length _ _).
  set (mbuf := Py.slice _ _ _).
  assert (Mav.robust_parsing s1 = Mav.robust_parsing s) as -> by done.
  destruct (bool_decide (b0 = PROTOCOL_MARKER_V2)
            && negb (bool_decide (Z.land b2 (Z.lnot _) = 0))) eqn:Hflags.
  { destruct (Mav.robust_parsing s); cbv beta iota; intros [= <- <-]; [done|].
    split; [done|]. by eexists. }
  destruct (decode E s1 mbuf) as [rd sd] eqn:Hdec.
  assert (match rd with
          | Ok _ => True
          | Raise e =>
              (∃ msgId crc crc2, e = EMAVError (InvalidCRC msgId crc crc2))
              ∨ e = EMAVError InvalidSignature
          end) as Hrd.
  { assert (0 ≤ Mav.expected_length s) as Hexp0.
    { rewrite Hexp. unfold MAVLINK_SIGNATURE_BLOCK_LEN, HEADER_LEN_V1,
        HEADER_LEN_V2. repeat case_match; lia. }
    assert (mbuf = take (Z.to_nat (Mav.expected_length s)) (unread s)) as Hmb
      by (by apply slice_unread).
    assert (Py.len mbuf = Mav.expected_length s) as Hlen.
    { rewrite Hmb. unfold Py.len. rewrite length_take.
      rewrite buf_len_unread in Hle by done. unfold Py.len in Hle. lia. }
    rewrite Hun in Hmb. clearbody mbuf. unfold Py.len in Hlen.
    destruct Hb0 as [-> | ->].
    - (* version 1 *)
      rewrite bool_decide_eq_false_2 in Hexp by done. cbn [andb] in Hexp.
      unfold HEADER_LEN_V1 in Hexp.
      destruct (Z.to_nat (Mav.expected_length s))
        as [|[|[|[|[|[|n]]]]]] eqn:Hn; try lia.
      cbn [take] in Hmb. destruct rest as [|b3 [|b4 [|b5 rest]]];
        cbn [take] in Hmb; subst mbuf; cbn [length] in Hlen; try lia.
      apply (decode_announced_length E s1 _ _ rd sd Hsort Hreg
               (decode_header_v1 b1 b2 b3 b4 b5 (take n rest)));
        cbn [w_magic w_mlen w_headerlen]; [by left | | lia | lia | exact Hdec].
      unfold signature_len_of, Py.len. cbn [w_incompat_flags].
      rewrite Z.land_0_l, bool_decide_eq_true_2 by done.
      cbn [negb length]. lia.
    - (* version 2 *)
      rewrite bool_decide_eq_true_2 in Hexp by done. cbn [andb] in Hexp.
      unfold HEADER_LEN_V2, MAVLINK_SIGNATURE_BLOCK_LEN in Hexp.
      assert (10 ≤ Z.to_nat (Mav.expected_length s))%nat as Hn10
        by (case_match; lia).
      destruct (Z.to_nat (Mav.expected_length s))
        as [|[|[|[|[|[|[|[|[|[|n]]]]]]]]]] eqn:Hn; try lia.
      cbn [take] in Hmb.
      destruct rest as [|b3 [|b4 [|b5 [|b6 [|b7 [|b8 [|b9 rest]]]]]]];
        cbn [take] in Hmb; subst mbuf; cbn [length] in Hlen;
        try (case_match; lia).
      assert (PROTOCOL_MARKER_V2 ≠ PROTOCOL_MARKER_V1) as Hne by done.
      apply (decode_announced_length E s1 _ _ rd sd Hsort Hreg
               (decode_header_v2 _ b1 b2 b3 b4 b5 b6 b7 b8 b9 (take n rest)
                  Hne));
        cbn [w_magic w_mlen w_headerlen]; [by right | | lia | lia | exact Hdec].
      unfold signature_len_of, Py.len. cbn [w_incompat_flags length].
      unfold MAVLINK_SIGNATURE_BLOCK_LEN. case_match; cbn; lia. }
  destruct rd as [m|e].
  - destruct (Mav.robust_parsing s); by intros [= <- <-].
  - assert (∃ e', e = EMAVError e' ∧ stream_error e' = true) as (e' & -> & He').
    { destruct Hrd as [(? & ? & ? & ->) | ->]; by eexists. }
    destruct (Mav.robust_parsing s); intros [= <- <-]; [done|].
    split; [done|]. by eexists.
Qed.

Lemma parse_char_legacy_outcome E s r s' :
  XML.sort_fields (Env.xml E) = true → registry_ok E →
  cursor_ok s → is_bytes (Mav.buf s) →
  parse_char_legacy E s = (r, s') →
  match r with
  | Ok _ => True
  | Raise e =>
      Mav.robust_parsing s = false
      ∧ ∃ e', e = EMAVError e' ∧ stream_error e' = true
  end.
Proof.
  intros Hsort Hreg Hc Hbytes. unfold parse_char_legacy.
  change (buf_len (Mav.set_have_prefix_error false s)) with (buf_len s).
  rewrite (index_unread s Hc), (buf_len_unread s Hc).
  assert (is_bytes (unread s)) as Hub.
  { unfold unread, is_bytes. by apply Forall_drop. }
  destruct (unread s) as [|b0 tl] eqn:Hun.
  { (* nothing to read *)
    unfold Py.len. cbn [length head]. change (Z.of_nat 0) with 0.
    change (1 <=? 0) with false. change (3 <=? 0) with false.
    cbn [andb]. cbv beta iota zeta.
    change (buf_len (Mav.set_have_prefix_error false s)) with (buf_len s).
    rewrite (buf_len_unread s Hc), Hun. unfold Py.len. cbn [length].
    change (Z.of_nat 0) with 0.
    unfold HEADER_LEN_V1.
    destruct (_ && (_ <=? 0)) eqn:Hcond; [|by intros [= <- <-]].
    apply andb_prop in Hcond as [H1%Z.leb_le H2%Z.leb_le]. lia. }
  cbn [head].
  assert ((1 <=? Py.len (b0 :: tl)) = true) as ->
    by (apply Z.leb_le; unfold Py.len; cbn [length]; lia).
  cbn [andb]. rewrite bool_decide_eq_false_2 by done.
  destruct (negb (bool_decide (Some b0 = Some PROTOCOL_MARKER_V1))
            && negb (bool_decide (Some b0 = Some PROTOCOL_MARKER_V2)))
    eqn:Hbad.
  { (* a byte that starts no frame *)
    cbn [Mav.robust_parsing Mav.have_prefix_error Mav.set_buf_index].
    destruct (Mav.robust_parsing s); [by intros [= <- <-]|].
    destruct (Mav.have_prefix_error s); intros [= <- <-]; [done|].
    split; [done|]. by eexists. }
  assert (b0 = PROTOCOL_MARKER_V1 ∨ b0 = PROTOCOL_MARKER_V2) as Hb0.
  { apply andb_false_iff in Hbad as [H|H]; apply negb_false_iff in H;
      apply bool_decide_eq_true_1 in H; simplify_eq; auto. }
  assert (bool_decide (Some b0 = Some PROTOCOL_MARKER_V2)
          = bool_decide (b0 = PROTOCOL_MARKER_V2)) as ->.
  { apply bool_decide_ext. split; [by intros [= ->] | by intros ->]. }
  set (hl := if bool_decide (b0 = PROTOCOL_MARKER_V2)
             then HEADER_LEN_V2 else HEADER_LEN_V1).
  set (s0 := Mav.set_have_prefix_error false s).
  assert (cursor_ok s0) as Hc0 by done.
  assert (unread s0 = b0 :: tl) as Hun0 by done.
  destruct tl as [|b1 [|b2 rest]].
  1,2: (* fewer than three bytes *)
    assert ((3 <=? Py.len _) = false) as ->
      by (apply Z.leb_gt; unfold Py.len; cbn [length]; lia);
    cbv beta iota zeta; rewrite (buf_len_unread s0 Hc0), Hun0;
    destruct ((_ <=? _) && (_ <=? _)) eqn:Hcond; [|by intros [= <- <-]];
    apply andb_prop in Hcond as [H1%Z.leb_le H2%Z.leb_le];
    unfold Py.len in H2; cbn [length] in H2; subst hl;
    unfold HEADER_LEN_V1, HEADER_LEN_V2 in H1; case_match; lia.
  (* the header has been read *)
  assert ((3 <=? Py.len (b0 :: b1 :: b2 :: rest)) = true) as ->
    by (apply Z.leb_le; unfold Py.len; cbn [length]; lia).
  replace (3 + Mav.buf_index s0) with (Mav.buf_index s0 + 3) by lia.
  rewrite (slice_unread s0 3 Hc0) by lia. rewrite Hun0.
  change (Z.to_nat 3) with 3%nat. cbn [take]. rewrite unpack_h3.
  cbv beta iota zeta.
  set (s2 := Mav.set_expected_length _ s0).
  assert (cursor_ok s2) as Hc2 by done.
  assert (unread s2 = b0 :: b1 :: b2 :: rest) as Hun2 by done.
  destruct (_ && (_ <=? buf_len s2)) eqn:Hcond; [|by intros [= <- <-]].
  apply andb_prop in Hcond as [H1%Z.leb_le H2%Z.leb_le].
  intros Hpf.
  assert (0 ≤ b1) as Hb1.
  { inversion Hub as [|? ? _ Hub1]; subst. inversion Hub1; subst. lia. }
  refine (parse_frame_outcome E s2 hl b0 b1 b2 rest r s' Hsort Hreg Hc2 Hun2
            Hb0 Hb1 _ H2 Hpf).
  subst s2 hl. cbn [Mav.expected_length Mav.set_expected_length].
  destruct (bool_decide (b0 = PROTOCOL_MARKER_V2) && negb _); lia.
Qed.

(** X3.  In a module whose registered classes are the generated ones, a parser
    that is fed bytes raises nothing but stream errors: a byte that starts no
    frame, unknown incompatibility flags, a wrong checksum, a refused
    signature.  The length, header, payload and instantiation errors of
    [decode] and the Python exceptions of indexing and unpacking do not
    occur, and in robust parsing nothing is raised.  The cursor stays inside
    the buffer and the buffer holds bytes, so the same holds for the next
    call. *)
Theorem parse_char_raises_stream_errors_only E s c r s' :
  XML.sort_fields (Env.xml E) = true → registry_ok E →
  cursor_ok s → is_bytes (Mav.buf s) → is_bytes c →
  parse_char E s c = (r, s') →
  (Mav.robust_parsing s = true → ∃ m, r = Ok m)
  ∧ (∀ e, r = Raise e → ∃ e', e = EMAVError e' ∧ stream_error e' = true)
  ∧ cursor_ok s' ∧ is_bytes (Mav.buf s')
  ∧ Mav.robust_parsing s' = Mav.robust_parsing s.
Proof.
  intros Hsort Hreg Hc Hbytes Hcb Hrun.
  destruct (parse_char_forward E s c r s' Hc Hrun) as [Hc' _].
  revert Hrun. unfold parse_char.
  set (s1 := Mav.set_total_bytes_received _ _).
  assert (cursor_ok s1) as Hc1.
  { destruct Hc as [Hlo Hhi]. unfold cursor_ok, Py.len in *. subst s1. cbn.
    rewrite length_app. lia. }
  assert (is_bytes (Mav.buf s1)) as Hb1 by (by apply Forall_app).
  destruct (parse_char_legacy E s1) as [r2 s2] eqn:Hleg.
  pose proof (parse_char_legacy_outcome E s1 r2 s2 Hsort Hreg Hc1 Hb1 Hleg)
    as Hout.
  pose proof (parse_char_legacy_footprint E s1 r2 s2 Hleg)
    as (_ & _ & _ & _ & Hbuf & Hrob & _).
  change (Mav.robust_parsing s1) with (Mav.robust_parsing s) in *.
  rewrite <- Hbuf in Hb1.
  destruct r2 as [[m|]|e].
  - intros [= <- <-]. split_and!; eauto. intros ? [=].
  - case_match; intros [= <- <-]; split_and!; eauto; try (intros ? [=]).
    constructor.
  - destruct Hout as (Hnr & e' & -> & He'). intros [= <- <-].
    split_and!; eauto.
    + intros Hr. congruence.
    + intros ? [= <-]. eauto.
Qed.

Lemma sample_registry_ok : registry_ok Sample.E.
Proof.
  intros id cls.
  change (Env.mavlink_map Sample.E) with (<[7:=Sample.demo_cls]>
                                            (∅ : gmap Z Class.t)).
  intros [[<- <-]|[_ H]]%lookup_insert_Some; [|by rewrite lookup_empty in H].
  split; [exact sample_def_wf | vm_compute; reflexivity].
Qed.

Lemma parse_char_raises_stream_errors_only_witness :
  let out := parse_char Sample.E Sample.mav Sample.frame in
  (Mav.robust_parsing Sample.mav = true → ∃ m, out.1 = Ok m)
  ∧ (∀ e, out.1 = Raise e → ∃ e', e = EMAVError e' ∧ stream_error e' = true)
  ∧ cursor_ok out.2 ∧ is_bytes (Mav.buf out.2)
  ∧ Mav.robust_parsing out.2 = Mav.robust_parsing Sample.mav.
Proof.
  intros out.
  apply (parse_char_raises_stream_errors_only Sample.E Sample.mav
           Sample.frame).
  - reflexivity.
  - exact sample_registry_ok.
  - unfold cursor_ok, Py.len. simpl. lia.
  - constructor.
  - exact sample_frame_bytes.
  - apply surjective_pairing.
Defined.

Lemma parse_buffer_loop_returns E : ∀ fuel s ret,
  cursor_ok s → (length (unread s) < fuel)%nat →
  ∃ r s',
    parse_buffer_loop E fuel s ret = Some (r, s')
    ∧ cursor_ok s'
    ∧ Mav.total_bytes_received s' = Mav.total_bytes_received s
    ∧ ∀ ret', r = Ok ret' →
        ∃ new, ret' = ret ++ new
               ∧ (length new ≤ length (unread s))%nat
               ∧ Mav.total_packets_received s'
                 = Mav.total_packets_received s + Py.len new.
Proof.
  induction fuel as [|fuel IH]; intros s ret Hc Hfuel; [lia|].
  cbn [parse_buffer_loop].
  pose proof (parse_char_counters E s []) as Hcnt. cbv zeta in Hcnt.
  destruct (parse_char E s []) as [r1 s1] eqn:Hpc.
  destruct (parse_char_forward E s [] r1 s1 Hc Hpc)
    as (Hc1 & k & Hun & Hk & Hmsg & _).
  rewrite app_nil_r in Hun, Hk.
  cbn [fst snd] in Hcnt. destruct Hcnt as (Hbr & Hpr & _).
  unfold Py.len in Hbr. cbn [length] in Hbr. rewrite Z.add_0_r in Hbr.
  destruct r1 as [[m|]|e].
  - specialize (Hmsg m eq_refl).
    destruct (IH s1 (ret ++ [m]) Hc1) as (r & s' & -> & Hc' & Hbr' & Hret).
    { rewrite Hun, length_drop. lia. }
    exists r, s'. split; [done|]. split; [done|]. split; [congruence|].
    intros ret' Hr. destruct (Hret ret' Hr) as (new & -> & Hlen & Hcount).
    exists (m :: new). split; [by rewrite <- app_assoc|].
    split.
    + cbn [length]. rewrite Hun, length_drop in Hlen. lia.
    + rewrite Hcount, Hpr. unfold Py.len. cbn [length]. lia.
  - exists (Ok ret), s1. split; [done|]. split; [done|]. split; [done|].
    intros ret' [= <-]. exists []. rewrite app_nil_r. split; [done|].
    split; [cbn; lia|]. rewrite Hpr. unfold Py.len. cbn. lia.
  - exists (Raise e), s1. split; [done|]. split; [done|]. split; [done|].
    intros ret' [=].
Qed.

(** X4.  [parse_buffer(s)] returns: its loop runs at most once per byte that is
    left to read, so as many rounds as there are unread bytes are enough.
    When it returns a list, the list is not empty, holds at most one message
    per byte, and the packet counter has moved on by its length; when it
    returns [None] the packet counter is as before.  The byte counter has
    moved on by the length of [s], and the cursor is inside the buffer. *)
Theorem parse_buffer_returns E fuel s c :
  cursor_ok s → (length (unread s ++ c) ≤ fuel)%nat →
  ∃ r s',
    parse_buffer E fuel s c = Some (r, s')
    ∧ cursor_ok s'
    ∧ Mav.total_bytes_received s' = Mav.total_bytes_received s + Py.len c
    ∧ match r with
      | Ok None =>
          Mav.total_packets_received s' = Mav.total_packets_received s
      | Ok (Some ret) =>
          ret ≠ []
          ∧ (length ret ≤ length (unread s ++ c))%nat
          ∧ Mav.total_packets_received s'
            = Mav.total_packets_received s + Py.len ret
      | Raise _ => True
      end.
Proof.
  intros Hc Hfuel. unfold parse_buffer.
  pose proof (parse_char_counters E s c) as Hcnt. cbv zeta in Hcnt.
  destruct (parse_char E s c) as [r1 s1] eqn:Hpc.
  destruct (parse_char_forward E s c r1 s1 Hc Hpc)
    as (Hc1 & k & Hun & Hk & Hmsg & _).
  cbn [fst snd] in Hcnt. destruct Hcnt as (Hbr & Hpr & _).
  destruct r1 as [[m|]|e].
  - specialize (Hmsg m eq_refl).
    destruct (parse_buffer_loop_returns E fuel s1 [m] Hc1)
      as (r & s' & -> & Hc' & Hbr' & Hret).
    { rewrite Hun, length_drop. lia. }
    destruct r as [ret|e].
    + exists (Ok (Some ret)), s'. split; [done|]. split; [done|].
      split; [congruence|].
      destruct (Hret ret eq_refl) as (new & -> & Hlen & Hcount).
      split; [done|]. split.
      * cbn [app length]. rewrite Hun, length_drop in Hlen. lia.
      * rewrite Hcount, Hpr. unfold Py.len. cbn [app length]. lia.
    + exists (Raise e), s'. split; [done|]. split; [done|].
      split; [congruence|done].
  - exists (Ok None), s1. split; [done|]. split; [done|]. split; [done|]. lia.
  - exists (Raise e), s1. by split_and!.
Qed.

Lemma parse_buffer_returns_witness :
  ∃ r s',
    parse_buffer Sample.E 25 Sample.mav Sample.frame = Some (r, s')
    ∧ cursor_ok s'
    ∧ Mav.total_bytes_received s'
      = Mav.total_bytes_received Sample.mav + Py.len Sample.frame
    ∧ match r with
      | Ok None =>
          Mav.total_packets_received s'
          = Mav.total_packets_received Sample.mav
      | Ok (Some ret) =>
          ret ≠ []
          ∧ (length ret ≤ length (unread Sample.mav ++ Sample.frame))%nat
          ∧ Mav.total_packets_received s'
            = Mav.total_packets_received Sample.mav + Py.len ret
      | Raise _ => True
      end.
Proof.
  apply (parse_buffer_returns Sample.E 25 Sample.mav Sample.frame).
  - unfold cursor_ok, Py.len. simpl. lia.
  - simpl. lia.
Defined.

(** ** Little-endian digits *)

Lemma le_encode_app a b z :
  Struct.le_encode (a + b) z
  = Struct.le_encode a z ++ Struct.le_encode b (z `div` 2 ^ (8 * Z.of_nat a)).
Proof.
  revert z. induction a as [|a IH]; intros z.
  - cbn. by rewrite Z.div_1_r.
  - cbn [Nat.add Struct.le_encode app]. rewrite IH. do 3 f_equal.
    rewrite Z.div_div by lia. f_equal.
    replace (8 * Z.of_nat (S a)) with (8 + 8 * Z.of_nat a) by lia.
    rewrite Z.pow_add_r by lia. reflexivity.
Qed.

Lemma take_le_encode k n z :
  (k ≤ n)%nat → take k (Struct.le_encode n z) = Struct.le_encode k z.
Proof.
  intros Hk. replace n with (k + (n - k))%nat by lia.
  rewrite le_encode_app, take_app_length'; [done|by rewrite le_encode_length].
Qed.

Lemma unpack_sign_digits t :
  Struct.unpack fmt_sign (Struct.le_encode 6 t)
  = Ok [PInt (t `mod` 2 ^ 32); PInt ((t `div` 2 ^ 32) `mod` 2 ^ 16)].
Proof.
  change 6%nat with (4 + 2)%nat. rewrite le_encode_app.
  unfold Struct.unpack. rewrite bool_decide_eq_true_2
    by (rewrite length_app, !le_encode_length; reflexivity).
  change (Struct.atoms fmt_sign)
    with ([Struct.AInt 4 false] ++ [Struct.AInt 2 false]).
  rewrite unpack_atoms_app by (by rewrite le_encode_length).
  cbn [Struct.unpack_atoms Struct.atom_size Struct.unpack_atom app
       Struct.order fmt_sign].
  rewrite !take_ge by (rewrite le_encode_length; lia).
  unfold Struct.unpack_int. cbn [Struct.endian andb].
  by rewrite !le_decode_encode.
Qed.

Lemma timestamp_48 t :
  t `mod` 2 ^ 32 + Z.shiftl ((t `div` 2 ^ 32) `mod` 2 ^ 16) 32 = t `mod` 2 ^ 48.
Proof.
  rewrite Z.shiftl_mul_pow2 by lia.
  change (2 ^ 48) with (2 ^ 32 * 2 ^ 16).
  rewrite Z.rem_mul_r by lia. lia.
Qed.

(** ** The signature block *)

(** The bytes that [sign_packet] appends: the link id, the low six bytes of
    the timestamp and the first six bytes of the digest. *)
Lemma sign_packet_bytes E self mav key :
  is_Some (Msg._msgbuf self) →
  Signing.secret_key (Mav.signing mav) = Some key →
  0 ≤ Signing.link_id (Mav.signing mav) < 256 →
  0 ≤ Signing.timestamp (Mav.signing mav) < 2 ^ 64 →
  let l := Signing.link_id (Mav.signing mav) in
  let t := Signing.timestamp (Mav.signing mav) in
  let body := msgbuf_of self ++ l :: Struct.le_encode 6 t in
  ∃ self',
    sign_packet E self mav
    = (Ok tt, self',
       Mav.set_signing (Signing.set_timestamp (t + 1) (Mav.signing mav)) mav)
    ∧ msgbuf_of self' = body ++ take 6 (Env.sha256 E (key ++ body)).
Proof.
  intros [buf Hbuf] Hkey Hl Ht. cbv zeta. unfold sign_packet, msgbuf_of.
  rewrite Hbuf. cbn [default].
  set (l := Signing.link_id (Mav.signing mav)) in *.
  set (t := Signing.timestamp (Mav.signing mav)) in *.
  assert (Struct.pack (Struct.Format Struct.LittleEndian [Struct.B; Struct.Q])
            [PInt l; PInt t] = Ok (l :: Struct.le_encode 8 t)) as ->.
  { unfold Struct.pack.
    change (Struct.atoms _) with [Struct.AInt 1 false; Struct.AInt 8 false].
    cbn [Struct.pack_atoms Struct.pack_atom Struct.order].
    rewrite pack_B by done. cbn [rbind].
    unfold Struct.pack_int, Struct.in_range.
    change (2 ^ (8 * Z.of_nat 8)) with (2 ^ 64).
    rewrite (proj2 (Z.leb_le 0 t)), (proj2 (Z.ltb_lt t (2 ^ 64))) by lia.
    cbn [andb Struct.endian rbind Struct.pack_atoms app].
    rewrite Z.mod_small by lia. by rewrite app_nil_r. }
  rewrite Hkey.
  change (take 7 (l :: Struct.le_encode 8 t))
    with (l :: take 6 (Struct.le_encode 8 t)).
  rewrite take_le_encode by lia.
  eexists. split; [reflexivity|]. reflexivity.
Qed.

Lemma signature_fields_block body l t sig :
  length sig = 6%nat →
  signature_fields (body ++ l :: Struct.le_encode 6 t ++ sig)
  = Ok (l, t `mod` 2 ^ 48).
Proof.
  intros Hsig. unfold signature_fields.
  assert (length (body ++ l :: Struct.le_encode 6 t ++ sig)
          = (length body + 13)%nat) as Hlen.
  { rewrite length_app. cbn [length]. rewrite length_app, le_encode_length.
    lia. }
  change (-13) with (- Z.of_nat 13). change (-12) with (- Z.of_nat 12).
  change (-6) with (- Z.of_nat 6).
  rewrite index_neg by lia. rewrite slice_inner by lia. rewrite Hlen.
  replace (length body + 13 - 13)%nat with (length body) by lia.
  replace (length body + 13 - 12)%nat with (length body + 1)%nat by lia.
  rewrite list_lookup_middle by done. cbn [of_option rbind].
  rewrite cons_middle, app_assoc, drop_app_length'
    by (rewrite length_app; cbn; lia).
  rewrite take_app_length' by (rewrite le_encode_length; lia).
  rewrite unpack_sign_digits. by rewrite timestamp_48.
Qed.

Lemma signature_matches_block E key body sig :
  length sig = 6%nat →
  signature_matches E key (body ++ sig)
  = bool_decide (take 6 (Env.sha256 E (key ++ body)) = sig).
Proof.
  intros Hsig. unfold signature_matches.
  change (-6) with (- Z.of_nat 6).
  rewrite slice_front, slice_tail by lia.
  rewrite length_app, Hsig.
  replace (length body + 6 - 6)%nat with (length body) by lia.
  by rewrite take_app_length, drop_app_length.
Qed.

Lemma signed_frame_check E self mav rx key srcSystem srcComponent :
  (∀ x, (6 ≤ length (Env.sha256 E x))%nat) →
  is_Some (Msg._msgbuf self) →
  Signing.secret_key (Mav.signing mav) = Some key →
  Signing.secret_key (Mav.signing rx) = Some key →
  0 ≤ Signing.link_id (Mav.signing mav) < 256 →
  0 ≤ Signing.timestamp (Mav.signing mav) < 2 ^ 64 →
  let stream := (Signing.link_id (Mav.signing mav), srcSystem, srcComponent) in
  let ts := Signing.timestamp (Mav.signing mav) `mod` 2 ^ 48 in
  let signed := sign_packet E self mav in
  let checked :=
    check_signature E rx (msgbuf_of signed.1.2) srcSystem srcComponent in
  signed.1.1 = Ok tt
  ∧ Signing.timestamp (Mav.signing signed.2)
    = Signing.timestamp (Mav.signing mav) + 1
  ∧ Py.len (msgbuf_of signed.1.2) = Py.len (msgbuf_of self) + 13
  ∧ checked.1 = Ok (timestamp_fresh (Mav.signing rx) stream ts)
  ∧ (timestamp_fresh (Mav.signing rx) stream ts = true →
     Signing.timestamp (Mav.signing checked.2)
     = Z.max (Signing.timestamp (Mav.signing rx)) ts
     ∧ Signing.stream_timestamps (Mav.signing checked.2) !! stream
       = Some (default ts
                 (Signing.stream_timestamps (Mav.signing rx) !! stream)))
  ∧ (timestamp_fresh (Mav.signing rx) stream ts = false → checked.2 = rx).
Proof.
  intros Hdig Hmb Hkey Hrx Hl Ht stream ts signed checked.
  destruct (sign_packet_bytes E self mav key Hmb Hkey Hl Ht)
    as (self' & Hs & Hbuf).
  cbv zeta in Hs, Hbuf.
  set (body := msgbuf_of self ++ _ :: Struct.le_encode 6 _) in Hbuf.
  set (sig := take 6 (Env.sha256 E (key ++ body))) in Hbuf.
  assert (length sig = 6%nat) as Hsig.
  { subst sig. rewrite length_take. specialize (Hdig (key ++ body)). lia. }
  subst checked signed. rewrite Hs. cbn [fst snd]. rewrite Hbuf.
  split; [done|]. split; [done|]. split.
  { unfold Py.len. subst body. rewrite !length_app. cbn [length].
    rewrite le_encode_length, Hsig. lia. }
  unfold check_signature, timestamp_fresh.
  assert (signature_fields (body ++ sig)
          = Ok (Signing.link_id (Mav.signing mav), ts)) as ->.
  { subst body. rewrite <- app_assoc. cbn [app].
    by apply signature_fields_block. }
  fold stream.
  destruct (Signing.stream_timestamps (Mav.signing rx) !! stream)
    as [last|] eqn:Hlast.
  - destruct (ts <=? last); cbn [negb]; [by split_and!|].
    rewrite Hrx, signature_matches_block by done.
    fold sig. rewrite bool_decide_eq_true_2 by done. cbn [negb fst snd].
    split; [done|]. split; [|done]. intros _. split; [done|].
    cbn. by rewrite Hlast.
  - destruct (ts + 6000 * 1000 <? _); cbn [negb]; [by split_and!|].
    cbn [Mav.signing Mav.set_signing Signing.secret_key
         Signing.set_stream_timestamps].
    rewrite Hrx, signature_matches_block by done.
    fold sig. rewrite bool_decide_eq_true_2 by done. cbn [negb fst snd].
    split; [done|]. split; [|done]. intros _. split; [done|].
    cbn. by rewrite lookup_insert_eq.
Qed.

(** X5.  Signing and verifying.  A frame signed by [sign_packet] grows by the
    13 bytes of the signature block and moves the sender's timestamp on by
    one.  In a session that holds the same key, [check_signature] reads the
    sender's link id and its timestamp modulo 2^48 from the block, finds the
    signature right, and so answers exactly what the timestamp test says;
    when it accepts, the session timestamp becomes the larger of its own and
    the received one and the stream has an entry in the table, and when it
    refuses, the session is as before. *)
Theorem signed_frame_verifies E self mav rx key srcSystem srcComponent :
  (∀ x, (6 ≤ length (Env.sha256 E x))%nat) →
  is_Some (Msg._msgbuf self) →
  Signing.secret_key (Mav.signing mav) = Some key →
  Signing.secret_key (Mav.signing rx) = Some key →
  0 ≤ Signing.link_id (Mav.signing mav) < 256 →
  0 ≤ Signing.timestamp (Mav.signing mav) < 2 ^ 64 →
  let stream := (Signing.link_id (Mav.signing mav), srcSystem, srcComponent) in
  let ts := Signing.timestamp (Mav.signing mav) `mod` 2 ^ 48 in
  let signed := sign_packet E self mav in
  let checked :=
    check_signature E rx (msgbuf_of signed.1.2) srcSystem srcComponent in
  signed.1.1 = Ok tt
  ∧ Signing.timestamp (Mav.signing signed.2)
    = Signing.timestamp (Mav.signing mav) + 1
  ∧ Py.len (msgbuf_of signed.1.2) = Py.len (msgbuf_of self) + 13
  ∧ checked.1 = Ok (timestamp_fresh (Mav.signing rx) stream ts)
  ∧ (timestamp_fresh (Mav.signing rx) stream ts = true →
     Signing.timestamp (Mav.signing checked.2)
     = Z.max (Signing.timestamp (Mav.signing rx)) ts
     ∧ is_Some (Signing.stream_timestamps (Mav.signing checked.2) !! stream))
  ∧ (timestamp_fresh (Mav.signing rx) stream ts = false → checked.2 = rx).
Proof.
  intros Hdig Hmb Hkey Hrx Hl Ht.
  destruct (signed_frame_check E self mav rx key srcSystem srcComponent
              Hdig Hmb Hkey Hrx Hl Ht) as (H1 & H2 & H3 & H4 & H5 & H6).
  cbv zeta. split_and!; try done.
  intros Hfresh. destruct (H5 Hfresh) as [H7 H8]. split; [done|].
  rewrite H8. by eexists.
Qed.

Lemma signed_frame_verifies_witness :
  let self := Msg.set_msgbuf (Some Sample.frame) Sample.m0 in
  let mav := Sample.signing_mav 1000 ∅ in
  let rx := Sample.receiver false [] in
  let signed := sign_packet Sample.E self mav in
  let checked := check_signature Sample.E rx (msgbuf_of signed.1.2) 1 2 in
  signed.1.1 = Ok tt
  ∧ Signing.timestamp (Mav.signing signed.2) = 1001
  ∧ Py.len (msgbuf_of signed.1.2) = 38
  ∧ checked.1 = Ok true
  ∧ Signing.timestamp (Mav.signing checked.2) = 1000
  ∧ is_Some (Signing.stream_timestamps (Mav.signing checked.2) !! (9, 1, 2)).
Proof.
  intros self mav rx signed checked.
  destruct (signed_frame_verifies Sample.E self mav rx Sample.key 1 2)
    as (H1 & H2 & H3 & H4 & H5 & _).
  - exact (ve_digest _ sample_valid_env).
  - by eexists.
  - reflexivity.
  - reflexivity.
  - simpl. lia.
  - simpl. lia.
  - assert (timestamp_fresh (Mav.signing rx) (9, 1, 2) (1000 `mod` 2 ^ 48)
            = true) as Hfresh by (vm_compute; reflexivity).
    split; [exact H1|]. split; [exact H2|]. split; [exact H3|].
    split; [exact H4|]. exact (H5 Hfresh).
Defined.

(** X6.  First contact.  A frame that [check_signature] accepts on a stream
    that the session has not seen before is refused when it is submitted
    again, and the second call leaves the session as the first one left
    it. *)
Theorem new_stream_replay_rejected E self msgbuf srcSystem srcComponent
    link_id timestamp self' :
  signature_fields msgbuf = Ok (link_id, timestamp) →
  Signing.stream_timestamps (Mav.signing self)
    !! (link_id, srcSystem, srcComponent) = None →
  check_signature E self msgbuf srcSystem srcComponent = (Ok true, self') →
  Signing.stream_timestamps (Mav.signing self')
    !! (link_id, srcSystem, srcComponent) = Some timestamp
  ∧ check_signature E self' msgbuf srcSystem srcComponent = (Ok false, self').
Proof.
  intros Hf Hk. unfold check_signature at 1. rewrite Hf, Hk.
  destruct (_ <? _); [discriminate|].
  cbn [Mav.signing Mav.set_signing Signing.secret_key
       Signing.set_stream_timestamps].
  destruct (Signing.secret_key (Mav.signing self)) as [k|]; [|discriminate].
  destruct (negb _); [discriminate|]. intros [= <-].
  match goal with
  | |- Signing.stream_timestamps (Mav.signing ?s) !! _ = _ ∧ _ =>
      set (s1 := s)
  end.
  assert (Signing.stream_timestamps (Mav.signing s1)
            !! (link_id, srcSystem, srcComponent) = Some timestamp) as Htab
    by (subst s1; cbn; by rewrite lookup_insert_eq).
  split; [exact Htab|].
  eapply old_timestamp_rejected; [exact Hf | exact Htab | lia].
Qed.

Lemma new_stream_replay_rejected_witness :
  let rx := Sample.receiver false [] in
  let rx' := (check_signature Sample.E rx Sample.signed_frame 1 2).2 in
  Signing.stream_timestamps (Mav.signing rx') !! (9, 1, 2) = Some 1000
  ∧ check_signature Sample.E rx' Sample.signed_frame 1 2 = (Ok false, rx').
Proof.
  intros rx rx'.
  apply (new_stream_replay_rejected Sample.E rx Sample.signed_frame 1 2 9
           1000 rx').
  - vm_compute. reflexivity.
  - reflexivity.
  - vm_compute. reflexivity.
Defined.

(** X7.  Frames of one sender in and out of order.  Two packed frames signed
    one after the other carry the timestamps [t] and [t + 1], here below
    2^48.  A session with the same key that meets the stream for the first
    time, and whose own timestamp is not more than 6000000 ahead of [t],
    accepts them in the order in which they were signed; when the second
    arrives first it is accepted and the first, older one, is then
    refused. *)
Theorem signed_frames_in_and_out_of_order E self1 self2 mav rx key
    srcSystem srcComponent :
  (∀ x, (6 ≤ length (Env.sha256 E x))%nat) →
  is_Some (Msg._msgbuf self1) → is_Some (Msg._msgbuf self2) →
  Signing.secret_key (Mav.signing mav) = Some key →
  Signing.secret_key (Mav.signing rx) = Some key →
  0 ≤ Signing.link_id (Mav.signing mav) < 256 →
  0 ≤ Signing.timestamp (Mav.signing mav) →
  Signing.timestamp (Mav.signing mav) + 1 < 2 ^ 48 →
  Signing.stream_timestamps (Mav.signing rx)
    !! (Signing.link_id (Mav.signing mav), srcSystem, srcComponent) = None →
  Signing.timestamp (Mav.signing rx)
  ≤ Signing.timestamp (Mav.signing mav) + 6000 * 1000 →
  let first := sign_packet E self1 mav in
  let second := sign_packet E self2 first.2 in
  let check s (signed : result unit * Msg.t * Mav.t) :=
    check_signature E s (msgbuf_of signed.1.2) srcSystem srcComponent in
  (check rx first).1 = Ok true
  ∧ (check (check rx first).2 second).1 = Ok true
  ∧ (check rx second).1 = Ok true
  ∧ (check (check rx second).2 first).1 = Ok false.
Proof.
  intros Hdig Hmb1 Hmb2 Hkey Hrx Hl Ht0 Ht1 Hnew Hrxts first second check.
  set (t := Signing.timestamp (Mav.signing mav)) in *.
  set (stream := (Signing.link_id (Mav.signing mav), srcSystem, srcComponent))
    in *.
  assert (0 ≤ t < 2 ^ 64) as Ht64 by lia.
  (* the sender after the first frame *)
  destruct (sign_packet_bytes E self1 mav key Hmb1 Hkey Hl Ht64)
    as (m1 & Hs1 & _).
  cbv zeta in Hs1. fold t in Hs1.
  set (mav1 := Mav.set_signing _ mav) in Hs1.
  assert (first.2 = mav1) as Hfirst by (subst first; by rewrite Hs1).
  assert (Signing.secret_key (Mav.signing mav1) = Some key
          ∧ Signing.link_id (Mav.signing mav1)
            = Signing.link_id (Mav.signing mav)
          ∧ Signing.timestamp (Mav.signing mav1) = t + 1)
    as (Hkey1 & Hl1 & Ht1') by done.
  assert (∀ s self' sender ts,
            is_Some (Msg._msgbuf self') →
            Signing.secret_key (Mav.signing s) = Some key →
            Signing.secret_key (Mav.signing sender) = Some key →
            Signing.link_id (Mav.signing sender)
            = Signing.link_id (Mav.signing mav) →
            Signing.timestamp (Mav.signing sender) = ts →
            0 ≤ ts < 2 ^ 48 →
            let c := check_signature E s
                       (msgbuf_of (sign_packet E self' sender).1.2)
                       srcSystem srcComponent in
            c.1 = Ok (timestamp_fresh (Mav.signing s) stream ts)
            ∧ Signing.secret_key (Mav.signing c.2) = Some key
            ∧ (timestamp_fresh (Mav.signing s) stream ts = true →
               Signing.stream_timestamps (Mav.signing c.2) !! stream
               = Some (default ts
                         (Signing.stream_timestamps (Mav.signing s)
                            !! stream)))) as Hcheck.
  { intros s self' sender ts Hmb Hks Hksd Hlsd Htsd Hts c.
    destruct (signed_frame_check E self' sender s key srcSystem srcComponent
                Hdig Hmb Hksd Hks) as (_ & _ & _ & H4 & H5 & _);
      [by rewrite Hlsd | rewrite Htsd; lia |].
    cbv zeta in H4, H5. rewrite Hlsd, Htsd in H4, H5.
    rewrite (Z.mod_small ts) in H4, H5 by lia. fold stream in H4, H5.
    subst c. split; [exact H4|]. split.
    - match goal with |- context [check_signature E s ?b ?x ?y] =>
        destruct (check_signature_frame E s b x y _ _
                    (surjective_pairing _)) as (_ & -> & _) end.
      exact Hks.
    - intros Hf. by destruct (H5 Hf). }
  assert (timestamp_fresh (Mav.signing rx) stream t = true) as Hf0.
  { unfold timestamp_fresh. rewrite Hnew. apply negb_true_iff, Z.ltb_ge. lia. }
  assert (timestamp_fresh (Mav.signing rx) stream (t + 1) = true) as Hf1.
  { unfold timestamp_fresh. rewrite Hnew. apply negb_true_iff, Z.ltb_ge. lia. }
  destruct (Hcheck rx self1 mav t Hmb1 Hrx Hkey eq_refl eq_refl)
    as (Ha & Hka & Hta); [lia|].
  destruct (Hcheck rx self2 mav1 (t + 1) Hmb2 Hrx Hkey1 Hl1 Ht1')
    as (Hb & Hkb & Htb); [lia|].
  specialize (Hta Hf0). specialize (Htb Hf1). rewrite Hnew in Hta, Htb.
  cbn [default] in Hta, Htb.
  destruct (Hcheck _ self2 mav1 (t + 1) Hmb2 Hka Hkey1 Hl1 Ht1') as (Hc & _);
    [lia|].
  destruct (Hcheck _ self1 mav t Hmb1 Hkb Hkey eq_refl eq_refl) as (Hd & _);
    [lia|].
  subst check second. rewrite Hfirst. subst first. cbv beta.
  rewrite Ha, Hb, Hc, Hd, Hf0, Hf1.
  unfold timestamp_fresh. rewrite Hta, Htb.
  split_and!; try done; f_equal.
  - apply negb_true_iff, Z.leb_gt. lia.
  - apply negb_false_iff, Z.leb_le. lia.
Qed.

Lemma signed_frames_in_and_out_of_order_witness :
  let self := Msg.set_msgbuf (Some Sample.frame) Sample.m0 in
  let mav := Sample.signing_mav 1000 ∅ in
  let rx := Sample.receiver false [] in
  let first := sign_packet Sample.E self mav in
  let second := sign_packet Sample.E self first.2 in
  let check s (signed : result unit * Msg.t * Mav.t) :=
    check_signature Sample.E s (msgbuf_of signed.1.2) 1 2 in
  (check rx first).1 = Ok true
  ∧ (check (check rx first).2 second).1 = Ok true
  ∧ (check rx second).1 = Ok true
  ∧ (check (check rx second).2 first).1 = Ok false.
Proof.
  intros self mav rx.
  apply (signed_frames_in_and_out_of_order Sample.E self self mav rx
           Sample.key 1 2).
  - exact (ve_digest _ sample_valid_env).
  - by eexists.
  - by eexists.
  - reflexivity.
  - reflexivity.
  - simpl. lia.
  - simpl. lia.
  - simpl. lia.
  - reflexivity.
  - simpl. lia.
Defined.

Lemma signing_advances_refl g : signing_advances g g.
Proof. unfold signing_advances. split_and!; try done; lia. Qed.

Lemma signing_advances_trans g1 g2 g3 :
  signing_advances g1 g2 → signing_advances g2 g3 → signing_advances g1 g3.
Proof.
  unfold signing_advances. intros H12 H23. destruct_and!.
  split_and!; try congruence; try lia. eauto.
Qed.

Lemma check_signature_advances E self msgbuf srcSystem srcComponent r self' :
  check_signature E self msgbuf srcSystem srcComponent = (r, self') →
  signing_advances (Mav.signing self) (Mav.signing self').
Proof.
  unfold check_signature. intros Hrun.
  destruct (signature_fields msgbuf) as [[l t]|];
    [|simplify_eq; apply signing_advances_refl].
  destruct (Signing.stream_timestamps _ !! _) as [last|] eqn:Hlast.
  - repeat case_match; simplify_eq; try apply signing_advances_refl.
    unfold signing_advances. cbn. split_and!; try done; lia.
  - destruct (_ <? _); [simplify_eq; apply signing_advances_refl|].
    cbn [Mav.signing Mav.set_signing Signing.secret_key
         Signing.set_stream_timestamps] in Hrun.
    assert (∀ k, is_Some (Signing.stream_timestamps (Mav.signing self) !! k) →
              is_Some (<[(l, srcSystem, srcComponent):=t]>
                         (Signing.stream_timestamps (Mav.signing self)) !! k))
      as Hsub.
    { intros k Hk. rewrite lookup_insert_is_Some. destruct (decide ((l, srcSystem, srcComponent) = k)); auto. }
    repeat case_match; simplify_eq; unfold signing_advances; cbn;
      split_and!; try done; lia.
Qed.

Lemma decode_signature_advances E self msgbuf signature_len srcSystem
    srcComponent msgId r self' :
  decode_signature E self msgbuf signature_len srcSystem srcComponent msgId
  = (r, self') →
  signing_advances (Mav.signing self) (Mav.signing self').
Proof.
  unfold decode_signature.
  set (s1 := if bool_decide _ then _ else self).
  assert (signing_advances (Mav.signing self) (Mav.signing s1)) as H1.
  { subst s1. case_match; [|apply signing_advances_refl].
    unfold signing_advances. cbn. split_and!; try done; lia. }
  assert (∀ s, signing_advances (Mav.signing s)
                 (Mav.signing
                    (Mav.set_signing
                       (Signing.set_unsigned_count
                          (Signing.unsigned_count (Mav.signing s) + 1)
                          (Mav.signing s)) s))) as Hu.
  { intros s. unfold signing_advances. cbn. split_and!; try done; lia. }
  assert (∀ s, signing_advances (Mav.signing s)
                 (Mav.signing
                    (Mav.set_signing
                       (Signing.set_reject_count
                          (Signing.reject_count (Mav.signing s) + 1)
                          (Mav.signing s)) s))) as Hr.
  { intros s. unfold signing_advances. cbn. split_and!; try done; lia. }
  assert (∀ s, signing_advances (Mav.signing s)
                 (Mav.signing
                    (Mav.set_signing
                       (Signing.set_badsig_count
                          (Signing.badsig_count (Mav.signing s) + 1)
                          (Mav.signing s)) s))) as Hb.
  { intros s. unfold signing_advances. cbn. split_and!; try done; lia. }
  assert (∀ s, signing_advances (Mav.signing s)
                 (Mav.signing
                    (Mav.set_signing
                       (Signing.set_goodsig_count
                          (Signing.goodsig_count (Mav.signing s) + 1)
                          (Mav.signing s)) s))) as Hg.
  { intros s. unfold signing_advances. cbn. split_and!; try done; lia. }
  destruct (Signing.secret_key (Mav.signing s1)); [|by intros [= <- <-]].
  destruct (bool_decide (signature_len = MAVLINK_SIGNATURE_BLOCK_LEN)).
  - destruct (check_signature E s1 msgbuf srcSystem srcComponent)
      as [rc s2] eqn:Hcs.
    apply check_signature_advances in Hcs.
    assert (signing_advances (Mav.signing self) (Mav.signing s2)) as H2
      by eauto using signing_advances_trans.
    intros Hrun.
    repeat case_match; simplify_eq;
      eauto 6 using signing_advances_trans.
  - intros Hrun. repeat case_match; simplify_eq;
      eauto using signing_advances_trans.
Qed.

Lemma decode_advances E self msgbuf r self' :
  decode E self msgbuf = (r, self') →
  signing_advances (Mav.signing self) (Mav.signing self').
Proof.
  unfold decode. intros Hrun.
  destruct (decode_header msgbuf); [|simplify_eq; apply signing_advances_refl].
  destruct (_ && _); [simplify_eq; apply signing_advances_refl|].
  destruct (negb _); [simplify_eq; apply signing_advances_refl|].
  destruct (Env.mavlink_map E !! _);
    [|simplify_eq; apply signing_advances_refl].
  destruct (decode_checksum _ _ _ _ _);
    [|simplify_eq; apply signing_advances_refl].
  destruct (decode_signature _ _ _ _ _ _ _) as [rs s1] eqn:Hsig.
  apply decode_signature_advances in Hsig.
  destruct rs; by simplify_eq.
Qed.

Lemma parse_frame_advances E self header_len h3 r self' :
  parse_frame E self header_len h3 = (r, self') →
  signing_advances (Mav.signing self) (Mav.signing self').
Proof.
  unfold parse_frame.
  set (mbuf := Py.slice _ _ _).
  set (s1 := Mav.set_expected_length _ _).
  change (Mav.signing self) with (Mav.signing s1).
  destruct h3 as [[magic incompat_flags]|];
    [|intros [= <- <-]; apply signing_advances_refl].
  set (r0 := if _ && _ then _ else decode E s1 mbuf).
  assert (∀ r1 s2, r0 = (r1, s2) →
            signing_advances (Mav.signing s1) (Mav.signing s2)) as Hr0.
  { intros r1 s2. subst r0. case_match.
    - intros [= <- <-]. apply signing_advances_refl.
    - apply decode_advances. }
  destruct r0 as [r1 s2]. specialize (Hr0 r1 s2 eq_refl).
  repeat case_match; intros [= <- <-]; done.
Qed.

Lemma parse_char_legacy_advances E s r s' :
  parse_char_legacy E s = (r, s') →
  signing_advances (Mav.signing s) (Mav.signing s').
Proof.
  unfold parse_char_legacy. intros Hrun.
  case_match; [simplify_eq; apply signing_advances_refl|].
  case_match.
  { repeat case_match; simplify_eq; apply signing_advances_refl. }
  match type of Hrun with
  | match ?step with _ => _ end = _ => destruct step as [[s1 h3]|e1] eqn:Hstep
  end.
  2:{ simplify_eq. apply signing_advances_refl. }
  assert (Mav.signing s1 = Mav.signing s) as Hs1.
  { repeat case_match; simplify_eq; done. }
  rewrite <- Hs1. case_match.
  - by apply parse_frame_advances in Hrun.
  - simplify_eq. apply signing_advances_refl.
Qed.

(** X8.  The signing state only moves forward on the receiving side.  Whatever
    [parse_char] is fed and whatever it returns or raises, the signing
    timestamp of the session and its statistics counters have not gone down,
    every stream of the replay table is still in the table, and the key, the
    link id and the signing switch are the ones before the call. *)
Theorem parse_char_signing_advances E s c :
  signing_advances (Mav.signing s) (Mav.signing (parse_char E s c).2).
Proof.
  unfold parse_char.
  set (s1 := Mav.set_total_bytes_received _ _).
  change (Mav.signing s) with (Mav.signing s1).
  destruct (parse_char_legacy E s1) as [r2 s2] eqn:Hleg.
  apply parse_char_legacy_advances in Hleg.
  repeat case_match; done.
Qed.

(** ** Packing integers *)

Lemma pack_B_range z :
  Struct.pack_int Struct.LittleEndian 1 false z
  = if is_byte z then Ok [z] else Raise EStructError.
Proof.
  unfold is_byte. destruct ((0 <=? z) && (z <? 256)) eqn:Hz.
  - apply andb_prop in Hz as [H0%Z.leb_le H1%Z.ltb_lt]. apply pack_B. lia.
  - unfold Struct.pack_int, Struct.in_range.
    change (2 ^ (8 * Z.of_nat 1)) with 256. by rewrite Hz.
Qed.

Lemma pack_H_range z :
  Struct.pack_int Struct.LittleEndian 2 false z
  = if (0 <=? z) && (z <? 65536)
    then Ok [z `mod` 256; z `div` 256] else Raise EStructError.
Proof.
  destruct ((0 <=? z) && (z <? 65536)) eqn:Hz.
  - apply andb_prop in Hz as [H0%Z.leb_le H1%Z.ltb_lt]. apply pack_H. lia.
  - unfold Struct.pack_int, Struct.in_range.
    change (2 ^ (8 * Z.of_nat 2)) with 65536. by rewrite Hz.
Qed.

Lemma land_low16 z : 0 ≤ Z.land z 0xFFFF < 65536.
Proof.
  change 0xFFFF with (Z.ones 16). rewrite Z.land_ones by lia.
  apply Z.mod_pos_bound. lia.
Qed.

Lemma msgId_bytes z :
  Z.land z 0xFFFF `mod` 256 = z `mod` 256
  ∧ Z.land z 0xFFFF `div` 256 = (z `div` 256) `mod` 256
  ∧ Z.shiftr z 16 = z `div` 65536.
Proof.
  change 0xFFFF with (Z.ones 16). rewrite Z.land_ones by lia.
  rewrite Z.shiftr_div_pow2 by lia. change (2 ^ 16) with (256 * 256).
  rewrite Z.rem_mul_r by lia.
  rewrite (Z.mul_comm 256 ((z `div` 256) `mod` 256)).
  split_and!; [|rewrite Z.div_add by lia|done].
  - rewrite Z.mod_add by lia. apply Z.mod_mod. lia.
  - rewrite (Z.div_small (z `mod` 256)) by (apply Z.mod_pos_bound; lia). lia.
Qed.

Lemma shiftr16_byte z :
  is_byte (Z.shiftr z 16) = (0 <=? z) && (z <? 2 ^ 24).
Proof.
  unfold is_byte. rewrite Z.shiftr_div_pow2 by lia.
  change (2 ^ 16) with 65536. change (2 ^ 24) with 16777216.
  apply eq_true_iff_eq. rewrite !andb_true_iff, !Z.leb_le, !Z.ltb_lt.
  split; intros [H0 H1].
  - split.
    + destruct (Z.le_gt_cases 0 z) as [|Hneg]; [done|].
      assert (z `div` 65536 < 0) by (apply Z.div_lt_upper_bound; lia). lia.
    + destruct (Z.lt_ge_cases z 16777216) as [|Hbig]; [done|].
      assert (256 ≤ z `div` 65536) by (apply Z.div_le_lower_bound; lia). lia.
  - split; [apply Z.div_pos; lia | apply Z.div_lt_upper_bound; lia].
Qed.

Lemma header_pack_eq E h force_mavlink1 :
  MAVLink_header_pack E h force_mavlink1
  = if header_fits E h force_mavlink1
    then Ok (header_wire E h force_mavlink1)
    else Raise EStructError.
Proof.
  unfold MAVLink_header_pack, header_fits, header_wire.
  fold (frames_v2 E force_mavlink1).
  destruct (frames_v2 E force_mavlink1).
  - unfold Struct.pack.
    change (Struct.atoms fmt_v2_header)
      with [Struct.AInt 1 false; Struct.AInt 1 false; Struct.AInt 1 false;
            Struct.AInt 1 false; Struct.AInt 1 false; Struct.AInt 1 false;
            Struct.AInt 1 false; Struct.AInt 2 false; Struct.AInt 1 false].
    cbn [Struct.pack_atoms Struct.pack_atom Struct.order fmt_v2_header].
    rewrite !pack_B_range, (pack_H (Z.land (Header.msgId h) 0xFFFF))
      by apply land_low16.
    rewrite shiftr16_byte.
    destruct (msgId_bytes (Header.msgId h)) as (-> & -> & ->).
    repeat match goal with
           | |- context [is_byte ?z] =>
               destruct (is_byte z); cbn [andb rbind]; [|reflexivity]
           end.
    by destruct ((0 <=? Header.msgId h) && (Header.msgId h <? 2 ^ 24)).
  - unfold Struct.pack.
    change (Struct.atoms fmt_v1_header)
      with [Struct.AInt 1 false; Struct.AInt 1 false; Struct.AInt 1 false;
            Struct.AInt 1 false; Struct.AInt 1 false; Struct.AInt 1 false].
    cbn [Struct.pack_atoms Struct.pack_atom Struct.order fmt_v1_header].
    rewrite !pack_B_range.
    change (is_byte PROTOCOL_MARKER_V1) with true. cbn [rbind].
    repeat match goal with
           | |- context [is_byte ?z] =>
               destruct (is_byte z); cbn [andb rbind]; [|reflexivity]
           end.
    reflexivity.
Qed.

(** X9.  [MAVLink_header.pack] returns the header bytes exactly when every
    field fits its place in the frame, and raises [struct.error] otherwise:
    in version 2 the message id is written in three bytes, low byte first; in
    version 1 it has one byte, and the flags are not written. *)
Theorem header_pack_fits E h force_mavlink1 :
  MAVLink_header_pack E h force_mavlink1
  = if header_fits E h force_mavlink1
    then Ok (header_wire E h force_mavlink1)
    else Raise EStructError.
Proof. apply header_pack_eq. Qed.

(** X10.  A header that does not fit makes [MAVLink_message.pack] raise
    [struct.error] before a frame is built: so does a message id above 255
    when version 1 is forced, or a payload of more than 255 bytes.  The
    session is left as it was. *)
Theorem pack_raises_when_header_does_not_fit E self mav crc_extra payload
    force_mavlink1 :
  let plen :=
    if negb (bool_decide (XML.wire_protocol_version (Env.xml E) = "1.0"))
       && negb force_mavlink1
    then strip_plen payload (length payload) else length payload in
  let header :=
    Header.mk (Header.msgId (Msg._header self))
      (if Signing.sign_outgoing (Mav.signing mav) then 1 else 0) 0
      (Z.of_nat (Nat.min plen (length payload))) (Mav.seq mav)
      (Mav.srcSystem mav) (Mav.srcComponent mav) in
  let packed :=
    MAVLink_message_pack E self mav crc_extra payload force_mavlink1 in
  header_fits E header force_mavlink1 = false →
  packed.1.1 = Raise EStructError ∧ packed.2 = mav
  ∧ Msg._msgbuf packed.1.2 = Msg._msgbuf self.
Proof.
  intros plen header packed Hfits. subst packed. unfold MAVLink_message_pack.
  fold plen. cbn [Msg._header Msg.set_header Msg.set_payload].
  assert (Header.mk (Header.msgId (Msg._header self))
            (if Signing.sign_outgoing (Mav.signing mav)
             then Z.lor 0 MAVLINK_IFLAG_SIGNED else 0) 0
            (Py.len (take plen payload)) (Mav.seq mav) (Mav.srcSystem mav)
            (Mav.srcComponent mav) = header) as ->.
  { subst header. unfold Py.len. rewrite length_take.
    by destruct (Signing.sign_outgoing _). }
  by rewrite header_pack_eq, Hfits.
Qed.

Lemma pack_raises_when_header_does_not_fit_witness :
  let packed :=
    MAVLink_message_pack Sample.E Sample.m0 Sample.mav 99 (replicate 256 1)
      false in
  packed.1.1 = Raise EStructError ∧ packed.2 = Sample.mav
  ∧ Msg._msgbuf packed.1.2 = Msg._msgbuf Sample.m0.
Proof.
  apply (pack_raises_when_header_does_not_fit Sample.E Sample.m0 Sample.mav 99
           (replicate 256 1) false).
  vm_compute. reflexivity.
Defined.

(** X11.  The header round trip.  When the header fits and the marker of the
    dialect is not the version-1 marker, the header step of [decode] reads
    back from the packed bytes, whatever follows them, the length, sequence
    number, source ids and message id that were packed; the two flag bytes
    come back in version 2 and read as zero in version 1, which has no place
    for them. *)
Theorem header_pack_decode E h force_mavlink1 rest :
  header_fits E h force_mavlink1 = true →
  XML.protocol_marker (Env.xml E) ≠ PROTOCOL_MARKER_V1 →
  decode_header (header_wire E h force_mavlink1 ++ rest)
  = Ok (if frames_v2 E force_mavlink1
        then WireHeader 10 (XML.protocol_marker (Env.xml E)) (Header.mlen h)
               (Header.incompat_flags h) (Header.compat_flags h)
               (Header.seq h) (Header.srcSystem h) (Header.srcComponent h)
               (Header.msgId h)
        else WireHeader 6 PROTOCOL_MARKER_V1 (Header.mlen h) 0 0
               (Header.seq h) (Header.srcSystem h) (Header.srcComponent h)
               (Header.msgId h)).
Proof.
  unfold header_fits, header_wire. intros Hfits Hmarker.
  destruct (frames_v2 E force_mavlink1).
  - cbn [app]. rewrite decode_header_v2 by done. do 2 f_equal.
    apply andb_prop in Hfits as [[_ Hid%Z.leb_le]%andb_prop _].
    destruct (msgId_bytes (Header.msgId h)) as (<- & <- & <-).
    by apply msgId_split.
  - cbn [app]. by rewrite decode_header_v1.
Qed.

Lemma header_pack_decode_witness :
  decode_header
    (header_wire Sample.E (Header.mk 7 0 0 13 5 1 2) false ++ [1; 2; 3])
  = Ok (WireHeader 10 253 13 0 0 5 1 2 7).
Proof.
  apply (header_pack_decode Sample.E (Header.mk 7 0 0 13 5 1 2) false
           [1; 2; 3]).
  - vm_compute. reflexivity.
  - vm_compute. discriminate.
Defined.

(** ** [generate] on a well-formed definition *)

Lemma list_index_elem a l : a ∈ l → ∃ k, list_index a l = Some k.
Proof.
  induction l as [|y l IH]; intros Ha; [by apply elem_of_nil in Ha|].
  cbn. case_bool_decide; [by eexists|].
  apply elem_of_cons in Ha as [->|Ha]; [done|].
  destruct (IH Ha) as [k ->]. by eexists.
Qed.

Lemma list_index_lt a l k : list_index a l = Some k → (k < length l)%nat.
Proof. intros H%list_index_lookup. by eapply lookup_lt_Some. Qed.

Lemma fill_len_map_total om fl n : ∀ i lm,
  (i + n ≤ length om)%nat → (i + n ≤ length fl)%nat →
  Forall (λ k, k < length lm)%nat om →
  ∃ lm', fill_len_map om fl i n lm = Ok lm'.
Proof.
  induction n as [|n IH]; intros i lm Hom Hfl Hall; [by eexists|].
  cbn [fill_len_map].
  destruct (lookup_lt_is_Some_2 om i) as [k Hk]; [lia|].
  destruct (lookup_lt_is_Some_2 fl i) as [L HL]; [lia|].
  rewrite Hk, HL. cbn [of_option rbind].
  rewrite bool_decide_eq_true_2 by (by eapply Forall_lookup_1 in Hall).
  apply IH; [lia | lia |]. by rewrite length_insert.
Qed.

Lemma generate_total xml m : Def_wf m → ∃ cls, generate xml m = Ok cls.
Proof.
  intros [Hnames Honames Htypes Hlens Hnd Hperm]. unfold generate.
  assert (length (Def.fieldnames m) = length (Def.fields m)) as Hn
    by (by rewrite Hnames, length_fmap).
  assert (length (Def.ordered_fields m) = length (Def.fields m)) as Hno
    by (by apply Permutation_length).
  destruct (rmapM_total
              (λ i : nat,
                 rbind (of_option EIndexError (Def.fieldnames m !! i)) (λ a,
                 rbind (of_option EValueError
                          (list_index a (Def.ordered_fieldnames m))) (λ k,
                 rbind (of_option EIndexError (Def.ordered_fields m !! i))
                   (λ f, Ok (k, Field.array_length f)))))
              (seq 0 (length (Def.fieldnames m)))) as [oa Hoa].
  { intros i Hi%elem_of_seq.
    destruct (lookup_lt_is_Some_2 (Def.fieldnames m) i) as [a Ha]; [lia|].
    destruct (lookup_lt_is_Some_2 (Def.ordered_fields m) i) as [f Hf]; [lia|].
    destruct (list_index_elem a (Def.ordered_fieldnames m)) as [k Hk].
    { rewrite Honames, Hperm, <- Hnames. by eapply list_elem_of_lookup_2. }
    rewrite Ha, Hf. cbn. rewrite Hk. by eexists. }
  rewrite Hoa. cbn [rbind].
  pose proof (rmapM_Ok _ _ _ Hoa) as Hall.
  assert (length oa = length (Def.fieldnames m)) as Hoalen
    by (apply Forall2_length in Hall; rewrite length_seq in Hall; lia).
  destruct (fill_len_map_total (oa.*1) (Def.fieldlengths m)
              (length (Def.fieldnames m)) 0
              (replicate (length (Def.fieldnames m)) 0%nat))
    as [lm ->]; [by rewrite length_fmap; lia | rewrite Hlens, length_fmap; lia
                | | by eexists].
  rewrite length_replicate. apply Forall_fmap, Forall_lookup_2.
  intros j [k al] Hj. cbn.
  assert (seq 0 (length (Def.fieldnames m)) !! j = Some j) as Hseq.
  { apply lookup_seq_lt. apply lookup_lt_Some in Hj. lia. }
  eapply Forall2_lookup_lr in Hall; [|exact Hseq|exact Hj].
  cbn in Hall.
  destruct (Def.fieldnames m !! j) as [a|]; [|discriminate].
  cbn in Hall.
  destruct (list_index a _) as [k'|] eqn:Hidx; [|discriminate].
  cbn in Hall. destruct (Def.ordered_fields m !! j); [|discriminate].
  cbn in Hall. injection Hall as <- _.
  apply list_index_lt in Hidx.
  rewrite Honames, length_fmap in Hidx. lia.
Qed.

(** X12.  What [generate] computes.  For a definition as the XML parser hands
    it over, the loop body of [generate] succeeds.  The struct format lists
    the fields in wire order; [order_map] sends the position of a field in
    the declared order to its position on the wire; [len_map] and
    [array_len_map] hold the tuple lengths and the array lengths in wire
    order, and the defaults are those of the fields in wire order. *)
Theorem generate_tables xml m :
  Def_wf m →
  ∃ cls,
    generate xml m = Ok cls
    ∧ Class.def cls = m
    ∧ Class.format cls
      = Struct.Format
          (if XML.little_endian xml
           then Struct.LittleEndian else Struct.BigEndian)
          (mavfmt <$> Def.ordered_fields m)
    ∧ length (Class.orders cls) = length (Def.fields m)
    ∧ (∀ i f, Def.fields m !! i = Some f →
         ∃ k, Class.orders cls !! i = Some k
              ∧ Def.ordered_fields m !! k = Some f)
    ∧ Class.lengths cls = fieldlength <$> Def.ordered_fields m
    ∧ Class.array_lengths cls = Field.array_length <$> Def.ordered_fields m
    ∧ Class.fielddefaults cls = mavdefault <$> Def.ordered_fields m.
Proof.
  intros Hwf. destruct (generate_total xml m Hwf) as [cls Hgen].
  exists cls. split; [done|].
  destruct (generate_inv xml m cls Hwf Hgen) as (H1 & H2 & H3 & H4 & H5).
  split_and!; try done.
  - clear H1 H2 H3 H4 H5.
    destruct Hwf as [Hnames Honames Htypes Hlens Hnd Hperm].
    unfold generate in Hgen.
    destruct (rmapM _ _) as [oa|] eqn:Hoa; [|discriminate].
    cbn [rbind] in Hgen.
    destruct (fill_len_map _ _ _ _ _) as [lm|]; [|discriminate].
    cbn [rbind] in Hgen. injection Hgen as <-. cbn [Class.array_lengths].
    apply rmapM_Ok in Hoa.
    assert (length (Def.fieldnames m) = length (Def.ordered_fields m)) as Hn.
    { rewrite Hnames, length_fmap. symmetry. by apply Permutation_length. }
    apply (list_eq_same_length _ _ (length (Def.fieldnames m))).
    + rewrite length_fmap. lia.
    + rewrite length_fmap. apply Forall2_length in Hoa.
      by rewrite length_seq in Hoa.
    + intros i x y Hi Hx Hy.
      rewrite list_lookup_fmap in Hx. rewrite list_lookup_fmap in Hy.
      destruct (oa !! i) as [[k al]|] eqn:Hoai; [|discriminate].
      destruct (Def.ordered_fields m !! i) as [f|] eqn:Hf; [|discriminate].
      cbn in Hx, Hy. simplify_eq.
      assert (seq 0 (length (Def.fieldnames m)) !! i = Some i) as Hseq
        by (by apply lookup_seq_lt).
      eapply Forall2_lookup_lr in Hoa; [|exact Hseq|exact Hoai].
      cbn in Hoa. rewrite Hf in Hoa.
      destruct (Def.fieldnames m !! i); [|discriminate]. cbn in Hoa.
      destruct (list_index _ _); [|discriminate]. cbn in Hoa.
      by injection Hoa as _ <-.
  - unfold generate in Hgen.
    destruct (rmapM _ _) as [oa|]; [|discriminate]. cbn [rbind] in Hgen.
    destruct (fill_len_map _ _ _ _ _) as [lm|]; [|discriminate].
    cbn [rbind] in Hgen. by injection Hgen as <-.
Qed.

Lemma generate_tables_witness :
  ∃ cls,
    generate Sample.xml20 Sample.demo_def = Ok cls
    ∧ Class.def cls = Sample.demo_def
    ∧ Class.format cls
      = Struct.Format
          (if XML.little_endian Sample.xml20
           then Struct.LittleEndian else Struct.BigEndian)
          (mavfmt <$> Def.ordered_fields Sample.demo_def)
    ∧ length (Class.orders cls) = length (Def.fields Sample.demo_def)
    ∧ (∀ i f, Def.fields Sample.demo_def !! i = Some f →
         ∃ k, Class.orders cls !! i = Some k
              ∧ Def.ordered_fields Sample.demo_def !! k = Some f)
    ∧ Class.lengths cls = fieldlength <$> Def.ordered_fields Sample.demo_def
    ∧ Class.array_lengths cls
      = Field.array_length <$> Def.ordered_fields Sample.demo_def
    ∧ Class.fielddefaults cls
      = mavdefault <$> Def.ordered_fields Sample.demo_def.
Proof. exact (generate_tables Sample.xml20 Sample.demo_def sample_def_wf). Defined.

(** ** The size of the payload *)

Lemma field_wire_size_eq f :
  field_wire_size f
  = (Nat.max 1 (Field.array_length f)
     * Struct.atom_size (Struct.code_atom (mavfmt_map (Field.type f))))%nat.
Proof.
  unfold field_wire_size, field_atoms, mavfmt.
  destruct (Nat.eqb_spec (Field.array_length f) 0) as [->|Hn].
  - cbn. lia.
  - cbn [negb]. replace (Nat.max 1 (Field.array_length f))
      with (Field.array_length f) by lia.
    case_bool_decide as Hc.
    + rewrite Hc. cbn. lia.
    + destruct (number_atom _ Hc) as [Hcs _].
      rewrite item_atoms_array by done.
      generalize (Struct.code_atom (mavfmt_map (Field.type f))).
      generalize (Field.array_length f). intros n a.
      induction n as [|n IH]; [done|].
      cbn [replicate fmap list_fmap] in *.
      rewrite sum_cons, IH. lia.
Qed.

Lemma sum_field_sizes (fs : list Field.t) :
  Py.sum (Struct.atom_size <$> concat (field_atoms <$> fs))
  = Py.sum (field_wire_size <$> fs).
Proof.
  induction fs as [|f fs IH]; [done|].
  rewrite !fmap_cons. cbn [concat]. rewrite fmap_app, sum_app, sum_cons.
  by rewrite IH.
Qed.

Lemma sum_Permutation (l1 l2 : list nat) : l1 ≡ₚ l2 → Py.sum l1 = Py.sum l2.
Proof.
  induction 1 as [|x l1 l2 _ IH|x y l|l1 l2 l3 _ IH1 _ IH2];
    rewrite ?sum_cons; try done; lia.
Qed.

(** X13.  The size of the payload.  The size of the struct format that
    [generate] builds, which is the size that [decode] pads a payload to, is
    the sum over the declared fields of element size times element count (an
    array length of 0 stands for one element): it does not depend on the
    order in which the fields go on the wire. *)
Theorem payload_size_sums_fields xml m cls :
  Def_wf m → generate xml m = Ok cls →
  Struct.size (Class.format cls)
  = Py.sum ((λ f, (Nat.max 1 (Field.array_length f)
                   * Struct.atom_size
                       (Struct.code_atom (mavfmt_map (Field.type f))))%nat)
            <$> Def.fields m).
Proof.
  intros Hwf Hgen.
  destruct (generate_inv xml m cls Hwf Hgen) as (_ & Hfmt & _).
  rewrite Hfmt. unfold Struct.size, Struct.atoms. cbn [Struct.items].
  rewrite <- list_fmap_compose.
  change (Struct.item_atoms ∘ mavfmt) with field_atoms.
  rewrite sum_field_sizes.
  rewrite (sum_Permutation _ (field_wire_size <$> Def.fields m))
    by (apply fmap_Permutation, (wf_wire_order m Hwf)).
  f_equal. apply list_fmap_ext. intros _ f _. apply field_wire_size_eq.
Qed.

Lemma payload_size_sums_fields_witness :
  Struct.size (Class.format Sample.demo_cls) = (1 + 4 + 3 * 2 + 4)%nat.
Proof.
  rewrite (payload_size_sums_fields Sample.xml20 Sample.demo_def
             Sample.demo_cls sample_def_wf); [|vm_compute; reflexivity].
  vm_compute. reflexivity.
Defined.

(** X14.  The payload step of [decode] cannot fail on a generated class.  For a
    class generated from a definition of the XML parser, in a dialect that
    sorts fields, the payload region of any buffer, too short, exact or too
    long, is unpacked, ordered and instantiated: the result is an instance of
    the class in which every field has a value of its shape, a str without
    NUL for a character field, a number for a scalar (a float for [float]
    and [double], an int for the integer types) and a list of [array_length]
    such numbers for an array.  None of the errors 'Bad message
    of type', 'Unable to unpack MAVLink payload' and 'Unable to instantiate
    MAVLink message' is raised. *)
Theorem decode_fields_returns_instance E m cls msgbuf headerlen signature_len :
  XML.sort_fields (Env.xml E) = true →
  Def_wf m → generate (Env.xml E) m = Ok cls →
  ∃ d, decode_fields E cls msgbuf headerlen signature_len = Ok d
       ∧ Msg._type d = Def.name m
       ∧ Msg._fieldnames d = Def.fieldnames m
       ∧ ∀ f, f ∈ Def.fields m →
           ∃ x, Msg.attrs d !! Field.name f = Some x ∧ decoded_shape f x.
Proof. apply decode_fields_total. Qed.

Lemma decode_fields_returns_instance_witness :
  ∃ d, decode_fields Sample.E Sample.demo_cls Sample.frame 10 0 = Ok d
       ∧ Msg._type d = "DEMO"
       ∧ Msg._fieldnames d = ["a"; "name"; "vals"; "b"]
       ∧ ∀ f, f ∈ Def.fields Sample.demo_def →
           ∃ x, Msg.attrs d !! Field.name f = Some x ∧ decoded_shape f x.
Proof.
  apply (decode_fields_returns_instance Sample.E Sample.demo_def
           Sample.demo_cls Sample.frame 10 0).
  - reflexivity.
  - exact sample_def_wf.
  - vm_compute. reflexivity.
Defined.

(** X15.  A frame with a message id that is not in [mavlink_map].  [decode]
    returns it as [MAVLink_unknown] with the whole frame as its data as soon
    as the length byte agrees with the length of the frame: the checksum
    bytes are not looked at, the signature is not checked even in a session
    that holds a key, and the session, its signing statistics included, is
    left as it was. *)
Theorem decode_unknown_message E s b1 b2 b3 b4 b5 b6 b7 b8 b9 rest :
  let v1 := PROTOCOL_MARKER_V1 :: b1 :: b2 :: b3 :: b4 :: b5 :: rest in
  let v2 :=
    PROTOCOL_MARKER_V2 :: b1 :: b2 :: b3 :: b4 :: b5 :: b6 :: b7 :: b8 :: b9
      :: rest in
  let id2 := Z.lor (b7 + 256 * b8) (Z.shiftl b9 16) in
  let signature_len :=
    if bool_decide (Z.land b2 MAVLINK_IFLAG_SIGNED = 0) then 0 else 13 in
  (Py.len rest = b1 + 2 → Env.mavlink_map E !! b5 = None →
   decode E s v1 = (Ok (MAVLink_unknown b5 v1), s))
  ∧ (Py.len rest = b1 + 2 + signature_len →
     Env.mavlink_map E !! id2 = None →
     decode E s v2 = (Ok (MAVLink_unknown id2 v2), s)).
Proof.
  intros v1 v2 id2 signature_len. split; intros Hlen Hmap.
  - unfold decode. subst v1. rewrite decode_header_v1.
    cbn [w_magic w_mlen w_headerlen w_msgId].
    rewrite bool_decide_eq_true_2 by done. cbn [negb andb].
    unfold signature_len_of. cbn [w_incompat_flags].
    rewrite Z.land_0_l, (bool_decide_eq_true_2 (0 = 0)) by done. cbn [negb].
    rewrite bool_decide_eq_true_2, Hmap; [done|].
    unfold Py.len in *. cbn [length]. lia.
  - unfold decode. subst v2. rewrite decode_header_v2 by done.
    cbn [w_magic w_mlen w_headerlen w_msgId].
    rewrite (bool_decide_eq_true_2 (PROTOCOL_MARKER_V2 = PROTOCOL_MARKER_V2))
      by done.
    rewrite andb_false_r.
    unfold signature_len_of. cbn [w_incompat_flags].
    fold id2. rewrite bool_decide_eq_true_2, Hmap; [done|].
    subst signature_len. unfold Py.len, MAVLINK_SIGNATURE_BLOCK_LEN in *.
    cbn [length]. case_bool_decide; cbn [negb]; lia.
Qed.

Lemma decode_unknown_message_witness :
  decode Sample.E Sample.mav [253; 0; 0; 0; 0; 1; 2; 8; 0; 0; 0; 0]
  = (Ok (MAVLink_unknown 8 [253; 0; 0; 0; 0; 1; 2; 8; 0; 0; 0; 0]),
     Sample.mav).
Proof.
  apply (decode_unknown_message Sample.E Sample.mav 0 0 0 0 1 2 8 0 0 [0; 0]).
  - reflexivity.
  - reflexivity.
Defined.

(** ** The items that [pack] reads from an array attribute *)

Lemma rmapM_lookup_seq {A} (l : list A) (n : nat) : ∀ k,
  rmapM (λ i, of_option EIndexError (l !! i)) (seq k n)
  = if bool_decide (k + n ≤ length l)%nat || bool_decide (n = 0)%nat
    then Ok (take n (drop k l)) else Raise EIndexError.
Proof.
  induction n as [|n IH]; intros k.
  - cbn. rewrite (bool_decide_eq_true_2 (0 = 0)%nat) by done.
    by rewrite orb_true_r.
  - cbn [seq rmapM]. rewrite IH.
    rewrite (bool_decide_eq_false_2 (S n = 0)%nat) by done.
    rewrite orb_false_r.
    destruct (l !! k) as [x|] eqn:Hk; cbn [of_option rbind].
    + pose proof (lookup_lt_Some _ _ _ Hk) as Hlt.
      rewrite (drop_S _ _ _ Hk). cbn [take].
      destruct n as [|n].
      * rewrite (bool_decide_eq_true_2 (0 = 0)%nat) by done.
        rewrite orb_true_r. cbn [rbind].
        by rewrite bool_decide_eq_true_2 by lia.
      * rewrite (bool_decide_eq_false_2 (S n = 0)%nat) by done.
        rewrite orb_false_r.
        destruct (decide (k + S (S n) ≤ length l)%nat).
        -- by rewrite !bool_decide_eq_true_2 by lia.
        -- by rewrite !bool_decide_eq_false_2 by lia.
    + apply lookup_ge_None in Hk. by rewrite bool_decide_eq_false_2 by lia.
Qed.

Lemma rmapM_ext {A B} (f g : A → result B) (l : list A) :
  (∀ x, f x = g x) → rmapM f l = rmapM g l.
Proof.
  intros Hfg. induction l as [|x l IH]; [done|]. cbn. by rewrite Hfg, IH.
Qed.

(** X16.  The items of an array field.  For a field that is an array of
    numbers, [pack] reads the items [0 .. array_length-1] of the attribute
    and nothing else: a list or a bytes object that is long enough gives its
    first [array_length] items, what follows them is ignored without notice;
    one that is too short raises IndexError, and an integer raises
    TypeError. *)
Theorem pack_reads_array_length_items self f v :
  Msg.attrs self !! Field.name f = Some v →
  Field.type f ≠ T_char → (1 < Field.array_length f)%nat →
  let n := Field.array_length f in
  (∀ l, v = PList l →
     pack_args self f
     = if bool_decide (n ≤ length l)%nat
       then Ok (take n l) else Raise EIndexError)
  ∧ (∀ b, v = PBytes b ∨ v = PByteArray b →
       pack_args self f
       = if bool_decide (n ≤ length b)%nat
         then Ok (PInt <$> take n b) else Raise EIndexError)
  ∧ (∀ z, v = PInt z → pack_args self f = Raise ETypeError).
Proof.
  intros Hv Hc Hn n. unfold pack_args, getattr.
  rewrite bool_decide_eq_false_2 by done.
  rewrite (proj2 (Nat.ltb_lt 1 (Field.array_length f)) Hn).
  cbn [negb andb]. rewrite Hv. cbn [of_option rbind]. fold n.
  assert (n ≠ 0)%nat as Hn0 by (subst n; lia).
  assert (∀ b : list Z,
            rmapM (λ i, of_option EIndexError (PInt <$> b !! i)) (seq 0 n)
            = if bool_decide (n ≤ length b)%nat
              then Ok (PInt <$> take n b) else Raise EIndexError) as Hbytes.
  { intros b.
    rewrite (rmapM_ext _ (λ i, of_option EIndexError ((PInt <$> b) !! i)))
      by (intros i; by rewrite list_lookup_fmap).
    rewrite rmapM_lookup_seq, length_fmap, drop_0, fmap_take.
    by rewrite (bool_decide_eq_false_2 (n = 0)%nat), orb_false_r by done. }
  split_and!.
  - intros l ->. cbn [getitem]. rewrite rmapM_lookup_seq, drop_0.
    by rewrite (bool_decide_eq_false_2 (n = 0)%nat), orb_false_r by done.
  - intros b [-> | ->]; cbn [getitem]; apply Hbytes.
  - intros z ->. cbn [getitem]. destruct n; [done|]. reflexivity.
Qed.

Lemma pack_reads_array_length_items_witness :
  pack_args Sample.m0 Sample.f_vals = Ok [PInt 1; PInt 2; PInt 0].
Proof.
  destruct (pack_reads_array_length_items Sample.m0 Sample.f_vals
              (PList [PInt 1; PInt 2; PInt 0])) as (H & _).
  - vm_compute. reflexivity.
  - discriminate.
  - simpl. lia.
  - rewrite (H _ eq_refl). reflexivity.
Defined.

(** ** Trailing NULs in a bytes attribute *)

Lemma rstrip_nul_padded s k : rstrip_nul (s ++ replicate k 0) = rstrip_nul s.
Proof.
  induction s as [|ch s IH]; cbn [app rstrip_nul].
  - apply rstrip_nul_zeros.
  - by rewrite IH.
Qed.

Lemma format_attr_padded E self a b k :
  (∀ b k, Env.utf8_decode E (b ++ replicate k 0)
          = (λ u, u ++ replicate k 0) <$> Env.utf8_decode E b) →
  ∀ x, format_attr E (Msg.setattr a (PBytes (b ++ replicate k 0)) self) x
       = format_attr E (Msg.setattr a (PBytes b) self) x.
Proof.
  intros Hutf x. unfold format_attr, getattr. cbn [Msg.attrs Msg.setattr].
  destruct (decide (a = x)) as [->|Hne].
  - rewrite !lookup_insert_eq. cbn [of_option rbind]. do 2 f_equal.
    unfold to_string. rewrite Hutf.
    destruct (Env.utf8_decode E b) as [u|]; cbn; [|done].
    apply rstrip_nul_padded.
  - by rewrite !lookup_insert_ne by done.
Qed.

Lemma eq_fields_format E m1 m1' m2 m2' names :
  (∀ x, format_attr E m1 x = format_attr E m1' x) →
  (∀ x, format_attr E m2 x = format_attr E m2' x) →
  eq_fields E m1 m2 names = eq_fields E m1' m2' names.
Proof.
  intros H1 H2. induction names as [|a names IH]; [done|].
  cbn [eq_fields]. by rewrite H1, H2, IH.
Qed.

(** X17.  NUL padding is invisible to comparison.  With a UTF-8 decoder that
    maps NUL bytes at the end of its input to NUL characters at the end of
    its output, a bytes attribute and the same bytes followed by NULs give
    the same [format_attr], so [__eq__] and [__ne__] answer the same for the
    two instances, on either side of the comparison. *)
Theorem eq_ignores_nul_padding E self a b k other (m : Msg.t) :
  (∀ b k, Env.utf8_decode E (b ++ replicate k 0)
          = (λ u, u ++ replicate k 0) <$> Env.utf8_decode E b) →
  let padded := Msg.setattr a (PBytes (b ++ replicate k 0)) self in
  let plain := Msg.setattr a (PBytes b) self in
  format_attr E padded a = format_attr E plain a
  ∧ __eq__ E padded other = __eq__ E plain other
  ∧ __eq__ E m (Some padded) = __eq__ E m (Some plain)
  ∧ __ne__ E padded other = __ne__ E plain other.
Proof.
  intros Hutf padded plain.
  pose proof (format_attr_padded E self a b k Hutf) as Hfmt.
  fold padded plain in Hfmt.
  assert (__eq__ E padded other = __eq__ E plain other) as Heq.
  { destruct other as [o|]; [|done]. unfold __eq__.
    change (Msg._type padded) with (Msg._type plain).
    change (Msg._header padded) with (Msg._header plain).
    change (Msg._fieldnames padded) with (Msg._fieldnames plain).
    by rewrite (eq_fields_format E padded plain o o). }
  split; [apply Hfmt|]. split; [exact Heq|]. split.
  - unfold __eq__.
    change (Msg._type padded) with (Msg._type plain).
    change (Msg._header padded) with (Msg._header plain).
    by rewrite (eq_fields_format E m m padded plain).
  - unfold __ne__. by rewrite Heq.
Qed.

Lemma eq_ignores_nul_padding_witness :
  let padded := Msg.setattr "name" (PBytes [104; 105; 0; 0]) Sample.m0 in
  let plain := Msg.setattr "name" (PBytes [104; 105]) Sample.m0 in
  format_attr Sample.E padded "name" = format_attr Sample.E plain "name"
  ∧ __eq__ Sample.E padded (Some Sample.m0)
    = __eq__ Sample.E plain (Some Sample.m0)
  ∧ __eq__ Sample.E Sample.m0 (Some padded)
    = __eq__ Sample.E Sample.m0 (Some plain)
  ∧ __ne__ Sample.E padded (Some Sample.m0)
    = __ne__ Sample.E plain (Some Sample.m0).
Proof.
  apply (eq_ignores_nul_padding Sample.E Sample.m0 "name" [104; 105] 2
           (Some Sample.m0) Sample.m0).
  exact (ve_utf8 _ sample_valid_env).
Defined.

(** ** Bytes that start no frame *)

Lemma parse_char_no_marker E s g rest :
  cursor_ok s → unread s = g :: rest → no_marker g →
  let out := parse_char E s [] in
  cursor_ok out.2 ∧ unread out.2 = rest
  ∧ Mav.robust_parsing out.2 = Mav.robust_parsing s
  ∧ if Mav.robust_parsing s then
      out.1 = Ok (Some (MAVLink_bad_data [g] Bad_prefix))
      ∧ Mav.total_receive_errors out.2 = Mav.total_receive_errors s + 1
      ∧ Mav.have_prefix_error out.2 = Mav.have_prefix_error s
    else if Mav.have_prefix_error s then
      out.1 = Ok None
      ∧ Mav.total_receive_errors out.2 = Mav.total_receive_errors s
      ∧ Mav.have_prefix_error out.2 = true
    else
      out.1 = Raise (EMAVError (InvalidPrefix g))
      ∧ Mav.total_receive_errors out.2 = Mav.total_receive_errors s + 1
      ∧ Mav.have_prefix_error out.2 = true.
Proof.
  intros Hc Hun [Hg1 Hg2]. cbv zeta. unfold parse_char.
  rewrite app_nil_r.
  set (s1 := Mav.set_total_bytes_received _ _).
  assert (cursor_ok s1) as Hc1 by done.
  assert (unread s1 = g :: rest) as Hun1 by done.
  unfold parse_char_legacy.
  rewrite (index_unread s1 Hc1), (buf_len_unread s1 Hc1), Hun1.
  cbn [head].
  assert ((1 <=? Py.len (g :: rest)) = true) as ->
    by (apply Z.leb_le; unfold Py.len; cbn [length]; lia).
  cbn [andb]. rewrite (bool_decide_eq_false_2 (Some g = None)) by done.
  rewrite (bool_decide_eq_false_2 (Some g = Some PROTOCOL_MARKER_V1))
    by congruence.
  rewrite (bool_decide_eq_false_2 (Some g = Some PROTOCOL_MARKER_V2))
    by congruence.
  cbn [negb andb default].
  cbn [Mav.robust_parsing Mav.have_prefix_error Mav.set_buf_index].
  change (Mav.robust_parsing s1) with (Mav.robust_parsing s).
  change (Mav.have_prefix_error s1) with (Mav.have_prefix_error s).
  set (s2 := Mav.set_buf_index (Mav.buf_index s1 + 1) s1).
  assert (cursor_ok s2 ∧ unread s2 = rest) as [Hc2 Hun2].
  { destruct Hc1 as [Hlo Hhi]. unfold cursor_ok, unread in *. subst s2.
    cbn [Mav.buf Mav.buf_index Mav.set_buf_index].
    assert (length (drop (Z.to_nat (Mav.buf_index s1)) (Mav.buf s1))
            = S (length rest)) as Hlen by (by rewrite Hun1).
    rewrite length_drop in Hlen. unfold Py.len. split; [lia|].
    replace (Z.to_nat (Mav.buf_index s1 + 1))
      with (Z.to_nat (Mav.buf_index s1) + 1)%nat by lia.
    rewrite <- drop_drop. by rewrite Hun1. }
  destruct (Mav.robust_parsing s) eqn:Hrob.
  - cbn [fst snd]. split_and!; done.
  - destruct (Mav.have_prefix_error s) eqn:Hpe.
    + destruct (bool_decide (buf_len s2 = 0) && _) eqn:Hreset.
      * cbn [fst snd]. apply andb_prop in Hreset as [Hbl%bool_decide_eq_true_1 _].
        rewrite (buf_len_unread s2 Hc2), Hun2 in Hbl.
        destruct rest; [|unfold Py.len in Hbl; cbn [length] in Hbl; lia].
        split_and!; try done; unfold cursor_ok, Py.len; cbn; lia.
      * cbn [fst snd]. split_and!; done.
    + cbn [fst snd]. split_and!; done.
Qed.

Lemma garbage_run E garbage : ∀ s rest,
  cursor_ok s → unread s = garbage ++ rest → Forall no_marker garbage →
  let s' := after_calls E (length garbage) s in
  cursor_ok s' ∧ unread s' = rest
  ∧ if Mav.robust_parsing s then
      Mav.total_receive_errors s'
      = Mav.total_receive_errors s + Py.len garbage
    else
      Mav.total_receive_errors s'
      = Mav.total_receive_errors s
        + (if bool_decide (garbage = []) || Mav.have_prefix_error s
           then 0 else 1)
      ∧ (garbage ≠ [] → Mav.have_prefix_error s' = true).
Proof.
  induction garbage as [|g garbage IH]; intros s rest Hc Hun Hall.
  - cbn. split; [done|]. split; [done|].
    destruct (Mav.robust_parsing s); [unfold Py.len; cbn; lia|].
    split; [lia|done].
  - apply Forall_cons in Hall as [Hg Hall]. cbn [length after_calls].
    pose proof (parse_char_no_marker E s g (garbage ++ rest) Hc Hun Hg)
      as Hstep. cbv zeta in Hstep.
    set (s1 := (parse_char E s []).2) in *.
    destruct Hstep as (Hc1 & Hun1 & Hrob1 & Hcase).
    destruct (IH s1 rest Hc1 Hun1 Hall) as (Hc' & Hun' & Hcase').
    cbv zeta. split; [done|]. split; [done|].
    rewrite Hrob1 in Hcase'.
    destruct (Mav.robust_parsing s).
    + destruct Hcase as (_ & Herr & _). rewrite Hcase', Herr.
      unfold Py.len. cbn [length]. lia.
    + rewrite (bool_decide_eq_false_2 (g :: garbage = [])) by done.
      cbn [orb]. destruct Hcase' as [Herr' Hflag'].
      assert (Mav.have_prefix_error s1 = true
              ∧ Mav.total_receive_errors s1
                = Mav.total_receive_errors s
                  + (if Mav.have_prefix_error s then 0 else 1))
        as [Hpe1 Herr1].
      { destruct (Mav.have_prefix_error s);
          destruct Hcase as (_ & -> & ->); split; [done|lia|done|lia]. }
      rewrite Hpe1, orb_true_r in Herr'. split; [lia|]. intros _.
      destruct garbage as [|g' garbage]; [exact Hpe1|]. by apply Hflag'.
Qed.

(** X18.  A run of bytes that start no frame.  In strict parsing the first
    such byte raises 'invalid MAVLink prefix' and counts as one receive
    error; the bytes of the run that follow it are dropped one per call,
    without an exception and without a further count, so a run costs one
    error however long it is.  In robust parsing every byte of the run comes
    back as a bad-data message and counts.  Either way the calls consume
    exactly the run. *)
Theorem garbage_run_costs E s g garbage rest :
  cursor_ok s → unread s = g :: garbage ++ rest →
  Forall no_marker (g :: garbage) →
  Mav.have_prefix_error s = false →
  let s' := after_calls E (S (length garbage)) s in
  unread s' = rest
  ∧ (Mav.robust_parsing s = false →
     (parse_char E s []).1 = Raise (EMAVError (InvalidPrefix g))
     ∧ Mav.total_receive_errors s' = Mav.total_receive_errors s + 1
     ∧ Mav.have_prefix_error s' = true)
  ∧ (Mav.robust_parsing s = true →
     (parse_char E s []).1 = Ok (Some (MAVLink_bad_data [g] Bad_prefix))
     ∧ Mav.total_receive_errors s'
       = Mav.total_receive_errors s + 1 + Py.len garbage).
Proof.
  intros Hc Hun Hall Hpe.
  destruct (garbage_run E (g :: garbage) s rest Hc Hun Hall)
    as (_ & Hun' & Hcase).
  cbn [length] in *. cbv zeta. split; [exact Hun'|].
  apply Forall_cons in Hall as [Hg _].
  pose proof (parse_char_no_marker E s g (garbage ++ rest) Hc Hun Hg)
    as (_ & _ & _ & Hstep).
  rewrite Hpe in Hstep, Hcase.
  destruct (Mav.robust_parsing s); split; intros Hr; try discriminate Hr.
  - destruct Hstep as (-> & _). split; [done|]. rewrite Hcase.
    unfold Py.len. cbn [length]. lia.
  - destruct Hstep as (-> & _). destruct Hcase as [-> Hflag].
    rewrite (bool_decide_eq_false_2 (g :: garbage = [])) by done.
    split; [done|]. split; [done|]. by apply Hflag.
Qed.

Lemma garbage_run_costs_witness :
  let s := Sample.receiver false [1; 2; 253] in
  let s' := after_calls Sample.E 2 s in
  unread s' = [253]
  ∧ (parse_char Sample.E s []).1 = Raise (EMAVError (InvalidPrefix 1))
  ∧ Mav.total_receive_errors s' = 1
  ∧ Mav.have_prefix_error s' = true.
Proof.
  intros s s'.
  destruct (garbage_run_costs Sample.E s 1 [2] [253]) as (H1 & H2 & _).
  - unfold cursor_ok, Py.len. simpl. lia.
  - reflexivity.
  - repeat constructor; discriminate.
  - reflexivity.
  - split; [exact H1|]. exact (H2 eq_refl).
Defined.

(** ** From [pack] to the parser *)

(** The frame of a valid message, and what [decode] makes of it in a session
    whose signature step lets it through. *)
Lemma packed_frame_decodes E m cls self mav force :
  valid_env E → valid_schema E m cls force → float_free m →
  valid_message E m self → valid_sender E mav force →
  ∃ p crc tail self' mav',
    let hdr :=
      header_bytes (frames_v2 E force) (Py.len p)
        (if Signing.sign_outgoing (Mav.signing mav) then 1 else 0)
        (Mav.seq mav) (Mav.srcSystem mav) (Mav.srcComponent mav) (Def.id m) in
    let buf := hdr ++ p ++ [crc `mod` 256; crc `div` 256] ++ tail in
    class_pack E cls self mav force = (Ok buf, self', mav')
    ∧ 0 ≤ Py.len p < 256
    ∧ Py.len tail = sent_signature_len E mav force
    ∧ ∀ rx sig_ok rx',
        decode_signature E rx buf (sent_signature_len E mav force)
          (Mav.srcSystem mav) (Mav.srcComponent mav) (Def.id m)
        = (Ok sig_ok, rx') →
        ∃ d, decode E rx buf = (Ok d, rx')
             ∧ __eq__ E d (Some self') = Ok true
             ∧ Msg._msgbuf d = Some buf
             ∧ Msg._signed d = sig_ok.
Proof.
  intros HE [Hwf Hgen Hreg Hid Hextra Hsize] Hint Hm Hsd.
  destruct (message_fields_roundtrip E m cls self HE Hwf Hgen Hint Hm)
    as (payload & Hpay & Hplen & Hdec).
  destruct (generate_inv _ _ _ Hwf Hgen) as (Hdef & _).
  pose proof (vm_msgId E m self Hm) as Hmid.
  destruct (pack_frame E self mav (Def.crc_extra m) payload force HE Hsd)
    as (p & crc & tail & self' & mav' & Hframe);
    [by rewrite Hmid | done | lia |].
  cbv zeta in Hframe. rewrite Hmid in Hframe.
  destruct Hframe as (Hpk & Hpz & Hcrc & Hcrcdef & Htail & Hcrc' & _).
  exists p, crc, tail, self', mav'. cbv zeta.
  destruct (decode_header_packed E mav force (Py.len p) (Def.id m)
              (p ++ [crc `mod` 256; crc `div` 256] ++ tail) Hsd)
    as (h & Hh & Hmagic & Hhl & Hsl & Hmlen & Hseq & Hsys & Hcomp & Hwid);
    [lia|].
  revert Hh Hhl Hpk Hcrcdef.
  set (hdr := header_bytes _ _ _ _ _ _ _).
  set (buf := hdr ++ p ++ [crc `mod` 256; crc `div` 256] ++ tail).
  intros Hh Hhl Hpk Hcrcdef.
  assert (1 ≤ length hdr)%nat as Hhdr.
  { subst hdr. unfold header_bytes. destruct (frames_v2 E force); simpl; lia. }
  destruct (frame_slices hdr p tail (crc `mod` 256) (crc `div` 256)
              (length tail) eq_refl Hhdr) as (Hs1 & Hs2 & Hs3 & Hs4).
  fold buf in Hs1, Hs2, Hs3, Hs4.
  assert (Z.of_nat (length tail) = sent_signature_len E mav force) as Htl
    by exact Htail.
  rewrite Htl in Hs1, Hs2, Hs3, Hs4.
  split. { unfold class_pack. rewrite Hpay, Hdef. exact Hpk. }
  split.
  { assert (length p ≤ length payload)%nat.
    { apply (f_equal length) in Hpz. rewrite length_app in Hpz. lia. }
    unfold Py.len. lia. }
  split; [exact Htail|].
  intros rx sig_ok rx' Hsig.
  destruct (MAVLink_message_pack_payload _ _ _ _ _ _ _ _ _ Hpk)
    as (_ & _ & Hsseq & Hssys & Hscomp & _ & Hsattrs & Hsfn & Hstype).
  destruct (Hdec buf (Z.of_nat (length hdr)) (sent_signature_len E mav force))
    as (d0 & Hd0 & Htype & Hfn & Hattrs); [by rewrite Hs1|].
  destruct (decode_stamp_returns d0 buf h (sent_signature_len E mav force)
              sig_ok crc) as [d Hd].
  { intros ->. apply decode_signature_true in Hsig.
    unfold Py.len in Hs4. rewrite Hsig in Hs4.
    unfold MAVLINK_SIGNATURE_BLOCK_LEN in Hs4. lia. }
  exists d.
  destruct (decode_stamp_payload _ _ _ _ _ _ _ Hd)
    as (_ & Hdcrc & Hdbuf & Hdsig & Hdh & Hdattrs & Hdfn & Hdtype).
  split.
  { apply (decode_run E rx buf h cls crc sig_ok rx' d0 d Hh Hmagic).
    - rewrite Hmlen, Hhl, Hsl, Hs4. lia.
    - by rewrite Hwid.
    - rewrite Hsl, Hwid. unfold decode_checksum.
      rewrite Hs3, unpack_csum, checksum_bytes, Hs2.
      assert (x25crc.new
                (if XML.crc_extra (Env.xml E)
                 then (drop 1 hdr ++ p) ++ [Def.crc_extra (Class.def cls)]
                 else drop 1 hdr ++ p) = crc) as ->.
      { rewrite Hdef, Hcrcdef.
        destruct (XML.crc_extra (Env.xml E));
          by rewrite ?app_nil_r, <- ?app_assoc. }
      by rewrite bool_decide_eq_true_2.
    - by rewrite Hsl, Hsys, Hcomp, Hwid.
    - by rewrite Hhl, Hsl.
    - by rewrite Hsl. }
  split; [|done].
  unfold __eq__.
  rewrite (bool_decide_eq_true_2 (Msg._type d = Msg._type self'))
    by (rewrite Hdtype, Htype, Hstype; symmetry; apply (vm_type E m self Hm)).
  rewrite (bool_decide_eq_true_2 (Header.seq _ = Header.seq _))
    by (by rewrite Hdh, Hsseq).
  rewrite (bool_decide_eq_true_2 (Header.srcSystem _ = Header.srcSystem _))
    by (by rewrite Hdh, Hssys).
  rewrite (bool_decide_eq_true_2
             (Header.srcComponent _ = Header.srcComponent _))
    by (by rewrite Hdh, Hscomp).
  cbn [negb]. apply eq_fields_true, Forall_forall. intros a Ha.
  rewrite Hdfn, Hfn, (wf_fieldnames m Hwf) in Ha.
  apply list_elem_of_fmap in Ha as (f & -> & Hf).
  destruct (Hattrs f Hf) as (x & v & Hx & Hv & Hxv).
  exists (format_value E x), (format_value E v). split_and!.
  - apply format_attr_value. by rewrite Hdattrs.
  - apply format_attr_value. by rewrite Hsattrs.
  - rewrite Hxv. apply pyval_eqb_refl.
    destruct (vm_values E m self Hm f Hf) as (v' & Hv' & Hvalid).
    assert (v' = v) as -> by congruence.
    destruct (proj1 (Forall_forall _ _) Hint f Hf) as [Hfl Hdb].
    by eapply valid_value_nan_free.
Qed.

(** The parser with a frame header at the cursor. *)
Lemma parse_char_legacy_header E s b0 b1 b2 rest :
  cursor_ok s → unread s = b0 :: b1 :: b2 :: rest →
  b0 = PROTOCOL_MARKER_V1 ∨ b0 = PROTOCOL_MARKER_V2 →
  let hl := if bool_decide (b0 = PROTOCOL_MARKER_V2)
            then HEADER_LEN_V2 else HEADER_LEN_V1 in
  let total :=
    (if bool_decide (b0 = PROTOCOL_MARKER_V2)
        && negb (bool_decide (Z.land b2 MAVLINK_IFLAG_SIGNED = 0))
     then b1 + MAVLINK_SIGNATURE_BLOCK_LEN else b1) + (hl + 2) in
  let s2 :=
    Mav.set_expected_length total (Mav.set_have_prefix_error false s) in
  parse_char_legacy E s
  = if (hl + 2 <=? total) && (total <=? buf_len s)
    then parse_frame E s2 hl (Some (b0, b2)) else (Ok None, s2).
Proof.
  intros Hc Hun Hb0. cbv zeta. unfold parse_char_legacy.
  change (buf_len (Mav.set_have_prefix_error false s)) with (buf_len s).
  rewrite (index_unread s Hc), (buf_len_unread s Hc), Hun. cbn [head].
  assert ((1 <=? Py.len (b0 :: b1 :: b2 :: rest)) = true) as ->
    by (apply Z.leb_le; unfold Py.len; cbn [length]; lia).
  assert ((3 <=? Py.len (b0 :: b1 :: b2 :: rest)) = true) as ->
    by (apply Z.leb_le; unfold Py.len; cbn [length]; lia).
  cbn [andb]. rewrite (bool_decide_eq_false_2 (Some b0 = None)) by done.
  assert (negb (bool_decide (Some b0 = Some PROTOCOL_MARKER_V1))
          && negb (bool_decide (Some b0 = Some PROTOCOL_MARKER_V2)) = false)
    as ->.
  { destruct Hb0 as [-> | ->]; by vm_compute. }
  assert (bool_decide (Some b0 = Some PROTOCOL_MARKER_V2)
          = bool_decide (b0 = PROTOCOL_MARKER_V2)) as ->.
  { apply bool_decide_ext. split; [by intros [= ->] | by intros ->]. }
  set (s0 := Mav.set_have_prefix_error false s).
  assert (cursor_ok s0) as Hc0 by done.
  replace (3 + Mav.buf_index s0) with (Mav.buf_index s0 + 3) by lia.
  rewrite (slice_unread s0 3 Hc0) by lia.
  change (unread s0) with (unread s). rewrite Hun.
  change (Z.to_nat 3) with 3%nat. cbn [take]. rewrite unpack_h3.
  cbv beta iota zeta.
  set (s2 := Mav.set_expected_length _ s0).
  change (buf_len s2) with (buf_len s).
  rewrite (buf_len_unread s Hc), Hun. reflexivity.
Qed.

Lemma parse_frame_decoded E s hl magic flags d s' :
  (magic = PROTOCOL_MARKER_V2 → Z.land flags (Z.lnot MAVLINK_IFLAG_SIGNED) = 0) →
  decode E
    (Mav.set_expected_length (hl + 2)
       (Mav.set_buf_index (Mav.buf_index s + Mav.expected_length s) s))
    (Py.slice (Mav.buf s) (Some (Mav.buf_index s))
       (Some (Mav.buf_index s + Mav.expected_length s))) = (Ok d, s') →
  parse_frame E s hl (Some (magic, flags)) = (Ok (Some d), s').
Proof.
  intros Hflags Hdec. unfold parse_frame.
  assert (bool_decide (magic = PROTOCOL_MARKER_V2)
          && negb (bool_decide (Z.land flags (Z.lnot MAVLINK_IFLAG_SIGNED) = 0))
          = false) as ->.
  { case_bool_decide as Hm; [|done].
    by rewrite (bool_decide_eq_true_2 _ (Hflags Hm)). }
  rewrite Hdec. by destruct (Mav.robust_parsing _).
Qed.

Lemma decode_signature_no_key E s msgbuf sl sys comp id :
  Signing.secret_key (Mav.signing s) = None →
  ∃ s', decode_signature E s msgbuf sl sys comp id = (Ok false, s')
        ∧ only_signing_changed s s'.
Proof.
  intros Hkey. unfold decode_signature.
  case_bool_decide;
    cbn [Mav.signing Mav.set_signing Signing.secret_key Signing.set_sig_count];
    rewrite Hkey; eexists; (split; [reflexivity|]); by destruct s.
Qed.

(** X19.  From [pack] to [parse_char].  The frame that [pack] builds for a
    valid message of a definition without [float] and [double] fields (valid:
    integers in the range of their type, lists of [array_length] of them,
    bytes that fit a character field and have NULs at their end only) is a
    frame for the parser: fed in one piece to a session
    that holds no key and has nothing left to read, it is cut at its full
    length and decoded, and [parse_char] returns a message that [__eq__]
    finds equal to the packed one and that carries the frame as its
    [_msgbuf].  Nothing is left to read, the packet counter has moved on by
    one and no receive error is counted. *)
Theorem packed_frame_is_parsed E m cls self mav force rx :
  valid_env E → valid_schema E m cls force → float_free m →
  valid_message E m self → valid_sender E mav force →
  cursor_ok rx → unread rx = [] →
  Signing.secret_key (Mav.signing rx) = None →
  ∃ buf self' mav' d rx',
    class_pack E cls self mav force = (Ok buf, self', mav')
    ∧ parse_char E rx buf = (Ok (Some d), rx')
    ∧ __eq__ E d (Some self') = Ok true
    ∧ Msg._msgbuf d = Some buf
    ∧ Msg._signed d = false
    ∧ unread rx' = []
    ∧ Mav.total_packets_received rx' = Mav.total_packets_received rx + 1
    ∧ Mav.total_receive_errors rx' = Mav.total_receive_errors rx.
Proof.
  intros HE Hs Hint Hm Hsd Hc Hun Hkey.
  destruct (packed_frame_decodes E m cls self mav force HE Hs Hint Hm Hsd)
    as (p & crc & tail & self' & mav' & Hall).
  cbv zeta in Hall. destruct Hall as (Hpack & Hp & Htail & Hdec).
  destruct (decode_header_packed E mav force (Py.len p) (Def.id m)
              (p ++ [crc `mod` 256; crc `div` 256] ++ tail) Hsd)
    as (h & Hh & _ & _ & Hsl & _); [destruct Hs; lia|].
  cbv zeta in Hh.
  revert Hpack Hdec Hh.
  set (flags := if Signing.sign_outgoing (Mav.signing mav) then 1 else 0).
  set (hdr := header_bytes _ _ _ _ _ _ _).
  set (buf := hdr ++ p ++ [crc `mod` 256; crc `div` 256] ++ tail).
  intros Hpack Hdec Hh.
  exists buf, self', mav'.
  (* the frame at the cursor *)
  unfold parse_char.
  set (s1 := Mav.set_total_bytes_received _ _).
  assert (cursor_ok s1) as Hc1.
  { destruct Hc as [Hlo Hhi]. unfold cursor_ok, Py.len in *. subst s1. cbn.
    rewrite length_app. lia. }
  assert (unread s1 = buf) as Hun1.
  { unfold unread in *. subst s1. cbn [Mav.buf Mav.buf_index Mav.set_buf
      Mav.set_total_bytes_received].
    destruct Hc as [Hlo Hhi]. unfold Py.len in Hhi.
    rewrite drop_app_le by lia. by rewrite Hun. }
  assert (0 ≤ flags ≤ 1) as Hflags
    by (subst flags; destruct (Signing.sign_outgoing _); lia).
  assert (∃ b0 b1 b2 rest,
            buf = b0 :: b1 :: b2 :: rest
            ∧ (b0 = PROTOCOL_MARKER_V1 ∨ b0 = PROTOCOL_MARKER_V2)
            ∧ (b0 = PROTOCOL_MARKER_V2 → b2 = flags)
            ∧ (if bool_decide (b0 = PROTOCOL_MARKER_V2)
                  && negb (bool_decide (Z.land b2 MAVLINK_IFLAG_SIGNED = 0))
               then b1 + MAVLINK_SIGNATURE_BLOCK_LEN else b1)
              + ((if bool_decide (b0 = PROTOCOL_MARKER_V2)
                  then HEADER_LEN_V2 else HEADER_LEN_V1) + 2)
              = Py.len buf)
    as (b0 & b1 & b2 & rest & Hbuf & Hb0 & Hb2 & Htotal).
  { subst buf hdr. unfold header_bytes in *.
    destruct (frames_v2 E force) eqn:Hv2; cbn [app] in *.
    - eexists _, _, _, _. split; [reflexivity|]. split; [by right|].
      split; [done|].
      rewrite bool_decide_eq_true_2 by done. cbn [andb].
      rewrite decode_header_v2 in Hh by done. injection Hh as <-.
      unfold signature_len_of in Hsl. cbn [w_incompat_flags] in Hsl.
      unfold Py.len in *. cbn [length]. rewrite !length_app. cbn [length].
      unfold HEADER_LEN_V2.
      destruct (negb (bool_decide (Z.land flags MAVLINK_IFLAG_SIGNED = 0)));
        lia.
    - eexists _, _, _, _. split; [reflexivity|]. split; [by left|].
      split; [done|].
      rewrite bool_decide_eq_false_2 by done. cbn [andb].
      rewrite decode_header_v1 in Hh. injection Hh as <-.
      unfold signature_len_of in Hsl. cbn [w_incompat_flags] in Hsl.
      rewrite Z.land_0_l, bool_decide_eq_true_2 in Hsl by done.
      cbn [negb] in Hsl.
      unfold Py.len in *. cbn [length]. rewrite !length_app. cbn [length].
      unfold HEADER_LEN_V1. lia. }
  rewrite Hbuf in Hun1.
  rewrite (parse_char_legacy_header E s1 b0 b1 b2 rest Hc1 Hun1 Hb0).
  rewrite Htotal. rewrite (buf_len_unread s1 Hc1), Hun1, <- Hbuf.
  assert ((((if bool_decide (b0 = PROTOCOL_MARKER_V2)
             then HEADER_LEN_V2 else HEADER_LEN_V1) + 2 <=? Py.len buf)
           && (Py.len buf <=? Py.len buf)) = true) as ->.
  { apply andb_true_intro. split; [|apply Z.leb_refl].
    apply Z.leb_le. rewrite <- Htotal.
    unfold MAVLINK_SIGNATURE_BLOCK_LEN. subst buf hdr.
    assert (b1 = Py.len p) as ->.
    { unfold header_bytes in Hbuf. destruct (frames_v2 E force);
        cbn [app] in Hbuf; by injection Hbuf as _ <- _. }
    destruct (_ && _); lia. }
  set (s2 := Mav.set_expected_length (Py.len buf) _).
  assert (cursor_ok s2) as Hc2 by exact Hc1.
  assert (unread s2 = buf) as Hun2 by (by rewrite Hbuf, <- Hun1).
  set (hl := if bool_decide (b0 = PROTOCOL_MARKER_V2)
             then HEADER_LEN_V2 else HEADER_LEN_V1).
  set (s3 := Mav.set_expected_length (hl + 2)
               (Mav.set_buf_index (Mav.buf_index s2 + Mav.expected_length s2)
                  s2)).
  destruct (decode_signature_no_key E s3 buf (sent_signature_len E mav force)
              (Mav.srcSystem mav) (Mav.srcComponent mav) (Def.id m))
    as (rx2 & Hsig & Hosc); [exact Hkey|].
  destruct (Hdec s3 false rx2 Hsig) as (d & Hd & Heq & Hmb & Hsigned).
  rewrite (parse_frame_decoded E s2 hl b0 b2 d rx2).
  2:{ intros Hv2. rewrite (Hb2 Hv2). unfold MAVLINK_IFLAG_SIGNED.
      assert (flags = 0 ∨ flags = 1) as [-> | ->] by lia; reflexivity. }
  2:{ fold s3. rewrite (slice_unread s2 _ Hc2)
        by (change (Mav.expected_length s2) with (Py.len buf);
            unfold Py.len; lia).
      rewrite Hun2. change (Mav.expected_length s2) with (Py.len buf).
      unfold Py.len. rewrite Nat2Z.id, firstn_all. exact Hd. }
  exists d. eexists. split; [exact Hpack|]. split; [reflexivity|].
  split; [exact Heq|]. split; [exact Hmb|]. split; [exact Hsigned|].
  red in Hosc. rewrite Hosc.
  cbn [Mav.total_packets_received Mav.set_total_packets_received
       Mav.set_signing Mav.total_receive_errors].
  split; [|by split].
  unfold unread. cbn [Mav.buf Mav.buf_index Mav.set_total_packets_received
    Mav.set_signing]. apply drop_ge.
  subst s3 s2 s1. cbn. rewrite length_app.
  destruct Hc as [Hlo Hhi]. unfold unread in Hun.
  apply (f_equal length) in Hun. rewrite length_drop in Hun. cbn in Hun.
  unfold Py.len in *. lia.
Qed.

Lemma packed_frame_is_parsed_witness :
  ∃ buf self' mav' d rx',
    class_pack Sample.E Sample.demo_cls Sample.m0 Sample.mav false
    = (Ok buf, self', mav')
    ∧ parse_char Sample.E Sample.mav buf = (Ok (Some d), rx')
    ∧ __eq__ Sample.E d (Some self') = Ok true
    ∧ Msg._msgbuf d = Some buf
    ∧ Msg._signed d = false
    ∧ unread rx' = []
    ∧ Mav.total_packets_received rx'
      = Mav.total_packets_received Sample.mav + 1
    ∧ Mav.total_receive_errors rx' = Mav.total_receive_errors Sample.mav.
Proof.
  apply (packed_frame_is_parsed Sample.E Sample.demo_def Sample.demo_cls
           Sample.m0 Sample.mav false Sample.mav sample_valid_env
           sample_valid_schema sample_float_free sample_valid_message
           sample_valid_sender).
  - unfold cursor_ok, Py.len. simpl. lia.
  - reflexivity.
  - reflexivity.
Defined.
